(** * bcftools +split (plugins/split.c): a shallow embedding and its properties

    The plugin splits a multi-sample VCF/BCF stream into one output per group
    of samples.  This file embeds the functions of [plugins/split.c]
    ([init_subsets], the tag parser and the output loop of [init_data],
    [rec_set_info], [rec_set_format], [process], [run]) as Rocq functions and
    proves properties of them.

    Conventions of the embedding:
    - C [int]s are [Z]; bit-fields are reduced modulo their width where the
      code stores into them;
    - byte buffers ([kstring_t], [bcf1_t.shared], [bcf1_t.indiv]) are
      [list byte] holding exactly the [l] bytes in use;
    - a pointer into a buffer is the offset from the start of that buffer;
    - C strings are [string]s (the bytes before the terminating NUL);
    - results live in [result]: a value, a fatal [error()] exit, undefined
      behaviour of the C program, or exhaustion of a loop's fuel;
    - the message of a fatal exit is the text that [error()] prints with its
      arguments, without the final newline. *)

From Stdlib Require Import ZArith List String Ascii Bool Lia.
From Stdlib.Strings Require Import Byte.
Import ListNotations.
Local Open Scope string_scope.
Local Open Scope list_scope.
Local Open Scope Z_scope.

(* ================================================================= *)
(** ** Results of fallible code *)

Inductive result (A : Type) : Type :=
| Ok (a : A)              (* normal return *)
| Fatal (msg : string)    (* error(...): message on stderr, exit *)
| Undef                   (* the C program has undefined behaviour here *)
| OutOfFuel.              (* the fuel given to a while-loop ran out *)

Arguments Ok {A} a.
Arguments Fatal {A} msg.
Arguments Undef {A}.
Arguments OutOfFuel {A}.

Definition bind {A B : Type} (m : result A) (k : A -> result B) : result B :=
  match m with
  | Ok a => k a
  | Fatal msg => Fatal msg
  | Undef => Undef
  | OutOfFuel => OutOfFuel
  end.

Notation "'do' x <- m ; k" := (bind m (fun x => k))
  (at level 10, x name, m at level 100, k at level 200).
Notation "'do' ' p <- m ; k" := (bind m (fun x => match x with p => k end))
  (at level 10, p pattern, m at level 100, k at level 200).

(* ================================================================= *)
(** ** C library and memory primitives *)

Definition INT_MAX : Z := 2147483647.
Definition INT_MIN : Z := -2147483648.

(** [isspace] in the C locale. *)
Definition isspace (c : ascii) : bool :=
  let n := nat_of_ascii c in
  (Nat.eqb n 32 || (Nat.leb 9 n && Nat.leb n 13))%bool.

(** [tolower] in the C locale. *)
Definition tolower (c : ascii) : ascii :=
  let n := nat_of_ascii c in
  if (Nat.leb 65 n && Nat.leb n 90)%bool then ascii_of_nat (n + 32) else c.

(** [strncasecmp(a,b,n) == 0]. *)
Fixpoint strncasecmp_eq (a b : string) (n : nat) {struct n} : bool :=
  match n with
  | O => true
  | S k =>
      match a, b with
      | EmptyString, EmptyString => true
      | String x a', String y b' =>
          if Ascii.eqb (tolower x) (tolower y) then strncasecmp_eq a' b' k
          else false
      | _, _ => false
      end
  end.

(** [strcasecmp(a,b) == 0]. *)
Fixpoint strcasecmp_eq (a b : string) : bool :=
  match a, b with
  | EmptyString, EmptyString => true
  | String x a', String y b' =>
      if Ascii.eqb (tolower x) (tolower y) then strcasecmp_eq a' b' else false
  | _, _ => false
  end.

(** [s + n] on a C string that is known to have at least [n] characters. *)
Fixpoint advance (n : nat) (s : string) : string :=
  match n, s with
  | S k, String _ s' => advance k s'
  | _, _ => s
  end.

(** The idiom that moves [end] from [beg] to the next comma or to the
    terminating NUL, remembers that character in [tmp] and overwrites it
    with NUL.  The first component is the C string then found at [beg]; the
    second is the text at [end+1] when [tmp] is a comma, and [None] when
    [tmp] is NUL. *)
Fixpoint scan_comma (s : string) : string * option string :=
  match s with
  | EmptyString => (EmptyString, None)
  | String c s' =>
      if Ascii.eqb c "," then (EmptyString, Some s')
      else let '(tok, rest) := scan_comma s' in (String c tok, rest)
  end.

(** Reading [a[i]] from an array that holds [length a] elements. *)
Definition arr_get {A} (a : list A) (i : Z) : result A :=
  if i <? 0 then Undef
  else match nth_error a (Z.to_nat i) with
       | Some x => Ok x
       | None => Undef
       end.

Fixpoint list_set {A} (a : list A) (n : nat) (x : A) : list A :=
  match a, n with
  | [], _ => []
  | _ :: a', O => x :: a'
  | y :: a', S k => y :: list_set a' k x
  end.

(** Writing [a[i] = x]. *)
Definition arr_set {A} (a : list A) (i : Z) (x : A) : result (list A) :=
  if i <? 0 then Undef
  else if Nat.ltb (Z.to_nat i) (List.length a) then Ok (list_set a (Z.to_nat i) x)
  else Undef.

(** Reading [len] bytes at offset [off] of a buffer, as [kputsn_] does with
    its source argument. *)
Definition mem_read (buf : list byte) (off len : Z) : result (list byte) :=
  if (0 <=? off) && (0 <=? len) && (off + len <=? Z.of_nat (List.length buf))
  then Ok (firstn (Z.to_nat len) (skipn (Z.to_nat off) buf))
  else Undef.

(** [int] multiplication; signed overflow is undefined. *)
Definition int_mul (a b : Z) : result Z :=
  if (INT_MIN <=? a * b) && (a * b <=? INT_MAX) then Ok (a * b) else Undef.

(** [for (i = from; i < from + count; i++) s = body(i, s);] *)
Fixpoint for_loop {S : Type} (count : nat) (i : Z)
         (body : Z -> S -> result S) (s : S) : result S :=
  match count with
  | O => Ok s
  | Datatypes.S k => do s' <- body i s; for_loop k (i + 1) body s'
  end.

(** [for (i = 0; i < n; i++) s = body(i, s);] *)
Definition for_range {S : Type} (n : Z) (body : Z -> S -> result S) (s : S)
  : result S :=
  for_loop (Z.to_nat n) 0 body s.

(* ================================================================= *)
(** ** htslib data, as far as the plugin touches it *)

Definition BCF_UN_FMT : Z := 8.

(** One entry of the header's [BCF_DT_ID] dictionary: the key and whether
    an INFO, respectively a FORMAT, declaration with that ID exists. *)
Record hdr_id_t := {
  id_key : string;
  id_is_info : bool;
  id_is_fmt : bool
}.

Record bcf_hdr_t := {
  hdr_ids : list hdr_id_t;       (* dictionary BCF_DT_ID, by numeric id *)
  hdr_samples : list string      (* hdr->samples, by sample index *)
}.

Definition bcf_hdr_nsamples (h : bcf_hdr_t) : Z :=
  Z.of_nat (List.length (hdr_samples h)).

Fixpoint index_from {A} (p : A -> bool) (l : list A) (i : Z) : Z :=
  match l with
  | [] => -1
  | x :: l' => if p x then i else index_from p l' (i + 1)
  end.

(** [bcf_hdr_id2int(h, BCF_DT_ID, name)]: the numeric id, or -1. *)
Definition bcf_hdr_id2int_ID (h : bcf_hdr_t) (name : string) : Z :=
  index_from (fun e => String.eqb (id_key e) name) (hdr_ids h) 0.

(** [bcf_hdr_id2int(h, BCF_DT_SAMPLE, name)]: the sample index, or -1. *)
Definition bcf_hdr_id2int_SAMPLE (h : bcf_hdr_t) (name : string) : Z :=
  index_from (fun s => String.eqb s name) (hdr_samples h) 0.

Inductive hl_type := BCF_HL_INFO | BCF_HL_FMT.

(** The macro [bcf_hdr_idinfo_exists(h, type, id)]:
    [((id)<0 || bcf_hdr_id2coltype(h,type,id)==0xf ? 0 : 1)]. *)
Definition bcf_hdr_idinfo_exists (h : bcf_hdr_t) (t : hl_type) (id : Z) : bool :=
  if id <? 0 then false
  else match nth_error (hdr_ids h) (Z.to_nat id) with
       | Some e => match t with
                   | BCF_HL_INFO => id_is_info e
                   | BCF_HL_FMT => id_is_fmt e
                   end
       | None => false
       end.

(** [bcf_info_t]; [vptr] is the offset of the value bytes in [shared.s]. *)
Record bcf_info_t := {
  key : Z;
  vptr : Z;
  vptr_len : Z;
  vptr_off : Z
}.

(** [bcf_fmt_t]; [p] is the offset of the first sample's bytes in
    [indiv.s]. *)
Record bcf_fmt_t := {
  id : Z;
  n : Z;
  size : Z;
  type : Z;
  p : Z
}.

(** [bcf1_t] with the decoded arrays [d.info] and [d.fmt]. *)
Record bcf1_t := {
  pos : Z;
  rlen : Z;
  rid : Z;
  qual : Z;                      (* the float, as its bit pattern *)
  n_info : Z;                    (* uint32_t n_info:16 *)
  n_allele : Z;                  (* uint32_t n_allele:16 *)
  n_fmt : Z;                     (* uint32_t n_fmt:8 *)
  n_sample : Z;                  (* uint32_t n_sample:24 *)
  shared : list byte;
  indiv : list byte;
  d_info : list bcf_info_t;
  d_fmt : list bcf_fmt_t;
  unpacked : Z;
  unpack_size0 : Z;              (* unpack_size[0]: ID *)
  unpack_size1 : Z;              (* unpack_size[1]: REF+ALT *)
  unpack_size2 : Z               (* unpack_size[2]: FILTER *)
}.

(** [bcf_init1()]: a zeroed record. *)
Definition bcf_init1 : bcf1_t :=
  {| pos := 0; rlen := 0; rid := 0; qual := 0;
     n_info := 0; n_allele := 0; n_fmt := 0; n_sample := 0;
     shared := []; indiv := []; d_info := []; d_fmt := [];
     unpacked := 0; unpack_size0 := 0; unpack_size1 := 0; unpack_size2 := 0 |}.

(* ================================================================= *)
(** ** The plugin's own data *)

Definition FLT_INCLUDE : Z := 1.
Definition FLT_EXCLUDE : Z := 2.

(** A compiled filter expression (filter.h) is what [filter_test] computes
    with it on a record; it was compiled against the group's header by
    [filter_init].  [filter_test] may unpack the record it is given, which
    sets bits of [unpacked] and nothing else of what is modelled here. *)
Definition filter_t := bcf1_t -> Z.

(** An output file handle, the [htsFile*] that [hts_open] returns: the path
    it was opened on and the records handed to [bcf_write] through it so
    far, in order.  Every call of [hts_open] returns a handle of its own,
    also when two groups have the same path; what the file at a path then
    holds is [file_at] below. *)
Record htsFile := {
  fn : string;
  written : list bcf1_t
}.

Record subset_t := {
  rename : option (list (option string));   (* NULL, or nsmpl pointers *)
  nsmpl : Z;
  smpl : list Z;                            (* the calloc'ed index array *)
  fh : option htsFile;
  fname : string;
  filter : option filter_t;
  hdr_out_samples : list (option string)    (* hdr->samples of the output *)
}.

Record args_t := {
  filter_str : option string;
  filter_logic : Z;
  info_tags : list Z;            (* minfo_tags bytes, NULL when empty *)
  fmt_tags : list Z;             (* mfmt_tags bytes, NULL when empty *)
  ninfo_tags : Z;
  minfo_tags : Z;
  nfmt_tags : Z;
  mfmt_tags : Z;
  keep_info : Z;
  keep_fmt : Z;
  output_type : Z;
  fname_in : option string;      (* args->fname *)
  output_dir : option string;
  keep_tags : option string;
  samples_fname : option string;
  hdr_in : bcf_hdr_t;
  sets : list subset_t           (* args->sets[0 .. nsets-1] *)
}.

Definition nsets (args : args_t) : Z := Z.of_nat (List.length (sets args)).

(** Storing into a bit-field of [w] bits. *)
Definition bitfield (w : Z) (x : Z) : Z := x mod 2 ^ w.

Definition set_n_sample (r : bcf1_t) (v : Z) : bcf1_t :=
  {| pos := pos r; rlen := rlen r; rid := rid r; qual := qual r;
     n_info := n_info r; n_allele := n_allele r; n_fmt := n_fmt r;
     n_sample := bitfield 24 v;
     shared := shared r; indiv := indiv r; d_info := d_info r; d_fmt := d_fmt r;
     unpacked := unpacked r; unpack_size0 := unpack_size0 r;
     unpack_size1 := unpack_size1 r; unpack_size2 := unpack_size2 r |}.

Definition set_shared (r : bcf1_t) (ninfo : Z) (s : list byte) : bcf1_t :=
  {| pos := pos r; rlen := rlen r; rid := rid r; qual := qual r;
     n_info := ninfo; n_allele := n_allele r; n_fmt := n_fmt r;
     n_sample := n_sample r;
     shared := s; indiv := indiv r; d_info := d_info r; d_fmt := d_fmt r;
     unpacked := unpacked r; unpack_size0 := unpack_size0 r;
     unpack_size1 := unpack_size1 r; unpack_size2 := unpack_size2 r |}.

Definition set_indiv (r : bcf1_t) (nfmt : Z) (s : list byte) : bcf1_t :=
  {| pos := pos r; rlen := rlen r; rid := rid r; qual := qual r;
     n_info := n_info r; n_allele := n_allele r; n_fmt := nfmt;
     n_sample := n_sample r;
     shared := shared r; indiv := s; d_info := d_info r; d_fmt := d_fmt r;
     unpacked := unpacked r; unpack_size0 := unpack_size0 r;
     unpack_size1 := unpack_size1 r; unpack_size2 := unpack_size2 r |}.

Definition set_unpacked (r : bcf1_t) (u : Z) : bcf1_t :=
  {| pos := pos r; rlen := rlen r; rid := rid r; qual := qual r;
     n_info := n_info r; n_allele := n_allele r; n_fmt := n_fmt r;
     n_sample := n_sample r;
     shared := shared r; indiv := indiv r; d_info := d_info r; d_fmt := d_fmt r;
     unpacked := u; unpack_size0 := unpack_size0 r;
     unpack_size1 := unpack_size1 r; unpack_size2 := unpack_size2 r |}.

(* ================================================================= *)
(** ** The record transcoder: [rec_set_info] and [rec_set_format] *)

(** What the loop of [rec_set_info] does with the field [info]; the state is
    the buffer [tmp] and [out->n_info]. *)
Definition info_field (args : args_t) (rec : bcf1_t) (info : bcf_info_t)
           (st : list byte * Z) : result (list byte * Z) :=
  let '(tmp, ninfo) := st in
  let id := key info in
  do t <- arr_get (info_tags args) id;
  if t =? 0 then Ok (tmp, ninfo)
  else
    do unit <- mem_read (shared rec) (vptr info - vptr_off info)
                        ((vptr_len info + vptr_off info) mod 2 ^ 32);
    Ok (tmp ++ unit, bitfield 16 (ninfo + 1)).

(** Body of the loop over [rec->d.info] in [rec_set_info]. *)
Definition info_body (args : args_t) (rec : bcf1_t) (i : Z)
           (st : list byte * Z) : result (list byte * Z) :=
  do info <- arr_get (d_info rec) i;
  info_field args rec info st.

(** [rec_set_info]; [out] is [None] for the NULL pointer passed for the
    first group. *)
Definition rec_set_info (args : args_t) (set : subset_t) (rec : bcf1_t)
           (out : option bcf1_t) : result bcf1_t :=
  match out with
  | Some out => Ok (set_n_sample out (nsmpl set))
  | None =>
      let out :=
        {| pos := pos rec; rlen := rlen rec; rid := rid rec; qual := qual rec;
           n_info := 0; n_allele := n_allele rec; n_fmt := 0;
           n_sample := bitfield 24 (nsmpl set);
           shared := []; indiv := []; d_info := []; d_fmt := [];
           unpacked := 0; unpack_size0 := 0; unpack_size1 := 0;
           unpack_size2 := 0 |} in
      if negb (keep_info args =? 0) then
        Ok (set_shared out (n_info rec) (shared rec))
      else
        (* build the BCF record *)
        let ptr := 0 in
        do s_id <- mem_read (shared rec) ptr (unpack_size0 rec);
        let ptr := ptr + unpack_size0 rec in
        do s_alleles <- mem_read (shared rec) ptr (unpack_size1 rec);
        let ptr := ptr + unpack_size1 rec in
        do s_filter <- mem_read (shared rec) ptr (unpack_size2 rec);
        let tmp := s_id ++ s_alleles ++ s_filter in
        do st <- (if negb (ninfo_tags args =? 0)
                  then for_range (n_info rec) (info_body args rec)
                                 (tmp, n_info out)
                  else Ok (tmp, n_info out));
        let '(tmp, ninfo) := st in
        Ok (set_unpacked (set_shared out ninfo tmp) 0)
  end.

Section Transcoder.

(** htslib's encoders, as the bytes they append to the buffer:
    [bcf_enc_int1(&s, x)] and [bcf_enc_size(&s, size, type)]. *)
Variable bcf_enc_int1 : Z -> list byte.
Variable bcf_enc_size : Z -> Z -> list byte.

(** The [kputsn_] of the inner loop of [rec_set_format] for the sample
    of index [s]. *)
Definition sample_put (src : bcf1_t) (fmt : bcf_fmt_t) (s : Z)
           (tmp : list byte) : result (list byte) :=
  do off <- int_mul s (size fmt);
  do bytes <- mem_read (indiv src) (p fmt + off) (size fmt);
  Ok (tmp ++ bytes).

(** Body of the inner loop of [rec_set_format], over the group's
    samples. *)
Definition sample_body (set : subset_t) (src : bcf1_t) (fmt : bcf_fmt_t)
           (j : Z) (tmp : list byte) : result (list byte) :=
  do s <- arr_get (smpl set) j;
  sample_put src fmt s tmp.

(** What the outer loop of [rec_set_format] does with the field [fmt];
    the state is the buffer [tmp] and [dst->n_fmt]. *)
Definition fmt_field (args : args_t) (set : subset_t) (src : bcf1_t)
           (fmt : bcf_fmt_t) (st : list byte * Z)
  : result (list byte * Z) :=
  let '(tmp, nfmt) := st in
  let id := id fmt in
  do skip <- (if keep_fmt args =? 0 then
                if id >=? nfmt_tags args then Ok true
                else do t <- arr_get (fmt_tags args) id; Ok (t =? 0)
              else Ok false);
  if skip : bool then Ok (tmp, nfmt)
  else
    let tmp := tmp ++ bcf_enc_int1 id in
    let tmp := tmp ++ bcf_enc_size (n fmt) (type fmt) in
    do tmp <- for_range (nsmpl set) (sample_body set src fmt) tmp;
    Ok (tmp, bitfield 8 (nfmt + 1)).

(** Body of the outer loop of [rec_set_format]. *)
Definition fmt_body (args : args_t) (set : subset_t) (src : bcf1_t)
           (i : Z) (st : list byte * Z) : result (list byte * Z) :=
  do fmt <- arr_get (d_fmt src) i;
  fmt_field args set src fmt st.

(** [rec_set_format]: the per-sample block of [dst] for the group. *)
Definition rec_set_format (args : args_t) (set : subset_t) (src : bcf1_t)
           (dst : bcf1_t) : result bcf1_t :=
  let dst := set_unpacked dst (Z.land (unpacked dst) (Z.lnot BCF_UN_FMT)) in
  let dst := set_indiv dst 0 (indiv dst) in
  let tmp := @nil byte in                       (* tmp = dst->indiv; tmp.l = 0 *)
  do st <- for_range (n_fmt src) (fmt_body args set src) (tmp, n_fmt dst);
  let '(tmp, nfmt) := st in
  Ok (set_indiv dst nfmt tmp).

End Transcoder.

(* ================================================================= *)
(** ** Groups of samples: [init_subsets] *)

Definition set_sets (a : args_t) (s : list subset_t) : args_t :=
  {| filter_str := filter_str a; filter_logic := filter_logic a;
     info_tags := info_tags a; fmt_tags := fmt_tags a;
     ninfo_tags := ninfo_tags a; minfo_tags := minfo_tags a;
     nfmt_tags := nfmt_tags a; mfmt_tags := mfmt_tags a;
     keep_info := keep_info a; keep_fmt := keep_fmt a;
     output_type := output_type a; fname_in := fname_in a;
     output_dir := output_dir a; keep_tags := keep_tags a;
     samples_fname := samples_fname a; hdr_in := hdr_in a; sets := s |}.

(** The first loop over a line of the samples file (the characters up to
    the first unescaped white space go to [str]); returns the characters
    put, [set->nsmpl] and where [ptr] stopped. *)
Fixpoint scan_names (ptr : string) (escaped : bool) (nsmpl : Z) (str : string)
  : string * Z * string :=
  match ptr with
  | EmptyString => (str, nsmpl, ptr)
  | String c ptr' =>
      if (Ascii.eqb c "\" && negb escaped)%bool then
        scan_names ptr' true nsmpl str
      else if (isspace c && negb escaped)%bool then (str, nsmpl, ptr)
      else
        let nsmpl := if Ascii.eqb c "," then nsmpl + 1 else nsmpl in
        scan_names ptr' false nsmpl (str ++ String c "")%string
  end.

(** The loop that resolves the names of the first column; the state is
    [set->smpl], [j] and the names warned about. *)
Fixpoint names_loop (fuel : nat) (hdr : bcf_hdr_t) (beg : string)
         (smpl : list Z) (j : Z) (warn : list string)
  : result (list Z * Z * list string) :=
  match fuel with
  | O => OutOfFuel
  | S fuel' =>
      match beg with
      | EmptyString => Ok (smpl, j, warn)
      | _ =>
          let '(name, rest) := scan_comma beg in
          let idx := bcf_hdr_id2int_SAMPLE hdr name in
          do st <- (if idx >=? 0 then
                      do smpl' <- arr_set smpl j idx; Ok (smpl', j + 1, warn)
                    else Ok (smpl, j, warn ++ [name]));
          let '(smpl, j, warn) := st in
          match rest with
          | None => Ok (smpl, j, warn)
          | Some beg' => names_loop fuel' hdr beg' smpl j warn
          end
      end
  end.

(** The message of line 188 when [files[i]] reads as [shown]. *)
Definition rename_error (shown : string) : string :=
  ("Expected the same number of samples in the first and second column: "
   ++ shown)%string.

(** [files[i]] as the call of [error] at line 188 prints it.  The loop over
    the second column works in the buffer of the line itself ([ptr] of line
    143 points into [files[i]]): line 183 overwrites the comma that ends the
    first new name with NUL, no line restores the comma, and line 188 is
    reached only after a comma.  So the text printed for [%s] ends where
    that comma was.  [line] is the line as read and [ptr] its second
    column. *)
Definition line_shown (line ptr : string) : string :=
  (substring 0 (String.length line - String.length ptr)%nat line
   ++ fst (scan_comma ptr))%string.

(** The loop that stores the names of the second column; the state is
    [set->rename] and [j].  [shown] is what [files[i]] reads as once the
    first turn has been made. *)
Fixpoint rename_loop (fuel : nat) (shown : string) (nsmpl : Z) (beg : string)
         (ren : list (option string)) (j : Z)
  : result (list (option string)) :=
  match fuel with
  | O => OutOfFuel
  | S fuel' =>
      match beg with
      | EmptyString => Ok ren
      | _ =>
          let '(name, rest) := scan_comma beg in
          do ren <- arr_set ren j (Some name);
          let j := j + 1 in
          match rest with
          | None => Ok ren
          | Some beg' =>
              if j >=? nsmpl then Fatal (rename_error shown)
              else rename_loop fuel' shown nsmpl beg' ren j
          end
      end
  end.

Fixpoint skip_spaces (ptr : string) : string :=
  match ptr with
  | String c ptr' => if isspace c then skip_spaces ptr' else ptr
  | EmptyString => ptr
  end.

(** One iteration of the loop over the lines of the samples file.  [str_s]
    is the C string found at [str.s] when the iteration starts ([None] for
    the NULL pointer of the empty [kstring_t]).  Returns the group, if the
    line yields one, the C string left at [str.s], and the warnings. *)
Definition subset_of_line (hdr : bcf_hdr_t) (str_s : option string)
           (line : string)
  : result (option subset_t * option string * list string) :=
  let '(put, nsmpl, ptr) := scan_names line false 1 "" in
  let str_s := match put with EmptyString => str_s | _ => Some put end in
  match str_s with
  | None => Undef
  | Some beg =>
      let smpl := repeat 0 (Z.to_nat nsmpl) in
      do st <- names_loop (S (String.length beg)) hdr beg smpl 0 [];
      let '(smpl, j, warn) := st in
      let str_s := Some (fst (scan_comma beg)) in
      if j =? 0 then Ok (None, str_s, warn)
      else
        let ptr := skip_spaces ptr in
        do rf <-
          match ptr with
          | EmptyString =>
              do i0 <- arr_get smpl 0;
              do nm <- arr_get (hdr_samples hdr) i0;
              Ok (None, nm)
          | _ =>
              let ren := repeat None (Z.to_nat nsmpl) in
              do ren <- rename_loop (S (String.length ptr))
                                    (line_shown line ptr) nsmpl ptr ren 0;
              do r0 <- arr_get ren 0;
              match r0 with
              | Some nm => Ok (Some ren, nm)
              | None => Undef
              end
          end;
        let '(ren, fnm) := rf in
        Ok (Some {| rename := ren; nsmpl := nsmpl; smpl := smpl; fh := None;
                    fname := fnm; filter := None; hdr_out_samples := [] |},
            str_s, warn)
  end.

(** The loop over the lines; [acc] is [args->sets[0 .. nsets-1]]. *)
Fixpoint lines_loop (hdr : bcf_hdr_t) (files : list string)
         (str_s : option string) (acc : list subset_t) (warn : list string)
  : result (list subset_t * list string) :=
  match files with
  | [] => Ok (acc, warn)
  | line :: files' =>
      do r <- subset_of_line hdr str_s line;
      let '(set, str_s, w) := r in
      let acc := match set with Some s => acc ++ [s] | None => acc end in
      lines_loop hdr files' str_s acc (warn ++ w)
  end.

(** Body of the loop that makes one group per sample. *)
Definition single_body (hdr : bcf_hdr_t) (i : Z) (acc : list subset_t)
  : result (list subset_t) :=
  do name <- arr_get (hdr_samples hdr) i;
  Ok (acc ++ [ {| rename := None; nsmpl := 1; smpl := [i]; fh := None;
                  fname := name; filter := None; hdr_out_samples := [] |} ]).

(** [init_subsets]; [readlines] is [hts_readlines] on the file system at
    hand.  Returns the arguments with [sets] filled in and the names warned
    about on stderr. *)
Definition init_subsets (readlines : string -> option (list string))
           (args : args_t) : result (args_t * list string) :=
  let nsmpl := bcf_hdr_nsamples (hdr_in args) in
  match samples_fname args with
  | None =>
      do s <- for_range nsmpl (single_body (hdr_in args)) [];
      Ok (set_sets args s, [])
  | Some path =>
      match readlines path with
      | None | Some [] => Fatal ("Failed to parse " ++ path)%string
      | Some files =>
          do r <- lines_loop (hdr_in args) files None [] [];
          let '(s, warn) := r in
          Ok (set_sets args s, warn)
      end
  end.

(* ================================================================= *)
(** ** The tag selector: the [-k] parser of [init_data] *)

(** klib's [kroundup32]: the next power of two. *)
Definition kroundup32 (x : Z) : Z :=
  let x := x - 1 in
  let x := Z.lor x (Z.shiftr x 1) in
  let x := Z.lor x (Z.shiftr x 2) in
  let x := Z.lor x (Z.shiftr x 4) in
  let x := Z.lor x (Z.shiftr x 8) in
  let x := Z.lor x (Z.shiftr x 16) in
  x + 1.

(** htslib's [hts_expand0(uint8_t, n, m, ptr)]: grow the array to
    [kroundup32(n)] zero-initialised elements when [n > m]. *)
Definition hts_expand0 (n m : Z) (ptr : list Z) : Z * list Z :=
  if n >? m then
    let m' := kroundup32 n in
    (m', ptr ++ repeat 0 (Z.to_nat m' - List.length ptr)%nat)
  else (m, ptr).

Definition set_keep_info (a : args_t) (v : Z) : args_t :=
  {| filter_str := filter_str a; filter_logic := filter_logic a;
     info_tags := info_tags a; fmt_tags := fmt_tags a;
     ninfo_tags := ninfo_tags a; minfo_tags := minfo_tags a;
     nfmt_tags := nfmt_tags a; mfmt_tags := mfmt_tags a;
     keep_info := v; keep_fmt := keep_fmt a;
     output_type := output_type a; fname_in := fname_in a;
     output_dir := output_dir a; keep_tags := keep_tags a;
     samples_fname := samples_fname a; hdr_in := hdr_in a; sets := sets a |}.

Definition set_keep_fmt (a : args_t) (v : Z) : args_t :=
  {| filter_str := filter_str a; filter_logic := filter_logic a;
     info_tags := info_tags a; fmt_tags := fmt_tags a;
     ninfo_tags := ninfo_tags a; minfo_tags := minfo_tags a;
     nfmt_tags := nfmt_tags a; mfmt_tags := mfmt_tags a;
     keep_info := keep_info a; keep_fmt := v;
     output_type := output_type a; fname_in := fname_in a;
     output_dir := output_dir a; keep_tags := keep_tags a;
     samples_fname := samples_fname a; hdr_in := hdr_in a; sets := sets a |}.

Definition set_info_tags (a : args_t) (n m : Z) (tab : list Z) : args_t :=
  {| filter_str := filter_str a; filter_logic := filter_logic a;
     info_tags := tab; fmt_tags := fmt_tags a;
     ninfo_tags := n; minfo_tags := m;
     nfmt_tags := nfmt_tags a; mfmt_tags := mfmt_tags a;
     keep_info := keep_info a; keep_fmt := keep_fmt a;
     output_type := output_type a; fname_in := fname_in a;
     output_dir := output_dir a; keep_tags := keep_tags a;
     samples_fname := samples_fname a; hdr_in := hdr_in a; sets := sets a |}.

Definition set_fmt_tags (a : args_t) (n m : Z) (tab : list Z) : args_t :=
  {| filter_str := filter_str a; filter_logic := filter_logic a;
     info_tags := info_tags a; fmt_tags := tab;
     ninfo_tags := ninfo_tags a; minfo_tags := minfo_tags a;
     nfmt_tags := n; mfmt_tags := m;
     keep_info := keep_info a; keep_fmt := keep_fmt a;
     output_type := output_type a; fname_in := fname_in a;
     output_dir := output_dir a; keep_tags := keep_tags a;
     samples_fname := samples_fname a; hdr_in := hdr_in a; sets := sets a |}.

(** The tail of the loop body: the name found at [beg] has numeric id [id];
    record it in the table of the category that is switched on. *)
Definition record_tag (is_info is_fmt : bool) (id : Z) (a : args_t)
  : result args_t :=
  do a <- (if (is_info && bcf_hdr_idinfo_exists (hdr_in a) BCF_HL_INFO id)%bool
           then
             let n := if id >=? ninfo_tags a then id + 1 else ninfo_tags a in
             let '(m, tab) := hts_expand0 n (minfo_tags a) (info_tags a) in
             do tab <- arr_set tab id 1;
             Ok (set_info_tags a n m tab)
           else Ok a);
  if (is_fmt && bcf_hdr_idinfo_exists (hdr_in a) BCF_HL_FMT id)%bool then
    let n := if id >=? nfmt_tags a then id + 1 else nfmt_tags a in
    let '(m, tab) := hts_expand0 n (mfmt_tags a) (fmt_tags a) in
    do tab <- arr_set tab id 1;
    Ok (set_fmt_tags a n m tab)
  else Ok a.

(** The [while ( beg && *beg )] loop over [args->keep_tags]. *)
Fixpoint tags_loop (fuel : nat) (is_info is_fmt : bool) (beg : string)
         (a : args_t) : result args_t :=
  match fuel with
  | O => OutOfFuel
  | S fuel' =>
      let name_at (is_info is_fmt : bool) (beg : string) :=
        let '(name, rest) := scan_comma beg in
        let id := bcf_hdr_id2int_ID (hdr_in a) name in
        let beg := match rest with Some r => r | None => EmptyString end in
        do a <- record_tag is_info is_fmt id a;
        tags_loop fuel' is_info is_fmt beg a in
      match beg with
      | EmptyString => Ok a
      | _ =>
          if strncasecmp_eq "INFO/" beg 5 then
            name_at true false (advance 5 beg)
          else if strcasecmp_eq "INFO" beg then Ok (set_keep_info a 1)
          else if strncasecmp_eq "INFO," beg 5 then
            tags_loop fuel' is_info is_fmt (advance 5 beg) (set_keep_info a 1)
          else if strncasecmp_eq "FMT/" beg 4 then
            name_at false true (advance 4 beg)
          else if strncasecmp_eq "FORMAT/" beg 7 then
            name_at false true (advance 7 beg)
          else if strcasecmp_eq "FMT" beg then Ok (set_keep_fmt a 1)
          else if strcasecmp_eq "FORMAT" beg then Ok (set_keep_fmt a 1)
          else if strncasecmp_eq "FMT," beg 4 then
            tags_loop fuel' is_info is_fmt (advance 4 beg) (set_keep_fmt a 1)
          else if strncasecmp_eq "FORMAT," beg 7 then
            tags_loop fuel' is_info is_fmt (advance 7 beg) (set_keep_fmt a 1)
          else name_at is_info is_fmt beg
      end
  end.

(** Lines 222-252: the loop, started on [args->keep_tags]. *)
Definition parse_tags (a : args_t) : result args_t :=
  match keep_tags a with
  | None => Ok a
  | Some beg => tags_loop (S (String.length beg)) false false beg a
  end.

(** Lines 253-257: the defaults applied after the loop. *)
Definition tag_defaults (a : args_t) : args_t :=
  let a :=
    if (keep_info a =? 0) && (keep_fmt a =? 0) && (ninfo_tags a =? 0)
       && (nfmt_tags a =? 0)
    then set_keep_fmt (set_keep_info a 1) 1
    else a in
  if (keep_fmt a =? 0) && (nfmt_tags a =? 0) then set_keep_fmt a 1 else a.

Definition select_tags (a : args_t) : result args_t :=
  do a <- parse_tags a; Ok (tag_defaults a).

(* ================================================================= *)
(** ** The environment of a run *)

(** What the plugin obtains from the file system, from htslib's readers and
    writers and from the filter compiler. *)
Record world := {
  isatty_stdin : bool;
  (* bcf_sr_add_reader and the records bcf_sr_next_line then yields, the
     region and target restrictions applied *)
  sr_open : string -> option (bcf_hdr_t * list bcf1_t);
  readlines : string -> option (list string);          (* hts_readlines *)
  mkdir_ok : string -> bool;                           (* mkdir_p *)
  open_ok : string -> bool;                            (* hts_open != NULL *)
  hdr_write_ok : string -> bool;                       (* bcf_hdr_write == 0 *)
  write_rc : htsFile -> bcf1_t -> Z;                   (* bcf_write *)
  close_ok : htsFile -> bool;                          (* hts_close == 0 *)
  filter_init : list hdr_id_t -> list (option string) -> string
                -> result filter_t
}.

(* ================================================================= *)
(** ** [init_data] *)

Definition FT_GZ : Z := 1.
Definition FT_VCF : Z := 2.
Definition FT_VCF_GZ : Z := 3.
Definition FT_BCF : Z := 4.
Definition FT_BCF_GZ : Z := 5.

(** Lines 263-286 for one header line: an INFO or FORMAT declaration that
    is not retained is removed from the copy of the header. *)
Definition project_entry (a : args_t) (e : hdr_id_t) : result hdr_id_t :=
  let id := bcf_hdr_id2int_ID (hdr_in a) (id_key e) in
  do rm_info <-
    (if (id_is_info e && ((keep_info a =? 0) || negb (ninfo_tags a =? 0)))%bool
     then
       if keep_info a =? 0 then Ok true
       else if id >=? ninfo_tags a then Ok true
       else do t <- arr_get (info_tags a) id; Ok (t =? 0)
     else Ok false);
  do rm_fmt <-
    (if (id_is_fmt e && negb (nfmt_tags a =? 0))%bool then
       if id >=? nfmt_tags a then Ok true
       else do t <- arr_get (fmt_tags a) id; Ok (t =? 0)
     else Ok false);
  Ok {| id_key := id_key e;
        id_is_info := id_is_info e && negb rm_info;
        id_is_fmt := id_is_fmt e && negb rm_fmt |}.

Fixpoint map_result {A B} (f : A -> result B) (l : list A) : result (list B) :=
  match l with
  | [] => Ok []
  | x :: l' => do y <- f x; do ys <- map_result f l'; Ok (y :: ys)
  end.

(** Lines 259-288: the header shared by all outputs. *)
Definition project_header (a : args_t) : result (list hdr_id_t) :=
  if (keep_info a =? 0) || negb (ninfo_tags a =? 0) || negb (nfmt_tags a =? 0)
  then map_result (project_entry a) (hdr_ids (hdr_in a))
  else Ok (hdr_ids (hdr_in a)).

Fixpoint map_string (f : ascii -> ascii) (s : string) : string :=
  match s with
  | EmptyString => EmptyString
  | String c s' => String (f c) (map_string f s')
  end.

Fixpoint last_char (s : string) : option ascii :=
  match s with
  | EmptyString => None
  | String c EmptyString => Some c
  | String _ s' => last_char s'
  end.

(** Lines 294-302: the path of a group's output file. *)
Definition output_path (a : args_t) (set : subset_t) : result string :=
  match output_dir a with
  | None => Undef
  | Some dir =>
      match last_char dir with
      | None => Undef
      | Some c =>
          let str := if Ascii.eqb c "/" then dir else (dir ++ "/")%string in
          let str :=
            (str ++ map_string (fun c => if isspace c then "_"%char else c)
                               (fname set))%string in
          Ok (if negb (Z.land (output_type a) FT_BCF =? 0)
              then (str ++ ".bcf")%string
              else if negb (Z.land (output_type a) FT_GZ =? 0)
                   then (str ++ ".vcf.gz")%string
                   else (str ++ ".vcf")%string)
      end
  end.

(** Lines 307-308: one sample name of the group's header. *)
Definition hdr_sample_body (a : args_t) (set : subset_t) (j : Z)
           (names : list (option string)) : result (list (option string)) :=
  do v <- match rename set with
          | Some ren => arr_get ren j
          | None =>
              do s <- arr_get (smpl set) j;
              do nm <- arr_get (hdr_samples (hdr_in a)) s;
              Ok (Some nm)
          end;
  arr_set names j v.

(** Body of the loop of lines 291-312. *)
Definition open_subset (w : world) (a : args_t) (tmp_hdr : list hdr_id_t)
           (set : subset_t) : result subset_t :=
  do path <- output_path a set;
  if negb (open_ok w path) then
    Fatal ("[init_data] Error: cannot write to " ++ path)%string
  else
    do names <- for_range (nsmpl set) (hdr_sample_body a set)
                          (map Some (hdr_samples (hdr_in a)));
    let names := firstn (Z.to_nat (nsmpl set)) names in
    if negb (hdr_write_ok w path) then
      Fatal ("[init_data] Error: cannot write the header to " ++ path)%string
    else
      do flt <- match filter_str a with
                | Some e => do f <- filter_init w tmp_hdr names e; Ok (Some f)
                | None => Ok (filter set)
                end;
      Ok {| rename := rename set; nsmpl := nsmpl set; smpl := smpl set;
            fh := Some {| fn := path; written := [] |};
            fname := fname set; filter := flt; hdr_out_samples := names |}.

Definition set_hdr_in (a : args_t) (h : bcf_hdr_t) : args_t :=
  {| filter_str := filter_str a; filter_logic := filter_logic a;
     info_tags := info_tags a; fmt_tags := fmt_tags a;
     ninfo_tags := ninfo_tags a; minfo_tags := minfo_tags a;
     nfmt_tags := nfmt_tags a; mfmt_tags := mfmt_tags a;
     keep_info := keep_info a; keep_fmt := keep_fmt a;
     output_type := output_type a; fname_in := fname_in a;
     output_dir := output_dir a; keep_tags := keep_tags a;
     samples_fname := samples_fname a; hdr_in := h; sets := sets a |}.

(** [init_data]: returns the arguments, the records of the stream and the
    warnings printed.  The set-up of the reader (lines 205-213) is the
    environment's [sr_open]: it fails, or delivers the header of the input
    and the records that the region and target options leave. *)
Definition init_data (w : world) (args : args_t)
  : result (args_t * list bcf1_t * list string) :=
  match fname_in args, output_dir args with
  | Some path, Some dir =>
      match sr_open w path with
      | None => Fatal "Error: failed to open the input"
      | Some (hdr, recs) =>
          let args := set_hdr_in args hdr in
          if negb (mkdir_ok w (dir ++ "/")%string) then
            Fatal "mkdir_p failed"
          else if bcf_hdr_nsamples hdr =? 0 then
            Fatal ("No samples to split: " ++ path)%string
          else
            do r <- init_subsets (readlines w) args;
            let '(args, warn) := r in
            do args <- select_tags args;
            do tmp_hdr <- project_header args;
            do s <- map_result (open_subset w args tmp_hdr) (sets args);
            Ok (set_sets args s, recs, warn)
      end
  | _, _ => Undef
  end.

(* ================================================================= *)
(** ** [process] and [run] *)

Definition set_fh (s : subset_t) (f : htsFile) : subset_t :=
  {| rename := rename s; nsmpl := nsmpl s; smpl := smpl s; fh := Some f;
     fname := fname s; filter := filter s;
     hdr_out_samples := hdr_out_samples s |}.

Definition write_error : string := "[process] Error: failed to write the record".

(** [bcf_write(set->fh, set->hdr, out)] followed by the test of its
    result. *)
Definition bcf_write (w : world) (set : subset_t) (out : bcf1_t)
  : result subset_t :=
  match fh set with
  | None => Undef
  | Some f =>
      if write_rc w f out =? 0
      then Ok (set_fh set {| fn := fn f; written := written f ++ [out] |})
      else Fatal write_error
  end.

(** Lines 426-431: the value of [pass] for the record [out]. *)
Definition pass_of (args : args_t) (set : subset_t) (out : bcf1_t) : Z :=
  let pass := 1 in
  match filter set with
  | Some flt =>
      let pass := flt out in
      if negb (Z.land (filter_logic args) FLT_EXCLUDE =? 0)
      then (if negb (pass =? 0) then 0 else 1)
      else pass
  | None => pass
  end.

Section Process.

Variable bcf_enc_int1 : Z -> list byte.
Variable bcf_enc_size : Z -> Z -> list byte.
Variable w : world.

(** Lines 423-424. *)
Definition transcode (args : args_t) (set : subset_t) (rec : bcf1_t)
           (out : option bcf1_t) : result bcf1_t :=
  do out <- rec_set_info args set rec out;
  rec_set_format bcf_enc_int1 bcf_enc_size args set rec out.

(** The loop of [process] over the groups still to serve, [out] being the
    scratch record.  Returns how the loop ended and the groups with their
    files as they are then. *)
Fixpoint process_sets (args : args_t) (rec : bcf1_t) (out : option bcf1_t)
         (todo : list subset_t) : result unit * list subset_t :=
  match todo with
  | [] => (Ok tt, [])
  | set :: todo' =>
      match transcode args set rec out with
      | Ok out =>
          if pass_of args set out =? 0 then
            let '(r, rest) := process_sets args rec (Some out) todo' in
            (r, set :: rest)
          else
            match bcf_write w set out with
            | Ok set' =>
                let '(r, rest) := process_sets args rec (Some out) todo' in
                (r, set' :: rest)
            | Fatal msg => (Fatal msg, todo)
            | Undef => (Undef, todo)
            | OutOfFuel => (OutOfFuel, todo)
            end
      | Fatal msg => (Fatal msg, todo)
      | Undef => (Undef, todo)
      | OutOfFuel => (OutOfFuel, todo)
      end
  end.

(** [process] on the record the reader has just delivered. *)
Definition process (args : args_t) (rec : bcf1_t) : result unit * args_t :=
  let '(r, s) := process_sets args rec None (sets args) in
  (r, set_sets args s).

(** The same loop with a new output record for every group. *)
Fixpoint process_sets_fresh (args : args_t) (rec : bcf1_t)
         (todo : list subset_t) : result unit * list subset_t :=
  match todo with
  | [] => (Ok tt, [])
  | set :: todo' =>
      match transcode args set rec None with
      | Ok out =>
          if pass_of args set out =? 0 then
            let '(r, rest) := process_sets_fresh args rec todo' in
            (r, set :: rest)
          else
            match bcf_write w set out with
            | Ok set' =>
                let '(r, rest) := process_sets_fresh args rec todo' in
                (r, set' :: rest)
            | Fatal msg => (Fatal msg, todo)
            | Undef => (Undef, todo)
            | OutOfFuel => (OutOfFuel, todo)
            end
      | Fatal msg => (Fatal msg, todo)
      | Undef => (Undef, todo)
      | OutOfFuel => (OutOfFuel, todo)
      end
  end.

(** [while ( bcf_sr_next_line(args->sr) ) process(args);] with the number
    of records pulled from the reader. *)
Fixpoint stream (args : args_t) (recs : list bcf1_t) (pulled : Z)
  : result unit * args_t * Z :=
  match recs with
  | [] => (Ok tt, args, pulled)
  | rec :: recs' =>
      match process args rec with
      | (Ok _, args') => stream args' recs' (pulled + 1)
      | (err, args') => (err, args', pulled + 1)
      end
  end.

(** The command line after [getopt_long]. *)
Inductive option_t :=
| Opt_k (optarg : string)
| Opt_e (optarg : string)
| Opt_i (optarg : string)
| Opt_T (optarg : string)
| Opt_t (optarg : string)
| Opt_R (optarg : string)
| Opt_S (optarg : string)
| Opt_r (optarg : string)
| Opt_o (optarg : string)
| Opt_O (optarg : string)
| Opt_other.                 (* -v, -h, '?': not handled by the switch *)

Definition usage_error : string := "Usage: bcftools +split [Options]".
Definition polarity_error : string := "Only one of -i or -e can be given.".

Definition args0 : args_t :=
  {| filter_str := None; filter_logic := 0; info_tags := []; fmt_tags := [];
     ninfo_tags := 0; minfo_tags := 0; nfmt_tags := 0; mfmt_tags := 0;
     keep_info := 0; keep_fmt := 0; output_type := FT_VCF;
     fname_in := None; output_dir := None; keep_tags := None;
     samples_fname := None;
     hdr_in := {| hdr_ids := []; hdr_samples := [] |}; sets := [] |}.

Definition set_opts (a : args_t) (flt : option string) (logic : Z)
           (otype : Z) (inp dir tags smp : option string) : args_t :=
  {| filter_str := flt; filter_logic := logic;
     info_tags := info_tags a; fmt_tags := fmt_tags a;
     ninfo_tags := ninfo_tags a; minfo_tags := minfo_tags a;
     nfmt_tags := nfmt_tags a; mfmt_tags := mfmt_tags a;
     keep_info := keep_info a; keep_fmt := keep_fmt a;
     output_type := otype; fname_in := inp;
     output_dir := dir; keep_tags := tags;
     samples_fname := smp; hdr_in := hdr_in a; sets := sets a |}.

(** One turn of the [switch] in the option loop. *)
Definition handle_option (a : args_t) (o : option_t) : result args_t :=
  let upd flt logic otype dir tags smp :=
    Ok (set_opts a flt logic otype (fname_in a) dir tags smp) in
  match o with
  | Opt_k s => upd (filter_str a) (filter_logic a) (output_type a)
                   (output_dir a) (Some s) (samples_fname a)
  | Opt_e s => upd (Some s) (Z.lor (filter_logic a) FLT_EXCLUDE)
                   (output_type a) (output_dir a) (keep_tags a)
                   (samples_fname a)
  | Opt_i s => upd (Some s) (Z.lor (filter_logic a) FLT_INCLUDE)
                   (output_type a) (output_dir a) (keep_tags a)
                   (samples_fname a)
  | Opt_T _ | Opt_t _ | Opt_R _ | Opt_r _ => Ok a
  | Opt_S s => upd (filter_str a) (filter_logic a) (output_type a)
                   (output_dir a) (keep_tags a) (Some s)
  | Opt_o s => upd (filter_str a) (filter_logic a) (output_type a)
                   (Some s) (keep_tags a) (samples_fname a)
  | Opt_O s =>
      match s with
      | String "b" _ => upd (filter_str a) (filter_logic a) FT_BCF_GZ
                            (output_dir a) (keep_tags a) (samples_fname a)
      | String "u" _ => upd (filter_str a) (filter_logic a) FT_BCF
                            (output_dir a) (keep_tags a) (samples_fname a)
      | String "z" _ => upd (filter_str a) (filter_logic a) FT_VCF_GZ
                            (output_dir a) (keep_tags a) (samples_fname a)
      | String "v" _ => upd (filter_str a) (filter_logic a) FT_VCF
                            (output_dir a) (keep_tags a) (samples_fname a)
      | _ => Fatal ("The output type not recognised: " ++ s)%string
      end
  | Opt_other => Fatal usage_error
  end.

Fixpoint handle_options (a : args_t) (opts : list option_t) : result args_t :=
  match opts with
  | [] => Ok a
  | o :: opts' => do a <- handle_option a o; handle_options a opts'
  end.

(** Lines 440-492: everything [run] does before [init_data]; [operands]
    are the arguments left after the options. *)
Definition setup (opts : list option_t) (operands : list string)
  : result args_t :=
  do a <- handle_options args0 opts;
  do a <- match operands with
          | [] => if negb (isatty_stdin w)
                  then Ok (set_opts a (filter_str a) (filter_logic a)
                                    (output_type a) (Some "-")
                                    (output_dir a) (keep_tags a)
                                    (samples_fname a))
                  else Fatal usage_error
          | [path] => Ok (set_opts a (filter_str a) (filter_logic a)
                                   (output_type a) (Some path)
                                   (output_dir a) (keep_tags a)
                                   (samples_fname a))
          | _ => Fatal usage_error
          end;
  match output_dir a with
  | None => Fatal "Missing the -o option"
  | Some _ =>
      if filter_logic a =? Z.lor FLT_EXCLUDE FLT_INCLUDE
      then Fatal polarity_error
      else Ok a
  end.

(** [destroy_data], as far as it can fail: closing the files. *)
Fixpoint close_all (s : list subset_t) : result unit :=
  match s with
  | [] => Ok tt
  | set :: s' =>
      match fh set with
      | None => Undef
      | Some f =>
          if close_ok w f then close_all s'
          else Fatal ("Error: close failed .. " ++ fname set)%string
      end
  end.

(** What a run leaves behind: how it ended, the groups with the records
    written through their handles, and the number of records pulled from
    the reader. *)
Record outcome := {
  status : result unit;
  groups : list subset_t;
  pulled : Z
}.

Definition run (opts : list option_t) (operands : list string) : outcome :=
  match setup opts operands with
  | Ok a =>
      match init_data w a with
      | Ok (a, recs, _) =>
          match stream a recs 0 with
          | (Ok _, a', k) =>
              {| status := close_all (sets a'); groups := sets a';
                 pulled := k |}
          | (Fatal msg, a', k) =>
              {| status := Fatal msg; groups := sets a'; pulled := k |}
          | (Undef, a', k) =>
              {| status := Undef; groups := sets a'; pulled := k |}
          | (OutOfFuel, a', k) =>
              {| status := OutOfFuel; groups := sets a'; pulled := k |}
          end
      | Fatal msg => {| status := Fatal msg; groups := []; pulled := 0 |}
      | Undef => {| status := Undef; groups := []; pulled := 0 |}
      | OutOfFuel => {| status := OutOfFuel; groups := []; pulled := 0 |}
      end
  | Fatal msg => {| status := Fatal msg; groups := []; pulled := 0 |}
  | Undef => {| status := Undef; groups := []; pulled := 0 |}
  | OutOfFuel => {| status := OutOfFuel; groups := []; pulled := 0 |}
  end.

End Process.

(* ================================================================= *)
(** ** Vocabulary of the properties *)

(** A loop over an array, as a fold over its elements. *)
Fixpoint fold_result {A S : Type} (f : A -> S -> result S) (l : list A) (s : S)
  : result S :=
  match l with
  | [] => Ok s
  | x :: l' => do s' <- f x s; fold_result f l' s'
  end.

(** The id is in the explicit table of retained ids. *)
Definition in_table (n : Z) (tab : list Z) (id : Z) : bool :=
  (0 <=? id) && (id <? n) && negb (nth (Z.to_nat id) tab 0 =? 0).

(** A per-sample field is retained: keep-all-sample holds or its id is in
    the per-sample table. *)
Definition fmt_retained (args : args_t) (f : bcf_fmt_t) : bool :=
  negb (keep_fmt args =? 0) || in_table (nfmt_tags args) (fmt_tags args) (id f).

(** The fixed-stride slice of sample [s] in the field [f] of [src]. *)
Definition sample_slice (src : bcf1_t) (f : bcf_fmt_t) (s : Z) : list byte :=
  firstn (Z.to_nat (size f)) (skipn (Z.to_nat (p f + s * size f)) (indiv src)).

(** The per-sample arrays of a decoded record: [n_fmt] fields, each with
    non-negative id and with [n_sample] slices of [size] bytes inside
    [indiv]. *)
Definition fmt_field_ok (src : bcf1_t) (f : bcf_fmt_t) : Prop :=
  0 <= id f /\ 0 <= size f /\ 0 <= p f /\
  p f + n_sample src * size f <= Z.of_nat (List.length (indiv src)) /\
  n_sample src * size f <= INT_MAX.

Definition decoded_fmt (src : bcf1_t) : Prop :=
  n_fmt src = Z.of_nat (List.length (d_fmt src)) /\
  n_fmt src < 2 ^ 8 /\
  Forall (fmt_field_ok src) (d_fmt src).

(** The group's index array has [nsmpl] entries, all of them samples of
    the record. *)
Definition group_in_range (set : subset_t) (src : bcf1_t) : Prop :=
  nsmpl set = Z.of_nat (List.length (smpl set)) /\
  Forall (fun s => 0 <= s < n_sample src) (smpl set).

(** The per-sample table holds at least [nfmt_tags] entries. *)
Definition fmt_table_ok (args : args_t) : Prop :=
  nfmt_tags args <= Z.of_nat (List.length (fmt_tags args)).

Section TranscoderSpec.

Variable bcf_enc_int1 : Z -> list byte.
Variable bcf_enc_size : Z -> Z -> list byte.

(** The header of a per-sample field: id, declared count, element type. *)
Definition fmt_header (f : bcf_fmt_t) : list byte :=
  bcf_enc_int1 (id f) ++ bcf_enc_size (n f) (type f).

(** A retained field in the output: its header, then the slices of the
    group's samples in group order. *)
Definition fmt_unit (set : subset_t) (src : bcf1_t) (f : bcf_fmt_t)
  : list byte :=
  fmt_header f ++ flat_map (sample_slice src f) (smpl set).

Definition per_sample_block (args : args_t) (set : subset_t) (src : bcf1_t)
  : list byte :=
  flat_map (fmt_unit set src) (List.filter (fmt_retained args) (d_fmt src)).

End TranscoderSpec.

(** The group made for the sample of index [i] and name [name] when no
    samples file is given. *)
Definition singleton_group (i : Z) (name : string) : subset_t :=
  {| rename := None; nsmpl := 1; smpl := [i]; fh := None; fname := name;
     filter := None; hdr_out_samples := [] |}.

Fixpoint singleton_groups (names : list string) (i : Z) : list subset_t :=
  match names with
  | [] => []
  | name :: names' => singleton_group i name :: singleton_groups names' (i + 1)
  end.

(* ================================================================= *)
(** ** Concrete data for the examples *)

Module Demo.

Definition byte_of (z : Z) : byte :=
  match Byte.of_N (Z.to_N (z mod 256)) with
  | Some b => b
  | None => x00
  end.

Definition le_bytes (k : nat) (z : Z) : list byte :=
  map (fun i => byte_of (Z.shiftr z (8 * Z.of_nat i))) (seq 0 k).

(** htslib's [bcf_enc_size] (vcf.h). *)
Definition enc_size (size type : Z) : list byte :=
  if size >=? 15 then
    byte_of (Z.lor (Z.shiftl 15 4) type) ::
    (if size >=? 128 then
       if size >=? 32768
       then byte_of (Z.lor (Z.shiftl 1 4) 3) :: le_bytes 4 size
       else byte_of (Z.lor (Z.shiftl 1 4) 2) :: le_bytes 2 size
     else [byte_of (Z.lor (Z.shiftl 1 4) 1); byte_of size])
  else [byte_of (Z.lor (Z.shiftl size 4) type)].

(** htslib's [bcf_enc_int1] (vcf.h). *)
Definition enc_int1 (x : Z) : list byte :=
  if x =? -2147483647 then enc_size 1 1 ++ [byte_of (-127)]
  else if x =? -2147483648 then enc_size 1 1 ++ [byte_of (-128)]
  else if (x <=? 127) && (x >=? -120) then enc_size 1 1 ++ [byte_of x]
  else if (x <=? 32767) && (x >=? -32760) then enc_size 1 2 ++ le_bytes 2 x
  else enc_size 1 3 ++ le_bytes 4 x.

Definition mk_id (k : string) (i f : bool) : hdr_id_t :=
  {| id_key := k; id_is_info := i; id_is_fmt := f |}.

(** A header with samples A, B, C; INFO tags DP, AF, AC; FORMAT tags DP,
    GT, PL. *)
Definition hdr : bcf_hdr_t :=
  {| hdr_ids := [ mk_id "PASS" false false; mk_id "DP" true true;
                  mk_id "AF" true false; mk_id "GT" false true;
                  mk_id "PL" false true; mk_id "AC" true false ];
     hdr_samples := ["A"; "B"; "C"] |}.

(** A record of that header: ID ".", alleles A and C, filter PASS,
    INFO DP=14, AF (a float), AC=1, FORMAT GT (two bytes per sample) and
    DP (one byte per sample). *)
Definition rec : bcf1_t :=
  {| pos := 99; rlen := 1; rid := 0; qual := 1106247680;
     n_info := 3; n_allele := 2; n_fmt := 2; n_sample := 3;
     shared := [x17; x2e;  x17; x41; x17; x43;  x11; x00;
                x11; x01; x11; x0e;
                x11; x02; x15; x00; x00; x00; x3f;
                x11; x05; x11; x01];
     indiv := [x11; x03; x21;  x02; x02;  x02; x04;  x04; x04;
               x11; x01; x11;  x0a;  x14;  x1e];
     d_info := [ {| key := 1; vptr := 11; vptr_len := 1; vptr_off := 3 |};
                 {| key := 2; vptr := 15; vptr_len := 4; vptr_off := 3 |};
                 {| key := 5; vptr := 22; vptr_len := 1; vptr_off := 3 |} ];
     d_fmt := [ {| id := 3; n := 2; size := 2; type := 1; p := 3 |};
                {| id := 1; n := 1; size := 1; type := 1; p := 12 |} ];
     unpacked := 15;
     unpack_size0 := 2; unpack_size1 := 4; unpack_size2 := 2 |}.

(** The arguments after the command line [-o out -k tags -S smp in.bcf]
    has been read and the input has been opened. *)
Definition args (tags smp : option string) : args_t :=
  {| filter_str := None; filter_logic := 0; info_tags := []; fmt_tags := [];
     ninfo_tags := 0; minfo_tags := 0; nfmt_tags := 0; mfmt_tags := 0;
     keep_info := 0; keep_fmt := 0; output_type := FT_VCF;
     fname_in := Some "in.bcf"; output_dir := Some "out"; keep_tags := tags;
     samples_fname := smp; hdr_in := hdr; sets := [] |}.

(** The tag selection of [-k tags] on that header. *)
Definition selected (tags : option string) : args_t :=
  match select_tags (args tags None) with
  | Ok a => a
  | _ => args tags None
  end.

Definition group (idx : list Z) : subset_t :=
  {| rename := None; nsmpl := Z.of_nat (List.length idx); smpl := idx;
     fh := None; fname := "g"; filter := None; hdr_out_samples := [] |}.

(** The compiled form of the filter expression [N_SAMPLES<2]. *)
Definition few_samples : filter_t :=
  fun r => if n_sample r <? 2 then 1 else 0.

(** A group with an open output file and that filter. *)
Definition filtered_group (idx : list Z) : subset_t :=
  {| rename := None; nsmpl := Z.of_nat (List.length idx); smpl := idx;
     fh := Some {| fn := "out/g.vcf"; written := [] |}; fname := "g";
     filter := Some few_samples; hdr_out_samples := [] |}.

(** An environment in which every file operation succeeds; the input
    holds the one record above; [-S] files hold the given lines; a
    filter expression compiles to the test "the record has fewer than
    two samples". *)
Definition env (lines : list string) : world :=
  {| isatty_stdin := true;
     sr_open := fun _ => Some (hdr, [rec]);
     readlines := fun _ => Some lines;
     mkdir_ok := fun _ => true;
     open_ok := fun _ => true;
     hdr_write_ok := fun _ => true;
     write_rc := fun _ _ => 0;
     close_ok := fun _ => true;
     filter_init := fun _ _ _ => Ok few_samples |}.

(** The same environment, except that no record can be written (the
    disk is full). *)
Definition full_disk : world :=
  {| isatty_stdin := true;
     sr_open := fun _ => Some (hdr, [rec]);
     readlines := fun _ => None;
     mkdir_ok := fun _ => true;
     open_ok := fun _ => true;
     hdr_write_ok := fun _ => true;
     write_rc := fun _ _ => -1;
     close_ok := fun _ => true;
     filter_init := fun _ _ _ => Ok (fun _ => 1) |}.

End Demo.

(** A site-level field is in the explicit table of retained ids. *)
Definition info_in_table (args : args_t) (i : bcf_info_t) : bool :=
  negb (nth (Z.to_nat (key i)) (info_tags args) 0 =? 0).

(** The encoded unit of a site-level field: key and type descriptor
    ([vptr_off] bytes) followed by the value ([vptr_len] bytes). *)
Definition info_unit (rec : bcf1_t) (i : bcf_info_t) : list byte :=
  firstn (Z.to_nat (vptr_len i + vptr_off i))
         (skipn (Z.to_nat (vptr i - vptr_off i)) (shared rec)).

(** Identifier, alleles and filters: the first bytes of the site-level
    block. *)
Definition preamble (rec : bcf1_t) : list byte :=
  firstn (Z.to_nat (unpack_size0 rec + unpack_size1 rec + unpack_size2 rec))
         (shared rec).

Definition info_field_ok (rec : bcf1_t) (i : bcf_info_t) : Prop :=
  0 <= vptr_off i <= vptr i /\ 0 <= vptr_len i /\
  vptr i + vptr_len i <= Z.of_nat (List.length (shared rec)) /\
  vptr_len i + vptr_off i < 2 ^ 32.

(** The site-level arrays of a decoded record. *)
Definition decoded_info (rec : bcf1_t) : Prop :=
  n_info rec = Z.of_nat (List.length (d_info rec)) /\
  n_info rec < 2 ^ 16 /\
  0 <= unpack_size0 rec /\ 0 <= unpack_size1 rec /\ 0 <= unpack_size2 rec /\
  unpack_size0 rec + unpack_size1 rec + unpack_size2 rec
    <= Z.of_nat (List.length (shared rec)) /\
  Forall (info_field_ok rec) (d_info rec).

(** Every key of the record indexes an allocated entry of the site-level
    table. *)
Definition keys_in_table (args : args_t) (rec : bcf1_t) : Prop :=
  Forall (fun i => 0 <= key i < Z.of_nat (List.length (info_tags args)))
         (d_info rec).

(** The table [tab] of [m] entries with its high-water mark [n], as the
    parser keeps it: [n] is one more than the largest id recorded. *)
Definition table_ok (n m : Z) (tab : list Z) : Prop :=
  0 <= n <= m /\ Z.of_nat (List.length tab) = m /\
  (0 < n -> nth (Z.to_nat (n - 1)) tab 0 = 1).

Definition tables_ok (a : args_t) : Prop :=
  table_ok (ninfo_tags a) (minfo_tags a) (info_tags a) /\
  table_ok (nfmt_tags a) (mfmt_tags a) (fmt_tags a).

(** The loop over [args->keep_tags] with fuel enough for [beg]. *)
Definition tags_from (is_info is_fmt : bool) (beg : string) (a : args_t)
  : result args_t :=
  tags_loop (S (String.length beg)) is_info is_fmt beg a.

Fixpoint has_comma (s : string) : bool :=
  match s with
  | EmptyString => false
  | String c s' => Ascii.eqb c "," || has_comma s'
  end.

(** A token with a category marker. *)
Definition has_marker (t : string) : bool :=
  strncasecmp_eq "INFO/" t 5 || strncasecmp_eq "FMT/" t 4
  || strncasecmp_eq "FORMAT/" t 7.

(** A token that is a bare category keyword. *)
Definition is_keyword (t : string) : bool :=
  strcasecmp_eq "INFO" t || strcasecmp_eq "FMT" t || strcasecmp_eq "FORMAT" t.

(** A bare name: a non-empty token without comma, marker or keyword. *)
Definition bare_name (t : string) : bool :=
  negb (String.eqb t "") && negb (has_comma t) && negb (has_marker t)
  && negb (is_keyword t).

(** The part of the loop body that looks up the name at [beg], followed by
    the rest of the loop. *)
Definition name_step (fuel : nat) (is_info is_fmt : bool) (beg : string)
           (a : args_t) : result args_t :=
  let '(name, rest) := scan_comma beg in
  let id := bcf_hdr_id2int_ID (hdr_in a) name in
  let beg := match rest with Some r => r | None => EmptyString end in
  do a <- record_tag is_info is_fmt id a;
  tags_loop fuel is_info is_fmt beg a.

(** The state of the tag selection when [run] calls [init_data]. *)
Definition no_tags_yet (a : args_t) : Prop :=
  keep_info a = 0 /\ keep_fmt a = 0 /\
  ninfo_tags a = 0 /\ minfo_tags a = 0 /\ info_tags a = [] /\
  nfmt_tags a = 0 /\ mfmt_tags a = 0 /\ fmt_tags a = [].

(** The name found at [beg] (up to the next comma or the end) and the text
    at which the loop goes on after it. *)
Definition first_name (beg : string) : string := fst (scan_comma beg).

Definition after_name (beg : string) : string :=
  match snd (scan_comma beg) with
  | Some r => r
  | None => EmptyString
  end.

(** The number of records written through the group's handle. *)
Definition emitted (s : subset_t) : Z :=
  match fh s with
  | Some f => Z.of_nat (List.length (written f))
  | None => 0
  end.

(** The group without its output file. *)
Definition group_of (s : subset_t) : subset_t :=
  {| rename := rename s; nsmpl := nsmpl s; smpl := smpl s; fh := None;
     fname := fname s; filter := filter s;
     hdr_out_samples := hdr_out_samples s |}.

Section Gate.

Variable bcf_enc_int1 : Z -> list byte.
Variable bcf_enc_size : Z -> Z -> list byte.

(** The record made for the group from [rec] passes the group's filter
    gate. *)
Definition gate_passes (args : args_t) (set : subset_t) (rec : bcf1_t)
  : bool :=
  match transcode bcf_enc_int1 bcf_enc_size args set rec None with
  | Ok out => negb (pass_of args set out =? 0)
  | _ => false
  end.

(** What one record does to one group. *)
Definition served (args : args_t) (rec : bcf1_t) (r : result unit)
           (s s' : subset_t) : Prop :=
  group_of s' = group_of s /\
  emitted s <= emitted s' <= emitted s + 1 /\
  (r = Ok tt ->
   emitted s'
   = emitted s
     + (if gate_passes args s rec then 1 else 0)
   /\ (filter s = None ->
       gate_passes args s rec = true)).

(** What a stream of records does to one group. *)
Definition streamed (args : args_t) (recs : list bcf1_t) (r : result unit)
           (n : Z) (s s' : subset_t) : Prop :=
  group_of s' = group_of s /\
  emitted s <= emitted s' <= emitted s + n /\
  (r = Ok tt ->
   emitted s'
   = emitted s
     + Z.of_nat (List.length
                   (List.filter
                      (gate_passes args s) recs))
   /\ (filter s = None ->
       forallb (gate_passes args s) recs = true)).

End Gate.

Definition is_opt_e (o : option_t) : bool :=
  match o with Opt_e _ => true | _ => false end.

Definition is_opt_i (o : option_t) : bool :=
  match o with Opt_i _ => true | _ => false end.

(* ================================================================= *)
(** ** Vocabulary for the samples file *)

(** A name as it is written in the samples file: every white-space
    character and every backslash is preceded by a backslash. *)
Fixpoint escape_name (s : string) : string :=
  match s with
  | EmptyString => EmptyString
  | String c s' =>
      if (isspace c || Ascii.eqb c "\")%bool
      then String "\" (String c (escape_name s'))
      else String c (escape_name s')
  end.

(** The number of commas of a string. *)
Fixpoint count_commas (s : string) : Z :=
  match s with
  | EmptyString => 0
  | String c s' => (if Ascii.eqb c "," then 1 else 0) + count_commas s'
  end.

(** The text is empty or starts with white space: the first loop over a
    line stops there. *)
Definition column_end (s : string) : Prop :=
  match s with
  | EmptyString => True
  | String c _ => isspace c = true
  end.

(** The first column of a line of the samples file, escapes removed: the
    characters that the first loop over the line puts into [str]. *)
Definition first_column (line : string) : string :=
  fst (fst (scan_names line false 1 "")).

(* ================================================================= *)
(** ** Vocabulary for the tag selection *)

(** Every entry set in the table [tab] lies below the high-water mark [n]
    and is the id of a tag that the header [h] declares in the category
    [t]; set entries hold 1. *)
Definition table_sound (h : bcf_hdr_t) (t : hl_type) (n : Z) (tab : list Z)
  : Prop :=
  forall i, nth i tab 0 <> 0 ->
    Z.of_nat i < n /\ nth i tab 0 = 1 /\
    bcf_hdr_idinfo_exists h t (Z.of_nat i) = true.

(** Names joined by commas, as they are written after [-k]. *)
Fixpoint comma_list (names : list string) : string :=
  match names with
  | [] => EmptyString
  | [t] => t
  | t :: names' => (t ++ String "," (comma_list names'))%string
  end.

(** The category that a marker of the [-k] list switches on. *)
Definition marker_category (m : string) : option hl_type :=
  if String.eqb m "INFO/" then Some BCF_HL_INFO
  else if (String.eqb m "FMT/" || String.eqb m "FORMAT/")%bool
       then Some BCF_HL_FMT
       else None.

(* ================================================================= *)
(** ** Vocabulary for the output header *)

(** The dictionary entry [e] of the input header as the projected header
    holds it: an INFO declaration stays when all site-level fields are kept
    and, if a site-level selection exists, the id is in it; a FORMAT
    declaration stays unless a per-sample selection exists that lacks the
    id. *)
Definition projected (a : args_t) (e : hdr_id_t) : hdr_id_t :=
  let id := bcf_hdr_id2int_ID (hdr_in a) (id_key e) in
  {| id_key := id_key e;
     id_is_info :=
       id_is_info e && negb (keep_info a =? 0)
       && ((ninfo_tags a =? 0) || in_table (ninfo_tags a) (info_tags a) id);
     id_is_fmt :=
       id_is_fmt e
       && ((nfmt_tags a =? 0) || in_table (nfmt_tags a) (fmt_tags a) id) |}.

(* ================================================================= *)
(** ** Vocabulary for the output files *)

(** A group's name as it appears in the path of its file: white space
    replaced by underscores (line 299). *)
Definition underscored (s : string) : string :=
  map_string (fun c => if isspace c then "_"%char else c) s.

Fixpoint has_space (s : string) : bool :=
  match s with
  | EmptyString => false
  | String c s' => isspace c || has_space s'
  end.

(** The suffix that lines 300-302 choose for the output type. *)
Definition extension (otype : Z) : string :=
  if negb (Z.land otype FT_BCF =? 0) then ".bcf"
  else if negb (Z.land otype FT_GZ =? 0) then ".vcf.gz"
  else ".vcf".

(** The output directory with its final slash (lines 295-296). *)
Definition with_slash (dir : string) : string :=
  match last_char dir with
  | Some "/"%char => dir
  | _ => (dir ++ "/")%string
  end.

(* ================================================================= *)
(** ** Vocabulary for the records written *)

(** The arguments with another value of [filter_logic]. *)
Definition with_filter_logic (a : args_t) (v : Z) : args_t :=
  set_opts a (filter_str a) v (output_type a) (fname_in a) (output_dir a)
           (keep_tags a) (samples_fname a).

Section Output.

Variable bcf_enc_int1 : Z -> list byte.
Variable bcf_enc_size : Z -> Z -> list byte.




End Output.

(* ================================================================= *)
(** ** Vocabulary for the command line *)

Definition opt_o (o : option_t) : option string :=
  match o with Opt_o s => Some s | _ => None end.

Definition opt_k (o : option_t) : option string :=
  match o with Opt_k s => Some s | _ => None end.

Definition opt_S (o : option_t) : option string :=
  match o with Opt_S s => Some s | _ => None end.

(** The expression of [-i] or [-e]. *)
Definition opt_filter (o : option_t) : option string :=
  match o with Opt_e s | Opt_i s => Some s | _ => None end.

(** The argument of the last option that [sel] selects, [init] if there
    is none. *)
Definition last_arg (sel : option_t -> option string) (opts : list option_t)
           (init : option string) : option string :=
  fold_left (fun acc o => match sel o with Some s => Some s | None => acc end)
            opts init.

(* ================================================================= *)
(** ** The restrictions of the reader: [-r], [-R], [-t], [-T] *)

(** The fields of [args_t] that only the set-up of the reader uses. *)
Record restrict_t := {
  region : option string;
  region_is_file : Z;
  target : option string;
  target_is_file : Z
}.

(** These fields after [calloc]. *)
Definition restrict0 : restrict_t :=
  {| region := None; region_is_file := 0;
     target := None; target_is_file := 0 |}.

(** The cases [T], [t], [R] and [r] of the switch in the option loop. *)
Definition restrict_option (r : restrict_t) (o : option_t) : restrict_t :=
  match o with
  | Opt_T s => {| region := region r; region_is_file := region_is_file r;
                  target := Some s; target_is_file := 1 |}
  | Opt_t s => {| region := region r; region_is_file := region_is_file r;
                  target := Some s; target_is_file := target_is_file r |}
  | Opt_R s => {| region := Some s; region_is_file := 1;
                  target := target r; target_is_file := target_is_file r |}
  | Opt_r s => {| region := Some s; region_is_file := region_is_file r;
                  target := target r; target_is_file := target_is_file r |}
  | _ => r
  end.

Definition restrict_options (opts : list option_t) : restrict_t :=
  fold_left restrict_option opts restrict0.

(** The synced reader as lines 205-212 leave it: whether it requires an
    index, and the regions and targets handed to it with their file
    flags. *)
Record bcf_srs_t := {
  require_index : Z;
  sr_regions : option (string * Z);
  sr_targets : option (string * Z)
}.

(** htslib's calls of lines 209-212 on the file system at hand. *)
Record sr_env := {
  set_regions : string -> Z -> Z;          (* bcf_sr_set_regions *)
  set_targets : string -> Z -> Z;          (* bcf_sr_set_targets *)
  add_reader : bcf_srs_t -> string -> bool (* bcf_sr_add_reader *)
}.

(** Lines 205-212 of [init_data]. *)
Definition open_reader (e : sr_env) (r : restrict_t) (fname : string)
  : result bcf_srs_t :=
  let sr := {| require_index := 0; sr_regions := None; sr_targets := None |} in
  do sr <- match region r with
           | Some reg =>
               let sr := {| require_index := 1; sr_regions := sr_regions sr;
                            sr_targets := sr_targets sr |} in
               if set_regions e reg (region_is_file r) <? 0
               then Fatal ("Failed to read the regions: " ++ reg)%string
               else Ok {| require_index := require_index sr;
                          sr_regions := Some (reg, region_is_file r);
                          sr_targets := sr_targets sr |}
           | None => Ok sr
           end;
  do sr <- match target r with
           | Some tgt =>
               if set_targets e tgt (target_is_file r) <? 0
               then Fatal ("Failed to read the targets: " ++ tgt)%string
               else Ok {| require_index := require_index sr;
                          sr_regions := sr_regions sr;
                          sr_targets := Some (tgt, target_is_file r) |}
           | None => Ok sr
           end;
  if add_reader e sr fname then Ok sr
  else Fatal "Error: failed to open the input".

Definition opt_region (o : option_t) : option string :=
  match o with Opt_r s | Opt_R s => Some s | _ => None end.

Definition opt_target (o : option_t) : option string :=
  match o with Opt_t s | Opt_T s => Some s | _ => None end.

Definition is_opt_R (o : option_t) : bool :=
  match o with Opt_R _ => true | _ => false end.

Definition is_opt_T (o : option_t) : bool :=
  match o with Opt_T _ => true | _ => false end.

(** The base name of a group's file is a name of its first sample: the
    input's name of the sample at the first index, or the first new name
    when the group has a rename column. *)
Definition named_after_first (h : bcf_hdr_t) (set : subset_t) : Prop :=
  match rename set with
  | None =>
      exists i, nth_error (smpl set) 0 = Some i /\ 0 <= i /\
                nth_error (hdr_samples h) (Z.to_nat i) = Some (fname set)
  | Some ren => nth_error ren 0 = Some (Some (fname set))
  end.

(** The id is in the table of retained ids of the category [t]. *)
Definition tag_selected (t : hl_type) (a : args_t) (id : Z) : bool :=
  match t with
  | BCF_HL_INFO => in_table (ninfo_tags a) (info_tags a) id
  | BCF_HL_FMT => in_table (nfmt_tags a) (fmt_tags a) id
  end.

Definition other_category (t : hl_type) : hl_type :=
  match t with BCF_HL_INFO => BCF_HL_FMT | BCF_HL_FMT => BCF_HL_INFO end.

(** The category flags of the loop while the category [t] is switched
    on. *)
Definition flag_info (t : hl_type) : bool :=
  match t with BCF_HL_INFO => true | BCF_HL_FMT => false end.

Definition flag_fmt (t : hl_type) : bool :=
  match t with BCF_HL_INFO => false | BCF_HL_FMT => true end.

(** The state of the tag selection while the loop runs on the header
    [h]. *)
Definition selection_ok (h : bcf_hdr_t) (a : args_t) : Prop :=
  hdr_in a = h /\ tables_ok a /\
  table_sound h BCF_HL_INFO (ninfo_tags a) (info_tags a) /\
  table_sound h BCF_HL_FMT (nfmt_tags a) (fmt_tags a).

(** A name of the first column that the loop over the names accepts as
    written: it is not empty, holds no comma and is a sample of the
    input. *)
Definition known_name (h : bcf_hdr_t) (n : string) : Prop :=
  n <> "" /\ has_comma n = false /\ 0 <= bcf_hdr_id2int_SAMPLE h n.

(** A name of the second column: not empty and without comma. *)
Definition new_name (n : string) : Prop :=
  n <> "" /\ has_comma n = false.

(** The text does not start with white space. *)
Definition starts_with_name (s : string) : Prop :=
  match s with
  | EmptyString => False
  | String c _ => isspace c = false
  end.

(* ================================================================= *)
(** ** Comma-separated lists *)

(** The texts between the commas of a list, in order.  A comma that ends
    the list is followed by no text: the loops over such lists stop
    there. *)
Fixpoint comma_tokens (s : string) : list string :=
  match s with
  | EmptyString => []
  | String c s' =>
      if Ascii.eqb c "," then EmptyString :: comma_tokens s'
      else match comma_tokens s' with
           | [] => [String c EmptyString]
           | t :: ts => String c t :: ts
           end
  end.

(** The text is white space throughout. *)
Fixpoint only_spaces (s : string) : bool :=
  match s with
  | EmptyString => true
  | String c s' => (isspace c && only_spaces s')%bool
  end.

(** The second column of a line of the samples file: what follows the
    white space after the first column. *)
Definition second_column (line : string) : string :=
  skip_spaces (snd (scan_names line false 1 "")).

(** The names of a list that are samples of the input, and those that
    are not. *)
Definition known_samples (h : bcf_hdr_t) (s : string) : list string :=
  List.filter (fun n => bcf_hdr_id2int_SAMPLE h n >=? 0) (comma_tokens s).

Definition unknown_samples (h : bcf_hdr_t) (s : string) : list string :=
  List.filter (fun n => negb (bcf_hdr_id2int_SAMPLE h n >=? 0))
              (comma_tokens s).

(* ================================================================= *)
(** ** The tokens of a tag specification *)

(** What a token of the [-k] list is: a name with a category marker
    ([INFO/], [FMT/] or [FORMAT/] in any letter case), a bare category
    keyword ([INFO], [FMT] or [FORMAT]), or a bare name. *)
Inductive tag_token :=
| Marked (t : hl_type) (name : string)
| Keyword (t : hl_type)
| Bare (name : string).

(** The kind of the token [tok]; a marker is followed by its name. *)
Definition classify (tok : string) : tag_token :=
  if strncasecmp_eq "INFO/" tok 5 then Marked BCF_HL_INFO (advance 5 tok)
  else if strcasecmp_eq "INFO" tok then Keyword BCF_HL_INFO
  else if strncasecmp_eq "FMT/" tok 4 then Marked BCF_HL_FMT (advance 4 tok)
  else if strncasecmp_eq "FORMAT/" tok 7
       then Marked BCF_HL_FMT (advance 7 tok)
  else if (strcasecmp_eq "FMT" tok || strcasecmp_eq "FORMAT" tok)%bool
       then Keyword BCF_HL_FMT
  else Bare tok.

(** The tokens of a specification, in order. *)
Definition tag_tokens (spec : string) : list tag_token :=
  map classify (comma_tokens spec).

(** The names of a specification, each with the category in which it is to
    be resolved when the category is sticky: a marker sets the category for
    its own name and for the bare names after it, up to the next marker; a
    keyword leaves it as it is; [cat] is the category on entry, [None]
    before any marker. *)
Fixpoint sticky_names (cat : option hl_type) (toks : list tag_token)
  : list (option hl_type * string) :=
  match toks with
  | [] => []
  | Marked t name :: toks' => (Some t, name) :: sticky_names (Some t) toks'
  | Keyword _ :: toks' => sticky_names cat toks'
  | Bare name :: toks' => (cat, name) :: sticky_names cat toks'
  end.

(** The bare keyword of the category [t] occurs among the tokens. *)
Definition has_keyword (t : hl_type) (toks : list tag_token) : bool :=
  existsb (fun k => match k, t with
                    | Keyword BCF_HL_INFO, BCF_HL_INFO => true
                    | Keyword BCF_HL_FMT, BCF_HL_FMT => true
                    | _, _ => false
                    end) toks.

(** The flags [is_info] and [is_fmt] of the loop for a category. *)
Definition cat_info (cat : option hl_type) : bool :=
  match cat with Some t => flag_info t | None => false end.

Definition cat_fmt (cat : option hl_type) : bool :=
  match cat with Some t => flag_fmt t | None => false end.

(** The explicit set of retained ids of the category [t] is not empty. *)
Definition some_selected (t : hl_type) (a : args_t) : Prop :=
  exists id, tag_selected t a id = true.

(** The specification of the arguments, empty when there is none. *)
Definition spec_of (a : args_t) : string :=
  match keep_tags a with Some s => s | None => EmptyString end.

(* ================================================================= *)
(** ** The scratch record of [process] *)

Section Scratch.

Variable bcf_enc_int1 : Z -> list byte.
Variable bcf_enc_size : Z -> Z -> list byte.


End Scratch.

(* ================================================================= *)
(** ** The files on disk *)




(* ================================================================= *)
(** ** Tactics *)

Ltac lower_comma := change (tolower ",") with ","%char.

Ltac str_step :=
  cbn [strncasecmp_eq strcasecmp_eq has_comma String.append String.length];
  lower_comma.

Ltac defaults_cases p :=
  unfold tag_defaults;
  destruct (keep_info p =? 0) eqn:E1, (keep_fmt p =? 0) eqn:E2,
           (ninfo_tags p =? 0) eqn:E3, (nfmt_tags p =? 0) eqn:E4;
  cbn; rewrite ?E2, ?E4; cbn.

(* ================================================================= *)
(** * Properties *)

(** ** Loops over arrays *)

Lemma arr_get_app_mid : forall A (pre l : list A) (x : A),
  arr_get (pre ++ x :: l) (Z.of_nat (List.length pre)) = Ok x.
Proof.
  intros. unfold arr_get.
  destruct (Z.ltb_spec (Z.of_nat (List.length pre)) 0); [lia|].
  rewrite Nat2Z.id, nth_error_app2 by lia.
  now rewrite Nat.sub_diag.
Qed.

Lemma for_loop_arr : forall A S (f : A -> S -> result S) (l pre : list A)
    (body : Z -> S -> result S) (s : S),
  (forall i s, body i s = do x <- arr_get (pre ++ l) i; f x s) ->
  for_loop (List.length l) (Z.of_nat (List.length pre)) body s
  = fold_result f l s.
Proof.
  induction l as [|x l IH]; intros pre body s Hb; simpl; [reflexivity|].
  rewrite Hb, arr_get_app_mid. simpl.
  destruct (f x s) as [s'| | |]; simpl; try reflexivity.
  replace (Z.of_nat (List.length pre) + 1)
    with (Z.of_nat (List.length (pre ++ [x])))
    by (rewrite length_app; simpl; lia).
  apply IH. intros i s0. rewrite Hb, <- app_assoc. reflexivity.
Qed.

Lemma for_range_arr : forall A S (f : A -> S -> result S) (l : list A)
    (body : Z -> S -> result S) (k : Z) (s : S),
  k = Z.of_nat (List.length l) ->
  (forall i s, body i s = do x <- arr_get l i; f x s) ->
  for_range k body s = fold_result f l s.
Proof.
  intros A S f l body k s -> Hb. unfold for_range.
  rewrite Nat2Z.id. apply (for_loop_arr A S f l [] body s Hb).
Qed.

Lemma mem_read_ok : forall buf off len,
  0 <= off -> 0 <= len -> off + len <= Z.of_nat (List.length buf) ->
  mem_read buf off len
  = Ok (firstn (Z.to_nat len) (skipn (Z.to_nat off) buf)).
Proof.
  intros. unfold mem_read.
  destruct (Z.leb_spec 0 off); [|lia].
  destruct (Z.leb_spec 0 len); [|lia].
  destruct (Z.leb_spec (off + len) (Z.of_nat (List.length buf))); [|lia].
  reflexivity.
Qed.

Lemma arr_get_nth : forall A (a : list A) (i : Z) (d : A),
  0 <= i < Z.of_nat (List.length a) ->
  arr_get a i = Ok (nth (Z.to_nat i) a d).
Proof.
  intros A a i d H. unfold arr_get.
  destruct (Z.ltb_spec i 0); [lia|].
  destruct (nth_error a (Z.to_nat i)) eqn:E.
  - now rewrite (nth_error_nth _ _ d E).
  - apply nth_error_None in E. lia.
Qed.

Lemma list_set_length : forall A (a : list A) k x,
  List.length (list_set a k x) = List.length a.
Proof.
  induction a as [|y a IH]; intros [|k] x; simpl; auto.
Qed.

Lemma list_set_nth_same : forall A (a : list A) k x d,
  (k < List.length a)%nat -> nth k (list_set a k x) d = x.
Proof.
  induction a as [|y a IH]; intros [|k] x d H; simpl in *; try lia; auto.
  apply IH. lia.
Qed.

Lemma list_set_nth_other : forall A (a : list A) k j x d,
  j <> k -> nth j (list_set a k x) d = nth j a d.
Proof.
  induction a as [|y a IH]; intros [|k] [|j] x d H; simpl; auto.
  congruence.
Qed.

(** ** The per-sample block *)

Section TranscoderProps.

Variable bcf_enc_int1 : Z -> list byte.
Variable bcf_enc_size : Z -> Z -> list byte.

Lemma sample_put_ok : forall src f s tmp,
  fmt_field_ok src f -> 0 <= s < n_sample src ->
  sample_put src f s tmp = Ok (tmp ++ sample_slice src f s).
Proof.
  intros src f s tmp (Hid & Hsz & Hp & Hin & Hmax) Hs.
  unfold sample_put, int_mul, INT_MIN.
  assert (0 <= s * size f <= n_sample src * size f) by nia.
  assert (s * size f + size f <= n_sample src * size f) by nia.
  destruct (Z.leb_spec (-2147483648) (s * size f)); [|lia].
  destruct (Z.leb_spec (s * size f) INT_MAX); [|lia].
  simpl. rewrite mem_read_ok by lia. reflexivity.
Qed.

Lemma samples_fold : forall src f l tmp,
  fmt_field_ok src f -> Forall (fun s => 0 <= s < n_sample src) l ->
  fold_result (sample_put src f) l tmp
  = Ok (tmp ++ flat_map (sample_slice src f) l).
Proof.
  intros src f l. induction l as [|s l IH]; intros tmp Hf Hl; simpl.
  - now rewrite app_nil_r.
  - inversion Hl; subst. rewrite sample_put_ok by assumption. simpl.
    rewrite IH by assumption. now rewrite app_assoc.
Qed.

Lemma fmt_skip_test : forall args f,
  0 <= id f -> fmt_table_ok args ->
  (if keep_fmt args =? 0 then
     if id f >=? nfmt_tags args then Ok true
     else do t <- arr_get (fmt_tags args) (id f); Ok (t =? 0)
   else Ok false) = Ok (negb (fmt_retained args f)).
Proof.
  intros args f Hid Htab. unfold fmt_retained, in_table, fmt_table_ok in *.
  destruct (keep_fmt args =? 0); simpl; [|reflexivity].
  rewrite Z.geb_leb.
  destruct (Z.leb_spec (nfmt_tags args) (id f)) as [Hge|Hlt].
  - destruct (Z.ltb_spec (id f) (nfmt_tags args)); [lia|].
    now rewrite andb_false_r.
  - destruct (Z.ltb_spec (id f) (nfmt_tags args)); [|lia].
    destruct (Z.leb_spec 0 (id f)); [|lia].
    rewrite (arr_get_nth _ _ _ 0) by lia. simpl.
    now rewrite negb_involutive.
Qed.

Lemma fmt_field_spec : forall args set src f tmp k,
  fmt_field_ok src f -> group_in_range set src -> fmt_table_ok args ->
  fmt_field bcf_enc_int1 bcf_enc_size args set src f (tmp, k)
  = Ok (if fmt_retained args f
        then (tmp ++ fmt_unit bcf_enc_int1 bcf_enc_size set src f,
              bitfield 8 (k + 1))
        else (tmp, k)).
Proof.
  intros args set src f tmp k Hf [Hn Hs] Htab. unfold fmt_field.
  rewrite fmt_skip_test by (assumption || apply Hf). simpl.
  destruct (fmt_retained args f); simpl; [|reflexivity].
  rewrite (for_range_arr _ _ (sample_put src f) (smpl set)); auto.
  rewrite samples_fold by assumption. simpl.
  unfold fmt_unit, fmt_header. now rewrite !app_assoc.
Qed.

Lemma fmts_fold : forall args set src l tmp k,
  Forall (fmt_field_ok src) l -> group_in_range set src ->
  fmt_table_ok args ->
  0 <= k -> k + Z.of_nat (List.length l) < 2 ^ 8 ->
  fold_result (fmt_field bcf_enc_int1 bcf_enc_size args set src) l (tmp, k)
  = Ok (tmp ++ flat_map (fmt_unit bcf_enc_int1 bcf_enc_size set src)
                        (List.filter (fmt_retained args) l),
        k + Z.of_nat (List.length (List.filter (fmt_retained args) l))).
Proof.
  intros args set src l. induction l as [|f l IH]; intros tmp k Hl Hg Ht Hk Hb.
  - simpl. now rewrite app_nil_r, Z.add_0_r.
  - inversion Hl; subst. cbn [fold_result].
    rewrite fmt_field_spec by assumption. cbn [bind].
    cbn [List.length] in Hb.
    destruct (fmt_retained args f) eqn:E; cbn [List.filter]; rewrite E.
    + assert (bitfield 8 (k + 1) = k + 1) as ->
        by (unfold bitfield; apply Z.mod_small; lia).
      rewrite IH by (assumption || lia). cbn [flat_map List.length].
      rewrite <- app_assoc. f_equal. f_equal. lia.
    + rewrite IH by (assumption || lia). reflexivity.
Qed.

(** [rec_set_format] on a decoded record. *)
Lemma rec_set_format_spec : forall args set src dst,
  decoded_fmt src -> group_in_range set src -> fmt_table_ok args ->
  rec_set_format bcf_enc_int1 bcf_enc_size args set src dst
  = Ok (set_indiv
          (set_unpacked dst (Z.land (unpacked dst) (Z.lnot BCF_UN_FMT)))
          (Z.of_nat (List.length (List.filter (fmt_retained args) (d_fmt src))))
          (per_sample_block bcf_enc_int1 bcf_enc_size args set src)).
Proof.
  intros args set src dst (Hn & Hb & Hf) Hg Ht. unfold rec_set_format.
  rewrite (for_range_arr _ _
             (fmt_field bcf_enc_int1 bcf_enc_size args set src) (d_fmt src));
    [|assumption|reflexivity].
  cbn [n_fmt set_indiv].
  rewrite fmts_fold by (assumption || lia). reflexivity.
Qed.

End TranscoderProps.

(** ** Groups built by [init_subsets] *)

Lemma index_from_range : forall A (p : A -> bool) (l : list A) (i : Z),
  index_from p l i = -1 \/
  i <= index_from p l i < i + Z.of_nat (List.length l).
Proof.
  intros A p l. induction l as [|x l IH]; intros i; simpl; [now left|].
  destruct (p x).
  - right. lia.
  - destruct (IH (i + 1)) as [H|H]; [now left|right; lia].
Qed.

Lemma sample_index_range : forall h name,
  bcf_hdr_id2int_SAMPLE h name >= 0 ->
  0 <= bcf_hdr_id2int_SAMPLE h name < bcf_hdr_nsamples h.
Proof.
  intros h name H. unfold bcf_hdr_id2int_SAMPLE, bcf_hdr_nsamples in *.
  destruct (index_from_range _ (fun s => String.eqb s name) (hdr_samples h) 0);
    lia.
Qed.

Lemma arr_set_ok : forall A (a a' : list A) i x,
  arr_set a i x = Ok a' ->
  0 <= i /\ (Z.to_nat i < List.length a)%nat /\ a' = list_set a (Z.to_nat i) x.
Proof.
  intros A a a' i x H. unfold arr_set in H.
  destruct (Z.ltb_spec i 0); [discriminate|].
  destruct (Nat.ltb_spec (Z.to_nat i) (List.length a)); [|discriminate].
  inversion H. repeat split; auto.
Qed.

(** What the loop over the names does to the index array: it fills the
    entries from [j] on with indices of samples of the header and leaves
    the others alone. *)
Lemma names_loop_inv : forall fuel h beg smpl j warn smpl' j' warn',
  names_loop fuel h beg smpl j warn = Ok (smpl', j', warn') ->
  0 <= j ->
  List.length smpl' = List.length smpl /\ j <= j' /\
  (forall i, (i < Z.to_nat j \/ Z.to_nat j' <= i)%nat ->
             nth i smpl' 0 = nth i smpl 0) /\
  (forall i, (Z.to_nat j <= i < Z.to_nat j')%nat ->
             0 <= nth i smpl' 0 < bcf_hdr_nsamples h).
Proof.
  induction fuel as [|fuel IH]; intros h beg smpl j warn smpl' j' warn' H Hj;
    [discriminate|].
  cbn [names_loop] in H.
  destruct beg as [|c beg0].
  { inversion H; subst. repeat split; auto; try lia; intros; lia. }
  set (beg := String c beg0) in *.
  destruct (scan_comma beg) as [name rest].
  assert (Hstep : forall smpl1 j1 warn1,
    (if bcf_hdr_id2int_SAMPLE h name >=? 0
     then do smpl2 <- arr_set smpl j (bcf_hdr_id2int_SAMPLE h name);
          Ok (smpl2, j + 1, warn)
     else Ok (smpl, j, warn ++ [name])) = Ok (smpl1, j1, warn1) ->
    List.length smpl1 = List.length smpl /\ j <= j1 /\
    (forall i, (i < Z.to_nat j \/ Z.to_nat j1 <= i)%nat ->
               nth i smpl1 0 = nth i smpl 0) /\
    (forall i, (Z.to_nat j <= i < Z.to_nat j1)%nat ->
               0 <= nth i smpl1 0 < bcf_hdr_nsamples h)).
  { intros smpl1 j1 warn1 E.
    destruct (Z.geb_spec (bcf_hdr_id2int_SAMPLE h name) 0) as [Hge|Hlt].
    - destruct (arr_set smpl j (bcf_hdr_id2int_SAMPLE h name))
        as [smpl2| | |] eqn:Es; try discriminate.
      cbn [bind] in E. inversion E; subst.
      apply arr_set_ok in Es. destruct Es as (_ & Hlt & ->).
      split; [apply list_set_length|]. split; [lia|]. split.
      + intros i Hi. apply list_set_nth_other. lia.
      + intros i Hi. assert (i = Z.to_nat j) as -> by lia.
        rewrite list_set_nth_same by assumption.
        apply sample_index_range. lia.
    - inversion E; subst. repeat split; auto; try lia; intros; lia. }
  match type of H with
  | bind ?m _ = _ => destruct m as [[[smpl1 j1] warn1]| | |] eqn:E;
                     try discriminate
  end.
  cbn [bind] in H. destruct (Hstep smpl1 j1 warn1 eq_refl) as (L1 & J1 & K1 & R1).
  destruct rest as [beg'|].
  - destruct (IH h beg' smpl1 j1 warn1 smpl' j' warn' H ltac:(lia))
      as (L2 & J2 & K2 & R2).
    split; [congruence|]. split; [lia|]. split.
    + intros i Hi. rewrite K2 by lia. apply K1. lia.
    + intros i Hi. destruct (Nat.lt_ge_cases i (Z.to_nat j1)) as [Hlt|Hge].
      * rewrite K2 by lia. apply R1. lia.
      * apply R2. lia.
  - inversion H; subst. split; [assumption|]. split; [assumption|].
    split; assumption.
Qed.

Lemma scan_names_count : forall ptr escaped k str put k' rest,
  scan_names ptr escaped k str = (put, k', rest) -> k <= k'.
Proof.
  induction ptr as [|c ptr IH]; intros escaped k str put k' rest H;
    cbn [scan_names] in H.
  - inversion H. lia.
  - destruct (Ascii.eqb c "\" && negb escaped)%bool.
    + now apply IH in H.
    + destruct (isspace c && negb escaped)%bool.
      * inversion H. lia.
      * apply IH in H. destruct (Ascii.eqb c ","); lia.
Qed.

Lemma repeat_nth : forall A (x : A) k i d, (i < k)%nat -> nth i (repeat x k) d = x.
Proof.
  intros A x k. induction k as [|k IH]; intros i d H; [lia|].
  destruct i; simpl; [reflexivity|]. apply IH. lia.
Qed.

(** A group read from a line has as many index entries as its sample
    count says, all of them indices of samples of the header. *)
Lemma subset_of_line_group : forall h str_s line set str_s' warn,
  subset_of_line h str_s line = Ok (Some set, str_s', warn) ->
  nsmpl set = Z.of_nat (List.length (smpl set)) /\
  Forall (fun s => 0 <= s < bcf_hdr_nsamples h) (smpl set).
Proof.
  intros h str_s line set str_s' warn H. unfold subset_of_line in H.
  destruct (scan_names line false 1 "") as [[put k] ptr] eqn:Es.
  apply scan_names_count in Es.
  match type of H with
  | match ?s with Some _ => _ | None => _ end = _ =>
      destruct s as [beg|]; [|discriminate]
  end.
  destruct (names_loop (S (String.length beg)) h beg (repeat 0 (Z.to_nat k)) 0 [])
    as [[[smpl1 j1] warn1]| | |] eqn:En; try discriminate.
  cbn [bind] in H.
  destruct (names_loop_inv _ _ _ _ _ _ _ _ _ En ltac:(lia)) as (L & J & K & R).
  rewrite repeat_length in L.
  destruct (Z.eqb_spec j1 0) as [E0|E0]; [discriminate|].
  match type of H with
  | bind ?m _ = _ => destruct m as [[ren fnm]| | |]; try discriminate
  end.
  cbn [bind] in H. inversion H; subst. cbn [nsmpl smpl].
  split; [lia|].
  assert (Hpos : 0 < bcf_hdr_nsamples h).
  { specialize (R O ltac:(lia)). lia. }
  apply Forall_forall. intros x Hx.
  destruct (In_nth _ _ 0 Hx) as (i & Hi & <-).
  destruct (Nat.lt_ge_cases i (Z.to_nat j1)) as [Hlt|Hge].
  - apply R. lia.
  - rewrite K by lia. rewrite repeat_nth by lia. lia.
Qed.

Lemma lines_loop_groups : forall h files str_s acc warn sets' warn',
  lines_loop h files str_s acc warn = Ok (sets', warn') ->
  Forall (fun set => nsmpl set = Z.of_nat (List.length (smpl set)) /\
                     Forall (fun s => 0 <= s < bcf_hdr_nsamples h) (smpl set))
         acc ->
  Forall (fun set => nsmpl set = Z.of_nat (List.length (smpl set)) /\
                     Forall (fun s => 0 <= s < bcf_hdr_nsamples h) (smpl set))
         sets'.
Proof.
  intros h files. induction files as [|line files IH];
    intros str_s acc warn sets' warn' H Hacc; cbn [lines_loop] in H.
  - inversion H; subst. assumption.
  - destruct (subset_of_line h str_s line) as [[[set str_s1] w1]| | |] eqn:El;
      try discriminate.
    cbn [bind] in H. eapply IH; [exact H|].
    destruct set as [set|]; [|assumption].
    apply Forall_app. split; [assumption|]. constructor; [|constructor].
    eapply subset_of_line_group. exact El.
Qed.

(** ** One group per sample *)

Lemma single_loop : forall (h : bcf_hdr_t) (l pre : list string) acc,
  hdr_samples h = pre ++ l ->
  for_loop (List.length l) (Z.of_nat (List.length pre)) (single_body h) acc
  = Ok (acc ++ singleton_groups l (Z.of_nat (List.length pre))).
Proof.
  intros h l. induction l as [|x l IH]; intros pre acc Hs; simpl.
  - now rewrite app_nil_r.
  - unfold single_body at 1. rewrite Hs, arr_get_app_mid. simpl.
    replace (Z.of_nat (List.length pre) + 1)
      with (Z.of_nat (List.length (pre ++ [x])))
      by (rewrite length_app; simpl; lia).
    rewrite IH by (rewrite Hs, <- app_assoc; reflexivity).
    now rewrite <- app_assoc.
Qed.

Lemma init_subsets_implicit : forall rl args,
  samples_fname args = None ->
  init_subsets rl args
  = Ok (set_sets args (singleton_groups (hdr_samples (hdr_in args)) 0), []).
Proof.
  intros rl args Hs. unfold init_subsets, for_range, bcf_hdr_nsamples.
  rewrite Hs, Nat2Z.id.
  pose proof (single_loop (hdr_in args) (hdr_samples (hdr_in args)) [] []
                          eq_refl) as H.
  cbn [List.length Z.of_nat app] in H. now rewrite H.
Qed.

Lemma singleton_groups_nth : forall names k i set,
  nth_error (singleton_groups names k) i = Some set ->
  (i < List.length names)%nat /\
  exists name, set = singleton_group (k + Z.of_nat i) name.
Proof.
  induction names as [|x names IH]; intros k i set H; simpl in H.
  - destruct i; discriminate.
  - destruct i as [|i]; simpl in H.
    + inversion H; subst. split; [simpl; lia|].
      exists x. now rewrite Z.add_0_r.
    + apply IH in H. destruct H as [Hi [name ->]]. split; [simpl; lia|].
      exists name. f_equal. lia.
Qed.

Lemma singleton_groups_range : forall names k,
  Forall (fun set => nsmpl set = Z.of_nat (List.length (smpl set)) /\
                     Forall (fun s => k <= s < k + Z.of_nat (List.length names))
                            (smpl set))
         (singleton_groups names k).
Proof.
  induction names as [|x names IH]; intros k; simpl; constructor.
  - split; [reflexivity|]. constructor; [lia|constructor].
  - eapply Forall_impl; [|apply (IH (k + 1))].
    intros set [Hn Hs]. split; [assumption|].
    eapply Forall_impl; [|exact Hs]. intros s Hr. cbn beta in Hr. lia.
Qed.

(** Every group [init_subsets] builds has as many index entries as its
    sample count says, all of them indices of samples of the input. *)
Lemma init_subsets_groups : forall rl args a' warn,
  init_subsets rl args = Ok (a', warn) ->
  Forall (fun set =>
            nsmpl set = Z.of_nat (List.length (smpl set)) /\
            Forall (fun s => 0 <= s < bcf_hdr_nsamples (hdr_in args))
                   (smpl set))
         (sets a').
Proof.
  intros rl args a' warn H.
  destruct (samples_fname args) as [path|] eqn:Ef.
  - unfold init_subsets in H. rewrite Ef in H.
    destruct (rl path) as [[|line files]|]; try discriminate.
    destruct (lines_loop (hdr_in args) (line :: files) None [] [])
      as [[s wrn]| | |] eqn:El; try discriminate.
    cbn [bind] in H. inversion H; subst. cbn [sets set_sets].
    eapply lines_loop_groups; [exact El|constructor].
  - rewrite init_subsets_implicit in H by assumption.
    inversion H; subst. cbn [sets set_sets].
    apply (singleton_groups_range (hdr_samples (hdr_in args)) 0).
Qed.

Section PerSampleBlock.

Variable bcf_enc_int1 : Z -> list byte.
Variable bcf_enc_size : Z -> Z -> list byte.

(** C1: for a decoded record and any tag selector, [rec_set_format]
    rebuilds the per-sample block from nothing: for each per-sample field
    of the input, in the original order, that is retained (all of them
    when keep-all-sample holds) it holds the field header (id, declared
    count, element type) followed by the fixed-stride slice of each of the
    group's samples in group order, and nothing for the other fields.  In
    the one-group-per-sample configuration the block of the group of
    sample [i] is, for every retained field, the header followed by the
    slice of sample [i].  The condition on the group is met by every
    group [init_subsets] builds, for the records of the input. *)
Theorem per_sample_block_rebuilt : forall args src dst,
  decoded_fmt src -> fmt_table_ok args ->
  (forall set, group_in_range set src ->
     rec_set_format bcf_enc_int1 bcf_enc_size args set src dst
     = Ok (set_indiv
             (set_unpacked dst (Z.land (unpacked dst) (Z.lnot BCF_UN_FMT)))
             (Z.of_nat
                (List.length (List.filter (fmt_retained args) (d_fmt src))))
             (flat_map
                (fun f =>
                   bcf_enc_int1 (id f) ++ bcf_enc_size (n f) (type f)
                   ++ flat_map (sample_slice src f) (smpl set))
                (List.filter (fmt_retained args) (d_fmt src)))))
  /\
  (forall rl a0 a1 warn i set,
     samples_fname a0 = None ->
     init_subsets rl a0 = Ok (a1, warn) ->
     n_sample src = bcf_hdr_nsamples (hdr_in a0) ->
     nth_error (sets a1) i = Some set ->
     exists out,
       rec_set_format bcf_enc_int1 bcf_enc_size args set src dst = Ok out /\
       indiv out
       = flat_map
           (fun f =>
              bcf_enc_int1 (id f) ++ bcf_enc_size (n f) (type f)
              ++ sample_slice src f (Z.of_nat i))
           (List.filter (fmt_retained args) (d_fmt src)))
  /\
  (forall rl a0 a1 warn set,
     init_subsets rl a0 = Ok (a1, warn) ->
     n_sample src = bcf_hdr_nsamples (hdr_in a0) ->
     In set (sets a1) ->
     group_in_range set src).
Proof.
  intros args src dst Hdec Htab. split; [|split].
  - intros set Hg. rewrite rec_set_format_spec by assumption.
    unfold per_sample_block, fmt_unit, fmt_header.
    do 2 f_equal. apply flat_map_ext. intros f. now rewrite app_assoc.
  - intros rl a0 a1 warn i set Hs Hinit Hn Hnth.
    rewrite init_subsets_implicit in Hinit by assumption.
    inversion Hinit; subst a1 warn. cbn [sets set_sets] in Hnth.
    apply singleton_groups_nth in Hnth. destruct Hnth as [Hi [name ->]].
    assert (Hg : group_in_range (singleton_group (0 + Z.of_nat i) name) src).
    { split; [reflexivity|]. constructor; [|constructor].
      unfold bcf_hdr_nsamples in Hn. lia. }
    rewrite rec_set_format_spec by assumption.
    eexists. split; [reflexivity|]. cbn [indiv set_indiv].
    unfold per_sample_block, fmt_unit, fmt_header.
    apply flat_map_ext. intros f. cbn [smpl singleton_group flat_map].
    now rewrite app_nil_r, app_assoc.
  - intros rl a0 a1 warn set Hinit Hn Hin.
    pose proof (init_subsets_groups rl a0 a1 warn Hinit) as Hall.
    rewrite Forall_forall in Hall. destruct (Hall set Hin) as [H1 H2].
    split; [assumption|]. now rewrite Hn.
Qed.

End PerSampleBlock.

Lemma per_sample_block_rebuilt_witness :
  rec_set_format Demo.enc_int1 Demo.enc_size
                 (Demo.selected (Some "FMT/GT")) (Demo.group [2; 0])
                 Demo.rec bcf_init1
  = Ok (set_indiv bcf_init1 1 [x11; x03; x21; x04; x04; x02; x02])
  /\
  exists out,
    rec_set_format Demo.enc_int1 Demo.enc_size
                   (Demo.selected (Some "FMT/GT"))
                   (singleton_group 1 "B") Demo.rec bcf_init1 = Ok out /\
    indiv out = [x11; x03; x21; x02; x04].
Proof.
  assert (Hdec : decoded_fmt Demo.rec).
  { split; [reflexivity|]. split; [reflexivity|].
    repeat constructor; vm_compute; congruence. }
  assert (Htab : fmt_table_ok (Demo.selected (Some "FMT/GT")))
    by (vm_compute; congruence).
  destruct (per_sample_block_rebuilt Demo.enc_int1 Demo.enc_size
              (Demo.selected (Some "FMT/GT")) Demo.rec bcf_init1
              Hdec Htab) as (Hany & Himplicit & _).
  split.
  - apply (Hany (Demo.group [2; 0])).
    split; [reflexivity|]. repeat constructor; vm_compute; congruence.
  - apply (Himplicit (fun _ => None) (Demo.args None None)
                     (set_sets (Demo.args None None)
                               (singleton_groups ["A"; "B"; "C"] 0)) [] 1%nat
                     (singleton_group 1 "B"));
      reflexivity.
Defined.

(** ** The site-level block *)

Lemma rec_set_info_keep_all : forall args set rec out,
  keep_info args <> 0 ->
  rec_set_info args set rec None = Ok out ->
  shared out = shared rec /\ n_info out = n_info rec.
Proof.
  intros args set rec out Hk H. unfold rec_set_info in H.
  destruct (Z.eqb_spec (keep_info args) 0); [contradiction|].
  simpl in H. inversion H; subst. split; reflexivity.
Qed.

Lemma info_field_spec : forall args rec i tmp k,
  info_field_ok rec i ->
  0 <= key i < Z.of_nat (List.length (info_tags args)) ->
  info_field args rec i (tmp, k)
  = Ok (if info_in_table args i
        then (tmp ++ info_unit rec i, bitfield 16 (k + 1))
        else (tmp, k)).
Proof.
  intros args rec i tmp k (Hoff & Hlen & Hin & Hw) Hkey.
  unfold info_field, info_in_table.
  rewrite (arr_get_nth _ _ _ 0) by assumption. simpl.
  destruct (nth (Z.to_nat (key i)) (info_tags args) 0 =? 0); simpl;
    [reflexivity|].
  rewrite Z.mod_small by lia. rewrite mem_read_ok by lia. reflexivity.
Qed.

Lemma infos_fold : forall args rec l tmp k,
  Forall (info_field_ok rec) l ->
  Forall (fun i => 0 <= key i < Z.of_nat (List.length (info_tags args))) l ->
  0 <= k -> k + Z.of_nat (List.length l) < 2 ^ 16 ->
  fold_result (info_field args rec) l (tmp, k)
  = Ok (tmp ++ flat_map (info_unit rec) (List.filter (info_in_table args) l),
        k + Z.of_nat (List.length (List.filter (info_in_table args) l))).
Proof.
  intros args rec l. induction l as [|i l IH]; intros tmp k Hl Hk H0 Hb.
  - simpl. now rewrite app_nil_r, Z.add_0_r.
  - inversion Hl; inversion Hk; subst. cbn [fold_result].
    rewrite info_field_spec by assumption. cbn [bind].
    cbn [List.length] in Hb.
    destruct (info_in_table args i) eqn:E; cbn [List.filter]; rewrite E.
    + assert (bitfield 16 (k + 1) = k + 1) as ->
        by (unfold bitfield; apply Z.mod_small; lia).
      rewrite IH by (assumption || lia). cbn [flat_map List.length].
      rewrite <- app_assoc. f_equal. f_equal. lia.
    + rewrite IH by (assumption || lia). reflexivity.
Qed.

Lemma preamble_reads : forall rec,
  decoded_info rec ->
  mem_read (shared rec) 0 (unpack_size0 rec) = Ok (firstn (Z.to_nat (unpack_size0 rec)) (shared rec)) /\
  mem_read (shared rec) (0 + unpack_size0 rec) (unpack_size1 rec)
  = Ok (firstn (Z.to_nat (unpack_size1 rec))
               (skipn (Z.to_nat (unpack_size0 rec)) (shared rec))) /\
  mem_read (shared rec) (0 + unpack_size0 rec + unpack_size1 rec)
           (unpack_size2 rec)
  = Ok (firstn (Z.to_nat (unpack_size2 rec))
               (skipn (Z.to_nat (unpack_size0 rec + unpack_size1 rec))
                      (shared rec))).
Proof.
  intros rec (_ & _ & H0 & H1 & H2 & Hle & _).
  repeat split; rewrite mem_read_ok by lia; rewrite ?Z.add_0_l; reflexivity.
Qed.

Lemma firstn_plus : forall A (a b : nat) (l : list A),
  firstn (a + b) l = firstn a l ++ firstn b (skipn a l).
Proof.
  induction a as [|a IH]; intros b l; [reflexivity|].
  destruct l as [|x l]; simpl.
  - now rewrite firstn_nil.
  - now rewrite IH.
Qed.

Lemma firstn_split3 : forall A (l : list A) (a b c : nat),
  firstn a l ++ firstn b (skipn a l) ++ firstn c (skipn (a + b) l)
  = firstn (a + b + c) l.
Proof.
  intros A l a b c.
  rewrite <- (Nat.add_assoc a b c), (firstn_plus A a (b + c) l).
  f_equal. rewrite (firstn_plus A b c (skipn a l)), skipn_skipn.
  now rewrite (Nat.add_comm b a).
Qed.

(** [rec_set_info] into a new record when site-level fields are selected
    and every key of the record lies inside the table. *)
Lemma rec_set_info_selected : forall args set rec,
  keep_info args = 0 -> decoded_info rec -> keys_in_table args rec ->
  exists out,
    rec_set_info args set rec None = Ok out /\
    shared out
    = preamble rec
      ++ (if ninfo_tags args =? 0 then []
          else flat_map (info_unit rec)
                        (List.filter (info_in_table args) (d_info rec))) /\
    n_info out
    = (if ninfo_tags args =? 0 then 0
       else Z.of_nat (List.length (List.filter (info_in_table args)
                                               (d_info rec)))).
Proof.
  intros args set rec Hk Hdec Hkeys. unfold rec_set_info. rewrite Hk.
  destruct (preamble_reads rec Hdec) as (R0 & R1 & R2).
  cbn [Z.eqb negb]. rewrite R0. cbn [bind]. rewrite R1. cbn [bind].
  rewrite R2. cbn [bind n_info].
  destruct Hdec as (Hn & Hb & H0 & H1 & H2 & Hle & Hf).
  assert (Hpre : forall rest,
    (firstn (Z.to_nat (unpack_size0 rec)) (shared rec)
     ++ firstn (Z.to_nat (unpack_size1 rec))
               (skipn (Z.to_nat (unpack_size0 rec)) (shared rec))
     ++ firstn (Z.to_nat (unpack_size2 rec))
               (skipn (Z.to_nat (unpack_size0 rec + unpack_size1 rec))
                      (shared rec))) ++ rest = preamble rec ++ rest).
  { intros rest. f_equal. unfold preamble.
    rewrite !Z2Nat.inj_add by lia. apply firstn_split3. }
  destruct (ninfo_tags args =? 0); cbn [negb bind].
  - eexists. split; [reflexivity|]. cbn [shared n_info set_unpacked set_shared].
    split; [|reflexivity]. now rewrite <- Hpre, !app_nil_r.
  - rewrite (for_range_arr _ _ (info_field args rec) (d_info rec));
      [|assumption|reflexivity].
    rewrite infos_fold by (assumption || lia). cbn [bind].
    eexists. split; [reflexivity|]. cbn [shared n_info set_unpacked set_shared].
    split; [apply Hpre|reflexivity].
Qed.

(** C2: with the selection [-k INFO/DP] the table of retained site-level
    ids has two entries, and on a record that carries the INFO field AC
    (key 5) [rec_set_info] indexes the table at 5: the read lies outside
    the array.  [rec_set_format] and the header projection of [init_data]
    compare the id with the number of entries first. *)
Theorem rec_set_info_reads_past_table :
  let args := Demo.selected (Some "INFO/DP") in
  keep_info args = 0 /\ ninfo_tags args = 2 /\ info_tags args = [0; 1] /\
  map key (d_info Demo.rec) = [1; 2; 5] /\
  rec_set_info args (Demo.group [1]) Demo.rec None = Undef.
Proof. vm_compute. repeat split; reflexivity. Qed.

(** ** Reuse of the output record across the groups *)

Lemma set_unpacked_same : forall r, set_unpacked r (unpacked r) = r.
Proof. now destruct r. Qed.

(** A new record differs between two groups in [n_sample] only. *)
Lemma rec_set_info_other_group : forall args set0 set rec,
  rec_set_info args set rec None
  = do o <- rec_set_info args set0 rec None; Ok (set_n_sample o (nsmpl set)).
Proof.
  intros. unfold rec_set_info.
  destruct (negb (keep_info args =? 0)); [reflexivity|].
  destruct (mem_read (shared rec) 0 (unpack_size0 rec)); try reflexivity.
  cbn [bind].
  destruct (mem_read (shared rec) (0 + unpack_size0 rec) (unpack_size1 rec));
    try reflexivity.
  cbn [bind].
  destruct (mem_read (shared rec) (0 + unpack_size0 rec + unpack_size1 rec)
                     (unpack_size2 rec)); try reflexivity.
  cbn [bind n_info].
  destruct (negb (ninfo_tags args =? 0)); cbn [bind]; [|reflexivity].
  destruct (for_range (n_info rec) (info_body args rec) (a ++ a0 ++ a1, 0))
    as [[tmp k]| | |]; reflexivity.
Qed.

Lemma rec_set_info_fresh_unpacked : forall args set rec o,
  rec_set_info args set rec None = Ok o -> unpacked o = 0.
Proof.
  intros args set rec o. unfold rec_set_info.
  destruct (negb (keep_info args =? 0)).
  - intros H; inversion H; reflexivity.
  - destruct (mem_read (shared rec) 0 (unpack_size0 rec)); try discriminate.
    cbn [bind].
    destruct (mem_read (shared rec) (0 + unpack_size0 rec) (unpack_size1 rec));
      try discriminate.
    cbn [bind].
    destruct (mem_read (shared rec) (0 + unpack_size0 rec + unpack_size1 rec)
                       (unpack_size2 rec)); try discriminate.
    cbn [bind n_info].
    destruct (negb (ninfo_tags args =? 0)); cbn [bind].
    + destruct (for_range (n_info rec) (info_body args rec) (a ++ a0 ++ a1, 0))
        as [[tmp k]| | |]; try discriminate.
      intros H; inversion H; reflexivity.
    + intros H; inversion H; reflexivity.
Qed.

Section Reuse.

Variable bcf_enc_int1 : Z -> list byte.
Variable bcf_enc_size : Z -> Z -> list byte.

(** [rec_set_format] takes nothing from [dst] but what it carries over:
    the block and the count are those built into an empty record. *)
Lemma rec_set_format_frame : forall args set src dst,
  rec_set_format bcf_enc_int1 bcf_enc_size args set src dst
  = do r <- rec_set_format bcf_enc_int1 bcf_enc_size args set src bcf_init1;
    Ok (set_indiv
          (set_unpacked dst (Z.land (unpacked dst) (Z.lnot BCF_UN_FMT)))
          (n_fmt r) (indiv r)).
Proof.
  intros. unfold rec_set_format. cbn [n_fmt set_indiv].
  destruct (for_range (n_fmt src)
              (fmt_body bcf_enc_int1 bcf_enc_size args set src) ([], 0))
    as [[tmp k]| | |]; reflexivity.
Qed.

(** The record made for a group out of the record left by an earlier
    group, whatever [unpacked] has become meanwhile. *)
Lemma transcode_reuse : forall args set0 set rec o0 u,
  transcode bcf_enc_int1 bcf_enc_size args set0 rec None = Ok o0 ->
  transcode bcf_enc_int1 bcf_enc_size args set rec (Some (set_unpacked o0 u))
  = do r <- transcode bcf_enc_int1 bcf_enc_size args set rec None;
    Ok (set_unpacked r (Z.land u (Z.lnot BCF_UN_FMT))).
Proof.
  intros args set0 set rec o0 u H0. unfold transcode in *.
  rewrite (rec_set_info_other_group args set0 set rec).
  destruct (rec_set_info args set0 rec None) as [i0| | |] eqn:Ei;
    try discriminate.
  cbn [bind] in *.
  change (rec_set_info args set rec (Some (set_unpacked o0 u)))
    with (Ok (set_n_sample (set_unpacked o0 u) (nsmpl set))).
  cbn [bind].
  rewrite rec_set_format_frame in H0.
  rewrite (rec_set_format_frame args set rec (set_n_sample i0 (nsmpl set))).
  rewrite (rec_set_format_frame args set rec
             (set_n_sample (set_unpacked o0 u) (nsmpl set))).
  destruct (rec_set_format bcf_enc_int1 bcf_enc_size args set0 rec bcf_init1)
    as [r0| | |]; try discriminate.
  cbn [bind] in H0. inversion H0; subst o0; clear H0.
  destruct (rec_set_format bcf_enc_int1 bcf_enc_size args set rec bcf_init1)
    as [r| | |]; reflexivity.
Qed.

Lemma transcode_fresh_unpacked : forall args set rec o,
  transcode bcf_enc_int1 bcf_enc_size args set rec None = Ok o ->
  unpacked o = 0.
Proof.
  intros args set rec o H. unfold transcode in H.
  destruct (rec_set_info args set rec None) as [i| | |] eqn:Ei;
    try discriminate.
  cbn [bind] in H. rewrite rec_set_format_frame in H.
  destruct (rec_set_format bcf_enc_int1 bcf_enc_size args set rec bcf_init1);
    try discriminate.
  cbn [bind] in H. inversion H; subst. cbn [unpacked set_indiv set_unpacked].
  now rewrite (rec_set_info_fresh_unpacked args set rec i Ei).
Qed.

Lemma transcode_reuse_same : forall args set0 set rec o0,
  transcode bcf_enc_int1 bcf_enc_size args set0 rec None = Ok o0 ->
  transcode bcf_enc_int1 bcf_enc_size args set rec (Some o0)
  = transcode bcf_enc_int1 bcf_enc_size args set rec None.
Proof.
  intros args set0 set rec o0 H0.
  pose proof (transcode_reuse args set0 set rec o0 (unpacked o0) H0) as H.
  rewrite set_unpacked_same in H. rewrite H.
  rewrite (transcode_fresh_unpacked args set0 rec o0 H0).
  change (Z.land 0 (Z.lnot BCF_UN_FMT)) with 0.
  destruct (transcode bcf_enc_int1 bcf_enc_size args set rec None)
    as [r| | |] eqn:Er; try reflexivity.
  cbn [bind]. f_equal.
  pose proof (transcode_fresh_unpacked args set rec r Er) as Hu.
  destruct r; cbn in Hu |- *; now subst.
Qed.

Variable w : world.

Lemma process_sets_reuse : forall args rec todo set0 o0,
  transcode bcf_enc_int1 bcf_enc_size args set0 rec None = Ok o0 ->
  process_sets bcf_enc_int1 bcf_enc_size w args rec (Some o0) todo
  = process_sets_fresh bcf_enc_int1 bcf_enc_size w args rec todo.
Proof.
  intros args rec todo. induction todo as [|set todo IH]; intros set0 o0 H0.
  - reflexivity.
  - cbn [process_sets process_sets_fresh].
    rewrite (transcode_reuse_same args set0 set rec o0 H0).
    destruct (transcode bcf_enc_int1 bcf_enc_size args set rec None)
      as [o| | |] eqn:Eo; try reflexivity.
    rewrite (IH set o Eo). reflexivity.
Qed.

Lemma process_sets_as_fresh : forall args rec todo,
  process_sets bcf_enc_int1 bcf_enc_size w args rec None todo
  = process_sets_fresh bcf_enc_int1 bcf_enc_size w args rec todo.
Proof.
  intros args rec [|set todo]; [reflexivity|].
  cbn [process_sets process_sets_fresh].
  destruct (transcode bcf_enc_int1 bcf_enc_size args set rec None)
    as [o| | |] eqn:Eo; try reflexivity.
  rewrite (process_sets_reuse args rec todo set o Eo). reflexivity.
Qed.

End Reuse.

Section ScratchReuse.

Variable bcf_enc_int1 : Z -> list byte.
Variable bcf_enc_size : Z -> Z -> list byte.
Variable w : world.



End ScratchReuse.


(** ** The tag parser *)

Lemma lor_ge_l : forall a b, 0 <= b -> a <= Z.lor a b.
Proof.
  intros a b Hb. pose proof (Z.sub_lor_l_same_l b a) as H.
  assert (0 <= Z.land b (Z.lnot a)) by (apply Z.land_nonneg; now left).
  lia.
Qed.

Lemma kroundup32_ge : forall x, 1 <= x -> x <= kroundup32 x.
Proof.
  intros x Hx. unfold kroundup32.
  assert (G : forall a k, 0 <= a -> a <= Z.lor a (Z.shiftr a k)
                           /\ 0 <= Z.lor a (Z.shiftr a k)).
  { intros a k Ha.
    assert (0 <= Z.shiftr a k) by now apply Z.shiftr_nonneg.
    split; [now apply lor_ge_l|]. apply Z.lor_nonneg. now split. }
  set (x0 := x - 1). assert (H0 : 0 <= x0) by (subst x0; lia).
  destruct (G x0 1 H0) as [L1 P1].
  set (x1 := Z.lor x0 (Z.shiftr x0 1)) in *.
  destruct (G x1 2 P1) as [L2 P2].
  set (x2 := Z.lor x1 (Z.shiftr x1 2)) in *.
  destruct (G x2 4 P2) as [L3 P3].
  set (x3 := Z.lor x2 (Z.shiftr x2 4)) in *.
  destruct (G x3 8 P3) as [L4 P4].
  set (x4 := Z.lor x3 (Z.shiftr x3 8)) in *.
  destruct (G x4 16 P4) as [L5 P5].
  subst x0. lia.
Qed.

(** Growing a table and marking [id] in it. *)
Lemma expand_and_mark : forall n m tab id,
  table_ok n m tab -> 0 <= id ->
  let n' := if id >=? n then id + 1 else n in
  exists tab',
    arr_set (snd (hts_expand0 n' m tab)) id 1 = Ok tab' /\
    table_ok n' (fst (hts_expand0 n' m tab)) tab' /\
    0 < n' /\ in_table n' tab' id = true.
Proof.
  intros n m tab id ((Hn0 & Hnm) & Hlen & Hlast) Hid n'.
  assert (Hn' : id < n' /\ n <= n' /\ (n' = n \/ n' = id + 1)).
  { subst n'. rewrite Z.geb_leb. destruct (Z.leb_spec n id); lia. }
  destruct Hn' as (Hidn & Hnn & Hcase).
  assert (Hexp : exists m' tab0,
             hts_expand0 n' m tab = (m', tab0) /\ n' <= m' /\
             Z.of_nat (List.length tab0) = m' /\
             forall j, (j < List.length tab)%nat -> nth j tab0 0 = nth j tab 0).
  { unfold hts_expand0. destruct (Z.gtb_spec n' m) as [Hgt|Hle].
    - pose proof (kroundup32_ge n' ltac:(lia)) as Hk.
      eexists _, _. split; [reflexivity|]. split; [assumption|]. split.
      + rewrite length_app, repeat_length. lia.
      + intros j Hj. now rewrite app_nth1.
    - exists m, tab. repeat split; auto; lia. }
  destruct Hexp as (m' & tab0 & -> & Hm' & Hlen0 & Hold). cbn [fst snd].
  unfold arr_set. destruct (Z.ltb_spec id 0); [lia|].
  destruct (Nat.ltb_spec (Z.to_nat id) (List.length tab0)); [|lia].
  eexists. split; [reflexivity|]. split; [|split; [lia|]].
  - split; [lia|]. split; [now rewrite list_set_length|].
    intros _. destruct (Z.eq_dec (n' - 1) id) as [E|E].
    + rewrite E. now apply list_set_nth_same.
    + assert (n' = n) as En by lia. rewrite En in *.
      rewrite list_set_nth_other by lia.
      rewrite Hold by lia. apply Hlast. lia.
  - unfold in_table. rewrite list_set_nth_same by assumption.
    destruct (Z.leb_spec 0 id); [|lia].
    destruct (Z.ltb_spec id n'); [reflexivity|lia].
Qed.

Lemma idinfo_exists_nonneg : forall h t id,
  bcf_hdr_idinfo_exists h t id = true -> 0 <= id.
Proof.
  intros h t id. unfold bcf_hdr_idinfo_exists.
  destruct (Z.ltb_spec id 0); [discriminate|lia].
Qed.

Lemma record_tag_ok : forall is_info is_fmt id a,
  tables_ok a ->
  exists a', record_tag is_info is_fmt id a = Ok a' /\ tables_ok a' /\
             keep_info a' = keep_info a /\ keep_fmt a' = keep_fmt a /\
             hdr_in a' = hdr_in a /\
             (nfmt_tags a <= nfmt_tags a') /\ (ninfo_tags a <= ninfo_tags a').
Proof.
  intros is_info is_fmt id a [Hi Hf]. unfold record_tag.
  match goal with
  | |- exists _, bind ?X _ = _ /\ _ =>
      assert (S1 : exists a1,
        X = Ok a1 /\ tables_ok a1 /\ keep_info a1 = keep_info a /\
        keep_fmt a1 = keep_fmt a /\ hdr_in a1 = hdr_in a /\
        nfmt_tags a1 = nfmt_tags a /\ ninfo_tags a <= ninfo_tags a1)
  end.
  { destruct (is_info && bcf_hdr_idinfo_exists (hdr_in a) BCF_HL_INFO id)%bool
      eqn:E.
    - apply andb_true_iff in E. destruct E as [_ E].
      apply idinfo_exists_nonneg in E.
      destruct (expand_and_mark _ _ _ _ Hi E) as (tab' & Hset & Hok & Hpos & _).
      cbv zeta.
      destruct (hts_expand0 (if id >=? ninfo_tags a then id + 1
                             else ninfo_tags a) (minfo_tags a) (info_tags a))
        as [m tab0].
      cbn [fst snd] in *. rewrite Hset. cbn [bind].
      eexists. split; [reflexivity|].
      split; [split; assumption|].
      cbn [keep_info keep_fmt hdr_in nfmt_tags ninfo_tags set_info_tags].
      repeat split; try reflexivity. rewrite Z.geb_leb.
      destruct (Z.leb_spec (ninfo_tags a) id); lia.
    - exists a. split; [reflexivity|]. split; [split; assumption|].
      repeat split; try reflexivity; lia. }
  destruct S1 as (a1 & -> & [Hi1 Hf1] & K1 & K2 & K3 & K4 & K5). cbn [bind].
  destruct (is_fmt && bcf_hdr_idinfo_exists (hdr_in a1) BCF_HL_FMT id)%bool
    eqn:E.
  - apply andb_true_iff in E. destruct E as [_ E].
    apply idinfo_exists_nonneg in E.
    destruct (expand_and_mark _ _ _ _ Hf1 E) as (tab' & Hset & Hok & Hpos & _).
    cbv zeta.
    destruct (hts_expand0 (if id >=? nfmt_tags a1 then id + 1
                           else nfmt_tags a1) (mfmt_tags a1) (fmt_tags a1))
      as [m tab0].
    cbn [fst snd] in *. rewrite Hset. cbn [bind].
    eexists. split; [reflexivity|].
    split; [split; assumption|].
    cbn [keep_info keep_fmt hdr_in nfmt_tags ninfo_tags set_fmt_tags].
    repeat split; try assumption; try lia. rewrite Z.geb_leb.
    destruct (Z.leb_spec (nfmt_tags a1) id); lia.
  - exists a1. split; [reflexivity|]. split; [split; assumption|].
    repeat split; try assumption; lia.
Qed.

Lemma tags_loop_unfold : forall fuel is_info is_fmt beg a,
  tags_loop (S fuel) is_info is_fmt beg a
  = match beg with
    | EmptyString => Ok a
    | _ =>
        if strncasecmp_eq "INFO/" beg 5 then
          name_step fuel true false (advance 5 beg) a
        else if strcasecmp_eq "INFO" beg then Ok (set_keep_info a 1)
        else if strncasecmp_eq "INFO," beg 5 then
          tags_loop fuel is_info is_fmt (advance 5 beg) (set_keep_info a 1)
        else if strncasecmp_eq "FMT/" beg 4 then
          name_step fuel false true (advance 4 beg) a
        else if strncasecmp_eq "FORMAT/" beg 7 then
          name_step fuel false true (advance 7 beg) a
        else if strcasecmp_eq "FMT" beg then Ok (set_keep_fmt a 1)
        else if strcasecmp_eq "FORMAT" beg then Ok (set_keep_fmt a 1)
        else if strncasecmp_eq "FMT," beg 4 then
          tags_loop fuel is_info is_fmt (advance 4 beg) (set_keep_fmt a 1)
        else if strncasecmp_eq "FORMAT," beg 7 then
          tags_loop fuel is_info is_fmt (advance 7 beg) (set_keep_fmt a 1)
        else name_step fuel is_info is_fmt beg a
    end.
Proof. intros. destruct beg; reflexivity. Qed.

Lemma advance_length : forall k s,
  (String.length (advance k s) <= String.length s)%nat.
Proof.
  induction k as [|k IH]; intros [|c s]; simpl; auto.
Qed.

Lemma prefix_advance : forall k pat s,
  (k <= String.length pat)%nat -> strncasecmp_eq pat s k = true ->
  (String.length (advance k s) + k = String.length s)%nat.
Proof.
  induction k as [|k IH]; intros pat s Hk H.
  - destruct s; simpl; lia.
  - destruct pat as [|x pat]; [simpl in Hk; lia|].
    destruct s as [|y s]; [discriminate|]. simpl in H, Hk.
    destruct (Ascii.eqb (tolower x) (tolower y)); [|discriminate].
    specialize (IH pat s ltac:(lia) H). simpl. lia.
Qed.

Lemma scan_comma_rest : forall s tok r,
  scan_comma s = (tok, Some r) ->
  (String.length r < String.length s)%nat.
Proof.
  induction s as [|c s IH]; intros tok r H; simpl in H; [discriminate|].
  destruct (Ascii.eqb c ",").
  - inversion H; subst. simpl. lia.
  - destruct (scan_comma s) as [tok' rest'] eqn:E. inversion H; subst.
    specialize (IH tok' r eq_refl). simpl. lia.
Qed.

(** The text at which the loop goes on after [name_step]. *)
Lemma scan_comma_next : forall s,
  (String.length (match snd (scan_comma s) with
                  | Some r => r
                  | None => EmptyString
                  end) <= String.length s)%nat.
Proof.
  intros s. destruct (scan_comma s) as [tok [r|]] eqn:E; cbn [snd].
  - apply scan_comma_rest in E. lia.
  - simpl. lia.
Qed.

Lemma scan_comma_next_lt : forall s,
  s <> EmptyString ->
  (String.length (match snd (scan_comma s) with
                  | Some r => r
                  | None => EmptyString
                  end) < String.length s)%nat.
Proof.
  intros s Hs. destruct (scan_comma s) as [tok [r|]] eqn:E; cbn [snd].
  - apply scan_comma_rest in E. lia.
  - destruct s; [congruence|simpl; lia].
Qed.

Lemma name_step_unfold : forall fuel is_info is_fmt beg a,
  name_step fuel is_info is_fmt beg a
  = do a' <- record_tag is_info is_fmt
                        (bcf_hdr_id2int_ID (hdr_in a) (fst (scan_comma beg))) a;
    tags_loop fuel is_info is_fmt
              (match snd (scan_comma beg) with
               | Some r => r
               | None => EmptyString
               end) a'.
Proof.
  intros. unfold name_step. now destruct (scan_comma beg) as [tok rest].
Qed.

(** The result of the loop does not depend on the fuel, once there is more
    of it than characters. *)
Lemma tags_loop_fuel : forall f1 f2 is_info is_fmt beg a,
  (String.length beg < f1)%nat -> (String.length beg < f2)%nat ->
  tags_loop f1 is_info is_fmt beg a = tags_loop f2 is_info is_fmt beg a.
Proof.
  induction f1 as [|f1 IH]; intros f2 is_info is_fmt beg a H1 H2; [lia|].
  destruct f2 as [|f2]; [lia|].
  rewrite !tags_loop_unfold.
  assert (Hname : forall ii jf s,
             (String.length s <= String.length beg)%nat ->
             beg <> EmptyString ->
             (s = beg \/ String.length s < String.length beg)%nat ->
             name_step f1 ii jf s a = name_step f2 ii jf s a).
  { intros ii jf s Hs Hne Hcase. rewrite !name_step_unfold.
    destruct (record_tag ii jf _ a); try reflexivity. cbn [bind].
    apply IH.
    - destruct Hcase as [->|Hlt].
      + pose proof (scan_comma_next_lt beg Hne). lia.
      + pose proof (scan_comma_next s). lia.
    - destruct Hcase as [->|Hlt].
      + pose proof (scan_comma_next_lt beg Hne). lia.
      + pose proof (scan_comma_next s). lia. }
  destruct beg as [|c beg']; [reflexivity|].
  set (beg := String c beg') in *.
  assert (Hne : beg <> EmptyString) by (subst beg; discriminate).
  assert (Hadv : forall k pat, (0 < k <= String.length pat)%nat ->
             strncasecmp_eq pat beg k = true ->
             (String.length (advance k beg) < String.length beg)%nat).
  { intros k pat Hk Hp. pose proof (prefix_advance k pat beg ltac:(lia) Hp).
    lia. }
  destruct (strncasecmp_eq "INFO/" beg 5) eqn:E1.
  { apply Hname; auto using advance_length.
    right. apply (Hadv 5%nat "INFO/"); [simpl; lia|assumption]. }
  destruct (strcasecmp_eq "INFO" beg); [reflexivity|].
  destruct (strncasecmp_eq "INFO," beg 5) eqn:E2.
  { pose proof (Hadv 5%nat "INFO," ltac:(simpl; lia) E2). apply IH; lia. }
  destruct (strncasecmp_eq "FMT/" beg 4) eqn:E3.
  { apply Hname; auto using advance_length.
    right. apply (Hadv 4%nat "FMT/"); [simpl; lia|assumption]. }
  destruct (strncasecmp_eq "FORMAT/" beg 7) eqn:E4.
  { apply Hname; auto using advance_length.
    right. apply (Hadv 7%nat "FORMAT/"); [simpl; lia|assumption]. }
  destruct (strcasecmp_eq "FMT" beg); [reflexivity|].
  destruct (strcasecmp_eq "FORMAT" beg); [reflexivity|].
  destruct (strncasecmp_eq "FMT," beg 4) eqn:E5.
  { pose proof (Hadv 4%nat "FMT," ltac:(simpl; lia) E5). apply IH; lia. }
  destruct (strncasecmp_eq "FORMAT," beg 7) eqn:E6.
  { pose proof (Hadv 7%nat "FORMAT," ltac:(simpl; lia) E6). apply IH; lia. }
  apply Hname; auto.
Qed.

Lemma tags_from_fuel : forall fuel is_info is_fmt beg a,
  (String.length beg < fuel)%nat ->
  tags_loop fuel is_info is_fmt beg a = tags_from is_info is_fmt beg a.
Proof.
  intros. unfold tags_from. apply tags_loop_fuel; lia.
Qed.

(** ** The loops of [init_subsets] have fuel enough *)

Lemma names_loop_fuel : forall fuel h beg smpl j warn,
  (String.length beg < fuel)%nat ->
  names_loop fuel h beg smpl j warn <> OutOfFuel.
Proof.
  induction fuel as [|fuel IH]; intros h beg smpl j warn Hf; [lia|].
  cbn [names_loop]. destruct beg as [|c beg0]; [discriminate|].
  set (beg := String c beg0) in *.
  destruct (scan_comma beg) as [name rest] eqn:Es.
  destruct (bcf_hdr_id2int_SAMPLE h name >=? 0).
  - destruct (arr_set smpl j (bcf_hdr_id2int_SAMPLE h name)) as [s| | |] eqn:Ea;
      cbn [bind]; try discriminate.
    + destruct rest as [beg'|]; [|discriminate].
      apply IH. apply scan_comma_rest in Es. lia.
    + unfold arr_set in Ea. destruct (j <? 0); [discriminate|].
      destruct (Nat.ltb (Z.to_nat j) (List.length smpl)); discriminate.
  - cbn [bind]. destruct rest as [beg'|]; [|discriminate].
    apply IH. apply scan_comma_rest in Es. lia.
Qed.

Lemma rename_loop_fuel : forall fuel shown k beg ren j,
  (String.length beg < fuel)%nat ->
  rename_loop fuel shown k beg ren j <> OutOfFuel.
Proof.
  induction fuel as [|fuel IH]; intros shown k beg ren j Hf; [lia|].
  cbn [rename_loop]. destruct beg as [|c beg0]; [discriminate|].
  set (beg := String c beg0) in *.
  destruct (scan_comma beg) as [name rest] eqn:Es.
  destruct (arr_set ren j (Some name)) as [r| | |] eqn:Ea;
    cbn [bind]; try discriminate.
  - destruct rest as [beg'|]; [|discriminate].
    destruct (j + 1 >=? k); [discriminate|].
    apply IH. apply scan_comma_rest in Es. lia.
  - unfold arr_set in Ea. destruct (j <? 0); [discriminate|].
    destruct (Nat.ltb (Z.to_nat j) (List.length ren)); discriminate.
Qed.

Lemma arr_get_fuel : forall A (a : list A) i, arr_get a i <> OutOfFuel.
Proof.
  intros A a i. unfold arr_get. destruct (i <? 0); [discriminate|].
  destruct (nth_error a (Z.to_nat i)); discriminate.
Qed.

Lemma subset_of_line_fuel : forall h str_s line,
  subset_of_line h str_s line <> OutOfFuel.
Proof.
  intros h str_s line. unfold subset_of_line.
  destruct (scan_names line false 1 "") as [[put k] ptr].
  match goal with
  | |- match ?s with Some _ => _ | None => _ end <> _ =>
      destruct s as [beg|]; [|discriminate]
  end.
  pose proof (names_loop_fuel (S (String.length beg)) h beg
                (repeat 0 (Z.to_nat k)) 0 [] ltac:(lia)) as Hn.
  destruct (names_loop (S (String.length beg)) h beg (repeat 0 (Z.to_nat k)) 0 [])
    as [[[smpl1 j1] warn1]| | |]; cbn [bind]; try discriminate;
    [|contradiction].
  destruct (j1 =? 0); [discriminate|].
  destruct (skip_spaces ptr) as [|c ptr0] eqn:Ep.
  - pose proof (arr_get_fuel _ smpl1 0) as H0.
    destruct (arr_get smpl1 0) as [i0| | |]; cbn [bind]; try discriminate;
      [|contradiction].
    pose proof (arr_get_fuel _ (hdr_samples h) i0) as H1.
    destruct (arr_get (hdr_samples h) i0) as [nm| | |]; cbn [bind];
      try discriminate. contradiction.
  - pose proof (rename_loop_fuel (S (String.length (String c ptr0)))
                  (line_shown line (String c ptr0)) k
                  (String c ptr0) (repeat None (Z.to_nat k)) 0 ltac:(lia)) as Hr.
    destruct (rename_loop (S (String.length (String c ptr0)))
                (line_shown line (String c ptr0)) k (String c ptr0)
                (repeat None (Z.to_nat k)) 0) as [ren| | |];
      cbn [bind]; try discriminate; [|contradiction].
    pose proof (arr_get_fuel _ ren 0) as H0.
    destruct (arr_get ren 0) as [[nm|]| | |]; cbn [bind]; try discriminate.
    contradiction.
Qed.

Lemma lines_loop_fuel : forall h files str_s acc warn,
  lines_loop h files str_s acc warn <> OutOfFuel.
Proof.
  intros h files. induction files as [|line files IH]; intros str_s acc warn;
    cbn [lines_loop]; [discriminate|].
  pose proof (subset_of_line_fuel h str_s line) as Hl.
  destruct (subset_of_line h str_s line) as [[[set s1] w1]| | |]; cbn [bind];
    try discriminate; [|contradiction].
  apply IH.
Qed.

(** [init_subsets] never stops for lack of fuel. *)
Lemma init_subsets_fuel : forall rl args, init_subsets rl args <> OutOfFuel.
Proof.
  intros rl args. destruct (samples_fname args) as [path|] eqn:Ef.
  - unfold init_subsets. rewrite Ef.
    destruct (rl path) as [[|line files]|]; try discriminate.
    pose proof (lines_loop_fuel (hdr_in args) (line :: files) None [] []) as Hl.
    destruct (lines_loop (hdr_in args) (line :: files) None [] [])
      as [[s w]| | |]; cbn [bind]; try discriminate. contradiction.
  - rewrite init_subsets_implicit by assumption. discriminate.
Qed.

(** *** Tokens, markers and keywords *)

Lemma tolower_comma : forall c, Ascii.eqb (tolower c) "," = Ascii.eqb c ",".
Proof.
  intros [[|] [|] [|] [|] [|] [|] [|] [|]]; reflexivity.
Qed.

Lemma eqb_lower_comma_r : forall x,
  Ascii.eqb x "," = false -> Ascii.eqb (tolower x) "," = false.
Proof.
  intros x H. now rewrite tolower_comma.
Qed.

Lemma eqb_lower_comma_l : forall y,
  Ascii.eqb y "," = false -> Ascii.eqb "," (tolower y) = false.
Proof.
  intros y H. rewrite Ascii.eqb_sym. now apply eqb_lower_comma_r.
Qed.

Lemma scan_comma_app : forall t rest,
  has_comma t = false ->
  scan_comma (t ++ String "," rest)%string = (t, Some rest).
Proof.
  induction t as [|c t IH]; intros rest H; simpl in *; [reflexivity|].
  apply orb_false_iff in H. destruct H as [Hc Ht].
  now rewrite Hc, IH.
Qed.

Lemma scan_comma_last : forall t,
  has_comma t = false -> scan_comma t = (t, None).
Proof.
  induction t as [|c t IH]; intros H; simpl in *; [reflexivity|].
  apply orb_false_iff in H. destruct H as [Hc Ht].
  now rewrite Hc, IH.
Qed.

Lemma marker_app : forall k pat t rest,
  has_comma pat = false -> (k <= String.length pat)%nat ->
  strncasecmp_eq pat (t ++ String "," rest)%string k = strncasecmp_eq pat t k.
Proof.
  induction k as [|k IH]; intros pat t rest Hp Hk; [reflexivity|].
  destruct pat as [|x pat]; [simpl in Hk; lia|]. simpl in Hp, Hk.
  apply orb_false_iff in Hp. destruct Hp as [Hx Hp].
  destruct t as [|y t]; str_step.
  - now rewrite (eqb_lower_comma_r x Hx).
  - destruct (Ascii.eqb (tolower x) (tolower y)); [|reflexivity].
    apply IH; [assumption|lia].
Qed.

Lemma keyword_app : forall pat t rest,
  has_comma pat = false ->
  strcasecmp_eq pat (t ++ String "," rest)%string = false.
Proof.
  induction pat as [|x pat IH]; intros t rest Hp.
  - destruct t; reflexivity.
  - simpl in Hp. apply orb_false_iff in Hp. destruct Hp as [Hx Hp].
    destruct t as [|y t]; str_step.
    + now rewrite (eqb_lower_comma_r x Hx).
    + destruct (Ascii.eqb (tolower x) (tolower y)); [|reflexivity].
      now apply IH.
Qed.

Lemma keyword_comma_app : forall pat t rest,
  has_comma pat = false -> has_comma t = false ->
  strncasecmp_eq (pat ++ ",")%string (t ++ String "," rest)%string
                 (S (String.length pat))
  = strcasecmp_eq pat t.
Proof.
  induction pat as [|x pat IH]; intros t rest Hp Ht.
  - destruct t as [|y t]; [reflexivity|]. simpl in Ht. str_step.
    apply orb_false_iff in Ht. destruct Ht as [Hy _].
    now rewrite (eqb_lower_comma_l y Hy).
  - simpl in Hp. apply orb_false_iff in Hp. destruct Hp as [Hx Hp].
    destruct t as [|y t].
    + str_step. now rewrite (eqb_lower_comma_r x Hx).
    + simpl in Ht. apply orb_false_iff in Ht. destruct Ht as [_ Ht].
      str_step. destruct (Ascii.eqb (tolower x) (tolower y)); [|reflexivity].
      now apply IH.
Qed.

Lemma keyword_comma_last : forall pat t,
  has_comma t = false ->
  strncasecmp_eq (pat ++ ",")%string t (S (String.length pat)) = false.
Proof.
  induction pat as [|x pat IH]; intros t Ht.
  - destruct t as [|y t]; [reflexivity|]. simpl in Ht. str_step.
    apply orb_false_iff in Ht. destruct Ht as [Hy _].
    now rewrite (eqb_lower_comma_l y Hy).
  - destruct t as [|y t]; [reflexivity|].
    simpl in Ht. apply orb_false_iff in Ht. destruct Ht as [_ Ht].
    str_step. destruct (Ascii.eqb (tolower x) (tolower y)); [|reflexivity].
    now apply IH.
Qed.

Lemma bare_name_parts : forall t,
  bare_name t = true ->
  t <> EmptyString /\ has_comma t = false /\
  strncasecmp_eq "INFO/" t 5 = false /\ strncasecmp_eq "FMT/" t 4 = false /\
  strncasecmp_eq "FORMAT/" t 7 = false /\
  strcasecmp_eq "INFO" t = false /\ strcasecmp_eq "FMT" t = false /\
  strcasecmp_eq "FORMAT" t = false.
Proof.
  intros t H. unfold bare_name, has_marker, is_keyword in H.
  repeat match type of H with
         | (_ && _)%bool = true =>
             let H' := fresh in apply andb_true_iff in H; destruct H as [H H']
         end.
  repeat match goal with
         | H : negb _ = true |- _ => apply negb_true_iff in H
         | H : (_ || _)%bool = false |- _ =>
             let H' := fresh in apply orb_false_iff in H; destruct H as [H H']
         end.
  repeat split; try assumption.
  intros ->. discriminate.
Qed.

Lemma string_length_app : forall s1 s2,
  String.length (s1 ++ s2)%string = (String.length s1 + String.length s2)%nat.
Proof.
  induction s1 as [|c s1 IH]; intros s2; simpl; [reflexivity|].
  now rewrite IH.
Qed.

Lemma bind_ok_r : forall A (m : result A), (do x <- m; Ok x) = m.
Proof. now intros A [a| | |]. Qed.

(** A bare name that is followed by more of the list. *)
Lemma tags_from_bare : forall is_info is_fmt t rest a,
  bare_name t = true ->
  tags_from is_info is_fmt (t ++ String "," rest)%string a
  = do a' <- record_tag is_info is_fmt (bcf_hdr_id2int_ID (hdr_in a) t) a;
    tags_from is_info is_fmt rest a'.
Proof.
  intros is_info is_fmt t rest a H.
  destruct (bare_name_parts t H) as (Hne & Hc & M1 & M2 & M3 & K1 & K2 & K3).
  unfold tags_from at 1. rewrite tags_loop_unfold.
  destruct t as [|c t]; [congruence|].
  set (tk := String c t) in *.
  change (String c t ++ String "," rest)%string
    with (tk ++ String "," rest)%string.
  change (String c (t ++ String "," rest)%string)
    with (tk ++ String "," rest)%string.
  cbv iota.
  rewrite (marker_app 5 "INFO/" tk rest eq_refl ltac:(simpl; lia)), M1.
  rewrite (keyword_app "INFO" tk rest eq_refl).
  rewrite (keyword_comma_app "INFO" tk rest eq_refl Hc
           : strncasecmp_eq "INFO," _ 5 = _), K1.
  rewrite (marker_app 4 "FMT/" tk rest eq_refl ltac:(simpl; lia)), M2.
  rewrite (marker_app 7 "FORMAT/" tk rest eq_refl ltac:(simpl; lia)), M3.
  rewrite (keyword_app "FMT" tk rest eq_refl).
  rewrite (keyword_app "FORMAT" tk rest eq_refl).
  rewrite (keyword_comma_app "FMT" tk rest eq_refl Hc
           : strncasecmp_eq "FMT," _ 4 = _), K2.
  rewrite (keyword_comma_app "FORMAT" tk rest eq_refl Hc
           : strncasecmp_eq "FORMAT," _ 7 = _), K3.
  rewrite name_step_unfold, (scan_comma_app tk rest Hc). cbn [fst snd].
  destruct (record_tag is_info is_fmt (bcf_hdr_id2int_ID (hdr_in a) tk) a);
    try reflexivity.
  cbn [bind]. apply tags_from_fuel.
  rewrite string_length_app. simpl. lia.
Qed.

(** A bare name that ends the list. *)
Lemma tags_from_bare_last : forall is_info is_fmt t a,
  bare_name t = true ->
  tags_from is_info is_fmt t a
  = record_tag is_info is_fmt (bcf_hdr_id2int_ID (hdr_in a) t) a.
Proof.
  intros is_info is_fmt t a H.
  destruct (bare_name_parts t H) as (Hne & Hc & M1 & M2 & M3 & K1 & K2 & K3).
  unfold tags_from. rewrite tags_loop_unfold.
  destruct t as [|c t]; [congruence|].
  set (tk := String c t) in *. cbv iota.
  rewrite M1, K1.
  rewrite (keyword_comma_last "INFO" tk Hc : strncasecmp_eq "INFO," _ 5 = _).
  rewrite M2, M3, K2, K3.
  rewrite (keyword_comma_last "FMT" tk Hc : strncasecmp_eq "FMT," _ 4 = _).
  rewrite (keyword_comma_last "FORMAT" tk Hc
           : strncasecmp_eq "FORMAT," _ 7 = _).
  rewrite name_step_unfold, (scan_comma_last tk Hc). cbn [fst snd].
  destruct (record_tag is_info is_fmt (bcf_hdr_id2int_ID (hdr_in a) tk) a);
    reflexivity.
Qed.

Lemma scan_comma_first_no_comma : forall s,
  has_comma (fst (scan_comma s)) = false.
Proof.
  induction s as [|c s IH]; [reflexivity|]. simpl.
  destruct (Ascii.eqb c ",") eqn:E; [reflexivity|].
  destruct (scan_comma s) as [tok rest]. simpl in *. now rewrite E.
Qed.

Lemma scan_comma_split : forall s,
  match snd (scan_comma s) with
  | Some r => s = (fst (scan_comma s) ++ String "," r)%string
  | None => s = fst (scan_comma s)
  end.
Proof.
  induction s as [|c s IH]; [reflexivity|]. simpl.
  destruct (Ascii.eqb c ",") eqn:E.
  - apply Ascii.eqb_eq in E. subst. reflexivity.
  - destruct (scan_comma s) as [tok [r|]]; simpl in *; now rewrite IH at 1.
Qed.

Lemma tags_from_bare_name : forall is_info is_fmt beg a,
  bare_name (first_name beg) = true ->
  tags_from is_info is_fmt beg a
  = do a' <- record_tag is_info is_fmt
                        (bcf_hdr_id2int_ID (hdr_in a) (first_name beg)) a;
    tags_from is_info is_fmt (after_name beg) a'.
Proof.
  intros is_info is_fmt beg a H. unfold first_name, after_name in *.
  pose proof (scan_comma_split beg) as Hs.
  destruct (snd (scan_comma beg)) as [r|].
  - rewrite Hs at 1. apply tags_from_bare. assumption.
  - rewrite Hs at 1. rewrite tags_from_bare_last by assumption.
    destruct (record_tag is_info is_fmt _ a); reflexivity.
Qed.

(** *** Markers *)

Lemma lower_eq : forall x y,
  Ascii.eqb (tolower x) (tolower y) = true -> tolower x = tolower y.
Proof. intros x y H. now apply Ascii.eqb_eq. Qed.

(** A text that starts like [pat] does not start like a [q] that differs
    from [pat] early enough. *)
Lemma other_prefix : forall k pat beg,
  strncasecmp_eq pat beg k = true ->
  forall j q, strncasecmp_eq q pat (Nat.min j k) = false ->
              strncasecmp_eq q beg j = false.
Proof.
  induction k as [|k IH]; intros pat beg H j q Hq.
  - rewrite Nat.min_0_r in Hq. discriminate.
  - destruct j as [|j]; [discriminate|].
    cbn [Nat.min] in Hq.
    destruct pat as [|x pat], beg as [|y beg]; cbn [strncasecmp_eq] in H;
      try discriminate.
    + destruct q; [discriminate|reflexivity].
    + destruct (Ascii.eqb (tolower x) (tolower y)) eqn:E; [|discriminate].
      apply lower_eq in E.
      destruct q as [|c q]; [reflexivity|].
      cbn [strncasecmp_eq] in Hq |- *. rewrite <- E.
      destruct (Ascii.eqb (tolower c) (tolower x)); [|reflexivity].
      now apply (IH pat beg H j q).
Qed.

Lemma other_keyword : forall k pat beg,
  strncasecmp_eq pat beg k = true ->
  forall q, strncasecmp_eq q pat k = false -> strcasecmp_eq q beg = false.
Proof.
  induction k as [|k IH]; intros pat beg H q Hq; [discriminate|].
  destruct pat as [|x pat], beg as [|y beg]; cbn [strncasecmp_eq] in H;
    try discriminate.
  - destruct q; [discriminate|reflexivity].
  - destruct (Ascii.eqb (tolower x) (tolower y)) eqn:E; [|discriminate].
    apply lower_eq in E.
    destruct q as [|c q]; [reflexivity|].
    cbn [strncasecmp_eq] in Hq. cbn [strcasecmp_eq]. rewrite <- E.
    destruct (Ascii.eqb (tolower c) (tolower x)); [|reflexivity].
    now apply (IH pat beg H q).
Qed.

Lemma after_marker : forall fuel k pat is_info is_fmt beg a,
  (0 < k <= String.length pat)%nat ->
  strncasecmp_eq pat beg k = true ->
  (String.length beg <= fuel)%nat ->
  name_step fuel is_info is_fmt (advance k beg) a
  = do a' <- record_tag is_info is_fmt
               (bcf_hdr_id2int_ID (hdr_in a) (first_name (advance k beg))) a;
    tags_from is_info is_fmt (after_name (advance k beg)) a'.
Proof.
  intros fuel k pat is_info is_fmt beg a Hk Hp Hf.
  rewrite name_step_unfold. unfold first_name, after_name.
  destruct (record_tag is_info is_fmt _ a); try reflexivity. cbn [bind].
  apply tags_from_fuel.
  pose proof (prefix_advance k pat beg ltac:(lia) Hp).
  pose proof (scan_comma_next (advance k beg)). lia.
Qed.

Lemma tags_from_info_marker : forall is_info is_fmt beg a,
  strncasecmp_eq "INFO/" beg 5 = true ->
  tags_from is_info is_fmt beg a
  = do a' <- record_tag true false
               (bcf_hdr_id2int_ID (hdr_in a) (first_name (advance 5 beg))) a;
    tags_from true false (after_name (advance 5 beg)) a'.
Proof.
  intros is_info is_fmt beg a H. unfold tags_from at 1.
  rewrite tags_loop_unfold, H.
  destruct beg; [discriminate|].
  apply (after_marker _ 5 "INFO/"); [simpl; lia|assumption|lia].
Qed.

Lemma tags_from_fmt_marker : forall is_info is_fmt beg a,
  strncasecmp_eq "FMT/" beg 4 = true ->
  tags_from is_info is_fmt beg a
  = do a' <- record_tag false true
               (bcf_hdr_id2int_ID (hdr_in a) (first_name (advance 4 beg))) a;
    tags_from false true (after_name (advance 4 beg)) a'.
Proof.
  intros is_info is_fmt beg a H. unfold tags_from at 1.
  rewrite tags_loop_unfold, H.
  rewrite (other_prefix 4 "FMT/" beg H 5 "INFO/" eq_refl).
  rewrite (other_keyword 4 "FMT/" beg H "INFO" eq_refl).
  rewrite (other_prefix 4 "FMT/" beg H 5 "INFO," eq_refl).
  destruct beg; [discriminate|].
  apply (after_marker _ 4 "FMT/"); [simpl; lia|assumption|lia].
Qed.

Lemma tags_from_format_marker : forall is_info is_fmt beg a,
  strncasecmp_eq "FORMAT/" beg 7 = true ->
  tags_from is_info is_fmt beg a
  = do a' <- record_tag false true
               (bcf_hdr_id2int_ID (hdr_in a) (first_name (advance 7 beg))) a;
    tags_from false true (after_name (advance 7 beg)) a'.
Proof.
  intros is_info is_fmt beg a H. unfold tags_from at 1.
  rewrite tags_loop_unfold.
  rewrite (other_prefix 7 "FORMAT/" beg H 5 "INFO/" eq_refl).
  rewrite (other_keyword 7 "FORMAT/" beg H "INFO" eq_refl).
  rewrite (other_prefix 7 "FORMAT/" beg H 5 "INFO," eq_refl).
  rewrite (other_prefix 7 "FORMAT/" beg H 4 "FMT/" eq_refl), H.
  destruct beg; [discriminate|].
  apply (after_marker _ 7 "FORMAT/"); [simpl; lia|assumption|lia].
Qed.

(** *** Keywords followed by more of the list *)

Lemma tags_from_info_keyword : forall is_info is_fmt beg a,
  strncasecmp_eq "INFO," beg 5 = true ->
  tags_from is_info is_fmt beg a
  = tags_from is_info is_fmt (advance 5 beg) (set_keep_info a 1).
Proof.
  intros is_info is_fmt beg a H. unfold tags_from at 1.
  rewrite tags_loop_unfold, H.
  rewrite (other_prefix 5 "INFO," beg H 5 "INFO/" eq_refl).
  rewrite (other_keyword 5 "INFO," beg H "INFO" eq_refl).
  destruct beg; [discriminate|]. apply tags_from_fuel.
  pose proof (prefix_advance 5 "INFO," _ ltac:(simpl; lia) H). lia.
Qed.

Lemma tags_from_fmt_keyword : forall is_info is_fmt beg a,
  strncasecmp_eq "FMT," beg 4 = true ->
  tags_from is_info is_fmt beg a
  = tags_from is_info is_fmt (advance 4 beg) (set_keep_fmt a 1).
Proof.
  intros is_info is_fmt beg a H. unfold tags_from at 1.
  rewrite tags_loop_unfold, H.
  rewrite (other_prefix 4 "FMT," beg H 5 "INFO/" eq_refl).
  rewrite (other_keyword 4 "FMT," beg H "INFO" eq_refl).
  rewrite (other_prefix 4 "FMT," beg H 5 "INFO," eq_refl).
  rewrite (other_prefix 4 "FMT," beg H 4 "FMT/" eq_refl).
  rewrite (other_prefix 4 "FMT," beg H 7 "FORMAT/" eq_refl).
  rewrite (other_keyword 4 "FMT," beg H "FMT" eq_refl).
  rewrite (other_keyword 4 "FMT," beg H "FORMAT" eq_refl).
  destruct beg; [discriminate|]. apply tags_from_fuel.
  pose proof (prefix_advance 4 "FMT," _ ltac:(simpl; lia) H). lia.
Qed.

Lemma tags_from_format_keyword : forall is_info is_fmt beg a,
  strncasecmp_eq "FORMAT," beg 7 = true ->
  tags_from is_info is_fmt beg a
  = tags_from is_info is_fmt (advance 7 beg) (set_keep_fmt a 1).
Proof.
  intros is_info is_fmt beg a H. unfold tags_from at 1.
  rewrite tags_loop_unfold, H.
  rewrite (other_prefix 7 "FORMAT," beg H 5 "INFO/" eq_refl).
  rewrite (other_keyword 7 "FORMAT," beg H "INFO" eq_refl).
  rewrite (other_prefix 7 "FORMAT," beg H 5 "INFO," eq_refl).
  rewrite (other_prefix 7 "FORMAT," beg H 4 "FMT/" eq_refl).
  rewrite (other_prefix 7 "FORMAT," beg H 7 "FORMAT/" eq_refl).
  rewrite (other_keyword 7 "FORMAT," beg H "FMT" eq_refl).
  rewrite (other_keyword 7 "FORMAT," beg H "FORMAT" eq_refl).
  rewrite (other_prefix 7 "FORMAT," beg H 4 "FMT," eq_refl).
  destruct beg; [discriminate|]. apply tags_from_fuel.
  pose proof (prefix_advance 7 "FORMAT," _ ltac:(simpl; lia) H). lia.
Qed.

(** *** The loop returns, and keeps the tables in order *)

Lemma set_keep_info_tables : forall a v, tables_ok a -> tables_ok (set_keep_info a v).
Proof. intros a v H. exact H. Qed.

Lemma set_keep_fmt_tables : forall a v, tables_ok a -> tables_ok (set_keep_fmt a v).
Proof. intros a v H. exact H. Qed.

Lemma tags_loop_ok : forall fuel is_info is_fmt beg a,
  (String.length beg < fuel)%nat -> tables_ok a ->
  exists a', tags_loop fuel is_info is_fmt beg a = Ok a' /\ tables_ok a'.
Proof.
  induction fuel as [|fuel IH]; intros is_info is_fmt beg a Hf Ha; [lia|].
  rewrite tags_loop_unfold.
  assert (Hname : forall ii jf s,
             (String.length (after_name s) < fuel)%nat ->
             exists a', name_step fuel ii jf s a = Ok a' /\ tables_ok a').
  { intros ii jf s Hs. rewrite name_step_unfold.
    destruct (record_tag_ok ii jf (bcf_hdr_id2int_ID (hdr_in a)
                                     (fst (scan_comma s))) a Ha)
      as (a1 & -> & Ha1 & _).
    cbn [bind]. now apply IH. }
  destruct beg as [|c beg']; [exists a; now split|].
  set (beg := String c beg') in *.
  assert (Hne : beg <> EmptyString) by (subst beg; discriminate).
  assert (Hadv : forall k pat, (0 < k <= String.length pat)%nat ->
             strncasecmp_eq pat beg k = true ->
             (String.length (advance k beg) < String.length beg)%nat).
  { intros k pat Hk Hp. pose proof (prefix_advance k pat beg ltac:(lia) Hp).
    lia. }
  assert (Hafter : forall k pat, (0 < k <= String.length pat)%nat ->
             strncasecmp_eq pat beg k = true ->
             (String.length (after_name (advance k beg)) < fuel)%nat).
  { intros k pat Hk Hp. pose proof (Hadv k pat Hk Hp).
    pose proof (scan_comma_next (advance k beg)). unfold after_name. lia. }
  destruct (strncasecmp_eq "INFO/" beg 5) eqn:E1.
  { apply Hname. apply (Hafter 5%nat "INFO/"); [simpl; lia|assumption]. }
  destruct (strcasecmp_eq "INFO" beg);
    [eexists; split; [reflexivity|now apply set_keep_info_tables]|].
  destruct (strncasecmp_eq "INFO," beg 5) eqn:E2.
  { pose proof (Hadv 5%nat "INFO," ltac:(simpl; lia) E2).
    apply IH; [lia|now apply set_keep_info_tables]. }
  destruct (strncasecmp_eq "FMT/" beg 4) eqn:E3.
  { apply Hname. apply (Hafter 4%nat "FMT/"); [simpl; lia|assumption]. }
  destruct (strncasecmp_eq "FORMAT/" beg 7) eqn:E4.
  { apply Hname. apply (Hafter 7%nat "FORMAT/"); [simpl; lia|assumption]. }
  destruct (strcasecmp_eq "FMT" beg);
    [eexists; split; [reflexivity|now apply set_keep_fmt_tables]|].
  destruct (strcasecmp_eq "FORMAT" beg);
    [eexists; split; [reflexivity|now apply set_keep_fmt_tables]|].
  destruct (strncasecmp_eq "FMT," beg 4) eqn:E5.
  { pose proof (Hadv 4%nat "FMT," ltac:(simpl; lia) E5).
    apply IH; [lia|now apply set_keep_fmt_tables]. }
  destruct (strncasecmp_eq "FORMAT," beg 7) eqn:E6.
  { pose proof (Hadv 7%nat "FORMAT," ltac:(simpl; lia) E6).
    apply IH; [lia|now apply set_keep_fmt_tables]. }
  apply Hname. pose proof (scan_comma_next_lt beg Hne). unfold after_name. lia.
Qed.

Lemma no_tags_yet_tables : forall a, no_tags_yet a -> tables_ok a.
Proof.
  intros a (_ & _ & N1 & M1 & T1 & N2 & M2 & T2).
  split; unfold table_ok.
  - rewrite N1, M1, T1. simpl. repeat split; lia.
  - rewrite N2, M2, T2. simpl. repeat split; lia.
Qed.

(** The parser returns, whatever the specification. *)
Lemma parse_tags_ok : forall a,
  tables_ok a -> exists p, parse_tags a = Ok p /\ tables_ok p.
Proof.
  intros a Ha. unfold parse_tags. destruct (keep_tags a) as [beg|].
  - apply tags_loop_ok; [lia|assumption].
  - exists a. now split.
Qed.

Lemma table_nonempty : forall n m tab,
  table_ok n m tab -> ((exists id, in_table n tab id = true) <-> 0 < n).
Proof.
  intros n m tab ((Hn & _) & _ & Hlast). split.
  - intros [id H]. unfold in_table in H.
    apply andb_true_iff in H. destruct H as [H _].
    apply andb_true_iff in H. destruct H as [H0 H1].
    apply Z.leb_le in H0. apply Z.ltb_lt in H1. lia.
  - intros Hpos. exists (n - 1). unfold in_table.
    rewrite (Hlast Hpos).
    destruct (Z.leb_spec 0 (n - 1)); [|lia].
    destruct (Z.ltb_spec (n - 1) n); [reflexivity|lia].
Qed.

(** ** The flags and tables after parsing *)

Lemma tag_defaults_tables : forall p,
  ninfo_tags (tag_defaults p) = ninfo_tags p /\
  info_tags (tag_defaults p) = info_tags p /\
  nfmt_tags (tag_defaults p) = nfmt_tags p /\
  fmt_tags (tag_defaults p) = fmt_tags p.
Proof.
  intros p. defaults_cases p; repeat split.
Qed.

Lemma tag_defaults_fmt : forall p,
  keep_fmt (tag_defaults p) <> 0 \/ nfmt_tags p <> 0.
Proof.
  intros p. defaults_cases p;
    try (left; discriminate);
    try (right; apply Z.eqb_neq; assumption);
    try (left; apply Z.eqb_neq; assumption).
Qed.

Lemma tag_defaults_forced : forall p,
  keep_fmt p = 0 -> nfmt_tags p = 0 -> keep_fmt (tag_defaults p) = 1.
Proof.
  intros p Hk Hn. apply Z.eqb_eq in Hk, Hn.
  defaults_cases p; congruence.
Qed.

(** The tables [select_tags] leaves are in order; in particular the test of
    [rec_set_format] reads inside the per-sample table. *)
Lemma select_tags_tables : forall a a',
  tables_ok a -> select_tags a = Ok a' -> tables_ok a' /\ fmt_table_ok a'.
Proof.
  intros a a' Ha H. unfold select_tags in H.
  destruct (parse_tags_ok a Ha) as (p & Hp & Hok). rewrite Hp in H.
  cbn [bind] in H. inversion H; subst a'.
  destruct (tag_defaults_tables p) as (N1 & T1 & N2 & T2).
  assert (Hd : tables_ok (tag_defaults p)).
  { destruct Hok as [Hi Hf]. unfold tables_ok, table_ok in *.
    rewrite N1, T1, N2, T2.
    assert (minfo_tags (tag_defaults p) = minfo_tags p /\
            mfmt_tags (tag_defaults p) = mfmt_tags p) as [-> ->]
      by (defaults_cases p; split; reflexivity).
    split; assumption. }
  split; [assumption|].
  destruct Hd as [_ ((_ & Hnm) & Hlen & _)]. unfold fmt_table_ok. lia.
Qed.

Lemma in_table_none : forall tab id, in_table 0 tab id = false.
Proof.
  intros tab id. unfold in_table.
  destruct (Z.leb_spec 0 id); destruct (Z.ltb_spec id 0); try reflexivity; lia.
Qed.

(** C6: the flag and the table of a category are not exclusive, and for
    the site-level category both may be empty.  With [-k FMT] neither the
    keep-all-site flag is set nor is any site-level id retained; with
    [-k INFO/DP,INFO] and [-k FMT/GT,FMT] the flag is set and the table is
    not empty. *)
Lemma tag_flags_not_exclusive :
  (exists a',
     select_tags (Demo.args (Some "FMT") None) = Ok a' /\
     keep_info a' = 0 /\
     forall id, in_table (ninfo_tags a') (info_tags a') id = false) /\
  (exists a',
     select_tags (Demo.args (Some "INFO/DP,INFO") None) = Ok a' /\
     keep_info a' = 1 /\ in_table (ninfo_tags a') (info_tags a') 1 = true) /\
  (exists a',
     select_tags (Demo.args (Some "FMT/GT,FMT") None) = Ok a' /\
     keep_fmt a' = 1 /\ in_table (nfmt_tags a') (fmt_tags a') 3 = true).
Proof.
  split; [|split]; eexists; (split; [vm_compute; reflexivity|]);
    (split; [reflexivity|]).
  - intros id. apply in_table_none.
  - reflexivity.
  - reflexivity.
Qed.

Lemma filter_all : forall A (f : A -> bool) (l : list A),
  (forall x, f x = true) -> List.filter f l = l.
Proof.
  intros A f l H. induction l as [|x l IH]; simpl; [reflexivity|].
  now rewrite H, IH.
Qed.

(** C7: when the loop over the specification has retained no per-sample id
    and no bare [FMT] or [FORMAT] keyword has set the keep-all-sample flag,
    the parser sets that flag to 1, and [rec_set_format] then puts every
    per-sample field of a decoded record into the output. *)
Theorem keep_all_samples_forced : forall a p,
  no_tags_yet a ->
  parse_tags a = Ok p ->
  keep_fmt p = 0 ->
  (forall id, in_table (nfmt_tags p) (fmt_tags p) id = false) ->
  select_tags a = Ok (tag_defaults p) /\
  keep_fmt (tag_defaults p) = 1 /\
  forall bcf_enc_int1 bcf_enc_size set src dst,
    decoded_fmt src -> group_in_range set src ->
    rec_set_format bcf_enc_int1 bcf_enc_size (tag_defaults p) set src dst
    = Ok (set_indiv
            (set_unpacked dst (Z.land (unpacked dst) (Z.lnot BCF_UN_FMT)))
            (n_fmt src)
            (flat_map
               (fun f =>
                  bcf_enc_int1 (id f) ++ bcf_enc_size (n f) (type f)
                  ++ flat_map (sample_slice src f) (smpl set))
               (d_fmt src))).
Proof.
  intros a p Hz Hp Hk Hnone.
  destruct (parse_tags_ok a (no_tags_yet_tables a Hz)) as (p' & Hp' & [Hi Hf]).
  assert (p' = p) as -> by congruence.
  assert (Hn : nfmt_tags p = 0).
  { destruct (Z.eq_dec (nfmt_tags p) 0) as [E|E]; [assumption|].
    assert (Hpos : 0 < nfmt_tags p) by (destruct Hf as ((? & _) & _); lia).
    apply (table_nonempty _ _ _ Hf) in Hpos. destruct Hpos as [id Hid].
    rewrite Hnone in Hid. discriminate. }
  pose proof (tag_defaults_forced p Hk Hn) as Hforced.
  split; [unfold select_tags; now rewrite Hp|].
  split; [assumption|].
  intros bcf_enc_int1 bcf_enc_size set src dst Hdec Hg.
  assert (Htab : fmt_table_ok (tag_defaults p)).
  { unfold fmt_table_ok.
    destruct (tag_defaults_tables p) as (_ & _ & -> & _). lia. }
  rewrite rec_set_format_spec by assumption.
  unfold per_sample_block.
  rewrite filter_all
    by (intros f; unfold fmt_retained; now rewrite Hforced).
  destruct Hdec as (Hnf & _). rewrite <- Hnf.
  do 2 f_equal. apply flat_map_ext. intros f.
  unfold fmt_unit, fmt_header. now rewrite app_assoc.
Qed.

Lemma keep_all_samples_forced_witness :
  keep_fmt (Demo.selected (Some "INFO/AC")) = 1 /\
  rec_set_format Demo.enc_int1 Demo.enc_size
                 (Demo.selected (Some "INFO/AC")) (Demo.group [1])
                 Demo.rec bcf_init1
  = Ok (set_indiv bcf_init1 2
          [x11; x03; x21; x02; x04;  x11; x01; x11; x14]).
Proof.
  assert (Hp : parse_tags (Demo.args (Some "INFO/AC") None)
               = Ok (set_info_tags (Demo.args (Some "INFO/AC") None) 6 8
                                   [0; 0; 0; 0; 0; 1; 0; 0]))
    by (vm_compute; reflexivity).
  destruct (keep_all_samples_forced
              (Demo.args (Some "INFO/AC") None) _
              ltac:(repeat split) Hp eq_refl
              ltac:(intros id; apply in_table_none))
    as (_ & Hk & Hfmt).
  split; [exact Hk|].
  apply (Hfmt Demo.enc_int1 Demo.enc_size (Demo.group [1])
              Demo.rec bcf_init1).
  - split; [reflexivity|]. split; [reflexivity|].
    repeat constructor; vm_compute; congruence.
  - split; [reflexivity|]. repeat constructor; vm_compute; congruence.
Defined.

(** ** Groups read from a samples file *)

(** C4: a name that does not resolve is warned about and is not stored,
    but the group keeps the sample count taken from the number of names.
    For the line [B,ZZ] on a header with the samples A, B, C the group has
    two samples, B and the sample of index 0 left by [calloc], and the
    header of its output file names B and A. *)
Theorem unresolved_name_keeps_its_slot :
  exists a recs,
    init_data (Demo.env ["B,ZZ"]) (Demo.args None (Some "groups.txt"))
    = Ok (a, recs, ["ZZ"]) /\
    map nsmpl (sets a) = [2] /\
    map smpl (sets a) = [[1; 0]] /\
    map hdr_out_samples (sets a) = [[Some "B"; Some "A"]] /\
    map (fun s => option_map fn (fh s)) (sets a) = [Some "out/B.vcf"].
Proof.
  do 2 eexists. split; [vm_compute; reflexivity|]. repeat split.
Qed.

(** C5: a second column with fewer names than the first is accepted.  For
    the line [A,B X] the group has two samples and one new name, no error
    is raised, and [init_data] goes on to open the output file. *)
Theorem short_rename_column_accepted :
  exists a recs,
    init_data (Demo.env ["A,B X"]) (Demo.args None (Some "groups.txt"))
    = Ok (a, recs, []) /\
    map nsmpl (sets a) = [2] /\
    map rename (sets a) = [Some [Some "X"; None]] /\
    map hdr_out_samples (sets a) = [[Some "X"; None]] /\
    map (fun s => option_map fn (fh s)) (sets a) = [Some "out/X.vcf"].
Proof.
  do 2 eexists. split; [vm_compute; reflexivity|]. repeat split.
Qed.

(** A second column with more names than the first is rejected. *)
Lemma long_rename_column_rejected :
  init_data (Demo.env ["A X,Y"]) (Demo.args None (Some "groups.txt"))
  = Fatal (rename_error "A X").
Proof. vm_compute. reflexivity. Qed.

(** A line whose names all fail to resolve yields no group. *)
Lemma unresolved_line_dropped :
  exists a,
    init_subsets (fun _ => Some ["ZZ,YY"; "C"])
                 (Demo.args None (Some "groups.txt"))
    = Ok (a, ["ZZ"; "YY"]) /\
    map smpl (sets a) = [[2]] /\ map fname (sets a) = ["C"].
Proof. eexists. split; [vm_compute; reflexivity|]. repeat split. Qed.

(** ** The filter gate *)

Lemma logic_values : forall l,
  l = 0 \/ l = 1 \/ l = 2 \/ l = 3 ->
  (Z.lor l FLT_EXCLUDE = 2 \/ Z.lor l FLT_EXCLUDE = 3) /\
  (Z.lor l FLT_INCLUDE = 1 \/ Z.lor l FLT_INCLUDE = 3) /\
  (l = 1 \/ l = 3 -> Z.lor l FLT_EXCLUDE = 3) /\
  (l = 2 \/ l = 3 -> Z.lor l FLT_INCLUDE = 3).
Proof.
  intros l [ -> | [ -> | [ -> | -> ] ] ]; unfold FLT_EXCLUDE, FLT_INCLUDE; cbn; repeat split; intros; lia.
Qed.

Lemma handle_option_logic : forall a o a',
  handle_option a o = Ok a' ->
  filter_logic a'
  = if is_opt_e o then Z.lor (filter_logic a) FLT_EXCLUDE
    else if is_opt_i o then Z.lor (filter_logic a) FLT_INCLUDE
    else filter_logic a.
Proof.
  intros a o a' H. destruct o; cbn in H |- *;
    try (inversion H; subst; reflexivity).
  destruct optarg as [|c s]; [discriminate|].
  destruct c as [[|] [|] [|] [|] [|] [|] [|] [|]]; cbn in H;
    try discriminate; inversion H; subst; reflexivity.
Qed.

Lemma handle_options_logic : forall opts a a',
  handle_options a opts = Ok a' ->
  filter_logic a = 0 \/ filter_logic a = 1 \/ filter_logic a = 2 \/
  filter_logic a = 3 ->
  (filter_logic a' = 0 \/ filter_logic a' = 1 \/ filter_logic a' = 2 \/
   filter_logic a' = 3) /\
  ((filter_logic a = 2 \/ filter_logic a = 3) \/ existsb is_opt_e opts = true ->
   filter_logic a' = 2 \/ filter_logic a' = 3) /\
  ((filter_logic a = 1 \/ filter_logic a = 3) \/ existsb is_opt_i opts = true ->
   filter_logic a' = 1 \/ filter_logic a' = 3).
Proof.
  induction opts as [|o opts IH]; intros a a' H Hl.
  - cbn in H. inversion H; subst. cbn.
    repeat split; try assumption; intros [?|?]; try assumption; discriminate.
  - cbn [handle_options] in H.
    destruct (handle_option a o) as [a1| | |] eqn:Eo; try discriminate.
    cbn [bind] in H. pose proof (handle_option_logic a o a1 Eo) as L1.
    destruct (logic_values (filter_logic a) Hl) as (V1 & V2 & V3 & V4).
    assert (Hl1 : filter_logic a1 = 0 \/ filter_logic a1 = 1 \/
                  filter_logic a1 = 2 \/ filter_logic a1 = 3).
    { rewrite L1. destruct (is_opt_e o);
        [destruct V1 as [->| ->]; auto|].
      destruct (is_opt_i o); [destruct V2 as [->| ->]; auto|assumption]. }
    destruct (IH a1 a' H Hl1) as (I1 & I2 & I3).
    split; [assumption|]. cbn [existsb]. split.
    + intros He. apply I2.
      destruct (is_opt_e o) eqn:Ee.
      * left. rewrite L1. exact V1.
      * rewrite L1. destruct He as [He|He].
        -- left. destruct (is_opt_i o); [right; now apply V4|assumption].
        -- now right.
    + intros Hi. apply I3.
      destruct (is_opt_i o) eqn:Ei.
      * left. rewrite L1. destruct (is_opt_e o) eqn:Ee.
        -- destruct o; discriminate.
        -- exact V2.
      * rewrite L1. destruct Hi as [Hi|Hi].
        -- left. destruct (is_opt_e o); [right; now apply V3|assumption].
        -- now right.
Qed.

Lemma both_polarities : forall opts a,
  handle_options args0 opts = Ok a ->
  existsb is_opt_e opts = true -> existsb is_opt_i opts = true ->
  filter_logic a = 3.
Proof.
  intros opts a H He Hi.
  destruct (handle_options_logic opts args0 a H ltac:(cbn; auto))
    as (_ & I2 & I3).
  specialize (I2 (or_intror He)). specialize (I3 (or_intror Hi)). lia.
Qed.

Lemma handle_option_total : forall a o,
  (exists a', handle_option a o = Ok a') \/
  (exists msg, handle_option a o = Fatal msg).
Proof.
  intros a o. destruct o; cbn; try (left; now eexists);
    try (right; now eexists).
  destruct optarg as [|c s]; [right; now eexists|].
  destruct c as [[|] [|] [|] [|] [|] [|] [|] [|]]; cbn;
    try (left; now eexists); right; now eexists.
Qed.

Lemma handle_options_total : forall opts a,
  (exists a', handle_options a opts = Ok a') \/
  (exists msg, handle_options a opts = Fatal msg).
Proof.
  induction opts as [|o opts IH]; intros a; cbn [handle_options].
  - left. now eexists.
  - destruct (handle_option_total a o) as [[a1 ->]|[msg ->]]; cbn [bind].
    + apply IH.
    + right. now eexists.
Qed.

Section FilterGate.

Variable bcf_enc_int1 : Z -> list byte.
Variable bcf_enc_size : Z -> Z -> list byte.
Variable w : world.

Lemma setup_rejects_both : forall opts operands,
  existsb is_opt_e opts = true -> existsb is_opt_i opts = true ->
  exists msg, setup w opts operands = Fatal msg.
Proof.
  intros opts operands He Hi. unfold setup.
  destruct (handle_options_total opts args0) as [[a Ea]|[msg Em]];
    [|rewrite Em; now eexists].
  rewrite Ea. cbn [bind].
  pose proof (both_polarities opts a Ea He Hi) as L.
  assert (Hfin : forall a2,
    filter_logic a2 = 3 ->
    exists msg,
      match output_dir a2 with
      | Some _ =>
          if filter_logic a2 =? Z.lor FLT_EXCLUDE FLT_INCLUDE
          then Fatal polarity_error else Ok a2
      | None => Fatal "Missing the -o option"
      end = Fatal msg).
  { intros a2 L2. rewrite L2. destruct (output_dir a2); now eexists. }
  destruct operands as [|path [|more operands]].
  - destruct (negb (isatty_stdin w)); cbn [bind]; [|now eexists].
    apply Hfin. exact L.
  - cbn [bind]. apply Hfin. exact L.
  - cbn [bind]. now eexists.
Qed.

Lemma setup_polarity_message : forall opts path a dir,
  handle_options args0 opts = Ok a -> output_dir a = Some dir ->
  existsb is_opt_e opts = true -> existsb is_opt_i opts = true ->
  setup w opts [path] = Fatal polarity_error.
Proof.
  intros opts path a dir Ea Hd He Hi. unfold setup. rewrite Ea.
  cbn [bind output_dir set_opts filter_logic]. rewrite Hd.
  now rewrite (both_polarities opts a Ea He Hi).
Qed.

Lemma open_subset_filter : forall a tmp_hdr set set' e,
  open_subset w a tmp_hdr set = Ok set' -> filter_str a = Some e ->
  exists flt,
    filter_init w tmp_hdr (hdr_out_samples set') e = Ok flt /\
    filter set' = Some flt.
Proof.
  intros a tmp_hdr set set' e H He. unfold open_subset in H.
  destruct (output_path a set) as [path| | |]; try discriminate.
  cbn [bind] in H.
  destruct (negb (open_ok w path)); [discriminate|].
  destruct (for_range (nsmpl set) (hdr_sample_body a set)
              (map Some (hdr_samples (hdr_in a)))) as [names| | |];
    try discriminate.
  cbn [bind] in H.
  destruct (negb (hdr_write_ok w path)); [discriminate|].
  rewrite He in H.
  destruct (filter_init w tmp_hdr (firstn (Z.to_nat (nsmpl set)) names) e)
    as [flt| | |] eqn:Ef; try discriminate.
  cbn [bind] in H. inversion H; subst. cbn [hdr_out_samples filter].
  exists flt. now split.
Qed.

Lemma process_sets_step : forall args rec prev set todo out f,
  transcode bcf_enc_int1 bcf_enc_size args set rec prev = Ok out ->
  fh set = Some f ->
  process_sets bcf_enc_int1 bcf_enc_size w args rec prev (set :: todo)
  = let rest := process_sets bcf_enc_int1 bcf_enc_size w args rec
                             (Some out) todo in
    if pass_of args set out =? 0 then (fst rest, set :: snd rest)
    else if write_rc w f out =? 0 then
      (fst rest,
       set_fh set {| fn := fn f; written := written f ++ [out] |}
       :: snd rest)
    else (Fatal write_error, set :: todo).
Proof.
  intros args rec prev set todo out f Ht Hf. cbn [process_sets].
  rewrite Ht. cbv zeta.
  destruct (process_sets bcf_enc_int1 bcf_enc_size w args rec (Some out) todo)
    as [r rest].
  destruct (pass_of args set out =? 0); [reflexivity|].
  unfold bcf_write. rewrite Hf.
  destruct (write_rc w f out =? 0); reflexivity.
Qed.

(** C8: without a compiled filter the gate passes the record and it is
    handed to [bcf_write]; with one, the value of the compiled expression
    on the output record (the expression was compiled against the
    group's header) decides, inverted when the polarity is exclude; a
    record that does not pass is not written.  A command line with both
    [-i] and [-e] ends in a fatal error in the set-up of [run], before
    the input is opened and any record is read. *)
Theorem filter_gate : forall args,
  (forall set out, filter set = None -> pass_of args set out = 1) /\
  (forall set flt out,
     filter set = Some flt ->
     pass_of args set out
     = if negb (Z.land (filter_logic args) FLT_EXCLUDE =? 0)
       then (if flt out =? 0 then 1 else 0)
       else flt out) /\
  (forall a tmp_hdr set set' e,
     open_subset w a tmp_hdr set = Ok set' -> filter_str a = Some e ->
     exists flt,
       filter_init w tmp_hdr (hdr_out_samples set') e = Ok flt /\
       filter set' = Some flt) /\
  (forall rec prev set todo out f,
     transcode bcf_enc_int1 bcf_enc_size args set rec prev = Ok out ->
     fh set = Some f ->
     process_sets bcf_enc_int1 bcf_enc_size w args rec prev (set :: todo)
     = let rest := process_sets bcf_enc_int1 bcf_enc_size w args rec
                                (Some out) todo in
       if pass_of args set out =? 0 then (fst rest, set :: snd rest)
       else if write_rc w f out =? 0 then
         (fst rest,
          set_fh set {| fn := fn f; written := written f ++ [out] |}
          :: snd rest)
       else (Fatal write_error, set :: todo)) /\
  (forall opts operands,
     existsb is_opt_e opts = true -> existsb is_opt_i opts = true ->
     exists msg,
       setup w opts operands = Fatal msg /\
       run bcf_enc_int1 bcf_enc_size w opts operands
       = {| status := Fatal msg; groups := []; pulled := 0 |}) /\
  (forall opts path a dir,
     handle_options args0 opts = Ok a -> output_dir a = Some dir ->
     existsb is_opt_e opts = true -> existsb is_opt_i opts = true ->
     setup w opts [path] = Fatal polarity_error).
Proof.
  intros args.
  split; [intros set out H; unfold pass_of; now rewrite H|].
  split.
  { intros set flt out H. unfold pass_of. rewrite H.
    destruct (negb (Z.land (filter_logic args) FLT_EXCLUDE =? 0));
      [|reflexivity].
    now destruct (flt out =? 0). }
  split; [apply open_subset_filter|].
  split; [apply process_sets_step|].
  split; [|apply setup_polarity_message].
  intros opts operands He Hi.
  destruct (setup_rejects_both opts operands He Hi) as [msg Hm].
  exists msg. split; [assumption|]. unfold run. now rewrite Hm.
Qed.

End FilterGate.

Lemma filter_gate_witness :
  (forall out, pass_of (Demo.args None None) (Demo.group [1]) out = 1) /\
  (forall out,
     pass_of (set_opts (Demo.args None None) (Some "N_SAMPLES<2")
                       FLT_EXCLUDE FT_VCF (Some "in.bcf") (Some "out")
                       None None)
             (Demo.filtered_group [1]) out
     = if Demo.few_samples out =? 0 then 1 else 0) /\
  (exists set flt,
     open_subset (Demo.env [])
                 (set_opts (Demo.args None None) (Some "N_SAMPLES<2")
                           FLT_INCLUDE FT_VCF (Some "in.bcf") (Some "out")
                           None None)
                 (hdr_ids Demo.hdr) (Demo.group [1]) = Ok set /\
     filter_init (Demo.env []) (hdr_ids Demo.hdr) [Some "B"]
                 "N_SAMPLES<2" = Ok flt /\
     filter set = Some flt) /\
  (exists out,
     transcode Demo.enc_int1 Demo.enc_size (Demo.selected None)
               (Demo.filtered_group [0; 2]) Demo.rec None = Ok out /\
     process_sets Demo.enc_int1 Demo.enc_size (Demo.env [])
                  (Demo.selected None) Demo.rec None
                  [Demo.filtered_group [0; 2]]
     = (Ok tt, [Demo.filtered_group [0; 2]])) /\
  run Demo.enc_int1 Demo.enc_size (Demo.env [])
      [Opt_i "N_SAMPLES<2"; Opt_o "out"; Opt_e "N_SAMPLES<2"] ["in.bcf"]
  = {| status := Fatal polarity_error; groups := []; pulled := 0 |}.
Proof.
  destruct (filter_gate Demo.enc_int1 Demo.enc_size (Demo.env [])
                        (Demo.args None None))
    as (Hnone & _ & Hinit & _ & Hboth & Hmsg).
  split; [intros out; apply Hnone; reflexivity|].
  split.
  { intros out.
    exact (proj1 (proj2
             (filter_gate Demo.enc_int1 Demo.enc_size (Demo.env [])
                (set_opts (Demo.args None None) (Some "N_SAMPLES<2")
                          FLT_EXCLUDE FT_VCF (Some "in.bcf") (Some "out")
                          None None)))
             (Demo.filtered_group [1]) Demo.few_samples out eq_refl). }
  split.
  { eexists.
    destruct (Hinit (set_opts (Demo.args None None) (Some "N_SAMPLES<2")
                              FLT_INCLUDE FT_VCF (Some "in.bcf") (Some "out")
                              None None)
                    (hdr_ids Demo.hdr) (Demo.group [1])
                    _ "N_SAMPLES<2" eq_refl eq_refl) as (flt & Hf & Hs).
    exists flt. split; [reflexivity|]. split; [exact Hf|exact Hs]. }
  split.
  { eexists. split; [vm_compute; reflexivity|].
    rewrite (proj1 (proj2 (proj2 (proj2
               (filter_gate Demo.enc_int1 Demo.enc_size (Demo.env [])
                            (Demo.selected None)))))
               Demo.rec None (Demo.filtered_group [0; 2]) [] _
               {| fn := "out/g.vcf"; written := [] |}
               ltac:(vm_compute; reflexivity) eq_refl).
    reflexivity. }
  destruct (Hboth [Opt_i "N_SAMPLES<2"; Opt_o "out"; Opt_e "N_SAMPLES<2"]
                  ["in.bcf"] eq_refl eq_refl) as (msg & Hs & Hr).
  rewrite Hr. f_equal.
  rewrite (Hmsg [Opt_i "N_SAMPLES<2"; Opt_o "out"; Opt_e "N_SAMPLES<2"]
                "in.bcf" _ "out" eq_refl eq_refl eq_refl eq_refl) in Hs.
  congruence.
Defined.

(** ** Records written and records read *)

Lemma filter_length_all : forall A (f : A -> bool) (l : list A),
  List.length (List.filter f l) = List.length l <-> forallb f l = true.
Proof.
  intros A f l. induction l as [|x l IH]; simpl; [tauto|].
  pose proof (filter_length_le f l) as Hle.
  destruct (f x); simpl.
  - rewrite <- IH. lia.
  - split; [lia|discriminate].
Qed.

Lemma forallb_same : forall A (f g : A -> bool) (l : list A),
  (forall x, f x = g x) -> forallb f l = forallb g l.
Proof.
  intros A f g l H. induction l as [|x l IH]; simpl; [reflexivity|].
  now rewrite H, IH.
Qed.

Section Counting.

Variable bcf_enc_int1 : Z -> list byte.
Variable bcf_enc_size : Z -> Z -> list byte.
Variable w : world.

Lemma gate_of_group : forall args s rec,
  gate_passes bcf_enc_int1 bcf_enc_size args s rec
  = gate_passes bcf_enc_int1 bcf_enc_size args (group_of s) rec.
Proof. reflexivity. Qed.

Lemma gate_same_group : forall args s s' rec,
  group_of s' = group_of s ->
  gate_passes bcf_enc_int1 bcf_enc_size args s' rec
  = gate_passes bcf_enc_int1 bcf_enc_size args s rec.
Proof.
  intros args s s' rec H.
  rewrite (gate_of_group args s'), (gate_of_group args s). now rewrite H.
Qed.

Lemma gate_set_sets : forall args ss s rec,
  gate_passes bcf_enc_int1 bcf_enc_size (set_sets args ss) s rec
  = gate_passes bcf_enc_int1 bcf_enc_size args s rec.
Proof. reflexivity. Qed.

Lemma Forall2_untouched : forall args rec r l,
  r <> Ok tt -> Forall2 (served bcf_enc_int1 bcf_enc_size args rec r) l l.
Proof.
  intros args rec r l Hr. induction l as [|s l IH]; constructor; auto.
  split; [reflexivity|]. split; [lia|]. intros E. contradiction.
Qed.

Lemma process_fresh_counts : forall args rec todo r todo',
  process_sets_fresh bcf_enc_int1 bcf_enc_size w args rec todo = (r, todo') ->
  Forall2 (served bcf_enc_int1 bcf_enc_size args rec r) todo todo'.
Proof.
  intros args rec todo. induction todo as [|s todo IH]; intros r todo' H.
  - cbn in H. inversion H; subst. constructor.
  - cbn [process_sets_fresh] in H.
    destruct (transcode bcf_enc_int1 bcf_enc_size args s rec None)
      as [out| | |] eqn:Et;
      try (inversion H; subst; apply Forall2_untouched; discriminate).
    destruct (process_sets_fresh bcf_enc_int1 bcf_enc_size w args rec todo)
      as [r1 rest] eqn:Er.
    specialize (IH r1 rest eq_refl).
    destruct (pass_of args s out =? 0) eqn:Ep.
    + inversion H; subst. constructor; [|assumption].
      split; [reflexivity|]. split; [lia|]. intros _.
      unfold gate_passes. rewrite Et, Ep. cbn. split; [lia|].
      intros Hnone. unfold pass_of in Ep. rewrite Hnone in Ep. discriminate.
    + unfold bcf_write in H. destruct (fh s) as [f|] eqn:Ef.
      * destruct (write_rc w f out =? 0).
        -- inversion H; subst. constructor; [|assumption].
           split; [reflexivity|].
           assert (E : emitted (set_fh s {| fn := fn f;
                                            written := written f ++ [out] |})
                       = emitted s + 1).
           { unfold emitted. cbn [fh set_fh written]. rewrite Ef.
             rewrite length_app. cbn [List.length]. lia. }
           rewrite E. split; [lia|]. intros _.
           unfold gate_passes. rewrite Et, Ep. cbn. split; reflexivity.
        -- inversion H; subst. apply Forall2_untouched. discriminate.
      * inversion H; subst. apply Forall2_untouched. discriminate.
Qed.

Lemma process_counts : forall args rec r args',
  process bcf_enc_int1 bcf_enc_size w args rec = (r, args') ->
  Forall2 (served bcf_enc_int1 bcf_enc_size args rec r) (sets args) (sets args').
Proof.
  intros args rec r args' H. unfold process in H.
  rewrite process_sets_as_fresh in H.
  destruct (process_sets_fresh bcf_enc_int1 bcf_enc_size w args rec
                               (sets args)) as [r1 s1] eqn:E.
  inversion H; subst. cbn [sets set_sets].
  now apply process_fresh_counts.
Qed.

Lemma stream_counts : forall recs args k0 r args' k,
  stream bcf_enc_int1 bcf_enc_size w args recs k0 = (r, args', k) ->
  k0 <= k <= k0 + Z.of_nat (List.length recs) /\
  (r = Ok tt -> k = k0 + Z.of_nat (List.length recs)) /\
  Forall2 (streamed bcf_enc_int1 bcf_enc_size args recs r (k - k0)) (sets args) (sets args').
Proof.
  induction recs as [|rec recs IH]; intros args k0 r args' k H.
  - cbn in H. inversion H; subst. cbn. split; [lia|]. split; [lia|].
    induction (sets args') as [|s l IHl]; constructor; auto.
    split; [reflexivity|]. split; [lia|]. intros _. cbn. split; [lia|].
    reflexivity.
  - cbn [stream] in H.
    destruct (process bcf_enc_int1 bcf_enc_size w args rec) as [r1 a1] eqn:Ep.
    pose proof (process_counts args rec r1 a1 Ep) as H1.
    assert (Ha1 : exists ss, a1 = set_sets args ss).
    { unfold process in Ep.
      destruct (process_sets bcf_enc_int1 bcf_enc_size w args rec None
                             (sets args)) as [r2 ss].
      inversion Ep; subst. now exists ss. }
    destruct Ha1 as [ss Ha1]. subst a1.
    assert (Hfail : r1 <> Ok tt ->
              (r, args', k) = (r1, set_sets args ss, k0 + 1) ->
              k0 <= k <= k0 + Z.of_nat (List.length (rec :: recs)) /\
              (r = Ok tt -> k = k0 + Z.of_nat (List.length (rec :: recs))) /\
              Forall2 (streamed bcf_enc_int1 bcf_enc_size args (rec :: recs) r (k - k0))
                      (sets args) (sets args')).
    { intros Hr E. inversion E; subst. cbn [List.length].
      split; [lia|]. split; [intros; contradiction|].
      replace (k0 + 1 - k0) with 1 by lia.
      eapply Forall2_impl; [|exact H1].
      intros s s' (G & B & _). split; [assumption|]. split; [lia|].
      intros E'. contradiction. }
    destruct r1 as [[]| | |];
      try (apply Hfail; [discriminate|now symmetry]).
    clear Hfail.
    destruct (IH (set_sets args ss) (k0 + 1) r args' k H) as (Hk & Hok & H2).
    cbn [List.length]. split; [lia|]. split; [intros E; specialize (Hok E); lia|].
    clear IH H Ep.
    revert H2. generalize (sets args'). revert H1.
    generalize (sets (set_sets args ss)). generalize (sets args).
    intros l0 l1 H1. induction H1 as [|s s1 l0 l1 Hs H1 IHl];
      intros l2 H2; inversion H2; subst; constructor; auto.
    destruct Hs as (G1 & B1 & E1). destruct (E1 eq_refl) as (E1a & E1b).
    match goal with
    | Hst : streamed _ _ _ _ _ _ s1 _ |- _ => destruct Hst as (G2 & B2 & E2)
    end.
    split; [congruence|]. split; [lia|].
    intros Er. destruct (E2 Er) as (E2a & E2b).
    assert (Hg : forall rc,
              gate_passes bcf_enc_int1 bcf_enc_size (set_sets args ss) s1 rc
              = gate_passes bcf_enc_int1 bcf_enc_size args s rc).
    { intros rc. rewrite (gate_same_group (set_sets args ss) s s1 rc G1).
      apply gate_set_sets. }
    split.
    + rewrite E2a, E1a. cbn [List.filter].
      rewrite (filter_ext _ _ Hg).
      destruct (gate_passes bcf_enc_int1 bcf_enc_size args s rec);
        cbn [List.length]; lia.
    + intros Hnone. cbn [forallb]. rewrite (E1b Hnone). cbn [andb].
      assert (Hnone1 : filter s1 = None).
      { assert (filter (group_of s1) = filter (group_of s)) by now rewrite G1.
        cbn in *. congruence. }
      rewrite <- (E2b Hnone1). apply forallb_same. intros rc. now rewrite Hg.
Qed.

End Counting.

Lemma map_result_Forall2 : forall A B (f : A -> result B) l l',
  map_result f l = Ok l' -> Forall2 (fun x y => f x = Ok y) l l'.
Proof.
  intros A B f l. induction l as [|x l IH]; intros l' H; cbn in H.
  - inversion H. constructor.
  - destruct (f x) as [y| | |] eqn:Ex; try discriminate. cbn [bind] in H.
    destruct (map_result f l) as [ys| | |]; try discriminate.
    cbn [bind] in H. inversion H; subst. constructor; auto.
Qed.

Lemma open_subset_emitted : forall w a tmp_hdr s s',
  open_subset w a tmp_hdr s = Ok s' -> emitted s' = 0.
Proof.
  intros w a tmp_hdr s s' H. unfold open_subset in H.
  destruct (output_path a s) as [path| | |]; try discriminate.
  cbn [bind] in H.
  destruct (negb (open_ok w path)); [discriminate|].
  destruct (for_range (nsmpl s) (hdr_sample_body a s)
              (map Some (hdr_samples (hdr_in a)))) as [names| | |];
    try discriminate.
  cbn [bind] in H.
  destruct (negb (hdr_write_ok w path)); [discriminate|].
  match type of H with
  | bind ?m _ = _ => destruct m as [flt| | |]; try discriminate
  end.
  cbn [bind] in H. inversion H; subst. reflexivity.
Qed.

Lemma init_data_emitted : forall w a a1 recs warn,
  init_data w a = Ok (a1, recs, warn) ->
  Forall (fun s => emitted s = 0) (sets a1).
Proof.
  intros w a a1 recs warn H. unfold init_data in H.
  destruct (fname_in a) as [path|]; [|discriminate].
  destruct (output_dir a) as [dir|]; [|discriminate].
  destruct (sr_open w path) as [[hdr recs0]|]; [|discriminate].
  destruct (negb (mkdir_ok w (dir ++ "/")%string)); [discriminate|].
  destruct (bcf_hdr_nsamples hdr =? 0); [discriminate|].
  destruct (init_subsets (readlines w) (set_hdr_in a hdr))
    as [[a2 warn2]| | |]; try discriminate.
  cbn [bind] in H.
  destruct (select_tags a2) as [a3| | |]; try discriminate. cbn [bind] in H.
  destruct (project_header a3) as [tmp_hdr| | |]; try discriminate.
  cbn [bind] in H.
  destruct (map_result (open_subset w a3 tmp_hdr) (sets a3)) as [ss| | |] eqn:E;
    try discriminate.
  cbn [bind] in H. inversion H; subst. cbn [sets set_sets].
  apply map_result_Forall2 in E.
  induction E as [|s s' l l' Hs E IH]; constructor; auto.
  now apply open_subset_emitted in Hs.
Qed.

Lemma Forall2_In_r : forall A B (R : A -> B -> Prop) l l' y,
  Forall2 R l l' -> In y l' -> exists x, In x l /\ R x y.
Proof.
  intros A B R l l' y H. induction H as [|x y' l l' Hxy H IH]; intros Hy.
  - destruct Hy.
  - destruct Hy as [->|Hy].
    + exists x. split; [now left|assumption].
    + destruct (IH Hy) as (x0 & Hin & Hr). exists x0. split; [now right|assumption].
Qed.

Section Run.

Variable bcf_enc_int1 : Z -> list byte.
Variable bcf_enc_size : Z -> Z -> list byte.
Variable w : world.

(** C9 (amended): whatever the run does, no group has more records in its
    file than the run has pulled from the reader.  When the run ends
    without a fatal error (no write fails), a group has as many records
    as were pulled exactly when its gate passes the record made for it
    from every input record, which is the case for every group without a
    filter. *)
Theorem emitted_at_most_pulled : forall opts operands,
  (forall s,
     In s (groups (run bcf_enc_int1 bcf_enc_size w opts operands)) ->
     emitted s <= pulled (run bcf_enc_int1 bcf_enc_size w opts operands)) /\
  (forall a a1 recs warn,
     setup w opts operands = Ok a ->
     init_data w a = Ok (a1, recs, warn) ->
     status (run bcf_enc_int1 bcf_enc_size w opts operands) = Ok tt ->
     pulled (run bcf_enc_int1 bcf_enc_size w opts operands)
     = Z.of_nat (List.length recs) /\
     Forall2
       (fun s0 s =>
          group_of s = group_of s0 /\
          (emitted s
           = pulled (run bcf_enc_int1 bcf_enc_size w opts operands)
           <-> forallb (gate_passes bcf_enc_int1 bcf_enc_size a1 s0) recs
               = true) /\
          (filter s0 = None ->
           emitted s
           = pulled (run bcf_enc_int1 bcf_enc_size w opts operands)))
       (sets a1)
       (groups (run bcf_enc_int1 bcf_enc_size w opts operands))).
Proof.
  intros opts operands. unfold run.
  destruct (setup w opts operands) as [a| | |] eqn:Es;
    try (split; [intros s []|intros; discriminate]).
  destruct (init_data w a) as [[[a1 recs] warn]| | |] eqn:Ei;
    try (split; [intros s []|intros; discriminate]).
  pose proof (init_data_emitted w a a1 recs warn Ei) as Hzero.
  destruct (stream bcf_enc_int1 bcf_enc_size w a1 recs 0) as [[r a'] k] eqn:Est.
  destruct (stream_counts bcf_enc_int1 bcf_enc_size w recs a1 0 r a' k Est)
    as (Hk & Hok & Hall).
  assert (Hle : forall s, In s (sets a') -> emitted s <= k).
  { intros s Hs.
    destruct (Forall2_In_r _ _ _ _ _ _ Hall Hs) as (s0 & Hin & (_ & B & _)).
    rewrite Forall_forall in Hzero. rewrite (Hzero s0 Hin) in B. lia. }
  assert (Hfin : r = Ok tt ->
            k = Z.of_nat (List.length recs) /\
            Forall2
              (fun s0 s =>
                 group_of s = group_of s0 /\
                 (emitted s = k
                  <-> forallb (gate_passes bcf_enc_int1 bcf_enc_size a1 s0)
                              recs = true) /\
                 (filter s0 = None -> emitted s = k))
              (sets a1) (sets a')).
  { intros Er. specialize (Hok Er). split; [lia|].
    rewrite Forall_forall in Hzero.
    clear Est Hle. revert Hzero. induction Hall as [|s0 s l l' Hs Hall IH];
      intros Hzero; constructor.
    - destruct Hs as (G & _ & E). destruct (E Er) as (Ea & Eb).
      rewrite (Hzero s0 (or_introl eq_refl)) in Ea.
      split; [assumption|]. split.
      + rewrite <- filter_length_all. lia.
      + intros Hnone. specialize (Eb Hnone).
        apply filter_length_all in Eb. lia.
    - apply IH. intros x Hx. apply Hzero. now right. }
  destruct r as [[]| | |]; cbn [groups pulled status].
  - split; [assumption|]. intros a0 a2 recs0 warn0 E0 E1 _.
    inversion E0; subst a0. rewrite Ei in E1. inversion E1; subst.
    now apply Hfin.
  - split; [assumption|]. intros; discriminate.
  - split; [assumption|]. intros; discriminate.
  - split; [assumption|]. intros; discriminate.
Qed.

End Run.

(** C9: when a write fails the run ends at once; the groups then hold fewer
    records than were pulled although none of them has a filter. *)
Lemma write_failure_breaks_equality :
  status (run Demo.enc_int1 Demo.enc_size Demo.full_disk
              [Opt_o "out"] ["in.bcf"]) = Fatal write_error /\
  pulled (run Demo.enc_int1 Demo.enc_size Demo.full_disk
              [Opt_o "out"] ["in.bcf"]) = 1 /\
  map emitted (groups (run Demo.enc_int1 Demo.enc_size Demo.full_disk
                           [Opt_o "out"] ["in.bcf"])) = [0; 0; 0] /\
  map (fun s => match filter s with None => true | Some _ => false end)
      (groups (run Demo.enc_int1 Demo.enc_size Demo.full_disk
                   [Opt_o "out"] ["in.bcf"])) = [true; true; true].
Proof. vm_compute. repeat split. Qed.

Lemma emitted_at_most_pulled_witness :
  exists a a1 recs warn,
    setup (Demo.env ["A,B"; "C"])
          [Opt_o "out"; Opt_i "N_SAMPLES<2"; Opt_S "groups.txt"] ["in.bcf"]
    = Ok a /\
    init_data (Demo.env ["A,B"; "C"]) a = Ok (a1, recs, warn) /\
    pulled (run Demo.enc_int1 Demo.enc_size (Demo.env ["A,B"; "C"])
                [Opt_o "out"; Opt_i "N_SAMPLES<2"; Opt_S "groups.txt"]
                ["in.bcf"]) = Z.of_nat (List.length recs) /\
    map emitted
        (groups (run Demo.enc_int1 Demo.enc_size
                     (Demo.env ["A,B"; "C"])
                     [Opt_o "out"; Opt_i "N_SAMPLES<2"; Opt_S "groups.txt"]
                     ["in.bcf"])) = [0; 1].
Proof.
  do 4 eexists.
  split; [vm_compute; reflexivity|].
  split; [vm_compute; reflexivity|].
  split; [|vm_compute; reflexivity].
  refine (proj1 (proj2 (emitted_at_most_pulled Demo.enc_int1
                          Demo.enc_size (Demo.env ["A,B"; "C"])
                          [Opt_o "out"; Opt_i "N_SAMPLES<2"; Opt_S "groups.txt"]
                          ["in.bcf"]) _ _ _ _ _ _ _)).
  - vm_compute. reflexivity.
  - vm_compute. reflexivity.
  - vm_compute. reflexivity.
Defined.

(* ================================================================= *)
(** ** The samples file: columns, escapes and counts *)

Lemma string_app_assoc : forall a b c : string,
  ((a ++ b) ++ c = a ++ (b ++ c))%string.
Proof.
  induction a as [|x a IH]; intros b c; cbn; [reflexivity|].
  now rewrite IH.
Qed.

Lemma string_app_nil_r : forall a : string, (a ++ "" = a)%string.
Proof.
  induction a as [|x a IH]; cbn; [reflexivity|]. now rewrite IH.
Qed.

Lemma count_commas_app : forall a b,
  count_commas (a ++ b) = count_commas a + count_commas b.
Proof.
  induction a as [|x a IH]; intros b; cbn [count_commas String.append];
    [lia|]. rewrite IH. lia.
Qed.

Lemma isspace_not_comma : forall c, isspace c = true -> Ascii.eqb c "," = false.
Proof.
  intros c H. destruct (Ascii.eqb c ",") eqn:E; [|reflexivity].
  apply Ascii.eqb_eq in E. subst c. discriminate H.
Qed.

Lemma scan_names_stop : forall tail k acc,
  column_end tail -> scan_names tail false k acc = (acc, k, tail).
Proof.
  intros [|c tail] k acc H; cbn [scan_names]; [reflexivity|].
  cbn in H. rewrite H.
  destruct (Ascii.eqb c "\") eqn:E.
  - apply Ascii.eqb_eq in E. subst c. discriminate H.
  - reflexivity.
Qed.

Lemma scan_names_escaped : forall s tail k acc,
  column_end tail ->
  scan_names (escape_name s ++ tail) false k acc
  = ((acc ++ s)%string, k + count_commas s, tail).
Proof.
  induction s as [|c s IH]; intros tail k acc Ht.
  - cbn [escape_name String.append count_commas].
    rewrite string_app_nil_r, Z.add_0_r. now apply scan_names_stop.
  - cbn [escape_name count_commas].
    replace (acc ++ String c s)%string with ((acc ++ String c "") ++ s)%string
      by (rewrite string_app_assoc; reflexivity).
    destruct (isspace c) eqn:Esp.
    + (* an escaped white-space character *)
      cbn [orb String.append scan_names].
      change (Ascii.eqb "\" "\") with true. cbn [andb negb].
      rewrite !Bool.andb_false_r.
      rewrite (isspace_not_comma c Esp).
      rewrite IH by assumption. f_equal; f_equal; lia.
    + destruct (Ascii.eqb c "\") eqn:Ebs.
      * (* an escaped backslash *)
        cbn [orb String.append scan_names].
        change (Ascii.eqb "\" "\") with true. cbn [andb negb].
        rewrite !Bool.andb_false_r.
        apply Ascii.eqb_eq in Ebs. subst c.
        change (Ascii.eqb "\" ",") with false.
        rewrite IH by assumption. f_equal; f_equal; lia.
      * cbn [orb String.append scan_names].
        rewrite Ebs, Esp. cbn [andb].
        rewrite IH by assumption.
        destruct (Ascii.eqb c ","); f_equal; f_equal; lia.
Qed.

(** X1: the first loop over a line of the samples file undoes the backslash
    escapes: for a name list [s] written with every white-space character and
    backslash escaped and followed by the end of the line or by white space,
    the buffer receives [s] itself, the number of sample slots is one more
    than the number of commas of [s], and the scan stops at the text that
    follows. *)
Theorem scan_names_unescapes : forall s tail,
  column_end tail ->
  scan_names (escape_name s ++ tail) false 1 ""
  = (s, 1 + count_commas s, tail).
Proof.
  intros s tail Ht. now rewrite scan_names_escaped.
Qed.

Lemma scan_names_unescapes_witness :
  column_end " X" /\
  scan_names (escape_name "NA 1,NA\2" ++ " X") false 1 ""
  = ("NA 1,NA\2", 1 + count_commas "NA 1,NA\2", " X").
Proof.
  split; [reflexivity|].
  apply (scan_names_unescapes "NA 1,NA\2" " X"). reflexivity.
Defined.

Lemma count_commas_nonneg : forall s, 0 <= count_commas s.
Proof.
  induction s as [|c s IH]; cbn [count_commas]; [lia|].
  destruct (Ascii.eqb c ","); lia.
Qed.

Lemma scan_comma_commas : forall s,
  count_commas (fst (scan_comma s)) = 0 /\
  match snd (scan_comma s) with
  | Some r => count_commas s = 1 + count_commas r
  | None => count_commas s = 0
  end.
Proof.
  induction s as [|c s IH]; cbn [scan_comma count_commas]; [split; reflexivity|].
  destruct (Ascii.eqb c ",") eqn:E.
  - cbn. split; reflexivity.
  - destruct (scan_comma s) as [tok rest]. cbn [fst snd] in *.
    cbn [count_commas]. rewrite E. destruct IH as [IH1 IH2].
    split; [lia|]. destruct rest; lia.
Qed.

Lemma scan_names_commas : forall ptr escaped k acc put k' rest,
  scan_names ptr escaped k acc = (put, k', rest) ->
  k' - count_commas put = k - count_commas acc.
Proof.
  induction ptr as [|c ptr IH]; intros escaped k acc put k' rest H;
    cbn [scan_names] in H.
  - inversion H; subst. reflexivity.
  - destruct (Ascii.eqb c "\" && negb escaped)%bool.
    + apply IH in H. exact H.
    + destruct (isspace c && negb escaped)%bool.
      * inversion H; subst. reflexivity.
      * apply IH in H. rewrite count_commas_app in H.
        cbn [count_commas] in H. destruct (Ascii.eqb c ","); lia.
Qed.

(** The loop over the names of the first column stays inside the index
    array when the array has a slot for every comma-separated name. *)
Lemma names_loop_defined : forall fuel h beg smpl j warn,
  (String.length beg < fuel)%nat -> 0 <= j ->
  j + 1 + count_commas beg <= Z.of_nat (List.length smpl) ->
  exists r, names_loop fuel h beg smpl j warn = Ok r.
Proof.
  induction fuel as [|fuel IH]; intros h beg smpl j warn Hf Hj Hn; [lia|].
  cbn [names_loop]. destruct beg as [|c beg0]; [eexists; reflexivity|].
  set (beg := String c beg0) in *.
  pose proof (scan_comma_commas beg) as [_ Hc].
  destruct (scan_comma beg) as [name rest] eqn:Es. cbn [snd] in Hc.
  assert (Hrest : forall r, rest = Some r ->
            (String.length r < fuel)%nat /\ count_commas beg = 1 + count_commas r).
  { intros r ->. split; [|exact Hc].
    apply scan_comma_rest in Es. lia. }
  pose proof (count_commas_nonneg beg) as Hnn.
  destruct (bcf_hdr_id2int_SAMPLE h name >=? 0).
  - unfold arr_set. destruct (j <? 0) eqn:Ej; [lia|].
    destruct (Nat.ltb (Z.to_nat j) (List.length smpl)) eqn:El.
    2:{ apply Nat.ltb_ge in El. lia. }
    cbn [bind]. destruct rest as [r|]; [|eexists; reflexivity].
    destruct (Hrest r eq_refl) as [H1 H2].
    apply IH; [exact H1|lia|]. rewrite list_set_length. lia.
  - cbn [bind]. destruct rest as [r|]; [|eexists; reflexivity].
    destruct (Hrest r eq_refl) as [H1 H2].
    apply IH; [exact H1|lia|lia].
Qed.

(** The loop over the second column: it fails exactly when at least as many
    commas are left as slots, and otherwise fills the slots from [j] on. *)
Lemma rename_loop_spec : forall fuel shown k beg ren j,
  (String.length beg < fuel)%nat -> 0 <= j < k ->
  Z.of_nat (List.length ren) = k ->
  (k - j <= count_commas beg ->
   rename_loop fuel shown k beg ren j = Fatal (rename_error shown)) /\
  (count_commas beg < k - j ->
   exists ren',
     rename_loop fuel shown k beg ren j = Ok ren' /\
     List.length ren' = List.length ren /\
     (forall i, (i < Z.to_nat j)%nat -> nth i ren' None = nth i ren None) /\
     (beg <> "" -> nth (Z.to_nat j) ren' None = Some (first_name beg))).
Proof.
  induction fuel as [|fuel IH]; intros shown k beg ren j Hf Hj Hl; [lia|].
  cbn [rename_loop]. destruct beg as [|c beg0].
  - cbn [count_commas]. split; [lia|]. intros _. exists ren.
    repeat split; try reflexivity. intros H; contradiction.
  - set (beg := String c beg0) in *.
    pose proof (scan_comma_commas beg) as [_ Hc].
    unfold first_name.
    destruct (scan_comma beg) as [name rest] eqn:Es. cbn [snd fst] in *.
    unfold arr_set. destruct (j <? 0) eqn:Ej; [lia|].
    destruct (Nat.ltb (Z.to_nat j) (List.length ren)) eqn:El.
    2:{ apply Nat.ltb_ge in El. lia. }
    apply Nat.ltb_lt in El.
    cbn [bind]. destruct rest as [r|].
    + pose proof (count_commas_nonneg r) as Hnn.
      destruct (j + 1 >=? k) eqn:Ek.
      * split; [reflexivity|lia].
      * assert (Hr : (String.length r < fuel)%nat)
          by (apply scan_comma_rest in Es; lia).
        specialize (IH shown k r (list_set ren (Z.to_nat j) (Some name))
                       (j + 1) Hr
                       ltac:(lia) ltac:(rewrite list_set_length; lia)).
        destruct IH as [IHf IHo]. split.
        -- intros H. apply IHf. lia.
        -- intros H. destruct (IHo ltac:(lia)) as (ren' & E & L & P & _).
           exists ren'. rewrite list_set_length in L.
           split; [exact E|]. split; [exact L|]. split.
           ++ intros i Hi. rewrite P by lia.
              apply list_set_nth_other. lia.
           ++ intros _. rewrite P by lia.
              apply list_set_nth_same. exact El.
    + split; [lia|]. intros _. eexists. split; [reflexivity|].
      split; [apply list_set_length|]. split.
      * intros i Hi. apply list_set_nth_other. lia.
      * intros _. apply list_set_nth_same. exact El.
Qed.

Lemma scan_names_slots : forall line put k ptr,
  scan_names line false 1 "" = (put, k, ptr) -> k = 1 + count_commas put.
Proof.
  intros line put k ptr H. apply scan_names_commas in H.
  cbn [count_commas] in H. lia.
Qed.

Lemma repeat_length_Z : forall A (x : A) k,
  0 <= k -> Z.of_nat (List.length (repeat x (Z.to_nat k))) = k.
Proof. intros A x k H. rewrite repeat_length. lia. Qed.

(** One line of the samples file, when the buffer at [str.s] holds [beg]
    and the index array has a slot for each of its names: the four ways
    the iteration can end. *)
Lemma subset_of_line_cases : forall h str_s line put k ptr beg,
  scan_names line false 1 "" = (put, k, ptr) ->
  match put with EmptyString => str_s | _ => Some put end = Some beg ->
  1 + count_commas beg <= k ->
  exists smpl j warn,
    names_loop (S (String.length beg)) h beg (repeat 0 (Z.to_nat k)) 0 []
    = Ok (smpl, j, warn) /\
    ((j = 0 /\
      subset_of_line h str_s line = Ok (None, Some (first_name beg), warn))
     \/
     (0 < j /\ skip_spaces ptr = "" /\
      subset_of_line h str_s line
      = Ok (Some {| rename := None; nsmpl := k; smpl := smpl; fh := None;
                    fname := nth (Z.to_nat (nth 0 smpl 0)) (hdr_samples h) "";
                    filter := None; hdr_out_samples := [] |},
            Some (first_name beg), warn))
     \/
     (0 < j /\ skip_spaces ptr <> "" /\ k <= count_commas (skip_spaces ptr) /\
      subset_of_line h str_s line
      = Fatal (rename_error (line_shown line (skip_spaces ptr))))
     \/
     (0 < j /\ skip_spaces ptr <> "" /\ count_commas (skip_spaces ptr) < k /\
      exists ren,
        Z.of_nat (List.length ren) = k /\
        nth 0 ren None = Some (first_name (skip_spaces ptr)) /\
        subset_of_line h str_s line
        = Ok (Some {| rename := Some ren; nsmpl := k; smpl := smpl; fh := None;
                      fname := first_name (skip_spaces ptr);
                      filter := None; hdr_out_samples := [] |},
              Some (first_name beg), warn))).
Proof.
  intros h str_s line put k ptr beg Hs Hb Hk.
  pose proof (count_commas_nonneg beg) as Hnn.
  destruct (names_loop_defined (S (String.length beg)) h beg
              (repeat 0 (Z.to_nat k)) 0 [] ltac:(lia) ltac:(lia)
              ltac:(rewrite repeat_length_Z; lia)) as [[[smpl j] warn] Hn].
  exists smpl, j, warn. split; [exact Hn|].
  pose proof (names_loop_inv _ _ _ _ _ _ _ _ _ Hn ltac:(lia))
    as (Hlen & Hj & _ & Hrange).
  rewrite repeat_length in Hlen.
  unfold subset_of_line. rewrite Hs, Hb, Hn. cbn [bind].
  change (fst (scan_comma beg)) with (first_name beg).
  destruct (j =? 0) eqn:Ej0.
  - left. split; [lia|reflexivity].
  - right. assert (Hjpos : 0 < j) by lia.
    destruct (skip_spaces ptr) as [|c q0] eqn:Eq.
    + left. split; [exact Hjpos|]. split; [reflexivity|].
      rewrite (arr_get_nth _ smpl 0 0) by lia. cbn [bind].
      change (Z.to_nat 0) with 0%nat.
      specialize (Hrange 0%nat ltac:(lia)).
      rewrite (arr_get_nth _ (hdr_samples h) (nth 0 smpl 0) "")
        by (unfold bcf_hdr_nsamples in Hrange; lia).
      reflexivity.
    + right. set (q := String c q0) in *.
      assert (Hq : q <> "") by discriminate.
      destruct (rename_loop_spec (S (String.length q)) (line_shown line q) k q
                  (repeat None (Z.to_nat k)) 0 ltac:(lia) ltac:(lia)
                  ltac:(rewrite repeat_length_Z; lia)) as [Hf Ho].
      destruct (Z_le_gt_dec k (count_commas q)) as [Hle|Hgt].
      * left. split; [exact Hjpos|]. split; [exact Hq|]. split; [exact Hle|].
        rewrite Hf by lia. reflexivity.
      * right. split; [exact Hjpos|]. split; [exact Hq|]. split; [lia|].
        destruct (Ho ltac:(lia)) as (ren & E & L & _ & P).
        specialize (P Hq). change (Z.to_nat 0) with 0%nat in P.
        exists ren. rewrite repeat_length in L.
        split; [lia|]. split; [exact P|].
        rewrite E. cbn [bind].
        rewrite (arr_get_nth _ ren 0 None) by lia.
        change (Z.to_nat 0) with 0%nat. rewrite P. reflexivity.
Qed.

Lemma skip_spaces_space : forall c ptr,
  isspace c = true -> skip_spaces (String c ptr) = skip_spaces ptr.
Proof. intros c ptr H. cbn [skip_spaces]. now rewrite H. Qed.

(** The first text of a list and the texts after it. *)
Lemma comma_tokens_step : forall s,
  s <> "" -> comma_tokens s = first_name s :: comma_tokens (after_name s).
Proof.
  unfold first_name, after_name.
  induction s as [|c s IH]; intros Hs; [contradiction|].
  cbn [comma_tokens scan_comma].
  destruct (Ascii.eqb c ",") eqn:E; [reflexivity|].
  destruct s as [|c' s'].
  - reflexivity.
  - specialize (IH ltac:(discriminate)). rewrite IH.
    destruct (scan_comma (String c' s')) as [tok rest]. reflexivity.
Qed.

(** The loop over the names of the first column counts the names that are
    samples of the input and warns about the others, in order. *)
Lemma names_loop_count : forall fuel h beg smpl j warn smpl' j' warn',
  names_loop fuel h beg smpl j warn = Ok (smpl', j', warn') ->
  j' = j + Z.of_nat (List.length (known_samples h beg)) /\
  warn' = warn ++ unknown_samples h beg.
Proof.
  induction fuel as [|fuel IH]; intros h beg smpl j warn smpl' j' warn' H;
    [discriminate|].
  cbn [names_loop] in H. destruct beg as [|c beg0].
  { inversion H; subst. cbn. rewrite app_nil_r. split; [lia|reflexivity]. }
  set (beg := String c beg0) in *.
  assert (Hne : beg <> "") by discriminate.
  unfold known_samples, unknown_samples.
  rewrite (comma_tokens_step beg Hne). unfold first_name, after_name.
  destruct (scan_comma beg) as [name rest]. cbn [fst snd List.filter].
  destruct (bcf_hdr_id2int_SAMPLE h name >=? 0) eqn:E; cbn [negb].
  - destruct (arr_set smpl j (bcf_hdr_id2int_SAMPLE h name)) as [s1| | |];
      cbn [bind] in H; try discriminate.
    destruct rest as [r|].
    + apply IH in H. destruct H as [-> ->].
      unfold known_samples, unknown_samples. cbn [List.length].
      split; [lia|reflexivity].
    + inversion H; subst. cbn. rewrite app_nil_r. split; [lia|reflexivity].
  - cbn [bind] in H. destruct rest as [r|].
    + apply IH in H. destruct H as [-> ->].
      unfold known_samples, unknown_samples. rewrite <- app_assoc.
      split; reflexivity.
    + inversion H; subst. cbn. split; [lia|reflexivity].
Qed.

Lemma skip_spaces_app : forall sp q,
  only_spaces sp = true -> starts_with_name q ->
  skip_spaces (sp ++ q) = q.
Proof.
  induction sp as [|c sp IH]; intros q Hsp Hq.
  - destruct q as [|d q]; [contradiction|]. cbn in Hq |- *. now rewrite Hq.
  - cbn in Hsp. apply andb_prop in Hsp. destruct Hsp as [Hc Hsp].
    cbn [String.append skip_spaces]. rewrite Hc. now apply IH.
Qed.

Lemma substring_app_head : forall pre q : string,
  substring 0 (String.length pre) (pre ++ q) = pre.
Proof.
  induction pre as [|c pre IH]; intros q; cbn.
  - destruct q; reflexivity.
  - now rewrite IH.
Qed.

(** What the error of the rename check shows of a line: the line up to
    the first comma of its second column. *)
Lemma line_shown_app : forall pre q,
  line_shown (pre ++ q) q = (pre ++ first_name q)%string.
Proof.
  intros pre q. unfold line_shown, first_name.
  rewrite string_length_app.
  replace (String.length pre + String.length q - String.length q)%nat
    with (String.length pre) by lia.
  now rewrite substring_app_head.
Qed.

(** X2: the second column of a line of the samples file is looked at only
    when a name of the first column is a sample of the input, and is then
    checked against the first one only from above.  For a line made of a name
    list [s] (escaped), white space and a second column [q]: if no name of
    [s] is a sample of the input, the line is dropped with a warning for each
    name, whatever [q] is.  Otherwise the line is rejected exactly when [q]
    has at least as many commas as [s] has names, with the error about the
    number of samples followed by the line up to the first comma of [q]; in
    every other case it is accepted, the group has one slot per name of [s],
    a rename array of that length, and is named after the first new name. *)
Theorem rename_column_check : forall h str_s s c sp q,
  s <> "" -> isspace c = true -> only_spaces sp = true ->
  starts_with_name q ->
  (known_samples h s = [] ->
   subset_of_line h str_s (escape_name s ++ String c (sp ++ q))
   = Ok (None, Some (first_name s), comma_tokens s)) /\
  (known_samples h s <> [] ->
   (1 + count_commas s <= count_commas q ->
    subset_of_line h str_s (escape_name s ++ String c (sp ++ q))
    = Fatal (rename_error
               (escape_name s ++ String c (sp ++ first_name q))))
   /\
   (count_commas q < 1 + count_commas s ->
    exists set st warn ren,
      subset_of_line h str_s (escape_name s ++ String c (sp ++ q))
      = Ok (Some set, st, warn) /\
      nsmpl set = 1 + count_commas s /\
      rename set = Some ren /\ Z.of_nat (List.length ren) = nsmpl set /\
      fname set = first_name q)).
Proof.
  intros h str_s s c sp q Hs Hc Hsp Hq.
  assert (Hskip : skip_spaces (sp ++ q) = q) by now apply skip_spaces_app.
  assert (Hqne : q <> "") by (destruct q; [contradiction|discriminate]).
  assert (Hscan : scan_names (escape_name s ++ String c (sp ++ q)) false 1 ""
                  = (s, 1 + count_commas s, String c (sp ++ q)))
    by (apply scan_names_unescapes; exact Hc).
  assert (Hbuf : match s with EmptyString => str_s | _ => Some s end = Some s)
    by (destruct s; [contradiction|reflexivity]).
  destruct (subset_of_line_cases h str_s _ _ _ _ s Hscan Hbuf ltac:(lia))
    as (smpl & j & warn & Hn & Hcases).
  destruct (names_loop_count _ _ _ _ _ _ _ _ _ Hn) as [Hj Hw].
  cbn [app] in Hw.
  rewrite (skip_spaces_space c (sp ++ q) Hc), Hskip in Hcases.
  split.
  - intros Hnone. rewrite Hnone in Hj. cbn in Hj.
    assert (Hall : unknown_samples h s = comma_tokens s).
    { unfold known_samples in Hnone. unfold unknown_samples.
      induction (comma_tokens s) as [|n l IH]; [reflexivity|].
      cbn [List.filter] in *.
      destruct (bcf_hdr_id2int_SAMPLE h n >=? 0); [discriminate|].
      cbn [negb]. now rewrite IH. }
    destruct Hcases as [[_ E]|[(Hj0 & _)|[(Hj0 & _)|(Hj0 & _)]]]; try lia.
    rewrite E, Hw, Hall. reflexivity.
  - intros Hsome.
    assert (Hjpos : 0 < j).
    { destruct (known_samples h s); [contradiction|]. cbn [List.length] in Hj.
      lia. }
    destruct Hcases
      as [[Hj0 _]|[(_ & Hq0 & _)|[(_ & _ & Hk & E)|(_ & _ & Hk & ren & L & P & E)]]];
      [lia|contradiction| |].
    + split; [|lia]. intros _. rewrite E. f_equal. f_equal.
      replace (escape_name s ++ String c (sp ++ q))%string
        with ((escape_name s ++ String c sp) ++ q)%string
        by (now rewrite string_app_assoc).
      rewrite line_shown_app. now rewrite string_app_assoc.
    + split; [lia|]. intros _.
      eexists; exists (Some (first_name s)), warn, ren.
      split; [exact E|]. cbn. repeat split; try reflexivity. exact L.
Qed.

Lemma rename_column_check_witness :
  subset_of_line Demo.hdr None "ZZ X,Y" = Ok (None, Some "ZZ", ["ZZ"]) /\
  subset_of_line Demo.hdr None "A,B  X,Y,Z"
  = Fatal (rename_error "A,B  X") /\
  exists set st warn ren,
    subset_of_line Demo.hdr None "B,A,C X" = Ok (Some set, st, warn) /\
    nsmpl set = 3 /\ rename set = Some ren /\
    Z.of_nat (List.length ren) = nsmpl set /\ fname set = "X".
Proof.
  split; [|split].
  - apply (rename_column_check Demo.hdr None "ZZ" " " "" "X,Y");
      [discriminate|reflexivity|reflexivity|reflexivity|reflexivity].
  - apply (rename_column_check Demo.hdr None "A,B" " " " " "X,Y,Z");
      [discriminate|reflexivity|reflexivity|reflexivity
      |vm_compute; discriminate|vm_compute; discriminate].
  - apply (rename_column_check Demo.hdr None "B,A,C" " " "" "X");
      [discriminate|reflexivity|reflexivity|reflexivity
      |vm_compute; discriminate|reflexivity].
Defined.

(** The loop over the lines, started with a usable buffer: it ends normally
    with at most one group per line, or with the error of the rename
    check. *)
Lemma lines_loop_defined : forall h files str_s acc warn,
  match files with
  | [] => True
  | line :: _ =>
      first_column line <> "" \/
      exists b, str_s = Some b /\ count_commas b = 0
  end ->
  (exists s w,
     lines_loop h files str_s acc warn = Ok (s, w) /\
     (List.length s <= List.length acc + List.length files)%nat) \/
  (exists l,
     In l files /\
     lines_loop h files str_s acc warn
     = Fatal (rename_error (line_shown l (second_column l)))).
Proof.
  intros h files. induction files as [|line files IH]; intros str_s acc warn Hb.
  - left. exists acc, warn. cbn [lines_loop]. split; [reflexivity|cbn; lia].
  - cbn [lines_loop].
    destruct (scan_names line false 1 "") as [[put k] ptr] eqn:Hs.
    pose proof (scan_names_slots _ _ _ _ Hs) as Hk.
    assert (Hbuf : exists beg,
               match put with EmptyString => str_s | _ => Some put end = Some beg
               /\ 1 + count_commas beg <= k).
    { destruct put as [|c put0] eqn:Ep.
      - destruct Hb as [Hb|(b & -> & Hc)].
        + unfold first_column in Hb. rewrite Hs in Hb. cbn in Hb. contradiction.
        + exists b. split; [reflexivity|]. cbn [count_commas] in Hk. lia.
      - exists (String c put0). split; [reflexivity|lia]. }
    destruct Hbuf as (beg & Hbuf & Hslots).
    assert (Hnext : forall files' : list string,
               match files' with
               | [] => True
               | l :: _ =>
                   first_column l <> "" \/
                   exists b, Some (first_name beg) = Some b /\ count_commas b = 0
               end).
    { intros [|l files']; [exact I|]. right. exists (first_name beg).
      split; [reflexivity|]. apply scan_comma_commas. }
    destruct (subset_of_line_cases h str_s line put k ptr beg Hs Hbuf Hslots)
      as (smpl & j & w & _ & Hcases).
    destruct Hcases as [[_ E]|[(_ & _ & E)|[(_ & _ & _ & E)|(_ & _ & _ & ren & _ & _ & E)]]];
      rewrite E; cbn [bind].
    + destruct (IH (Some (first_name beg)) acc (warn ++ w) (Hnext files))
        as [(s & w' & E' & L)|(l & Hl & E')].
      * left. exists s, w'. split; [exact E'|]. cbn [List.length]. lia.
      * right. exists l. split; [right; exact Hl|exact E'].
    + match goal with
      | |- context [lines_loop h files _ (acc ++ [?g]) _] =>
          destruct (IH (Some (first_name beg)) (acc ++ [g]) (warn ++ w)
                       (Hnext files)) as [(s & w' & E' & L)|(l & Hl & E')]
      end.
      * left. exists s, w'. split; [exact E'|].
        rewrite length_app in L. cbn [List.length] in *. lia.
      * right. exists l. split; [right; exact Hl|exact E'].
    + right. exists line. split; [left; reflexivity|].
      unfold second_column. rewrite Hs. reflexivity.
    + match goal with
      | |- context [lines_loop h files _ (acc ++ [?g]) _] =>
          destruct (IH (Some (first_name beg)) (acc ++ [g]) (warn ++ w)
                       (Hnext files)) as [(s & w' & E' & L)|(l & Hl & E')]
      end.
      * left. exists s, w'. split; [exact E'|].
        rewrite length_app in L. cbn [List.length] in *. lia.
      * right. exists l. split; [right; exact Hl|exact E'].
Qed.

(** X3: [init_subsets] on a samples file whose first line starts with a name
    (not with white space): every array access of the function is in range and
    its loops terminate. It returns, with at most one group per line of the
    file, or it stops with the error of the rename check for one of the
    lines, which it shows up to the first comma of its second column; it has
    no other outcome. *)
Theorem init_subsets_defined : forall rl args path line files,
  samples_fname args = Some path ->
  rl path = Some (line :: files) ->
  first_column line <> "" ->
  (exists a warn,
     init_subsets rl args = Ok (a, warn) /\
     (List.length (sets a) <= List.length (line :: files))%nat) \/
  (exists l,
     In l (line :: files) /\
     init_subsets rl args
     = Fatal (rename_error (line_shown l (second_column l)))).
Proof.
  intros rl args path line files Hf Hr Hc.
  unfold init_subsets. rewrite Hf, Hr.
  destruct (lines_loop_defined (hdr_in args) (line :: files) None [] []
              (or_introl Hc)) as [(s & w & E & L)|(l & Hl & E)];
    rewrite E; cbn [bind].
  - left. exists (set_sets args s), w. split; [reflexivity|exact L].
  - right. exists l. split; [exact Hl|reflexivity].
Qed.

Lemma init_subsets_defined_witness :
  (exists a warn,
     init_subsets (fun _ => Some ["B,ZZ"; " "; "Q"; "C,A X,Y"])
                  (Demo.args None (Some "groups.txt")) = Ok (a, warn) /\
     (List.length (sets a) <= 4)%nat) \/
  (exists l,
     In l ["B,ZZ"; " "; "Q"; "C,A X,Y"] /\
     init_subsets (fun _ => Some ["B,ZZ"; " "; "Q"; "C,A X,Y"])
                  (Demo.args None (Some "groups.txt"))
     = Fatal (rename_error (line_shown l (second_column l)))).
Proof.
  apply (init_subsets_defined (fun _ => Some ["B,ZZ"; " "; "Q"; "C,A X,Y"])
           (Demo.args None (Some "groups.txt")) "groups.txt" "B,ZZ"
           [" "; "Q"; "C,A X,Y"]); [reflexivity|reflexivity|discriminate].
Defined.

(* ================================================================= *)
(** ** The tag selection: what the tables can hold *)

(** A property of the arguments that the flag updates and the table
    updates of the loop keep holds when the loop ends. *)
Lemma tags_loop_invariant : forall (P : args_t -> Prop),
  (forall a v, P a -> P (set_keep_info a v)) ->
  (forall a v, P a -> P (set_keep_fmt a v)) ->
  (forall is_info is_fmt id a a',
     P a -> record_tag is_info is_fmt id a = Ok a' -> P a') ->
  forall fuel is_info is_fmt beg a a',
    P a -> tags_loop fuel is_info is_fmt beg a = Ok a' -> P a'.
Proof.
  intros P Hi Hf Hr. induction fuel as [|fuel IH];
    intros is_info is_fmt beg a a' HP H; [discriminate|].
  rewrite tags_loop_unfold in H.
  assert (Hname : forall i f b,
            name_step fuel i f b a = Ok a' -> P a').
  { intros i f b Hn. rewrite name_step_unfold in Hn.
    destruct (record_tag i f (bcf_hdr_id2int_ID (hdr_in a) (fst (scan_comma b))) a)
      as [a1| | |] eqn:E; cbn [bind] in Hn; try discriminate.
    eapply IH; [|exact Hn]. eapply Hr; [exact HP|exact E]. }
  destruct beg as [|c beg0]; [inversion H; subst; exact HP|].
  set (beg := String c beg0) in *.
  destruct (strncasecmp_eq "INFO/" beg 5); [eapply Hname; exact H|].
  destruct (strcasecmp_eq "INFO" beg); [inversion H; subst; apply Hi, HP|].
  destruct (strncasecmp_eq "INFO," beg 5);
    [eapply IH; [|exact H]; apply Hi, HP|].
  destruct (strncasecmp_eq "FMT/" beg 4); [eapply Hname; exact H|].
  destruct (strncasecmp_eq "FORMAT/" beg 7); [eapply Hname; exact H|].
  destruct (strcasecmp_eq "FMT" beg); [inversion H; subst; apply Hf, HP|].
  destruct (strcasecmp_eq "FORMAT" beg); [inversion H; subst; apply Hf, HP|].
  destruct (strncasecmp_eq "FMT," beg 4);
    [eapply IH; [|exact H]; apply Hf, HP|].
  destruct (strncasecmp_eq "FORMAT," beg 7);
    [eapply IH; [|exact H]; apply Hf, HP|].
  eapply Hname; exact H.
Qed.

Lemma nth_app_zeros : forall (tab : list Z) k i,
  nth i (tab ++ repeat 0 k) 0 = nth i tab 0.
Proof.
  intros tab k i. destruct (Nat.lt_ge_cases i (List.length tab)) as [H|H].
  - now rewrite app_nth1.
  - rewrite app_nth2 by exact H. rewrite nth_repeat.
    symmetry. apply nth_overflow. exact H.
Qed.

(** Marking the id of a declared tag keeps the table sound. *)
Lemma mark_sound : forall h t n m tab id tab',
  table_sound h t n tab ->
  bcf_hdr_idinfo_exists h t id = true ->
  let n' := if id >=? n then id + 1 else n in
  arr_set (snd (hts_expand0 n' m tab)) id 1 = Ok tab' ->
  table_sound h t n' tab'.
Proof.
  intros h t n m tab id tab' Hs He n' Ha.
  apply arr_set_ok in Ha. destruct Ha as (Hid & Hlt & ->).
  assert (Hexp : forall i, nth i (snd (hts_expand0 n' m tab)) 0 = nth i tab 0).
  { intros i. unfold hts_expand0. destruct (n' >? m); cbn [snd];
      [apply nth_app_zeros|reflexivity]. }
  intros i Hi. destruct (Nat.eq_dec i (Z.to_nat id)) as [->|Hne].
  - rewrite list_set_nth_same by exact Hlt.
    rewrite Z2Nat.id by exact Hid. split; [|split; [reflexivity|exact He]].
    subst n'. destruct (id >=? n) eqn:E; lia.
  - rewrite list_set_nth_other in Hi |- * by exact Hne.
    rewrite Hexp in Hi |- *. destruct (Hs i Hi) as (H1 & H2 & H3).
    split; [|split; assumption]. subst n'. destruct (id >=? n) eqn:E; lia.
Qed.

Lemma record_tag_sound : forall h is_info is_fmt id a a',
  hdr_in a = h /\
  table_sound h BCF_HL_INFO (ninfo_tags a) (info_tags a) /\
  table_sound h BCF_HL_FMT (nfmt_tags a) (fmt_tags a) ->
  record_tag is_info is_fmt id a = Ok a' ->
  hdr_in a' = h /\
  table_sound h BCF_HL_INFO (ninfo_tags a') (info_tags a') /\
  table_sound h BCF_HL_FMT (nfmt_tags a') (fmt_tags a').
Proof.
  intros h is_info is_fmt id a a' (Hh & Hsi & Hsf) H.
  set (ei := (is_info && bcf_hdr_idinfo_exists (hdr_in a) BCF_HL_INFO id)%bool).
  assert (H1 : exists a1,
            (if ei
             then
               let n := if id >=? ninfo_tags a then id + 1 else ninfo_tags a in
               let '(m, tab) := hts_expand0 n (minfo_tags a) (info_tags a) in
               do tab <- arr_set tab id 1; Ok (set_info_tags a n m tab)
             else Ok a) = Ok a1 /\
            hdr_in a1 = h /\
            table_sound h BCF_HL_INFO (ninfo_tags a1) (info_tags a1) /\
            table_sound h BCF_HL_FMT (nfmt_tags a1) (fmt_tags a1) /\
            record_tag is_info is_fmt id a
            = (if (is_fmt && bcf_hdr_idinfo_exists (hdr_in a1) BCF_HL_FMT id)%bool
               then
                 let n := if id >=? nfmt_tags a1 then id + 1 else nfmt_tags a1 in
                 let '(m, tab) := hts_expand0 n (mfmt_tags a1) (fmt_tags a1) in
                 do tab <- arr_set tab id 1; Ok (set_fmt_tags a1 n m tab)
               else Ok a1)).
  { unfold record_tag in H |- *. fold ei in H |- *. destruct ei eqn:Eei.
    - subst ei. apply andb_prop in Eei. destruct Eei as [_ Ee]. rewrite Hh in Ee.
      cbv zeta in H |- *.
      destruct (hts_expand0 (if id >=? ninfo_tags a then id + 1 else ninfo_tags a)
                            (minfo_tags a) (info_tags a)) as [m tab] eqn:Ex.
      destruct (arr_set tab id 1) as [tab'| | |] eqn:Ea; cbn [bind] in H;
        try discriminate.
      eexists. split; [cbn [bind]; reflexivity|].
      split; [exact Hh|]. split; [|split; [exact Hsf|reflexivity]].
      cbn [ninfo_tags info_tags set_info_tags].
      eapply mark_sound with (m := minfo_tags a); [exact Hsi|exact Ee|].
      rewrite Ex. exact Ea.
    - exists a. split; [reflexivity|]. split; [exact Hh|].
      split; [exact Hsi|]. split; [exact Hsf|reflexivity]. }
  destruct H1 as (a1 & E1 & Hh1 & Hsi1 & Hsf1 & Erec).
  rewrite Erec in H. clear Erec E1.
  destruct (is_fmt && bcf_hdr_idinfo_exists (hdr_in a1) BCF_HL_FMT id)%bool eqn:Eef.
  - apply andb_prop in Eef. destruct Eef as [_ Ee]. rewrite Hh1 in Ee.
    cbv zeta in H.
    destruct (hts_expand0 (if id >=? nfmt_tags a1 then id + 1 else nfmt_tags a1)
                          (mfmt_tags a1) (fmt_tags a1)) as [m tab] eqn:Ex.
    destruct (arr_set tab id 1) as [tab'| | |] eqn:Ea; cbn [bind] in H;
      try discriminate.
    inversion H; subst a'.
    split; [exact Hh1|]. split; [exact Hsi1|].
    cbn [nfmt_tags fmt_tags set_fmt_tags].
    eapply mark_sound with (m := mfmt_tags a1); [exact Hsf1|exact Ee|].
    rewrite Ex. exact Ea.
  - inversion H; subst a'. split; [exact Hh1|]. split; assumption.
Qed.

Lemma tag_defaults_hdr : forall p, hdr_in (tag_defaults p) = hdr_in p.
Proof. intros p. defaults_cases p; reflexivity. Qed.

Lemma in_table_sound : forall h t n tab id,
  table_sound h t n tab -> in_table n tab id = true ->
  bcf_hdr_idinfo_exists h t id = true.
Proof.
  intros h t n tab id Hs H. unfold in_table in H.
  apply andb_prop in H. destruct H as [H Hnz].
  apply andb_prop in H. destruct H as [H0 _].
  apply negb_true_iff in Hnz.
  destruct (Hs (Z.to_nat id) ltac:(lia)) as (_ & _ & He).
  rewrite Z2Nat.id in He by lia. exact He.
Qed.

(** What the tag selection leaves: the header is the one it started with,
    and both tables are sound for it. *)
Lemma select_tags_sound : forall a,
  no_tags_yet a ->
  exists p,
    parse_tags a = Ok p /\ select_tags a = Ok (tag_defaults p) /\
    hdr_in (tag_defaults p) = hdr_in a /\
    table_sound (hdr_in a) BCF_HL_INFO (ninfo_tags (tag_defaults p))
                (info_tags (tag_defaults p)) /\
    table_sound (hdr_in a) BCF_HL_FMT (nfmt_tags (tag_defaults p))
                (fmt_tags (tag_defaults p)).
Proof.
  intros a Ha.
  destruct (parse_tags_ok a (no_tags_yet_tables a Ha)) as (p & Ep & _).
  assert (HP : hdr_in p = hdr_in a /\
               table_sound (hdr_in a) BCF_HL_INFO (ninfo_tags p) (info_tags p) /\
               table_sound (hdr_in a) BCF_HL_FMT (nfmt_tags p) (fmt_tags p)).
  { assert (H0 : hdr_in a = hdr_in a /\
                 table_sound (hdr_in a) BCF_HL_INFO (ninfo_tags a) (info_tags a) /\
                 table_sound (hdr_in a) BCF_HL_FMT (nfmt_tags a) (fmt_tags a)).
    { destruct Ha as (_ & _ & _ & _ & Hi & _ & _ & Hf). rewrite Hi, Hf.
      split; [reflexivity|].
      split; intros i Hn; destruct i; cbn in Hn; contradiction. }
    pose proof Ep as Ep'.
    unfold parse_tags in Ep'. destruct (keep_tags a) as [beg|].
    - revert Ep'.
      apply (tags_loop_invariant
               (fun x => hdr_in x = hdr_in a /\
                  table_sound (hdr_in a) BCF_HL_INFO (ninfo_tags x) (info_tags x) /\
                  table_sound (hdr_in a) BCF_HL_FMT (nfmt_tags x) (fmt_tags x)));
        [intros x v Hx; exact Hx|intros x v Hx; exact Hx| |exact H0].
      intros i f id0 x x' Hx Hr. eapply record_tag_sound; eassumption.
    - inversion Ep'; subst p. exact H0. }
  destruct HP as (Hh & Hsi & Hsf).
  exists p. split; [exact Ep|]. unfold select_tags. rewrite Ep. cbn [bind].
  split; [reflexivity|]. rewrite tag_defaults_hdr.
  split; [exact Hh|].
  destruct (tag_defaults_tables p) as (-> & -> & -> & ->).
  split; assumption.
Qed.

(** X4: only tags that the input header declares are ever selected: after the
    [-k] list has been read, every id in the site-level table is the id of an
    INFO declaration of the header and every id in the per-sample table is the
    id of a FORMAT declaration; names that the header does not declare in the
    category switched on leave no trace. *)
Theorem selected_tags_are_declared : forall a,
  no_tags_yet a ->
  exists a',
    select_tags a = Ok a' /\ hdr_in a' = hdr_in a /\
    (forall id, in_table (ninfo_tags a') (info_tags a') id = true ->
                bcf_hdr_idinfo_exists (hdr_in a) BCF_HL_INFO id = true) /\
    (forall id, in_table (nfmt_tags a') (fmt_tags a') id = true ->
                bcf_hdr_idinfo_exists (hdr_in a) BCF_HL_FMT id = true).
Proof.
  intros a Ha.
  destruct (select_tags_sound a Ha) as (p & _ & Es & Hh & Hsi & Hsf).
  exists (tag_defaults p). split; [exact Es|]. split; [exact Hh|].
  split; intros id0 Hin; eapply in_table_sound; eassumption.
Qed.

Lemma selected_tags_are_declared_witness :
  exists a',
    select_tags (Demo.args (Some "INFO/DP,XX,GT,FMT/GT,AF") None) = Ok a' /\
    hdr_in a' = Demo.hdr /\
    (forall id, in_table (ninfo_tags a') (info_tags a') id = true ->
                bcf_hdr_idinfo_exists Demo.hdr BCF_HL_INFO id = true) /\
    (forall id, in_table (nfmt_tags a') (fmt_tags a') id = true ->
                bcf_hdr_idinfo_exists Demo.hdr BCF_HL_FMT id = true).
Proof.
  apply (selected_tags_are_declared
           (Demo.args (Some "INFO/DP,XX,GT,FMT/GT,AF") None)).
  repeat split; reflexivity.
Defined.

(** A list of bare names none of which is declared in the category that is
    switched on leaves the arguments as they are. *)
Lemma tags_from_undeclared : forall names is_info is_fmt a,
  Forall (fun t => bare_name t = true) names ->
  Forall (fun t =>
            (is_info && bcf_hdr_idinfo_exists (hdr_in a) BCF_HL_INFO
                          (bcf_hdr_id2int_ID (hdr_in a) t)
             || is_fmt && bcf_hdr_idinfo_exists (hdr_in a) BCF_HL_FMT
                            (bcf_hdr_id2int_ID (hdr_in a) t))%bool = false)
         names ->
  tags_from is_info is_fmt (comma_list names) a = Ok a.
Proof.
  induction names as [|t names IH]; intros is_info is_fmt a Hb Hu.
  - reflexivity.
  - inversion Hb as [|? ? Hbt Hb']; subst. inversion Hu as [|? ? Hut Hu']; subst.
    apply orb_false_elim in Hut. destruct Hut as [Hi Hf].
    assert (Hrec : record_tag is_info is_fmt
                     (bcf_hdr_id2int_ID (hdr_in a) t) a = Ok a).
    { unfold record_tag. rewrite Hi. cbn [bind]. rewrite Hf. reflexivity. }
    destruct names as [|t' names'].
    + cbn [comma_list]. rewrite tags_from_bare_last by exact Hbt. exact Hrec.
    + change (comma_list (t :: t' :: names'))
        with (t ++ String "," (comma_list (t' :: names')))%string.
      rewrite tags_from_bare by exact Hbt. rewrite Hrec. cbn [bind].
      apply IH; assumption.
Qed.

Lemma comma_list_scan : forall t names,
  has_comma t = false ->
  first_name (comma_list (t :: names)) = t /\
  after_name (comma_list (t :: names)) = comma_list names.
Proof.
  intros t names Ht. unfold first_name, after_name.
  destruct names as [|t' names'].
  - cbn [comma_list]. rewrite scan_comma_last by exact Ht. split; reflexivity.
  - change (comma_list (t :: t' :: names'))
      with (t ++ String "," (comma_list (t' :: names')))%string.
    rewrite scan_comma_app by exact Ht. split; reflexivity.
Qed.

Lemma no_tags_yet_defaults : forall a,
  no_tags_yet a -> tag_defaults a = set_keep_fmt (set_keep_info a 1) 1.
Proof.
  intros a (Hi & Hf & Hni & _ & _ & Hnf & _ & _).
  unfold tag_defaults. rewrite Hi, Hf, Hni, Hnf. reflexivity.
Qed.

(** X5: a [-k] list that names only tags which the header does not declare in
    the category of its marker selects nothing, and the defaults then keep
    everything: the result is the one of a run without [-k], both keep-all
    flags set and both tables empty. (A misspelt tag name therefore does not
    drop any field.) *)
Theorem undeclared_tags_keep_everything : forall a marker cat t names,
  no_tags_yet a ->
  marker_category marker = Some cat ->
  Forall (fun t => bare_name t = true) (t :: names) ->
  Forall (fun t => bcf_hdr_idinfo_exists (hdr_in a) cat
                     (bcf_hdr_id2int_ID (hdr_in a) t) = false) (t :: names) ->
  keep_tags a = Some (marker ++ comma_list (t :: names))%string ->
  select_tags a = Ok (set_keep_fmt (set_keep_info a 1) 1).
Proof.
  intros a marker cat t names Ha Hm Hb Hu Hk.
  inversion Hb as [|? ? Hbt Hb']; subst.
  inversion Hu as [|? ? Hut Hu']; subst.
  destruct (bare_name_parts t Hbt) as (_ & Hc & _).
  destruct (comma_list_scan t names Hc) as [Hfirst Hafter].
  assert (Hparse : parse_tags a = Ok a).
  { unfold parse_tags. rewrite Hk.
    change (tags_from false false (marker ++ comma_list (t :: names)) a = Ok a).
    unfold marker_category in Hm.
    destruct (String.eqb marker "INFO/") eqn:E1.
    - apply String.eqb_eq in E1. subst marker. inversion Hm; subst cat.
      rewrite tags_from_info_marker by reflexivity.
      change (advance 5 ("INFO/" ++ comma_list (t :: names)))
        with (comma_list (t :: names)).
      rewrite Hfirst, Hafter.
      unfold record_tag. cbn [andb bind]. rewrite Hut. cbn [andb bind].
      apply tags_from_undeclared; [exact Hb'|].
      eapply Forall_impl; [|exact Hu']. cbn. intros x Hx. rewrite Hx. reflexivity.
    - destruct (String.eqb marker "FMT/") eqn:E2.
      + apply String.eqb_eq in E2. subst marker. inversion Hm; subst cat.
        rewrite tags_from_fmt_marker by reflexivity.
        change (advance 4 ("FMT/" ++ comma_list (t :: names)))
          with (comma_list (t :: names)).
        rewrite Hfirst, Hafter.
        unfold record_tag. cbn [andb bind]. rewrite Hut. cbn [andb bind].
        apply tags_from_undeclared; [exact Hb'|].
        eapply Forall_impl; [|exact Hu']. cbn. intros x Hx. rewrite Hx. reflexivity.
      + destruct (String.eqb marker "FORMAT/") eqn:E3; [|discriminate].
        apply String.eqb_eq in E3. subst marker. inversion Hm; subst cat.
        rewrite tags_from_format_marker by reflexivity.
        change (advance 7 ("FORMAT/" ++ comma_list (t :: names)))
          with (comma_list (t :: names)).
        rewrite Hfirst, Hafter.
        unfold record_tag. cbn [andb bind]. rewrite Hut. cbn [andb bind].
        apply tags_from_undeclared; [exact Hb'|].
        eapply Forall_impl; [|exact Hu']. cbn. intros x Hx. rewrite Hx. reflexivity. }
  unfold select_tags. rewrite Hparse. cbn [bind].
  now rewrite no_tags_yet_defaults.
Qed.

Lemma undeclared_tags_keep_everything_witness :
  select_tags (Demo.args (Some "FMT/AF,XX") None)
  = Ok (set_keep_fmt (set_keep_info (Demo.args (Some "FMT/AF,XX") None) 1) 1).
Proof.
  apply (undeclared_tags_keep_everything
           (Demo.args (Some "FMT/AF,XX") None) "FMT/" BCF_HL_FMT "AF" ["XX"]).
  - repeat split; reflexivity.
  - reflexivity.
  - repeat constructor.
  - repeat constructor.
  - reflexivity.
Defined.

(* ================================================================= *)
(** ** The header of the outputs *)

Lemma index_from_found : forall A (test : A -> bool) (l : list A) (i : Z) x,
  In x l -> test x = true ->
  i <= index_from test l i < i + Z.of_nat (List.length l).
Proof.
  intros A test l. induction l as [|y l IH]; intros i x Hin Hp; [contradiction|].
  cbn [index_from List.length]. destruct (test y) eqn:Ey; [lia|].
  destruct Hin as [->|Hin]; [congruence|].
  specialize (IH (i + 1) x Hin Hp). lia.
Qed.

Lemma id2int_of_entry : forall h e,
  In e (hdr_ids h) ->
  0 <= bcf_hdr_id2int_ID h (id_key e) < Z.of_nat (List.length (hdr_ids h)).
Proof.
  intros h e Hin. unfold bcf_hdr_id2int_ID.
  pose proof (index_from_found _ (fun x => String.eqb (id_key x) (id_key e))
                (hdr_ids h) 0 e Hin (String.eqb_refl _)). lia.
Qed.

(** The test of lines 273 and 278 on a table the parser left. *)
Lemma table_test : forall n m tab id,
  table_ok n m tab -> 0 <= id ->
  (if id >=? n then Ok true else do t <- arr_get tab id; Ok (t =? 0))
  = Ok (negb (in_table n tab id)).
Proof.
  intros n m tab id (Hn & Hl & _) Hid. unfold in_table.
  destruct (id >=? n) eqn:E.
  - replace (id <? n) with false by lia.
    now rewrite Bool.andb_false_r.
  - rewrite (arr_get_nth _ tab id 0) by lia. cbn [bind].
    replace (0 <=? id) with true by lia. replace (id <? n) with true by lia.
    cbn [andb]. now rewrite Bool.negb_involutive.
Qed.

Lemma project_entry_spec : forall a e,
  tables_ok a -> In e (hdr_ids (hdr_in a)) ->
  project_entry a e = Ok (projected a e).
Proof.
  intros a e [Hti Htf] Hin.
  pose proof (id2int_of_entry _ _ Hin) as [Hid _].
  unfold project_entry, projected. cbv zeta.
  set (id := bcf_hdr_id2int_ID (hdr_in a) (id_key e)) in *.
  pose proof (table_test _ _ _ id Hti Hid) as Ti.
  pose proof (table_test _ _ _ id Htf Hid) as Tf.
  destruct (id_is_info e), (id_is_fmt e), (keep_info a =? 0) eqn:Ek,
    (ninfo_tags a =? 0) eqn:Eni, (nfmt_tags a =? 0) eqn:Enf;
    cbn [andb orb negb bind]; rewrite ?Ti, ?Tf; cbn [bind andb orb negb];
    rewrite ?Bool.negb_involutive, ?Bool.andb_true_r; reflexivity.
Qed.

Lemma map_result_spec : forall A B (f : A -> result B) (g : A -> B) l,
  (forall x, In x l -> f x = Ok (g x)) -> map_result f l = Ok (map g l).
Proof.
  induction l as [|x l IH]; intros H; cbn [map_result map]; [reflexivity|].
  rewrite H by (left; reflexivity). cbn [bind].
  rewrite IH by (intros y Hy; apply H; right; exact Hy). reflexivity.
Qed.

(** Lines 259-288 in closed form. *)
Lemma project_header_spec : forall a,
  tables_ok a ->
  project_header a = Ok (map (projected a) (hdr_ids (hdr_in a))).
Proof.
  intros a Ht. unfold project_header.
  destruct ((keep_info a =? 0) || negb (ninfo_tags a =? 0)
            || negb (nfmt_tags a =? 0))%bool eqn:E.
  - apply map_result_spec. intros e He. now apply project_entry_spec.
  - apply orb_false_elim in E. destruct E as [E Enf].
    apply orb_false_elim in E. destruct E as [Ek Eni].
    apply negb_false_iff in Enf, Eni.
    f_equal. symmetry. rewrite <- (map_id (hdr_ids (hdr_in a))) at 2.
    apply map_ext. intros [k i f]. unfold projected. cbn.
    rewrite Ek, Eni, Enf. cbn. now rewrite !Bool.andb_true_r.
Qed.

(** X6: the copy of the header made for the outputs differs from the input
    header only by INFO and FORMAT declarations that it lacks: it has the same
    entries with the same keys in the same order, no entry gains a
    declaration, the FORMAT declarations are all kept when no per-sample tag
    was selected, and the INFO declarations are all kept when all site-level
    fields are kept and no site-level tag was selected. *)
Theorem project_header_only_removes : forall a,
  tables_ok a ->
  exists h',
    project_header a = Ok h' /\
    Forall2
      (fun e e' =>
         id_key e' = id_key e /\
         (id_is_info e' = true -> id_is_info e = true) /\
         (id_is_fmt e' = true -> id_is_fmt e = true) /\
         (nfmt_tags a = 0 -> id_is_fmt e' = id_is_fmt e) /\
         (keep_info a <> 0 -> ninfo_tags a = 0 ->
          id_is_info e' = id_is_info e))
      (hdr_ids (hdr_in a)) h'.
Proof.
  intros a Ht. exists (map (projected a) (hdr_ids (hdr_in a))).
  split; [now apply project_header_spec|].
  induction (hdr_ids (hdr_in a)) as [|e l IH]; cbn [map]; constructor;
    [|exact IH].
  unfold projected. cbn [id_key id_is_info id_is_fmt].
  split; [reflexivity|]. split; [|split; [|split]].
  - intros H. apply andb_prop in H. destruct H as [H _].
    apply andb_prop in H. tauto.
  - intros H. apply andb_prop in H. tauto.
  - intros ->. cbn. now rewrite Bool.andb_true_r.
  - intros Hk ->. replace (keep_info a =? 0) with false by lia.
    cbn. now rewrite !Bool.andb_true_r.
Qed.

Lemma project_header_only_removes_witness :
  exists h',
    project_header (Demo.selected (Some "FMT/GT")) = Ok h' /\
    Forall2
      (fun e e' =>
         id_key e' = id_key e /\
         (id_is_info e' = true -> id_is_info e = true) /\
         (id_is_fmt e' = true -> id_is_fmt e = true) /\
         (nfmt_tags (Demo.selected (Some "FMT/GT")) = 0 ->
          id_is_fmt e' = id_is_fmt e) /\
         (keep_info (Demo.selected (Some "FMT/GT")) <> 0 ->
          ninfo_tags (Demo.selected (Some "FMT/GT")) = 0 ->
          id_is_info e' = id_is_info e))
      (hdr_ids (hdr_in (Demo.selected (Some "FMT/GT")))) h'.
Proof.
  apply (project_header_only_removes (Demo.selected (Some "FMT/GT"))).
  vm_compute. repeat split; discriminate.
Defined.

(** X7: with a site-level selection and no [INFO] keyword ([keep_info] is 0),
    the output header loses every INFO declaration, those of the selected tags
    included, while [rec_set_info] still copies the selected fields: a record
    that has a selected field is written with a positive field count that the
    header no longer declares. *)
Theorem selected_info_loses_its_declaration : forall a,
  tables_ok a -> keep_info a = 0 ->
  (exists h',
     project_header a = Ok h' /\
     Forall (fun e => id_is_info e = false) h') /\
  (forall set rec i,
     decoded_info rec -> keys_in_table a rec ->
     In i (d_info rec) ->
     in_table (ninfo_tags a) (info_tags a) (key i) = true ->
     exists out,
       rec_set_info a set rec None = Ok out /\
       0 < n_info out /\
       exists pre post,
         shared out = (pre ++ info_unit rec i ++ post)%list).
Proof.
  intros a Ht Hk. split.
  - exists (map (projected a) (hdr_ids (hdr_in a))).
    split; [now apply project_header_spec|].
    apply Forall_map. apply Forall_forall. intros e _.
    unfold projected. cbn [id_is_info]. rewrite Hk. cbn.
    now rewrite Bool.andb_false_r.
  - intros set rec i Hd Hkeys Hin Htab.
    destruct (rec_set_info_selected a set rec Hk Hd Hkeys)
      as (out & E & Hs & Hn).
    assert (Hnz : (ninfo_tags a =? 0) = false).
    { unfold in_table in Htab. apply andb_prop in Htab.
      destruct Htab as [Htab _]. apply andb_prop in Htab. lia. }
    rewrite Hnz in Hs, Hn.
    assert (Hsel : In i (List.filter (info_in_table a) (d_info rec))).
    { apply filter_In. split; [exact Hin|]. unfold info_in_table.
      unfold in_table in Htab. apply andb_prop in Htab. tauto. }
    exists out. split; [exact E|]. split.
    + rewrite Hn. destruct (List.filter (info_in_table a) (d_info rec));
        [contradiction|cbn [List.length]; lia].
    + apply in_split in Hsel. destruct Hsel as (l1 & l2 & El).
      rewrite Hs, El. rewrite flat_map_app. cbn [flat_map].
      exists (preamble rec ++ flat_map (info_unit rec) l1),
             (flat_map (info_unit rec) l2).
      now rewrite <- !app_assoc.
Qed.

Lemma selected_info_loses_its_declaration_witness :
  (exists h',
     project_header (Demo.selected (Some "INFO/DP,AF,AC")) = Ok h' /\
     Forall (fun e => id_is_info e = false) h') /\
  exists out,
    rec_set_info (Demo.selected (Some "INFO/DP,AF,AC")) (Demo.group [0])
                 Demo.rec None = Ok out /\
    0 < n_info out /\
    exists pre post,
      shared out
      = (pre ++ info_unit Demo.rec
                  {| key := 1; vptr := 11; vptr_len := 1; vptr_off := 3 |}
             ++ post)%list.
Proof.
  assert (Ht : tables_ok (Demo.selected (Some "INFO/DP,AF,AC")))
    by (vm_compute; repeat split; discriminate).
  destruct (selected_info_loses_its_declaration
              (Demo.selected (Some "INFO/DP,AF,AC")) Ht eq_refl) as [H1 H2].
  split; [exact H1|].
  apply (H2 (Demo.group [0]) Demo.rec
            {| key := 1; vptr := 11; vptr_len := 1; vptr_off := 3 |}).
  - unfold decoded_info. repeat (split; [vm_compute; congruence|]).
    repeat constructor; vm_compute; congruence.
  - unfold keys_in_table. repeat constructor; vm_compute; congruence.
  - left. reflexivity.
  - reflexivity.
Defined.

Lemma index_from_first : forall A (test : A -> bool) (l : list A) (i0 : Z) i x,
  nth_error l i = Some x -> test x = true ->
  (forall j y, (j < i)%nat -> nth_error l j = Some y -> test y = false) ->
  index_from test l i0 = i0 + Z.of_nat i.
Proof.
  intros A test l. induction l as [|y l IH]; intros i0 i x Hn Hp Hbefore.
  - destruct i; discriminate.
  - cbn [index_from]. destruct i as [|i].
    + inversion Hn; subst. rewrite Hp. cbn. lia.
    + rewrite (Hbefore 0%nat y) by (cbn; (lia || reflexivity)).
      rewrite (IH (i0 + 1) i x Hn Hp).
      * lia.
      * intros j z Hj Hz. apply (Hbefore (S j) z); [lia|exact Hz].
Qed.

(** In a dictionary without repeated keys, looking up the key of the entry
    of index [i] gives [i]. *)
Lemma id2int_of_index : forall h i e,
  NoDup (map id_key (hdr_ids h)) ->
  nth_error (hdr_ids h) i = Some e ->
  bcf_hdr_id2int_ID h (id_key e) = Z.of_nat i.
Proof.
  intros h i e Hnd Hn. unfold bcf_hdr_id2int_ID.
  rewrite (index_from_first _ _ (hdr_ids h) 0 i e Hn (String.eqb_refl _)); [lia|].
  intros j y Hj Hy. apply String.eqb_neq. intros Heq.
  assert (Hi : nth_error (map id_key (hdr_ids h)) i = Some (id_key e))
    by (rewrite nth_error_map, Hn; reflexivity).
  assert (Hj' : nth_error (map id_key (hdr_ids h)) j = Some (id_key e))
    by (rewrite nth_error_map, Hy; cbn; rewrite Heq; reflexivity).
  assert (Hlt : (j < List.length (map id_key (hdr_ids h)))%nat)
    by (apply nth_error_Some; congruence).
  pose proof (proj1 (NoDup_nth_error _) Hnd j i Hlt) as Hinj.
  rewrite Hi, Hj' in Hinj. specialize (Hinj eq_refl). lia.
Qed.

(** X8: the FORMAT declarations of the output header are those of the fields
    that [rec_set_format] keeps, unless a bare [FMT] keyword accompanies a
    per-sample selection: when the keep-all-sample flag is clear or no
    per-sample tag is selected, the entry of index [i] of the projected header
    declares a FORMAT tag exactly when the input header does and a field of id
    [i] is retained in the records. *)
Theorem format_declarations_match_records : forall a0 a,
  no_tags_yet a0 -> select_tags a0 = Ok a ->
  keep_fmt a = 0 \/ nfmt_tags a = 0 ->
  NoDup (map id_key (hdr_ids (hdr_in a0))) ->
  exists h',
    project_header a = Ok h' /\
    forall i e f,
      nth_error (hdr_ids (hdr_in a0)) i = Some e ->
      id f = Z.of_nat i ->
      exists e',
        nth_error h' i = Some e' /\
        id_is_fmt e' = (id_is_fmt e && fmt_retained a f)%bool.
Proof.
  intros a0 a H0 Hsel Hcase Hnd.
  destruct (select_tags_sound a0 H0) as (p & _ & Es & Hh & _ & _).
  rewrite Hsel in Es. inversion Es; subst a. clear Es.
  destruct (select_tags_tables a0 (tag_defaults p) (no_tags_yet_tables a0 H0) Hsel)
    as [Ht _].
  exists (map (projected (tag_defaults p)) (hdr_ids (hdr_in (tag_defaults p)))).
  split; [now apply project_header_spec|].
  intros i e f Hn Hf. rewrite Hh.
  exists (projected (tag_defaults p) e).
  split; [rewrite nth_error_map, Hn; reflexivity|].
  unfold projected, fmt_retained. cbn [id_is_fmt].
  rewrite Hh, (id2int_of_index _ _ _ Hnd Hn), Hf.
  pose proof (tag_defaults_fmt p) as Hd.
  destruct (tag_defaults_tables p) as (_ & _ & Enf & _).
  destruct Hcase as [Hk|Hz].
  - rewrite Hk in *. cbn [negb orb Z.eqb].
    replace (nfmt_tags (tag_defaults p) =? 0) with false by lia.
    reflexivity.
  - rewrite Hz in *. cbn [Z.eqb orb].
    replace (keep_fmt (tag_defaults p) =? 0) with false by lia.
    reflexivity.
Qed.

Lemma format_declarations_match_records_witness :
  exists h',
    project_header (Demo.selected (Some "INFO,FMT/GT,PL")) = Ok h' /\
    forall i e f,
      nth_error (hdr_ids Demo.hdr) i = Some e ->
      id f = Z.of_nat i ->
      exists e',
        nth_error h' i = Some e' /\
        id_is_fmt e'
        = (id_is_fmt e && fmt_retained (Demo.selected (Some "INFO,FMT/GT,PL")) f)%bool.
Proof.
  apply (format_declarations_match_records
           (Demo.args (Some "INFO,FMT/GT,PL") None)
           (Demo.selected (Some "INFO,FMT/GT,PL"))).
  - repeat split; reflexivity.
  - reflexivity.
  - left. reflexivity.
  - vm_compute. repeat constructor; cbn; intuition discriminate.
Defined.

(* ================================================================= *)
(** ** The paths of the output files *)

Lemma string_app_inv_head : forall x a b : string,
  (x ++ a = x ++ b)%string -> a = b.
Proof.
  induction x as [|c x IH]; intros a b H; cbn in H; [exact H|].
  inversion H. auto.
Qed.

Lemma list_of_string_app : forall a b : string,
  list_ascii_of_string (a ++ b)
  = (list_ascii_of_string a ++ list_ascii_of_string b)%list.
Proof.
  induction a as [|c a IH]; intros b; cbn; [reflexivity|]. now rewrite IH.
Qed.

Lemma string_app_inv_tail : forall a b e : string,
  (a ++ e = b ++ e)%string -> a = b.
Proof.
  intros a b e H.
  apply (f_equal list_ascii_of_string) in H.
  rewrite !list_of_string_app in H. apply app_inv_tail in H.
  rewrite <- (string_of_list_ascii_of_string a),
          <- (string_of_list_ascii_of_string b).
  now rewrite H.
Qed.

Lemma underscored_clean : forall s, has_space s = false -> underscored s = s.
Proof.
  induction s as [|c s IH]; intros H; [reflexivity|].
  cbn in H. apply orb_false_elim in H. destruct H as [Hc Hs].
  unfold underscored in *. cbn [map_string]. rewrite Hc. now rewrite IH.
Qed.

Lemma underscored_no_space : forall s, has_space (underscored s) = false.
Proof.
  induction s as [|c s IH]; [reflexivity|].
  unfold underscored in *. cbn [map_string has_space]. rewrite IH.
  destruct (isspace c) eqn:E; [reflexivity|]. now rewrite E.
Qed.

Lemma underscored_length : forall s,
  String.length (underscored s) = String.length s.
Proof.
  unfold underscored. induction s as [|c s IH];
    cbn [map_string String.length]; [reflexivity|]. f_equal. exact IH.
Qed.

(** Lines 294-302 in closed form. *)
Lemma output_path_spec : forall a set dir,
  output_dir a = Some dir -> dir <> "" ->
  output_path a set
  = Ok ((with_slash dir ++ underscored (fname set))
        ++ extension (output_type a))%string.
Proof.
  intros a set dir Hd Hne. unfold output_path, with_slash, extension.
  rewrite Hd. destruct (last_char dir) as [c|] eqn:El.
  - fold (underscored (fname set)).
    destruct (Ascii.eqb c "/") eqn:Ec.
    + apply Ascii.eqb_eq in Ec. subst c.
      destruct (negb (Z.land (output_type a) FT_BCF =? 0));
        [reflexivity|].
      destruct (negb (Z.land (output_type a) FT_GZ =? 0)); reflexivity.
    + assert (Hs : match c with
                   | "/"%char => dir
                   | _ => (dir ++ "/")%string
                   end = (dir ++ "/")%string).
      { destruct c as [[] [] [] [] [] [] [] []]; try reflexivity.
        discriminate Ec. }
      rewrite Hs.
      destruct (negb (Z.land (output_type a) FT_BCF =? 0));
        [reflexivity|].
      destruct (negb (Z.land (output_type a) FT_GZ =? 0)); reflexivity.
  - exfalso. clear -El Hne. induction dir as [|c dir IH]; [contradiction|].
    cbn in El. destruct dir; [discriminate|]. apply IH; [discriminate|exact El].
Qed.

(** X9: two groups are written to the same file exactly when their names agree
    once white space is replaced by underscores. The file-name part of a path
    holds no white space, and groups whose names hold none are written to
    different files unless they have the same name. *)
Theorem output_paths_collide : forall a dir s1 s2,
  output_dir a = Some dir -> dir <> "" ->
  exists p1 p2,
    output_path a s1 = Ok p1 /\ output_path a s2 = Ok p2 /\
    (p1 = p2 <-> underscored (fname s1) = underscored (fname s2)) /\
    (has_space (fname s1) = false -> has_space (fname s2) = false ->
     p1 = p2 -> fname s1 = fname s2) /\
    exists base,
      p1 = ((with_slash dir ++ base) ++ extension (output_type a))%string /\
      has_space base = false /\
      String.length base = String.length (fname s1).
Proof.
  intros a dir s1 s2 Hd Hne.
  rewrite (output_path_spec a s1 dir Hd Hne), (output_path_spec a s2 dir Hd Hne).
  do 2 eexists. split; [reflexivity|]. split; [reflexivity|].
  assert (Hiff : ((with_slash dir ++ underscored (fname s1))
                  ++ extension (output_type a))%string
                 = ((with_slash dir ++ underscored (fname s2))
                    ++ extension (output_type a))%string
                 <-> underscored (fname s1) = underscored (fname s2)).
  { split; intros H.
    - apply string_app_inv_tail in H. now apply string_app_inv_head in H.
    - now rewrite H. }
  split; [exact Hiff|]. split.
  - intros H1 H2 Hp. apply Hiff in Hp.
    now rewrite !underscored_clean in Hp by assumption.
  - exists (underscored (fname s1)). split; [reflexivity|].
    split; [apply underscored_no_space|].
    apply underscored_length.
Qed.

Lemma output_paths_collide_witness :
  exists p1 p2,
    output_path (Demo.args None None) (singleton_group 0 "NA 1") = Ok p1 /\
    output_path (Demo.args None None) (singleton_group 1 "NA_1") = Ok p2 /\
    (p1 = p2 <-> underscored "NA 1" = underscored "NA_1") /\
    (has_space "NA 1" = false -> has_space "NA_1" = false ->
     p1 = p2 -> "NA 1" = "NA_1") /\
    exists base,
      p1 = ((with_slash "out" ++ base) ++ extension FT_VCF)%string /\
      has_space base = false /\
      String.length base = String.length "NA 1".
Proof.
  apply (output_paths_collide (Demo.args None None) "out"
           (singleton_group 0 "NA 1") (singleton_group 1 "NA_1"));
    [reflexivity|discriminate].
Defined.

(** X10: the letter after [-O] decides the suffix of every output file: [b]
    and [u] give [.bcf], [z] gives [.vcf.gz] and [v] gives [.vcf]; only the
    first character of the argument is looked at, and any other first
    character, or an empty argument, is a fatal error. *)
Theorem output_type_extension : forall a s,
  (forall a' set p,
     handle_option a (Opt_O s) = Ok a' -> output_path a' set = Ok p ->
     exists c rest stem,
       s = String c rest /\
       (c = "b" \/ c = "u" \/ c = "z" \/ c = "v")%char /\
       p = (stem ++ (if (Ascii.eqb c "b" || Ascii.eqb c "u")%bool then ".bcf"
                     else if Ascii.eqb c "z" then ".vcf.gz" else ".vcf"))%string)
  /\
  ((forall c rest, s = String c rest ->
      c <> "b" /\ c <> "u" /\ c <> "z" /\ c <> "v")%char ->
   exists msg, handle_option a (Opt_O s) = Fatal msg).
Proof.
  intros a s. split.
  - intros a' set p Hh Hp.
    destruct s as [|c rest]; [discriminate Hh|].
    exists c, rest.
    assert (Hdir : exists dir, output_dir a' = Some dir /\ dir <> "").
    { unfold output_path in Hp. destruct (output_dir a') as [dir|];
        [|discriminate]. exists dir. split; [reflexivity|].
      intros ->. discriminate Hp. }
    destruct Hdir as (dir & Hd & Hne).
    rewrite (output_path_spec a' set dir Hd Hne) in Hp. inversion Hp; subst p.
    exists (with_slash dir ++ underscored (fname set))%string.
    split; [reflexivity|].
    destruct c as [[] [] [] [] [] [] [] []]; cbn in Hh; try discriminate Hh;
      inversion Hh; subst a'; (split; [tauto|reflexivity]).
  - intros Hs. destruct s as [|c rest]; [eexists; reflexivity|].
    destruct (Hs c rest eq_refl) as (Hb & Hu & Hz & Hv).
    destruct c as [[] [] [] [] [] [] [] []]; cbn;
      try (eexists; reflexivity); congruence.
Qed.

Lemma output_type_extension_witness :
  (exists c rest stem,
     "zip" = String c rest /\
     (c = "b" \/ c = "u" \/ c = "z" \/ c = "v")%char /\
     "out/A.vcf.gz"
     = (stem ++ (if (Ascii.eqb c "b" || Ascii.eqb c "u")%bool then ".bcf"
                 else if Ascii.eqb c "z" then ".vcf.gz" else ".vcf"))%string)
  /\
  exists msg, handle_option (Demo.args None None) (Opt_O "x") = Fatal msg.
Proof.
  split.
  - eapply (proj1 (output_type_extension (Demo.args None None) "zip") _
                  (singleton_group 0 "A") "out/A.vcf.gz"); reflexivity.
  - apply (proj2 (output_type_extension (Demo.args None None) "x")).
    intros c rest H. inversion H; subst.
    repeat split; discriminate.
Defined.

(* ================================================================= *)
(** ** The sample names of the output headers *)

Lemma arr_get_ok : forall A (a : list A) i x,
  arr_get a i = Ok x -> 0 <= i /\ nth_error a (Z.to_nat i) = Some x.
Proof.
  intros A a i x H. unfold arr_get in H. destruct (i <? 0) eqn:E;
    [discriminate|].
  destruct (nth_error a (Z.to_nat i)) eqn:En; inversion H; subst.
  split; [lia|reflexivity].
Qed.

Lemma list_set_nth_error : forall A (a : list A) n x j,
  (n < List.length a)%nat ->
  nth_error (list_set a n x) j
  = if Nat.eqb j n then Some x else nth_error a j.
Proof.
  induction a as [|y a IH]; intros n x j Hn; cbn in Hn; [lia|].
  destruct n as [|n], j as [|j]; cbn; try reflexivity.
  apply IH. lia.
Qed.

(** A loop that stores [g j] in slot [j] of an array, for [count] slots
    from [i] on. *)
Lemma fill_loop : forall A (g : Z -> result A) (body : Z -> list A -> result (list A)),
  (forall j names, body j names = do v <- g j; arr_set names j v) ->
  forall count i names names',
    for_loop count (Z.of_nat i) body names = Ok names' ->
    (forall j, (j < i \/ i + count <= j)%nat ->
               nth_error names' j = nth_error names j) /\
    (forall j, (i <= j < i + count)%nat ->
               exists v, g (Z.of_nat j) = Ok v /\ nth_error names' j = Some v).
Proof.
  intros A g body Hbody. induction count as [|count IH]; intros i names names' H.
  - cbn in H. inversion H; subst. split; [reflexivity|lia].
  - cbn [for_loop] in H. rewrite Hbody in H.
    destruct (g (Z.of_nat i)) as [v| | |] eqn:Eg; cbn [bind] in H;
      try discriminate.
    destruct (arr_set names (Z.of_nat i) v) as [n1| | |] eqn:Ea;
      cbn [bind] in H; try discriminate.
    apply arr_set_ok in Ea. destruct Ea as (_ & Hlt & ->).
    rewrite Nat2Z.id in *.
    replace (Z.of_nat i + 1) with (Z.of_nat (S i)) in H by lia.
    destruct (IH (S i) _ _ H) as [Hout Hin]. split.
    + intros j Hj. rewrite Hout by lia.
      rewrite list_set_nth_error by exact Hlt.
      replace (Nat.eqb j i) with false; [reflexivity|].
      symmetry. apply Nat.eqb_neq. lia.
    + intros j Hj. destruct (Nat.eq_dec j i) as [->|Hne].
      * exists v. split; [exact Eg|]. rewrite Hout by lia.
        rewrite list_set_nth_error by exact Hlt. now rewrite Nat.eqb_refl.
      * apply Hin. lia.
Qed.

(** Lines 291-312 for one group, when they succeed. *)
Lemma open_subset_spec : forall w a tmp_hdr set set',
  open_subset w a tmp_hdr set = Ok set' ->
  hdr_out_samples set'
  = match rename set with
    | Some ren => firstn (Z.to_nat (nsmpl set)) ren
    | None =>
        map (fun s => Some (nth (Z.to_nat s) (hdr_samples (hdr_in a)) ""))
            (firstn (Z.to_nat (nsmpl set)) (smpl set))
    end /\
  nsmpl set' = nsmpl set /\ smpl set' = smpl set /\ fname set' = fname set /\
  exists path,
    output_path a set = Ok path /\ open_ok w path = true /\
    hdr_write_ok w path = true /\
    fh set' = Some {| fn := path; written := [] |}.
Proof.
  intros w a tmp_hdr set set' H. unfold open_subset in H.
  destruct (output_path a set) as [path| | |] eqn:Ep; cbn [bind] in H;
    try discriminate.
  destruct (open_ok w path) eqn:Eo; cbn [negb] in H; [|discriminate].
  destruct (for_range (nsmpl set) (hdr_sample_body a set)
                      (map Some (hdr_samples (hdr_in a))))
    as [names| | |] eqn:El; cbn [bind] in H; try discriminate.
  destruct (hdr_write_ok w path) eqn:Ew; cbn [negb] in H; [|discriminate].
  assert (Hnames : firstn (Z.to_nat (nsmpl set)) names
                   = match rename set with
                     | Some ren => firstn (Z.to_nat (nsmpl set)) ren
                     | None =>
                         map (fun s => Some (nth (Z.to_nat s)
                                                 (hdr_samples (hdr_in a)) ""))
                             (firstn (Z.to_nat (nsmpl set)) (smpl set))
                     end).
  { unfold for_range in El. change 0 with (Z.of_nat 0) in El.
    set (g := fun j : Z =>
                match rename set with
                | Some ren => arr_get ren j
                | None =>
                    do s <- arr_get (smpl set) j;
                    do nm <- arr_get (hdr_samples (hdr_in a)) s;
                    Ok (Some nm)
                end).
    destruct (fill_loop _ g (hdr_sample_body a set) (fun j n => eq_refl)
                _ _ _ _ El) as [_ Hin].
    apply nth_error_ext. intros j. rewrite nth_error_firstn.
    destruct (Nat.ltb j (Z.to_nat (nsmpl set))) eqn:Ej.
    - apply Nat.ltb_lt in Ej.
      destruct (Hin j ltac:(lia)) as (v & Hg & Hv). rewrite Hv.
      subst g. cbv beta in Hg. destruct (rename set) as [ren|].
      + apply arr_get_ok in Hg. destruct Hg as [_ Hg].
        rewrite Nat2Z.id in Hg. rewrite nth_error_firstn.
        replace (Nat.ltb j (Z.to_nat (nsmpl set))) with true
          by (symmetry; apply Nat.ltb_lt; exact Ej).
        now rewrite Hg.
      + destruct (arr_get (smpl set) (Z.of_nat j)) as [s| | |] eqn:Es;
          cbn [bind] in Hg; try discriminate.
        destruct (arr_get (hdr_samples (hdr_in a)) s) as [nm| | |] eqn:En;
          cbn [bind] in Hg; try discriminate.
        inversion Hg; subst v.
        apply arr_get_ok in Es, En. destruct Es as [_ Es], En as [_ En].
        rewrite Nat2Z.id in Es.
        rewrite nth_error_map, nth_error_firstn.
        replace (Nat.ltb j (Z.to_nat (nsmpl set))) with true
          by (symmetry; apply Nat.ltb_lt; exact Ej).
        rewrite Es. cbn [option_map].
        now rewrite (nth_error_nth _ _ "" En).
    - destruct (rename set) as [ren|].
      + rewrite nth_error_firstn, Ej. reflexivity.
      + rewrite nth_error_map, nth_error_firstn, Ej. reflexivity. }
  destruct (filter_str a) as [e|].
  - destruct (filter_init w tmp_hdr (firstn (Z.to_nat (nsmpl set)) names) e)
      as [f| | |]; cbn [bind] in H; try discriminate.
    inversion H; subst set'. cbn.
    split; [exact Hnames|]. repeat split; try reflexivity.
    exists path. repeat split; reflexivity || assumption.
  - cbn [bind] in H. inversion H; subst set'. cbn.
    split; [exact Hnames|]. repeat split; try reflexivity.
    exists path. repeat split; reflexivity || assumption.
Qed.

(** X11: the output header of a group lists the group's samples in the order
    of the group: the new names of the rename column when the line has one
    (with an empty slot for each name the column lacks), and otherwise the
    input's names of the samples at the group's indices. The file opened for
    the group is the one at the group's path, and nothing has been written to
    it. *)
Theorem output_header_samples : forall w a tmp_hdr set set',
  open_subset w a tmp_hdr set = Ok set' ->
  hdr_out_samples set'
  = match rename set with
    | Some ren => firstn (Z.to_nat (nsmpl set)) ren
    | None =>
        map (fun s => Some (nth (Z.to_nat s) (hdr_samples (hdr_in a)) ""))
            (firstn (Z.to_nat (nsmpl set)) (smpl set))
    end /\
  nsmpl set' = nsmpl set /\ smpl set' = smpl set /\ fname set' = fname set /\
  exists path,
    output_path a set = Ok path /\ open_ok w path = true /\
    hdr_write_ok w path = true /\
    fh set' = Some {| fn := path; written := [] |}.
Proof. exact open_subset_spec. Qed.

Lemma output_header_samples_witness :
  exists set',
    open_subset (Demo.env []) (Demo.args None None) [] (Demo.group [2; 0])
    = Ok set' /\
    hdr_out_samples set' = [Some "C"; Some "A"].
Proof.
  eexists. split; [reflexivity|].
  apply (proj1 (output_header_samples (Demo.env []) (Demo.args None None) []
                  (Demo.group [2; 0]) _ eq_refl)).
Defined.

(* ================================================================= *)
(** ** The records written *)

Section Records.

Variable bcf_enc_int1 : Z -> list byte.
Variable bcf_enc_size : Z -> Z -> list byte.

Lemma rec_set_format_site : forall args set src dst out,
  rec_set_format bcf_enc_int1 bcf_enc_size args set src dst = Ok out ->
  rid out = rid dst /\ pos out = pos dst /\ rlen out = rlen dst /\
  qual out = qual dst /\ n_allele out = n_allele dst /\
  n_sample out = n_sample dst /\ shared out = shared dst /\
  n_info out = n_info dst.
Proof.
  intros args set src dst out H. unfold rec_set_format in H.
  match type of H with
  | bind ?m _ = _ => destruct m as [[tmp k]| | |]; cbn [bind] in H;
                     try discriminate
  end.
  inversion H; subst out. cbn. repeat split; reflexivity.
Qed.

Lemma preamble_prefix : forall rec, exists tail, shared rec = preamble rec ++ tail.
Proof.
  intros rec. unfold preamble.
  exists (skipn (Z.to_nat (unpack_size0 rec + unpack_size1 rec + unpack_size2 rec))
                (shared rec)).
  symmetry. apply firstn_skipn.
Qed.

(** [rec_set_info] into a new record when no site-level field is kept:
    the block is the identifier, the alleles and the filters. *)
Lemma rec_set_info_none_selected : forall args set rec,
  keep_info args = 0 -> ninfo_tags args = 0 -> decoded_info rec ->
  exists out,
    rec_set_info args set rec None = Ok out /\
    shared out = preamble rec /\ n_info out = 0.
Proof.
  intros args set rec Hk Hn Hdec. unfold rec_set_info. rewrite Hk, Hn.
  destruct (preamble_reads rec Hdec) as (R0 & R1 & R2).
  cbn [Z.eqb negb]. rewrite R0. cbn [bind]. rewrite R1. cbn [bind].
  rewrite R2. cbn [bind n_info].
  destruct Hdec as (_ & _ & H0 & H1 & H2 & _ & _).
  eexists. split; [reflexivity|]. cbn [shared n_info set_unpacked set_shared].
  split; [|reflexivity]. unfold preamble.
  rewrite !Z2Nat.inj_add by lia. apply firstn_split3.
Qed.

(** X12: the record made for a group is a record of the same site: it has the
    chromosome, position, length, quality and number of alleles of the input
    record, the group's number of samples (as the 24-bit field holds it), and
    its site-level block starts with the identifier, alleles and filters of
    the input record, whatever the tag selection. *)
Theorem site_identity_preserved : forall args set rec out,
  transcode bcf_enc_int1 bcf_enc_size args set rec None = Ok out ->
  rid out = rid rec /\ pos out = pos rec /\ rlen out = rlen rec /\
  qual out = qual rec /\ n_allele out = n_allele rec /\
  n_sample out = nsmpl set mod 2 ^ 24 /\
  (decoded_info rec ->
   (keep_info args = 0 -> ninfo_tags args <> 0 -> keys_in_table args rec) ->
   exists tail, shared out = preamble rec ++ tail).
Proof.
  intros args set rec out H. unfold transcode in H.
  destruct (rec_set_info args set rec None) as [o| | |] eqn:Ei;
    cbn [bind] in H; try discriminate.
  apply rec_set_format_site in H.
  destruct H as (-> & -> & -> & -> & -> & -> & -> & _).
  assert (Hsite : rid o = rid rec /\ pos o = pos rec /\ rlen o = rlen rec /\
                  qual o = qual rec /\ n_allele o = n_allele rec /\
                  n_sample o = nsmpl set mod 2 ^ 24).
  { unfold rec_set_info in Ei.
    destruct (negb (keep_info args =? 0)).
    - inversion Ei; subst o. cbn. repeat split; reflexivity.
    - repeat match type of Ei with
             | bind ?m _ = _ => destruct m as [?| | |]; cbn [bind] in Ei;
                                try discriminate
             end.
      match type of Ei with
      | (let '(_, _) := ?p in _) = _ => destruct p as [tmp k]
      end.
      inversion Ei; subst o. cbn. repeat split; reflexivity. }
  destruct Hsite as (H1 & H2 & H3 & H4 & H5 & H6).
  repeat (split; [assumption|]).
  intros Hd Hk. destruct (Z.eq_dec (keep_info args) 0) as [E|E].
  - destruct (Z.eq_dec (ninfo_tags args) 0) as [En|En].
    + destruct (rec_set_info_none_selected args set rec E En Hd)
        as (o' & Eo & Hs & _).
      rewrite Ei in Eo. inversion Eo; subst o'. rewrite Hs.
      exists []. now rewrite app_nil_r.
    + destruct (rec_set_info_selected args set rec E Hd (Hk E En))
        as (o' & Eo & Hs & _).
      rewrite Ei in Eo. inversion Eo; subst o'. rewrite Hs.
      eexists. reflexivity.
  - destruct (rec_set_info_keep_all args set rec o E Ei) as [Hs _].
    rewrite Hs. apply preamble_prefix.
Qed.

End Records.

Lemma site_identity_preserved_witness :
  exists out,
    transcode Demo.enc_int1 Demo.enc_size (Demo.selected (Some "FMT"))
              (Demo.group [1]) Demo.rec None = Ok out /\
    rid out = 0 /\ pos out = 99 /\ rlen out = 1 /\ qual out = 1106247680 /\
    n_allele out = 2 /\ n_sample out = 1 /\
    exists tail, shared out = preamble Demo.rec ++ tail.
Proof.
  eexists. split; [reflexivity|].
  destruct (site_identity_preserved Demo.enc_int1 Demo.enc_size
              (Demo.selected (Some "FMT")) (Demo.group [1]) Demo.rec _ eq_refl)
    as (H1 & H2 & H3 & H4 & H5 & H6 & H7).
  repeat (split; [assumption|]).
  apply H7.
  - unfold decoded_info. repeat (split; [vm_compute; congruence|]).
    repeat constructor; vm_compute; congruence.
  - intros _ H. exfalso. apply H. reflexivity.
Defined.

Section Gates.

Variable bcf_enc_int1 : Z -> list byte.
Variable bcf_enc_size : Z -> Z -> list byte.

(** X13: run once with [-i EXPR] and once with [-e EXPR], the plugin splits
    the records of every group in two: a record that can be transcoded for the
    group passes the gate of exactly one of the two runs when the group has a
    filter. Without a filter it passes in both. *)
Theorem include_exclude_partition : forall a set rec out,
  transcode bcf_enc_int1 bcf_enc_size a set rec None = Ok out ->
  (filter set <> None ->
   gate_passes bcf_enc_int1 bcf_enc_size
               (with_filter_logic a FLT_EXCLUDE) set rec
   = negb (gate_passes bcf_enc_int1 bcf_enc_size
                       (with_filter_logic a FLT_INCLUDE) set rec)) /\
  (filter set = None ->
   gate_passes bcf_enc_int1 bcf_enc_size
               (with_filter_logic a FLT_EXCLUDE) set rec = true /\
   gate_passes bcf_enc_int1 bcf_enc_size
               (with_filter_logic a FLT_INCLUDE) set rec = true).
Proof.
  intros a set rec out Ht.
  assert (He : transcode bcf_enc_int1 bcf_enc_size
                         (with_filter_logic a FLT_EXCLUDE) set rec None = Ok out)
    by exact Ht.
  assert (Hi : transcode bcf_enc_int1 bcf_enc_size
                         (with_filter_logic a FLT_INCLUDE) set rec None = Ok out)
    by exact Ht.
  unfold gate_passes. rewrite He, Hi. unfold pass_of.
  cbn [filter_logic with_filter_logic set_opts].
  split.
  - intros Hf. destruct (filter set) as [flt|]; [|contradiction].
    change (Z.land FLT_EXCLUDE FLT_EXCLUDE =? 0) with false.
    change (Z.land FLT_INCLUDE FLT_EXCLUDE =? 0) with true.
    cbn [negb]. destruct (flt out =? 0) eqn:E; cbn [negb]; rewrite ?E;
      reflexivity.
  - intros ->. split; reflexivity.
Qed.

End Gates.

Lemma include_exclude_partition_witness :
  gate_passes Demo.enc_int1 Demo.enc_size
              (with_filter_logic (Demo.selected None) FLT_EXCLUDE)
              (Demo.filtered_group [0; 2]) Demo.rec
  = negb (gate_passes Demo.enc_int1 Demo.enc_size
                      (with_filter_logic (Demo.selected None) FLT_INCLUDE)
                      (Demo.filtered_group [0; 2]) Demo.rec).
Proof.
  eapply (proj1 (include_exclude_partition Demo.enc_int1 Demo.enc_size
                   (Demo.selected None) (Demo.filtered_group [0; 2])
                   Demo.rec _ eq_refl)).
  discriminate.
Defined.

Section Streams.

Variable bcf_enc_int1 : Z -> list byte.
Variable bcf_enc_size : Z -> Z -> list byte.
Variable w : world.




Lemma Forall2_compose : forall A (R1 R2 R : A -> A -> Prop) l l1 l',
  (forall x y z, R1 x y -> R2 y z -> R x z) ->
  Forall2 R1 l l1 -> Forall2 R2 l1 l' -> Forall2 R l l'.
Proof.
  intros A R1 R2 R l l1 l' Hc H1. revert l'.
  induction H1 as [|x y l l1 Hxy H1 IH]; intros l' H2;
    inversion H2; subst; constructor; eauto.
Qed.


End Streams.

(* ================================================================= *)
(** ** The command line *)

(** What one turn of the switch changes. *)
Lemma handle_option_fields : forall a o a',
  handle_option a o = Ok a' ->
  output_dir a' = last_arg opt_o [o] (output_dir a) /\
  keep_tags a' = last_arg opt_k [o] (keep_tags a) /\
  samples_fname a' = last_arg opt_S [o] (samples_fname a) /\
  filter_str a' = last_arg opt_filter [o] (filter_str a) /\
  fname_in a' = fname_in a /\ sets a' = sets a /\ hdr_in a' = hdr_in a /\
  keep_info a' = keep_info a /\ keep_fmt a' = keep_fmt a /\
  ninfo_tags a' = ninfo_tags a /\ minfo_tags a' = minfo_tags a /\
  info_tags a' = info_tags a /\
  nfmt_tags a' = nfmt_tags a /\ mfmt_tags a' = mfmt_tags a /\
  fmt_tags a' = fmt_tags a.
Proof.
  intros a o a' H.
  destruct o as [s|s|s|s|s|s|s|s|s|s|]; cbn in H;
    try (inversion H; subst a'; cbn; repeat split; reflexivity).
  - destruct s as [|[[] [] [] [] [] [] [] []] rest]; cbn in H;
      try discriminate H;
      inversion H; subst a'; cbn; repeat split; reflexivity.
Qed.

Lemma last_arg_cons : forall sel o opts init,
  last_arg sel (o :: opts) init = last_arg sel opts (last_arg sel [o] init).
Proof. reflexivity. Qed.

Lemma handle_options_fields : forall opts a a',
  handle_options a opts = Ok a' ->
  output_dir a' = last_arg opt_o opts (output_dir a) /\
  keep_tags a' = last_arg opt_k opts (keep_tags a) /\
  samples_fname a' = last_arg opt_S opts (samples_fname a) /\
  filter_str a' = last_arg opt_filter opts (filter_str a) /\
  fname_in a' = fname_in a /\ sets a' = sets a /\ hdr_in a' = hdr_in a /\
  keep_info a' = keep_info a /\ keep_fmt a' = keep_fmt a /\
  ninfo_tags a' = ninfo_tags a /\ minfo_tags a' = minfo_tags a /\
  info_tags a' = info_tags a /\
  nfmt_tags a' = nfmt_tags a /\ mfmt_tags a' = mfmt_tags a /\
  fmt_tags a' = fmt_tags a.
Proof.
  induction opts as [|o opts IH]; intros a a' H.
  - cbn in H. inversion H; subst. cbn. repeat split; reflexivity.
  - cbn [handle_options] in H.
    destruct (handle_option a o) as [a1| | |] eqn:E; cbn [bind] in H;
      try discriminate.
    apply handle_option_fields in E. apply IH in H.
    rewrite (last_arg_cons opt_o o opts), (last_arg_cons opt_k o opts),
      (last_arg_cons opt_S o opts), (last_arg_cons opt_filter o opts).
    destruct E as (E1 & E2 & E3 & E4 & E5 & E6 & E7 & E8 & E9 & E10 & E11
                   & E12 & E13 & E14 & E15).
    destruct H as (H1 & H2 & H3 & H4 & H5 & H6 & H7 & H8 & H9 & H10 & H11
                   & H12 & H13 & H14 & H15).
    repeat split;
      [rewrite H1, E1|rewrite H2, E2|rewrite H3, E3|rewrite H4, E4
      |rewrite H5, E5|rewrite H6, E6|rewrite H7, E7|rewrite H8, E8
      |rewrite H9, E9|rewrite H10, E10|rewrite H11, E11|rewrite H12, E12
      |rewrite H13, E13|rewrite H14, E14|rewrite H15, E15]; reflexivity.
Qed.

(** X14: of an option given several times, the last occurrence counts: after
    the option loop the output directory, the tag list and the samples file
    are the arguments of the last [-o], [-k] and [-S], and the filter
    expression is the argument of the last [-i] or [-e], whichever of the two
    it is. *)
Theorem options_last_wins : forall opts a,
  handle_options args0 opts = Ok a ->
  output_dir a = last_arg opt_o opts None /\
  keep_tags a = last_arg opt_k opts None /\
  samples_fname a = last_arg opt_S opts None /\
  filter_str a = last_arg opt_filter opts None.
Proof.
  intros opts a H. apply handle_options_fields in H.
  destruct H as (H1 & H2 & H3 & H4 & _). repeat split; assumption.
Qed.

Lemma options_last_wins_witness :
  exists a,
    handle_options args0 [Opt_o "x"; Opt_i "QUAL>1"; Opt_o "y"; Opt_e "DP<3"]
    = Ok a /\
    output_dir a = Some "y" /\ keep_tags a = None /\
    samples_fname a = None /\ filter_str a = Some "DP<3".
Proof.
  eexists. split; [reflexivity|].
  apply (options_last_wins
           [Opt_o "x"; Opt_i "QUAL>1"; Opt_o "y"; Opt_e "DP<3"] _ eq_refl).
Defined.

Lemma filter_str_logic : forall opts a a',
  handle_options a opts = Ok a' ->
  (filter_str a = None <-> filter_logic a = 0) ->
  0 <= filter_logic a ->
  (filter_str a' = None <-> filter_logic a' = 0) /\ 0 <= filter_logic a'.
Proof.
  induction opts as [|o opts IH]; intros a a' H Hinv Hnn.
  - cbn in H. inversion H; subst. split; assumption.
  - cbn [handle_options] in H.
    destruct (handle_option a o) as [a1| | |] eqn:E; cbn [bind] in H;
      try discriminate.
    apply (IH a1 a' H).
    + pose proof (handle_option_logic a o a1 E) as Hl.
      pose proof (handle_option_fields a o a1 E) as (_ & _ & _ & Hf & _).
      cbn in Hf. rewrite Hf, Hl.
      assert (Hor : forall b, 0 < b -> Z.lor (filter_logic a) b <> 0).
      { intros b Hb Hz. apply Z.lor_eq_0_iff in Hz. lia. }
      destruct o; cbn; try exact Hinv;
        (split; [discriminate|intros Hz; exfalso; revert Hz; apply Hor;
                               reflexivity]).
    + pose proof (handle_option_logic a o a1 E) as Hl. rewrite Hl.
      destruct o; cbn; try exact Hnn; apply Z.lor_nonneg; split;
        (exact Hnn || discriminate).
Qed.

Section Setup.

Variable bcf_enc_int1 : Z -> list byte.
Variable bcf_enc_size : Z -> Z -> list byte.
Variable w : world.

(** X15: what [run] has established when it calls [init_data]: the input is
    named (the one operand, or standard input when there is no operand and
    standard input is not a terminal), the output directory is given, at most
    one of [-i] and [-e] was used, a filter expression is present exactly when
    one of them was, and the tag selection and the groups are still empty. *)
Theorem setup_establishes : forall opts operands a,
  setup w opts operands = Ok a ->
  no_tags_yet a /\ sets a = [] /\
  (exists dir, output_dir a = Some dir /\
               last_arg opt_o opts None = Some dir) /\
  (exists path,
     fname_in a = Some path /\
     (operands = [path] \/
      operands = [] /\ path = "-" /\ isatty_stdin w = false)) /\
  (filter_logic a = 0 \/ filter_logic a = FLT_INCLUDE \/
   filter_logic a = FLT_EXCLUDE) /\
  (filter_str a = None <-> filter_logic a = 0).
Proof.
  intros opts operands a H. unfold setup in H.
  destruct (handle_options args0 opts) as [a1| | |] eqn:Eo; cbn [bind] in H;
    try discriminate.
  pose proof (handle_options_fields _ _ _ Eo)
    as (H1 & _ & _ & _ & H5 & H6 & _ & H8 & H9 & H10 & H11 & H12 & H13 & H14
        & H15).
  pose proof (handle_options_logic _ _ _ Eo (or_introl eq_refl)) as (Hl & _).
  pose proof (filter_str_logic _ _ _ Eo
                (conj (fun _ => eq_refl) (fun _ => eq_refl))
                ltac:(cbn; lia)) as [Hfl _].
  set (named := fun path =>
         set_opts a1 (filter_str a1) (filter_logic a1) (output_type a1)
                  (Some path) (output_dir a1) (keep_tags a1)
                  (samples_fname a1)) in *.
  assert (Hcase : exists path,
            (operands = [path] \/
             operands = [] /\ path = "-" /\ isatty_stdin w = false) /\
            match output_dir (named path) with
            | Some _ =>
                if filter_logic (named path) =? Z.lor FLT_EXCLUDE FLT_INCLUDE
                then Fatal polarity_error else Ok (named path)
            | None => Fatal "Missing the -o option"
            end = Ok a).
  { destruct operands as [|p [|p' rest]].
    - destruct (isatty_stdin w) eqn:Et; cbn [negb bind] in H; [discriminate|].
      exists "-". split; [right; repeat split; reflexivity|exact H].
    - cbn [bind] in H. exists p. split; [left; reflexivity|exact H].
    - cbn [bind] in H. discriminate. }
  destruct Hcase as (path & Hop & Ha).
  cbn [output_dir filter_logic named set_opts] in Ha.
  destruct (output_dir a1) as [dir|] eqn:Ed; [|discriminate].
  destruct (filter_logic a1 =? Z.lor FLT_EXCLUDE FLT_INCLUDE) eqn:El;
    [discriminate|].
  inversion Ha; subst a. cbn.
  split; [repeat split; assumption|].
  split; [exact H6|].
  split; [exists dir; split; [reflexivity|symmetry; exact H1]|].
  split; [exists path; split; [reflexivity|exact Hop]|].
  split; [|exact Hfl].
  change (Z.lor FLT_EXCLUDE FLT_INCLUDE) with 3 in El.
  unfold FLT_INCLUDE, FLT_EXCLUDE. lia.
Qed.

End Setup.

Lemma setup_establishes_witness :
  exists a,
    setup (Demo.env []) [Opt_o "out"; Opt_e "DP<3"] ["in.bcf"] = Ok a /\
    no_tags_yet a /\ sets a = [] /\
    (exists dir, output_dir a = Some dir /\
                 last_arg opt_o [Opt_o "out"; Opt_e "DP<3"] None = Some dir) /\
    (exists path,
       fname_in a = Some path /\
       (["in.bcf"] = [path] \/
        ["in.bcf"] = [] /\ path = "-" /\
        isatty_stdin (Demo.env []) = false)) /\
    (filter_logic a = 0 \/ filter_logic a = FLT_INCLUDE \/
     filter_logic a = FLT_EXCLUDE) /\
    (filter_str a = None <-> filter_logic a = 0).
Proof.
  eexists. split; [reflexivity|].
  apply (setup_establishes (Demo.env []) [Opt_o "out"; Opt_e "DP<3"]
           ["in.bcf"] _ eq_refl).
Defined.

Section RunProps.

Variable bcf_enc_int1 : Z -> list byte.
Variable bcf_enc_size : Z -> Z -> list byte.
Variable w : world.

Lemma last_arg_none : forall opts init,
  (forall s, ~ In (Opt_o s) opts) -> last_arg opt_o opts init = init.
Proof.
  induction opts as [|o opts IH]; intros init H; [reflexivity|].
  rewrite last_arg_cons. rewrite IH.
  - destruct o; try reflexivity. exfalso. apply (H optarg). left. reflexivity.
  - intros s Hs. apply (H s). right. exact Hs.
Qed.

(** X16: without [-o] the plugin stops before it touches any file: the run
    ends with a fatal error, no group exists and no record has been read. When
    the command line is otherwise in order (the options are accepted and there
    is one operand), the error is the one about the missing option. *)
Theorem missing_output_option : forall opts operands,
  (forall s, ~ In (Opt_o s) opts) ->
  exists msg,
    setup w opts operands = Fatal msg /\
    run bcf_enc_int1 bcf_enc_size w opts operands
    = {| status := Fatal msg; groups := []; pulled := 0 |} /\
    (forall a path,
       handle_options args0 opts = Ok a -> operands = [path] ->
       msg = "Missing the -o option").
Proof.
  intros opts operands Hno.
  assert (Hs : exists msg,
             setup w opts operands = Fatal msg /\
             (forall a path,
                handle_options args0 opts = Ok a -> operands = [path] ->
                msg = "Missing the -o option")).
  { unfold setup.
    destruct (handle_options_total opts args0) as [[a1 E]|[msg E]]; rewrite E;
      cbn [bind].
    - pose proof (handle_options_fields _ _ _ E) as (Hd & _).
      rewrite (last_arg_none opts _ Hno) in Hd. cbn in Hd.
      destruct operands as [|p [|p' rest]].
      + destruct (isatty_stdin w); cbn [negb bind].
        * exists usage_error. split; [reflexivity|]. intros ? ? _ Hp.
          discriminate Hp.
        * cbn [output_dir set_opts]. rewrite Hd.
          eexists. split; [reflexivity|]. intros ? ? _ Hp. discriminate Hp.
      + cbn [bind output_dir set_opts]. rewrite Hd.
        eexists. split; [reflexivity|]. reflexivity.
      + cbn [bind]. exists usage_error. split; [reflexivity|].
        intros ? ? _ Hp. discriminate Hp.
    - exists msg. split; [reflexivity|]. intros a path Ha. discriminate Ha. }
  destruct Hs as (msg & Es & Hm). exists msg.
  split; [exact Es|]. split; [|exact Hm].
  unfold run. rewrite Es. reflexivity.
Qed.

(** X17: [destroy_data] closes the files in the order of the groups and stops
    at the first one that cannot be closed: it succeeds exactly when every
    file closes, and otherwise reports the name of the first group whose file
    does not. *)
Theorem close_all_reports_first_failure : forall s,
  Forall (fun set => fh set <> None) s ->
  (close_all w s = Ok tt <->
   Forall (fun set => exists f, fh set = Some f /\ close_ok w f = true) s) /\
  (forall pre set f post,
     s = pre ++ set :: post ->
     Forall (fun set => exists f, fh set = Some f /\ close_ok w f = true) pre ->
     fh set = Some f -> close_ok w f = false ->
     close_all w s = Fatal ("Error: close failed .. " ++ fname set)%string).
Proof.
  induction s as [|x s IH]; intros Hopen.
  - split.
    + split; [constructor|reflexivity].
    + intros [|? ?] ? ? ? H; discriminate H.
  - inversion Hopen as [|? ? Hx Hs]; subst.
    destruct (IH Hs) as [IHiff IHfail]. cbn [close_all].
    destruct (fh x) as [fx|] eqn:Ex; [|contradiction].
    destruct (close_ok w fx) eqn:Ec.
    + split.
      * rewrite IHiff. split.
        -- intros H. constructor; [exists fx; split; [exact Ex|exact Ec]|exact H].
        -- intros H. inversion H; assumption.
      * intros [|y pre] set f post Heq Hpre Hf Hc; cbn in Heq;
          inversion Heq; subst.
        -- congruence.
        -- inversion Hpre; subst. eapply IHfail; eauto.
    + split.
      * split; [discriminate|].
        intros H. inversion H as [|? ? (f & Hf & Hc) _]; subst. congruence.
      * intros [|y pre] set f post Heq Hpre Hf Hc; cbn in Heq;
          inversion Heq; subst.
        -- reflexivity.
        -- inversion Hpre as [|? ? (f' & Hf' & Hc') _]; subst. congruence.
Qed.

Lemma Forall2_same : forall A (R : A -> A -> Prop) l,
  (forall x, R x x) -> Forall2 R l l.
Proof. intros A R l H. induction l; constructor; auto. Qed.

(** Serving a record never changes which file a group writes to, whether
    the loop fails or not. *)
Lemma process_fresh_files : forall args rec todo r todo',
  process_sets_fresh bcf_enc_int1 bcf_enc_size w args rec todo = (r, todo') ->
  Forall2 (fun s s' => option_map fn (fh s') = option_map fn (fh s)) todo todo'.
Proof.
  intros args rec todo. induction todo as [|s todo IH]; intros r todo' H.
  - cbn in H. inversion H; subst. constructor.
  - cbn [process_sets_fresh] in H.
    destruct (transcode bcf_enc_int1 bcf_enc_size args s rec None)
      as [out| | |] eqn:Et;
      try (inversion H; subst; apply Forall2_same; reflexivity).
    destruct (process_sets_fresh bcf_enc_int1 bcf_enc_size w args rec todo)
      as [r1 rest] eqn:Er.
    specialize (IH r1 rest eq_refl).
    destruct (pass_of args s out =? 0).
    + inversion H; subst. constructor; [reflexivity|exact IH].
    + unfold bcf_write in H. destruct (fh s) as [f|] eqn:Ef.
      * destruct (write_rc w f out =? 0).
        -- inversion H; subst. constructor; [|exact IH].
           cbn. rewrite Ef. reflexivity.
        -- inversion H; subst. apply Forall2_same. reflexivity.
      * inversion H; subst. apply Forall2_same. reflexivity.
Qed.

Lemma stream_files : forall recs args k0 r args' k,
  stream bcf_enc_int1 bcf_enc_size w args recs k0 = (r, args', k) ->
  Forall2 (fun s s' => option_map fn (fh s') = option_map fn (fh s))
          (sets args) (sets args').
Proof.
  induction recs as [|rec recs IH]; intros args k0 r args' k H.
  - cbn in H. inversion H; subst. apply Forall2_same. reflexivity.
  - cbn [stream] in H.
    destruct (process bcf_enc_int1 bcf_enc_size w args rec) as [r1 a1] eqn:Ep.
    assert (H1 : Forall2 (fun s s' => option_map fn (fh s') = option_map fn (fh s))
                         (sets args) (sets a1)).
    { unfold process in Ep. rewrite process_sets_as_fresh in Ep.
      destruct (process_sets_fresh bcf_enc_int1 bcf_enc_size w args rec
                                   (sets args)) as [r2 s2] eqn:Ef.
      inversion Ep; subst. cbn [sets set_sets].
      eapply process_fresh_files. exact Ef. }
    destruct r1 as [u| | |]; try (inversion H; subst; exact H1).
    apply IH in H.
    eapply Forall2_compose; [|exact H1|exact H].
    intros x y z Hxy Hyz. congruence.
Qed.

(** X18: no record is read before every output file is open and has its
    header: if a run has pulled a record from the input, then every group has
    a file, this file could be opened and its header could be written. *)
Theorem outputs_open_before_reading : forall opts operands,
  0 < pulled (run bcf_enc_int1 bcf_enc_size w opts operands) ->
  Forall (fun s => exists f,
            fh s = Some f /\ open_ok w (fn f) = true /\
            hdr_write_ok w (fn f) = true)
         (groups (run bcf_enc_int1 bcf_enc_size w opts operands)).
Proof.
  intros opts operands Hp. unfold run in *.
  destruct (setup w opts operands) as [a| | |]; cbn in Hp; try lia.
  destruct (init_data w a) as [[[a1 recs] warn]| | |] eqn:Ei; cbn in Hp;
    try lia.
  assert (Hopen : Forall (fun s => exists f,
                            fh s = Some f /\ open_ok w (fn f) = true /\
                            hdr_write_ok w (fn f) = true) (sets a1)).
  { unfold init_data in Ei.
    destruct (fname_in a) as [path|]; [|discriminate].
    destruct (output_dir a) as [dir|]; [|discriminate].
    destruct (sr_open w path) as [[hdr recs0]|]; [|discriminate].
    destruct (negb (mkdir_ok w (dir ++ "/"))); [discriminate|].
    destruct (bcf_hdr_nsamples hdr =? 0); [discriminate|].
    destruct (init_subsets (readlines w) (set_hdr_in a hdr))
      as [[a2 warn2]| | |]; cbn [bind] in Ei; try discriminate.
    destruct (select_tags a2) as [a3| | |]; cbn [bind] in Ei; try discriminate.
    destruct (project_header a3) as [tmp| | |]; cbn [bind] in Ei;
      try discriminate.
    destruct (map_result (open_subset w a3 tmp) (sets a3)) as [ss| | |] eqn:Em;
      cbn [bind] in Ei; try discriminate.
    inversion Ei; subst. cbn [sets set_sets].
    apply map_result_Forall2 in Em.
    clear -Em. induction Em as [|x y l l' Hxy _ IH]; constructor; [|exact IH].
    apply open_subset_spec in Hxy.
    destruct Hxy as (_ & _ & _ & _ & p & _ & Ho & Hw & Hf).
    eexists. split; [exact Hf|]. split; assumption. }
  destruct (stream bcf_enc_int1 bcf_enc_size w a1 recs 0) as [[r a'] k] eqn:Es.
  apply stream_files in Es.
  assert (Hg : Forall (fun s => exists f,
                         fh s = Some f /\ open_ok w (fn f) = true /\
                         hdr_write_ok w (fn f) = true) (sets a')).
  { clear -Es Hopen. induction Es as [|x y l l' Hxy _ IH]; [constructor|].
    inversion Hopen as [|? ? (f & Hf & Ho & Hw) Hrest]; subst.
    constructor; [|apply IH; exact Hrest].
    rewrite Hf in Hxy. destruct (fh y) as [fy|]; [|discriminate].
    cbn in Hxy. inversion Hxy as [Hfn]. exists fy. rewrite Hfn.
    split; [reflexivity|]. split; assumption. }
  destruct r; exact Hg.
Qed.

End RunProps.

Lemma missing_output_option_witness :
  exists msg,
    setup (Demo.env []) [Opt_k "FMT"] ["in.bcf"] = Fatal msg /\
    run Demo.enc_int1 Demo.enc_size (Demo.env []) [Opt_k "FMT"] ["in.bcf"]
    = {| status := Fatal msg; groups := []; pulled := 0 |} /\
    (forall a path,
       handle_options args0 [Opt_k "FMT"] = Ok a -> ["in.bcf"] = [path] ->
       msg = "Missing the -o option").
Proof.
  apply (missing_output_option Demo.enc_int1 Demo.enc_size (Demo.env [])
           [Opt_k "FMT"] ["in.bcf"]).
  intros s [H|[]]. discriminate H.
Defined.

Lemma close_all_reports_first_failure_witness :
  (close_all (Demo.env []) [Demo.filtered_group [0]; Demo.filtered_group [1]]
   = Ok tt <->
   Forall (fun set => exists f,
             fh set = Some f /\ close_ok (Demo.env []) f = true)
          [Demo.filtered_group [0]; Demo.filtered_group [1]]).
Proof.
  apply (close_all_reports_first_failure (Demo.env [])
           [Demo.filtered_group [0]; Demo.filtered_group [1]]).
  repeat constructor; discriminate.
Defined.

Lemma outputs_open_before_reading_witness :
  Forall (fun s => exists f,
            fh s = Some f /\ open_ok (Demo.env []) (fn f) = true /\
            hdr_write_ok (Demo.env []) (fn f) = true)
         (groups (run Demo.enc_int1 Demo.enc_size (Demo.env [])
                      [Opt_o "out"] ["in.bcf"])).
Proof.
  apply (outputs_open_before_reading Demo.enc_int1 Demo.enc_size
           (Demo.env []) [Opt_o "out"] ["in.bcf"]).
  vm_compute. reflexivity.
Defined.

(* ================================================================= *)
(** ** Regions and targets *)

Lemma restrict_fold : forall opts r,
  region (fold_left restrict_option opts r)
  = last_arg opt_region opts (region r) /\
  region_is_file (fold_left restrict_option opts r)
  = (if existsb is_opt_R opts then 1 else region_is_file r) /\
  target (fold_left restrict_option opts r)
  = last_arg opt_target opts (target r) /\
  target_is_file (fold_left restrict_option opts r)
  = (if existsb is_opt_T opts then 1 else target_is_file r).
Proof.
  induction opts as [|o opts IH]; intros r.
  - cbn. repeat split; reflexivity.
  - cbn [fold_left existsb]. destruct (IH (restrict_option r o))
      as (H1 & H2 & H3 & H4).
    rewrite H1, H2, H3, H4. unfold last_arg. cbn [fold_left].
    destruct o; cbn; repeat split; try reflexivity;
      destruct (existsb is_opt_R opts), (existsb is_opt_T opts); reflexivity.
Qed.

(** X19: the region and the target that the reader is given are the arguments
    of the last [-r] or [-R] and of the last [-t] or [-T], but the flag that
    says whether the argument names a file is set by [-R] (by [-T]) and never
    cleared: once [-R] has been given, the argument of a later [-r] is handed
    to the reader as a file name. The reader requires an index exactly when a
    region is given; it gets the region and the target with these flags, and a
    region that cannot be read is reported before a target that cannot be
    read. *)
Theorem region_file_flag_is_sticky : forall opts e fname,
  region (restrict_options opts) = last_arg opt_region opts None /\
  region_is_file (restrict_options opts)
  = (if existsb is_opt_R opts then 1 else 0) /\
  target (restrict_options opts) = last_arg opt_target opts None /\
  target_is_file (restrict_options opts)
  = (if existsb is_opt_T opts then 1 else 0) /\
  (forall sr,
     open_reader e (restrict_options opts) fname = Ok sr ->
     require_index sr
     = (match last_arg opt_region opts None with Some _ => 1 | None => 0 end) /\
     sr_regions sr
     = option_map (fun reg => (reg, if existsb is_opt_R opts then 1 else 0))
                  (last_arg opt_region opts None) /\
     sr_targets sr
     = option_map (fun tgt => (tgt, if existsb is_opt_T opts then 1 else 0))
                  (last_arg opt_target opts None)) /\
  (forall reg,
     last_arg opt_region opts None = Some reg ->
     set_regions e reg (if existsb is_opt_R opts then 1 else 0) < 0 ->
     open_reader e (restrict_options opts) fname
     = Fatal ("Failed to read the regions: " ++ reg)%string).
Proof.
  intros opts e fname.
  destruct (restrict_fold opts restrict0) as (H1 & H2 & H3 & H4).
  fold (restrict_options opts) in H1, H2, H3, H4. cbn in H1, H2, H3, H4.
  repeat (split; [assumption|]).
  unfold open_reader. rewrite H1, H2, H3, H4. split.
  - intros sr H.
    destruct (last_arg opt_region opts None) as [reg|];
      destruct (last_arg opt_target opts None) as [tgt|];
      cbn [bind require_index sr_regions sr_targets] in H;
      repeat match type of H with
             | context [if ?c then _ else _] =>
                 destruct c; cbn [bind require_index sr_regions sr_targets] in H;
                 try discriminate H
             end;
      inversion H; subst sr; cbn; repeat split; reflexivity.
  - intros reg Hr Hneg. rewrite Hr.
    replace (set_regions e reg (if existsb is_opt_R opts then 1 else 0) <? 0)
      with true by lia.
    reflexivity.
Qed.

Lemma region_file_flag_is_sticky_witness :
  region (restrict_options [Opt_R "regions.txt"; Opt_o "out"; Opt_r "chr1"])
  = Some "chr1" /\
  region_is_file
    (restrict_options [Opt_R "regions.txt"; Opt_o "out"; Opt_r "chr1"]) = 1 /\
  open_reader {| set_regions := fun _ is_file => if is_file =? 1 then -1 else 0;
                 set_targets := fun _ _ => 0;
                 add_reader := fun _ _ => true |}
              (restrict_options [Opt_R "regions.txt"; Opt_o "out"; Opt_r "chr1"])
              "in.bcf"
  = Fatal "Failed to read the regions: chr1".
Proof.
  destruct (region_file_flag_is_sticky
              [Opt_R "regions.txt"; Opt_o "out"; Opt_r "chr1"]
              {| set_regions := fun _ is_file => if is_file =? 1 then -1 else 0;
                 set_targets := fun _ _ => 0;
                 add_reader := fun _ _ => true |} "in.bcf")
    as (H1 & H2 & _ & _ & _ & H6).
  split; [exact H1|]. split; [exact H2|].
  apply (H6 "chr1"); reflexivity.
Defined.

(* ================================================================= *)
(** ** The names of the groups *)

Lemma subset_of_line_name : forall h str_s line set str_s' warn,
  subset_of_line h str_s line = Ok (Some set, str_s', warn) ->
  named_after_first h set.
Proof.
  intros h str_s line set str_s' warn H. unfold subset_of_line in H.
  destruct (scan_names line false 1 "") as [[put k] ptr].
  match type of H with
  | match ?s with Some _ => _ | None => _ end = _ =>
      destruct s as [beg|]; [|discriminate]
  end.
  destruct (names_loop (S (String.length beg)) h beg (repeat 0 (Z.to_nat k)) 0 [])
    as [[[smpl1 j1] warn1]| | |]; cbn [bind] in H; try discriminate.
  destruct (j1 =? 0); [discriminate|].
  destruct (skip_spaces ptr) as [|c q0].
  - destruct (arr_get smpl1 0) as [i0| | |] eqn:E0; cbn [bind] in H;
      try discriminate.
    destruct (arr_get (hdr_samples h) i0) as [nm| | |] eqn:E1; cbn [bind] in H;
      try discriminate.
    inversion H; subst set. unfold named_after_first. cbn.
    apply arr_get_ok in E0, E1. destruct E0 as [_ E0], E1 as [Hi E1].
    exists i0. repeat split; assumption.
  - destruct (rename_loop (S (String.length (String c q0)))
                          (line_shown line (String c q0)) k (String c q0)
                          (repeat None (Z.to_nat k)) 0) as [ren| | |];
      cbn [bind] in H; try discriminate.
    destruct (arr_get ren 0) as [[nm|]| | |] eqn:E0; cbn [bind] in H;
      try discriminate.
    inversion H; subst set. unfold named_after_first. cbn.
    apply arr_get_ok in E0. tauto.
Qed.

Lemma lines_loop_names : forall h files str_s acc warn sets' warn',
  lines_loop h files str_s acc warn = Ok (sets', warn') ->
  Forall (named_after_first h) acc -> Forall (named_after_first h) sets'.
Proof.
  intros h files. induction files as [|line files IH];
    intros str_s acc warn sets' warn' H Hacc; cbn [lines_loop] in H.
  - inversion H; subst. exact Hacc.
  - destruct (subset_of_line h str_s line) as [[[set s1] w1]| | |] eqn:El;
      cbn [bind] in H; try discriminate.
    eapply IH; [exact H|]. destruct set as [set|]; [|exact Hacc].
    apply Forall_app. split; [exact Hacc|]. constructor; [|constructor].
    eapply subset_of_line_name. exact El.
Qed.

Lemma singleton_groups_names : forall h l pre,
  hdr_samples h = pre ++ l ->
  Forall (named_after_first h)
         (singleton_groups l (Z.of_nat (List.length pre))).
Proof.
  intros h l. induction l as [|name l IH]; intros pre Hs; cbn [singleton_groups];
    constructor.
  - unfold named_after_first. cbn. exists (Z.of_nat (List.length pre)).
    split; [reflexivity|]. split; [lia|]. rewrite Nat2Z.id, Hs.
    rewrite nth_error_app2 by lia. now rewrite Nat.sub_diag.
  - replace (Z.of_nat (List.length pre) + 1)
      with (Z.of_nat (List.length (pre ++ [name])))
      by (rewrite length_app; cbn; lia).
    apply IH. rewrite <- app_assoc. exact Hs.
Qed.

(** X20: the name of the first sample is the base name of a group's file, as
    the usage text says: for every group that [init_subsets] makes, with or
    without a samples file, the base name is the input's name of the sample at
    the group's first index, or, when the line has a second column, its first
    new name. *)
Theorem group_file_name : forall rl args a' warn,
  init_subsets rl args = Ok (a', warn) ->
  Forall (named_after_first (hdr_in args)) (sets a').
Proof.
  intros rl args a' warn H.
  destruct (samples_fname args) as [path|] eqn:Ef.
  - unfold init_subsets in H. rewrite Ef in H.
    destruct (rl path) as [[|line files]|]; try discriminate.
    destruct (lines_loop (hdr_in args) (line :: files) None [] [])
      as [[s w]| | |] eqn:El; cbn [bind] in H; try discriminate.
    inversion H; subst. cbn [sets set_sets].
    eapply lines_loop_names; [exact El|constructor].
  - rewrite init_subsets_implicit in H by exact Ef.
    inversion H; subst. cbn [sets set_sets].
    apply (singleton_groups_names (hdr_in args) _ []). reflexivity.
Qed.

Lemma group_file_name_witness :
  exists a' warn,
    init_subsets (fun _ => Some ["ZZ,C,A"; "B X"])
                 (Demo.args None (Some "groups.txt")) = Ok (a', warn) /\
    Forall (named_after_first Demo.hdr) (sets a') /\
    map fname (sets a') = ["C"; "X"].
Proof.
  do 2 eexists. split; [vm_compute; reflexivity|]. split; [|reflexivity].
  apply (group_file_name (fun _ => Some ["ZZ,C,A"; "B X"])
           (Demo.args None (Some "groups.txt")) _ ["ZZ"]).
  vm_compute. reflexivity.
Defined.

Lemma has_comma_count : forall s, has_comma s = false -> count_commas s = 0.
Proof.
  induction s as [|c s IH]; intros H; [reflexivity|].
  cbn in H. apply orb_false_elim in H. destruct H as [Hc Hs].
  cbn [count_commas]. rewrite Hc, IH by exact Hs. reflexivity.
Qed.

(** A line that holds one name, and the name is not a sample of the
    input. *)
Lemma unknown_line : forall h str_s n,
  n <> "" -> has_comma n = false -> bcf_hdr_id2int_SAMPLE h n < 0 ->
  subset_of_line h str_s (escape_name n) = Ok (None, Some n, [n]).
Proof.
  intros h str_s n Hn Hc Hu. unfold subset_of_line.
  rewrite <- (string_app_nil_r (escape_name n)).
  rewrite scan_names_unescapes by exact I.
  rewrite (has_comma_count n Hc).
  destruct n as [|c n0]; [contradiction|]. set (n := String c n0) in *.
  change (names_loop (S (String.length n)) h n (repeat 0 (Z.to_nat (1 + 0))) 0 [])
    with (let '(name, rest) := scan_comma n in
          do st <- (if bcf_hdr_id2int_SAMPLE h name >=? 0
                    then do smpl' <- arr_set [0] 0 (bcf_hdr_id2int_SAMPLE h name);
                         Ok (smpl', 0 + 1, [])
                    else Ok ([0], 0, [] ++ [name]));
          let '(smpl, j, warn) := st in
          match rest with
          | None => Ok (smpl, j, warn)
          | Some beg' => names_loop (String.length n) h beg' smpl j warn
          end).
  rewrite (scan_comma_last n Hc).
  replace (bcf_hdr_id2int_SAMPLE h n >=? 0) with false by lia.
  cbn [bind app Z.eqb fst]. reflexivity.
Qed.

(** X21: a samples file that lists, one per line, only names that are not
    samples of the input is no error: [init_subsets] warns about every name
    and returns without any group, so that the run reads the input and writes
    no file. *)
Theorem unknown_samples_yield_no_group : forall rl args path n names,
  samples_fname args = Some path ->
  rl path = Some (map escape_name (n :: names)) ->
  Forall (fun n => n <> "" /\ has_comma n = false /\
                   bcf_hdr_id2int_SAMPLE (hdr_in args) n < 0) (n :: names) ->
  init_subsets rl args = Ok (set_sets args [], n :: names).
Proof.
  intros rl args path n names Hf Hr Hall.
  unfold init_subsets. rewrite Hf, Hr.
  assert (Hloop : forall l str_s warn,
            Forall (fun n => n <> "" /\ has_comma n = false /\
                      bcf_hdr_id2int_SAMPLE (hdr_in args) n < 0) l ->
            lines_loop (hdr_in args) (map escape_name l) str_s [] warn
            = Ok ([], warn ++ l)).
  { induction l as [|x l IH]; intros str_s warn Hl; cbn [map lines_loop].
    - now rewrite app_nil_r.
    - inversion Hl as [|? ? (H1 & H2 & H3) Hl']; subst.
      rewrite (unknown_line _ str_s x H1 H2 H3). cbn [bind].
      rewrite IH by exact Hl'. rewrite <- app_assoc. reflexivity. }
  change (map escape_name (n :: names))
    with (escape_name n :: map escape_name names).
  change (escape_name n :: map escape_name names)
    with (map escape_name (n :: names)).
  destruct (map escape_name (n :: names)) as [|l0 ls] eqn:Em; [discriminate|].
  rewrite <- Em. rewrite Hloop by exact Hall. reflexivity.
Qed.

Lemma unknown_samples_yield_no_group_witness :
  init_subsets (fun _ => Some ["X1"; "sample\ 2"])
               (Demo.args None (Some "groups.txt"))
  = Ok (set_sets (Demo.args None (Some "groups.txt")) [], ["X1"; "sample 2"]).
Proof.
  apply (unknown_samples_yield_no_group (fun _ => Some ["X1"; "sample\ 2"])
           (Demo.args None (Some "groups.txt")) "groups.txt" "X1" ["sample 2"]);
    [reflexivity|reflexivity|].
  repeat constructor; (discriminate || (vm_compute; reflexivity)).
Defined.

(* ================================================================= *)
(** ** The examples of the usage text *)

Lemma tolower_idem : forall c, tolower (tolower c) = tolower c.
Proof. intros [[] [] [] [] [] [] [] []]; reflexivity. Qed.

Lemma strcasecmp_lower : forall a b,
  strcasecmp_eq a b = true -> map_string tolower a = map_string tolower b.
Proof.
  induction a as [|x a IH]; intros [|y b] H; cbn in H; try discriminate;
    [reflexivity|].
  destruct (Ascii.eqb (tolower x) (tolower y)) eqn:E; [|discriminate].
  apply Ascii.eqb_eq in E. cbn [map_string]. rewrite E. f_equal. now apply IH.
Qed.

Lemma strncasecmp_lower_r : forall k pat s,
  strncasecmp_eq pat s k = strncasecmp_eq pat (map_string tolower s) k.
Proof.
  induction k as [|k IH]; intros pat s; [reflexivity|].
  destruct pat as [|x pat], s as [|y s]; cbn [strncasecmp_eq map_string];
    try reflexivity.
  rewrite tolower_idem. destruct (Ascii.eqb (tolower x) (tolower y));
    [apply IH|reflexivity].
Qed.

Lemma strcasecmp_lower_r : forall pat s,
  strcasecmp_eq pat s = strcasecmp_eq pat (map_string tolower s).
Proof.
  induction pat as [|x pat IH]; intros [|y s];
    cbn [strcasecmp_eq map_string]; try reflexivity.
  rewrite tolower_idem. destruct (Ascii.eqb (tolower x) (tolower y));
    [apply IH|reflexivity].
Qed.

(** The list [FMT] or [FORMAT], in any letter case, sets the keep-all
    flag of the per-sample category and nothing else. *)
Lemma parse_fmt_keyword : forall a s,
  keep_tags a = Some s ->
  strcasecmp_eq "FMT" s = true \/ strcasecmp_eq "FORMAT" s = true ->
  parse_tags a = Ok (set_keep_fmt a 1).
Proof.
  intros a s Hk Hs. unfold parse_tags. rewrite Hk.
  rewrite tags_loop_unfold.
  destruct s as [|c s0]; [destruct Hs as [H|H]; discriminate H|].
  set (s := String c s0) in *.
  rewrite (strncasecmp_lower_r 5 "INFO/" s), (strcasecmp_lower_r "INFO" s),
    (strncasecmp_lower_r 5 "INFO," s), (strncasecmp_lower_r 4 "FMT/" s),
    (strncasecmp_lower_r 7 "FORMAT/" s), (strcasecmp_lower_r "FMT" s),
    (strcasecmp_lower_r "FORMAT" s).
  destruct Hs as [H|H]; apply strcasecmp_lower in H; rewrite <- H; reflexivity.
Qed.

(** X22: the last example of the usage text, [-k FMT]: "keep all FORMAT tags
    but drop all INFO tags". With the list [FMT] or [FORMAT], in any letter
    case, every per-sample field is kept, the site-level block of every output
    record is reduced to identifier, alleles and filters with a field count of
    zero, and the output header keeps its FORMAT declarations and none of its
    INFO declarations. *)
Theorem fmt_keyword_drops_site_fields : forall a s,
  no_tags_yet a -> keep_tags a = Some s ->
  strcasecmp_eq "FMT" s = true \/ strcasecmp_eq "FORMAT" s = true ->
  select_tags a = Ok (set_keep_fmt a 1) /\
  (forall f, fmt_retained (set_keep_fmt a 1) f = true) /\
  (forall set rec,
     decoded_info rec ->
     exists out,
       rec_set_info (set_keep_fmt a 1) set rec None = Ok out /\
       shared out = preamble rec /\ n_info out = 0) /\
  project_header (set_keep_fmt a 1)
  = Ok (map (fun e => {| id_key := id_key e; id_is_info := false;
                         id_is_fmt := id_is_fmt e |})
            (hdr_ids (hdr_in a))).
Proof.
  intros a s Ha Hk Hs.
  pose proof Ha as (Hi & Hf & Hni & Hmi & Hti & Hnf & Hmf & Htf).
  split.
  - unfold select_tags. rewrite (parse_fmt_keyword a s Hk Hs). cbn [bind].
    unfold tag_defaults. cbn. rewrite Hi, Hni, Hnf. reflexivity.
  - split; [intros f; reflexivity|]. split.
    + intros set rec Hd.
      apply rec_set_info_none_selected; [exact Hi|exact Hni|exact Hd].
    + rewrite project_header_spec.
      * cbn [hdr_in set_keep_fmt]. f_equal. apply map_ext. intros e.
        unfold projected. cbn. rewrite Hi, Hnf. cbn.
        now rewrite Bool.andb_false_r, Bool.andb_true_r.
      * apply set_keep_fmt_tables. now apply no_tags_yet_tables.
Qed.

Lemma fmt_keyword_drops_site_fields_witness :
  select_tags (Demo.args (Some "fmt") None)
  = Ok (set_keep_fmt (Demo.args (Some "fmt") None) 1) /\
  exists out,
    rec_set_info (set_keep_fmt (Demo.args (Some "fmt") None) 1)
                 (Demo.group [0]) Demo.rec None = Ok out /\
    shared out = preamble Demo.rec /\ n_info out = 0.
Proof.
  destruct (fmt_keyword_drops_site_fields (Demo.args (Some "fmt") None) "fmt")
    as (H1 & _ & H3 & _).
  - repeat split; reflexivity.
  - reflexivity.
  - left. reflexivity.
  - split; [exact H1|]. apply H3.
    unfold decoded_info. repeat (split; [vm_compute; congruence|]).
    repeat constructor; vm_compute; congruence.
Defined.

(* ================================================================= *)
(** ** The tag selection: what a list selects *)

(** Marking an id adds it to the table and nothing else. *)
Lemma mark_exact : forall h t n m tab id tab',
  table_sound h t n tab ->
  let n' := if id >=? n then id + 1 else n in
  arr_set (snd (hts_expand0 n' m tab)) id 1 = Ok tab' ->
  forall x, in_table n' tab' x = true <-> x = id \/ in_table n tab x = true.
Proof.
  intros h t n m tab id tab' Hs n' Ha x.
  apply arr_set_ok in Ha. destruct Ha as (Hid & Hlt & ->).
  assert (Hexp : forall i, nth i (snd (hts_expand0 n' m tab)) 0 = nth i tab 0).
  { intros i. unfold hts_expand0. destruct (n' >? m); cbn [snd];
      [apply nth_app_zeros|reflexivity]. }
  assert (Hn' : n <= n' /\ id < n') by (subst n'; destruct (id >=? n) eqn:E; lia).
  unfold in_table. split.
  - intros H. apply andb_prop in H. destruct H as [H Hnz].
    apply andb_prop in H. destruct H as [H0 H1].
    destruct (Z.eq_dec x id) as [->|Hne]; [left; reflexivity|right].
    rewrite list_set_nth_other in Hnz by lia. rewrite Hexp in Hnz.
    apply negb_true_iff in Hnz.
    destruct (Hs (Z.to_nat x) ltac:(lia)) as (Hlt' & _ & _).
    rewrite Hnz. cbn [negb]. rewrite Bool.andb_true_r.
    apply andb_true_intro. split; lia.
  - intros [->|H].
    + rewrite list_set_nth_same by exact Hlt. cbn.
      rewrite Bool.andb_true_r. apply andb_true_intro. split; lia.
    + apply andb_prop in H. destruct H as [H Hnz].
      apply andb_prop in H. destruct H as [H0 H1].
      destruct (Z.eq_dec x id) as [->|Hne].
      * rewrite list_set_nth_same by exact Hlt. cbn.
        rewrite Bool.andb_true_r. apply andb_true_intro. split; lia.
      * rewrite list_set_nth_other by lia. rewrite Hexp, Hnz.
        rewrite Bool.andb_true_r. apply andb_true_intro. split; lia.
Qed.

(** One name looked up while the category [t] is switched on. *)
Lemma record_tag_exact : forall h t id a,
  selection_ok h a ->
  exists a',
    record_tag (flag_info t) (flag_fmt t) id a = Ok a' /\
    selection_ok h a' /\
    keep_info a' = keep_info a /\ keep_fmt a' = keep_fmt a /\
    (forall x, tag_selected t a' x = true <->
               (x = id /\ bcf_hdr_idinfo_exists h t id = true) \/
               tag_selected t a x = true) /\
    (forall x, tag_selected (other_category t) a' x
               = tag_selected (other_category t) a x).
Proof.
  intros h t id a (Hh & Ht & Hsi & Hsf).
  destruct (record_tag_ok (flag_info t) (flag_fmt t) id a Ht)
    as (a' & E & Ht' & Hki & Hkf & Hh' & _ & _).
  exists a'. split; [exact E|].
  destruct (record_tag_sound h _ _ _ _ _ (conj Hh (conj Hsi Hsf)) E)
    as (_ & Hsi' & Hsf').
  split; [split; [congruence|split; [exact Ht'|split; assumption]]|].
  split; [exact Hki|]. split; [exact Hkf|].
  destruct Ht as [Hti Htf].
  destruct t; unfold record_tag in E; cbn [flag_info flag_fmt andb bind] in E;
    rewrite Hh in E.
  - destruct (bcf_hdr_idinfo_exists h BCF_HL_INFO id) eqn:Ee.
    + cbv zeta in E.
      destruct (hts_expand0 (if id >=? ninfo_tags a then id + 1
                             else ninfo_tags a) (minfo_tags a) (info_tags a))
        as [m tab] eqn:Ex.
      destruct (arr_set tab id 1) as [tab'| | |] eqn:Ea; cbn [bind] in E;
        try discriminate.
      inversion E; subst a'. cbn.
      split; [|reflexivity]. intros x.
      rewrite (mark_exact h BCF_HL_INFO (ninfo_tags a) (minfo_tags a)
                          (info_tags a) id tab' Hsi)
        by (rewrite Ex; exact Ea).
      tauto.
    + inversion E; subst a'. split; [|reflexivity].
      intros x. split; [tauto|]. intros [[_ H]|H]; [discriminate|exact H].
  - destruct (bcf_hdr_idinfo_exists h BCF_HL_FMT id) eqn:Ee.
    + cbv zeta in E.
      destruct (hts_expand0 (if id >=? nfmt_tags a then id + 1
                             else nfmt_tags a) (mfmt_tags a) (fmt_tags a))
        as [m tab] eqn:Ex.
      destruct (arr_set tab id 1) as [tab'| | |] eqn:Ea; cbn [bind] in E;
        try discriminate.
      inversion E; subst a'. cbn.
      split; [|reflexivity]. intros x.
      rewrite (mark_exact h BCF_HL_FMT (nfmt_tags a) (mfmt_tags a)
                          (fmt_tags a) id tab' Hsf)
        by (rewrite Ex; exact Ea).
      tauto.
    + inversion E; subst a'. split; [|reflexivity].
      intros x. split; [tauto|]. intros [[_ H]|H]; [discriminate|exact H].
Qed.

(** A list of bare names read while the category [t] is switched on. *)
Lemma tags_from_list_exact : forall h t names a,
  selection_ok h a ->
  Forall (fun n => bare_name n = true) names ->
  exists a',
    tags_from (flag_info t) (flag_fmt t) (comma_list names) a = Ok a' /\
    selection_ok h a' /\
    keep_info a' = keep_info a /\ keep_fmt a' = keep_fmt a /\
    (forall x, tag_selected t a' x = true <->
               (exists n, In n names /\ bcf_hdr_id2int_ID h n = x /\
                          bcf_hdr_idinfo_exists h t x = true) \/
               tag_selected t a x = true) /\
    (forall x, tag_selected (other_category t) a' x
               = tag_selected (other_category t) a x).
Proof.
  intros h t names. induction names as [|n names IH]; intros a Ha Hb.
  - exists a. split; [reflexivity|]. split; [exact Ha|].
    split; [reflexivity|]. split; [reflexivity|]. split; [|reflexivity].
    intros x. split; [tauto|]. intros [(n & [] & _)|H]. exact H.
  - inversion Hb as [|? ? Hbn Hb']; subst.
    destruct (bare_name_parts n Hbn) as (_ & Hc & _).
    destruct (comma_list_scan n names Hc) as [Hfirst Hafter].
    rewrite tags_from_bare_name by (rewrite Hfirst; exact Hbn).
    rewrite Hfirst, Hafter.
    pose proof Ha as (Hh & _).
    destruct (record_tag_exact h t (bcf_hdr_id2int_ID (hdr_in a) n) a Ha)
      as (a1 & E1 & Ha1 & Hki1 & Hkf1 & Hsel1 & Hoth1).
    rewrite E1. cbn [bind].
    destruct (IH a1 Ha1 Hb') as (a' & E' & Ha' & Hki' & Hkf' & Hsel' & Hoth').
    exists a'. split; [exact E'|]. split; [exact Ha'|].
    split; [congruence|]. split; [congruence|]. split.
    + intros x. rewrite Hsel', Hsel1, Hh. split.
      * intros [(n' & Hin & Hid & He)|[[Hx He]|H]].
        -- left. exists n'. split; [right; exact Hin|]. split; assumption.
        -- left. exists n. split; [left; reflexivity|]. subst x.
           split; [reflexivity|exact He].
        -- right. exact H.
      * intros [(n' & [->|Hin] & Hid & He)|H].
        -- right. left. subst x. split; [reflexivity|exact He].
        -- left. exists n'. split; [exact Hin|]. split; assumption.
        -- right. right. exact H.
    + intros x. rewrite Hoth', Hoth1. reflexivity.
Qed.

(** A marker followed by a list of bare names: the marker switches its
    category on and the list is read in that category. *)
Lemma marker_switches : forall marker t n names is_info is_fmt a,
  marker_category marker = Some t ->
  Forall (fun n => bare_name n = true) (n :: names) ->
  tags_from is_info is_fmt (marker ++ comma_list (n :: names)) a
  = tags_from (flag_info t) (flag_fmt t) (comma_list (n :: names)) a.
Proof.
  intros marker t n names is_info is_fmt a Hm Hb.
  inversion Hb as [|? ? Hbn Hb']; subst.
  destruct (bare_name_parts n Hbn) as (_ & Hc & _).
  destruct (comma_list_scan n names Hc) as [Hfirst Hafter].
  rewrite (tags_from_bare_name (flag_info t) (flag_fmt t))
    by (rewrite Hfirst; exact Hbn).
  unfold marker_category in Hm.
  destruct (String.eqb marker "INFO/") eqn:E1.
  - apply String.eqb_eq in E1. subst marker. inversion Hm; subst t.
    rewrite tags_from_info_marker by reflexivity. reflexivity.
  - destruct (String.eqb marker "FMT/") eqn:E2.
    + apply String.eqb_eq in E2. subst marker. inversion Hm; subst t.
      rewrite tags_from_fmt_marker by reflexivity. reflexivity.
    + destruct (String.eqb marker "FORMAT/") eqn:E3; [|discriminate].
      apply String.eqb_eq in E3. subst marker. inversion Hm; subst t.
      rewrite tags_from_format_marker by reflexivity. reflexivity.
Qed.

Lemma no_tags_yet_selection : forall a, no_tags_yet a -> selection_ok (hdr_in a) a.
Proof.
  intros a Ha. split; [reflexivity|]. split; [now apply no_tags_yet_tables|].
  destruct Ha as (_ & _ & _ & _ & Hi & _ & _ & Hf). rewrite Hi, Hf.
  split; intros i Hn; destruct i; cbn in Hn; contradiction.
Qed.

Lemma none_selected : forall n m tab,
  table_ok n m tab -> (forall x, in_table n tab x = false) -> n = 0.
Proof.
  intros n m tab Ht Hnone. pose proof (table_nonempty n m tab Ht) as [_ H].
  destruct Ht as ((Hn & _) & _).
  destruct (Z.eq_dec n 0) as [E|E]; [exact E|].
  destruct (H ltac:(lia)) as (x & Hx). rewrite Hnone in Hx. discriminate.
Qed.

(** X23: a [-k] list made of one marker and names selects exactly the listed
    names that the header declares in the marker's category: an id is in the
    table of that category if and only if it is the id of a listed name with
    such a declaration; the table of the other category stays empty. If
    something is selected, the keep-all flag of the site-level category is
    clear, and the one of the per-sample category is set exactly when the
    marker is [INFO/]; if nothing is selected both flags are set. *)
Theorem marker_list_selects_exactly : forall a marker t n names,
  no_tags_yet a ->
  marker_category marker = Some t ->
  Forall (fun n => bare_name n = true) (n :: names) ->
  keep_tags a = Some (marker ++ comma_list (n :: names))%string ->
  exists a',
    select_tags a = Ok a' /\
    (forall x, tag_selected t a' x = true <->
               exists n', In n' (n :: names) /\
                          bcf_hdr_id2int_ID (hdr_in a) n' = x /\
                          bcf_hdr_idinfo_exists (hdr_in a) t x = true) /\
    (forall x, tag_selected (other_category t) a' x = false) /\
    ((exists x, tag_selected t a' x = true) ->
     keep_info a' = 0 /\
     keep_fmt a' = match t with BCF_HL_INFO => 1 | BCF_HL_FMT => 0 end) /\
    ((forall x, tag_selected t a' x = false) ->
     keep_info a' = 1 /\ keep_fmt a' = 1).
Proof.
  intros a marker t n names Ha Hm Hb Hk.
  destruct (tags_from_list_exact (hdr_in a) t (n :: names) a
              (no_tags_yet_selection a Ha) Hb)
    as (p & Ep & (Hhp & (Htip & Htfp) & _) & Hki & Hkf & Hsel & Hoth).
  pose proof Ha as (Hi0 & Hf0 & Hni0 & _ & Hti0 & Hnf0 & _ & Htf0).
  assert (Hparse : parse_tags a = Ok p).
  { unfold parse_tags. rewrite Hk.
    change (tags_from false false (marker ++ comma_list (n :: names)) a = Ok p).
    rewrite (marker_switches marker t n names false false a Hm Hb). exact Ep. }
  assert (Hsel0 : forall t' x, tag_selected t' a x = false).
  { intros t' x. destruct t'; cbn; rewrite ?Hni0, ?Hnf0; apply in_table_none. }
  assert (Hselp : forall x, tag_selected t p x = true <->
                    exists n', In n' (n :: names) /\
                               bcf_hdr_id2int_ID (hdr_in a) n' = x /\
                               bcf_hdr_idinfo_exists (hdr_in a) t x = true).
  { intros x. rewrite Hsel, Hsel0. split; [intros [H|H]; [exact H|discriminate]|].
    intros H. left. exact H. }
  assert (Hothp : forall x, tag_selected (other_category t) p x = false).
  { intros x. rewrite Hoth. apply Hsel0. }
  assert (Hdef : forall t' x,
            tag_selected t' (tag_defaults p) x = tag_selected t' p x).
  { intros t' x. destruct (tag_defaults_tables p) as (E1 & E2 & E3 & E4).
    destruct t'; cbn; congruence. }
  rewrite Hi0 in Hki. rewrite Hf0 in Hkf.
  exists (tag_defaults p). split.
  { unfold select_tags. rewrite Hparse. reflexivity. }
  split; [intros x; rewrite Hdef; apply Hselp|].
  split; [intros x; rewrite Hdef; apply Hothp|].
  assert (Hnone : forall t', (forall x, tag_selected t' p x = false) ->
                    match t' with
                    | BCF_HL_INFO => ninfo_tags p = 0
                    | BCF_HL_FMT => nfmt_tags p = 0
                    end).
  { intros t' H. destruct t'; cbn in H; eapply none_selected; eassumption. }
  assert (Hsome : forall t', (exists x, tag_selected t' p x = true) ->
                    match t' with
                    | BCF_HL_INFO => 0 < ninfo_tags p
                    | BCF_HL_FMT => 0 < nfmt_tags p
                    end).
  { intros t' H. destruct t'; cbn in H.
    - apply (table_nonempty _ _ _ Htip). exact H.
    - apply (table_nonempty _ _ _ Htfp). exact H. }
  pose proof (Hnone (other_category t) Hothp) as Hzero.
  split.
  - intros (x & Hx). rewrite Hdef in Hx.
    pose proof (Hsome t (ex_intro _ x Hx)) as Hpos.
    unfold tag_defaults. rewrite Hki, Hkf.
    destruct t; cbn in Hzero, Hpos; rewrite Hzero; cbn [Z.eqb andb].
    + replace (ninfo_tags p =? 0) with false by lia. cbn.
      rewrite Hkf, Hzero. cbn. split; [exact Hki|reflexivity].
    + replace (nfmt_tags p =? 0) with false by lia. cbn.
      rewrite Hkf. cbn.
      replace (nfmt_tags p =? 0) with false by lia.
      split; assumption.
  - intros Hnot.
    assert (Hz : match t with
                 | BCF_HL_INFO => ninfo_tags p = 0
                 | BCF_HL_FMT => nfmt_tags p = 0
                 end).
    { apply Hnone. intros x. rewrite <- Hdef. apply Hnot. }
    unfold tag_defaults. rewrite Hki, Hkf.
    destruct t; cbn in Hzero, Hz; rewrite Hzero, Hz; cbn; split; reflexivity.
Qed.

Lemma marker_list_selects_exactly_witness :
  exists a',
    select_tags (Demo.args (Some "FMT/GT,XX,AF,PL") None) = Ok a' /\
    (forall x, tag_selected BCF_HL_FMT a' x = true <->
               exists n', In n' ["GT"; "XX"; "AF"; "PL"] /\
                          bcf_hdr_id2int_ID Demo.hdr n' = x /\
                          bcf_hdr_idinfo_exists Demo.hdr BCF_HL_FMT x = true) /\
    (forall x, tag_selected BCF_HL_INFO a' x = false) /\
    ((exists x, tag_selected BCF_HL_FMT a' x = true) ->
     keep_info a' = 0 /\ keep_fmt a' = 0) /\
    ((forall x, tag_selected BCF_HL_FMT a' x = false) ->
     keep_info a' = 1 /\ keep_fmt a' = 1).
Proof.
  apply (marker_list_selects_exactly (Demo.args (Some "FMT/GT,XX,AF,PL") None)
           "FMT/" BCF_HL_FMT "GT" ["XX"; "AF"; "PL"]).
  - repeat split; reflexivity.
  - reflexivity.
  - repeat constructor.
  - reflexivity.
Defined.

(** X24: the third example of the usage text, [-k INFO,FMT/GT,PL]: "keep all
    INFO tags but only GT and PL in FORMAT". With the keyword [INFO] followed
    by a [FMT/] list of which at least one name is a FORMAT tag of the header,
    the site-level block of every record is copied whole, and a per-sample
    field is retained exactly when its id is the id of a listed name that the
    header declares as FORMAT. *)
Theorem info_keyword_with_format_list : forall a n names,
  no_tags_yet a ->
  Forall (fun n => bare_name n = true) (n :: names) ->
  keep_tags a = Some ("INFO,FMT/" ++ comma_list (n :: names))%string ->
  (exists n', In n' (n :: names) /\
              bcf_hdr_idinfo_exists (hdr_in a) BCF_HL_FMT
                (bcf_hdr_id2int_ID (hdr_in a) n') = true) ->
  exists a',
    select_tags a = Ok a' /\
    keep_info a' = 1 /\ keep_fmt a' = 0 /\
    (forall set rec out,
       rec_set_info a' set rec None = Ok out ->
       shared out = shared rec /\ n_info out = n_info rec) /\
    (forall f,
       fmt_retained a' f = true <->
       exists n', In n' (n :: names) /\
                  bcf_hdr_id2int_ID (hdr_in a) n' = id f /\
                  bcf_hdr_idinfo_exists (hdr_in a) BCF_HL_FMT (id f) = true).
Proof.
  intros a n names Ha Hb Hk (n0 & Hin0 & He0).
  pose proof Ha as (Hi0 & Hf0 & Hni0 & _ & Hti0 & Hnf0 & _ & Htf0).
  assert (Hok : selection_ok (hdr_in a) (set_keep_info a 1)).
  { destruct (no_tags_yet_selection a Ha) as (H1 & H2 & H3 & H4).
    split; [reflexivity|]. split; [now apply set_keep_info_tables|].
    split; assumption. }
  destruct (tags_from_list_exact (hdr_in a) BCF_HL_FMT (n :: names)
              (set_keep_info a 1) Hok Hb)
    as (p & Ep & (Hhp & (Htip & Htfp) & _) & Hki & Hkf & Hsel & Hoth).
  cbn [keep_info keep_fmt set_keep_info] in Hki, Hkf. rewrite Hf0 in Hkf.
  assert (Hparse : parse_tags a = Ok p).
  { unfold parse_tags. rewrite Hk.
    rewrite tags_from_fuel by apply Nat.lt_succ_diag_r.
    rewrite tags_from_info_keyword by reflexivity.
    change (advance 5 ("INFO,FMT/" ++ comma_list (n :: names)))
      with ("FMT/" ++ comma_list (n :: names))%string.
    rewrite (marker_switches "FMT/" BCF_HL_FMT n names false false
                             (set_keep_info a 1) eq_refl Hb).
    exact Ep. }
  assert (Hselp : forall x, tag_selected BCF_HL_FMT p x = true <->
                    exists n', In n' (n :: names) /\
                               bcf_hdr_id2int_ID (hdr_in a) n' = x /\
                               bcf_hdr_idinfo_exists (hdr_in a) BCF_HL_FMT x = true).
  { intros x. rewrite Hsel. cbn [tag_selected nfmt_tags fmt_tags set_keep_info].
    rewrite Hnf0, in_table_none.
    split; [intros [H|H]; [exact H|discriminate]|]. intros H. left. exact H. }
  assert (Hpos : 0 < nfmt_tags p).
  { apply (table_nonempty _ _ _ Htfp).
    exists (bcf_hdr_id2int_ID (hdr_in a) n0).
    apply (Hselp (bcf_hdr_id2int_ID (hdr_in a) n0)).
    exists n0. split; [exact Hin0|]. split; [reflexivity|exact He0]. }
  assert (Hdef : tag_defaults p = p).
  { unfold tag_defaults. rewrite Hki, Hkf. cbn.
    replace (nfmt_tags p =? 0) with false by lia.
    now rewrite Bool.andb_false_r. }
  exists p. split.
  { unfold select_tags. rewrite Hparse. cbn [bind]. now rewrite Hdef. }
  split; [exact Hki|]. split; [exact Hkf|]. split.
  - intros set rec out H.
    apply (rec_set_info_keep_all p set rec out); [lia|exact H].
  - intros f. unfold fmt_retained. rewrite Hkf. cbn [Z.eqb negb orb].
    apply (Hselp (id f)).
Qed.

Lemma info_keyword_with_format_list_witness :
  exists a',
    select_tags (Demo.args (Some "INFO,FMT/GT,PL") None) = Ok a' /\
    keep_info a' = 1 /\ keep_fmt a' = 0 /\
    (forall set rec out,
       rec_set_info a' set rec None = Ok out ->
       shared out = shared rec /\ n_info out = n_info rec) /\
    (forall f,
       fmt_retained a' f = true <->
       exists n', In n' ["GT"; "PL"] /\
                  bcf_hdr_id2int_ID Demo.hdr n' = id f /\
                  bcf_hdr_idinfo_exists Demo.hdr BCF_HL_FMT (id f) = true).
Proof.
  apply (info_keyword_with_format_list
           (Demo.args (Some "INFO,FMT/GT,PL") None) "GT" ["PL"]).
  - repeat split; reflexivity.
  - repeat constructor.
  - reflexivity.
  - exists "GT". split; [left; reflexivity|reflexivity].
Defined.

(* ================================================================= *)
(** ** The tag selection: any specification *)

(** *** The tests of the loop, read on the first token *)

Lemma first_name_split : forall beg,
  match snd (scan_comma beg) with
  | Some r => beg = (first_name beg ++ String "," r)%string
  | None => beg = first_name beg
  end.
Proof. intros beg. apply scan_comma_split. Qed.

Lemma prefix_of_first : forall k pat beg,
  has_comma pat = false -> (k <= String.length pat)%nat ->
  strncasecmp_eq pat beg k = strncasecmp_eq pat (first_name beg) k.
Proof.
  intros k pat beg Hp Hk. pose proof (first_name_split beg) as Hs.
  destruct (snd (scan_comma beg)) as [r|].
  - rewrite Hs at 1. now apply marker_app.
  - now rewrite Hs at 1.
Qed.

Lemma keyword_of_first : forall pat beg,
  has_comma pat = false ->
  strcasecmp_eq pat beg
  = (strcasecmp_eq pat (first_name beg)
     && match snd (scan_comma beg) with None => true | Some _ => false end)%bool.
Proof.
  intros pat beg Hp. pose proof (first_name_split beg) as Hs.
  destruct (snd (scan_comma beg)) as [r|].
  - rewrite Hs at 1. rewrite keyword_app by exact Hp.
    now rewrite Bool.andb_false_r.
  - rewrite Hs at 1. now rewrite Bool.andb_true_r.
Qed.

Lemma keyword_comma_of_first : forall pat beg,
  has_comma pat = false ->
  strncasecmp_eq (pat ++ ",")%string beg (S (String.length pat))
  = (strcasecmp_eq pat (first_name beg)
     && match snd (scan_comma beg) with Some _ => true | None => false end)%bool.
Proof.
  intros pat beg Hp. pose proof (first_name_split beg) as Hs.
  pose proof (scan_comma_first_no_comma beg) as Hc.
  fold (first_name beg) in Hc.
  destruct (snd (scan_comma beg)) as [r|].
  - rewrite Hs at 1. rewrite keyword_comma_app by assumption.
    now rewrite Bool.andb_true_r.
  - rewrite Hs at 1. rewrite keyword_comma_last by assumption.
    now rewrite Bool.andb_false_r.
Qed.

(** Skipping a marker skips it in the first token and leaves the rest of
    the list. *)
Lemma advance_marker : forall pat beg,
  has_comma pat = false ->
  strncasecmp_eq pat beg (String.length pat) = true ->
  first_name (advance (String.length pat) beg)
  = advance (String.length pat) (first_name beg) /\
  after_name (advance (String.length pat) beg) = after_name beg.
Proof.
  unfold first_name, after_name.
  induction pat as [|x pat IH]; intros beg Hp H.
  - cbn [String.length advance]. destruct beg; split; reflexivity.
  - cbn in Hp. apply orb_false_iff in Hp. destruct Hp as [Hx Hp].
    destruct beg as [|y beg]; [discriminate|].
    cbn [String.length strncasecmp_eq] in H.
    destruct (Ascii.eqb (tolower x) (tolower y)) eqn:E; [|discriminate].
    apply lower_eq in E.
    assert (Hy : Ascii.eqb y "," = false).
    { rewrite <- tolower_comma, <- E, tolower_comma. exact Hx. }
    cbn [String.length advance scan_comma]. rewrite Hy.
    destruct (IH beg Hp H) as [I1 I2].
    destruct (scan_comma beg) as [tok rest] eqn:Eb. cbn [fst snd advance] in *.
    split; assumption.
Qed.

(** Skipping a keyword and its comma leads to the rest of the list. *)
Lemma advance_keyword : forall pat beg,
  has_comma pat = false ->
  strncasecmp_eq (pat ++ ",")%string beg (S (String.length pat)) = true ->
  advance (S (String.length pat)) beg = after_name beg.
Proof.
  unfold after_name.
  induction pat as [|x pat IH]; intros beg Hp H.
  - destruct beg as [|y beg]; [discriminate|].
    cbn [String.append String.length strncasecmp_eq] in H.
    destruct (Ascii.eqb (tolower ",") (tolower y)) eqn:E; [|discriminate].
    change (tolower ",") with ","%char in E. rewrite Ascii.eqb_sym in E.
    rewrite tolower_comma in E.
    cbn [String.length advance scan_comma]. rewrite E. cbn [snd].
    destruct beg; reflexivity.
  - cbn in Hp. apply orb_false_iff in Hp. destruct Hp as [Hx Hp].
    destruct beg as [|y beg]; [discriminate|].
    cbn [String.append String.length strncasecmp_eq] in H.
    destruct (Ascii.eqb (tolower x) (tolower y)) eqn:E; [|discriminate].
    apply lower_eq in E.
    assert (Hy : Ascii.eqb y "," = false).
    { rewrite <- tolower_comma, <- E, tolower_comma. exact Hx. }
    specialize (IH beg Hp H).
    cbn [String.length]. cbn [advance scan_comma]. rewrite Hy.
    destruct (scan_comma beg) as [tok rest]. cbn [snd] in *. exact IH.
Qed.

Lemma after_name_length : forall beg,
  beg <> "" -> (String.length (after_name beg) < String.length beg)%nat.
Proof. intros beg H. now apply scan_comma_next_lt. Qed.

Lemma tags_from_nil : forall is_info is_fmt a,
  tags_from is_info is_fmt "" a = Ok a.
Proof. reflexivity. Qed.

(** One turn of the loop over the specification, read on the first token
    of the text that is left. *)
Lemma tags_from_token : forall is_info is_fmt beg a,
  beg <> "" ->
  tags_from is_info is_fmt beg a
  = match classify (first_name beg) with
    | Marked t name =>
        do a' <- record_tag (flag_info t) (flag_fmt t)
                            (bcf_hdr_id2int_ID (hdr_in a) name) a;
        tags_from (flag_info t) (flag_fmt t) (after_name beg) a'
    | Keyword BCF_HL_INFO =>
        tags_from is_info is_fmt (after_name beg) (set_keep_info a 1)
    | Keyword BCF_HL_FMT =>
        tags_from is_info is_fmt (after_name beg) (set_keep_fmt a 1)
    | Bare name =>
        do a' <- record_tag is_info is_fmt
                            (bcf_hdr_id2int_ID (hdr_in a) name) a;
        tags_from is_info is_fmt (after_name beg) a'
    end.
Proof.
  intros is_info is_fmt beg a Hne.
  pose proof (prefix_of_first 5 "INFO/" beg eq_refl ltac:(simpl; lia)) as P1.
  pose proof (keyword_of_first "INFO" beg eq_refl) as P2.
  pose proof (keyword_comma_of_first "INFO" beg eq_refl
              : strncasecmp_eq "INFO," beg 5 = _) as P3.
  pose proof (prefix_of_first 4 "FMT/" beg eq_refl ltac:(simpl; lia)) as P4.
  pose proof (prefix_of_first 7 "FORMAT/" beg eq_refl ltac:(simpl; lia)) as P5.
  pose proof (keyword_of_first "FMT" beg eq_refl) as P6.
  pose proof (keyword_of_first "FORMAT" beg eq_refl) as P7.
  pose proof (keyword_comma_of_first "FMT" beg eq_refl
              : strncasecmp_eq "FMT," beg 4 = _) as P8.
  pose proof (keyword_comma_of_first "FORMAT" beg eq_refl
              : strncasecmp_eq "FORMAT," beg 7 = _) as P9.
  assert (Hlast : snd (scan_comma beg) = None -> after_name beg = "").
  { unfold after_name. now intros ->. }
  assert (Hfuel : forall ii jf x,
            tags_loop (String.length beg) ii jf (after_name beg) x
            = tags_from ii jf (after_name beg) x).
  { intros ii jf x. apply tags_from_fuel. now apply after_name_length. }
  unfold classify.
  destruct (strncasecmp_eq "INFO/" (first_name beg) 5) eqn:T1.
  { rewrite tags_from_info_marker by (now rewrite P1).
    destruct (advance_marker "INFO/" beg eq_refl P1) as [A1 A2].
    cbn [String.length] in A1, A2. rewrite A1, A2. reflexivity. }
  destruct (strcasecmp_eq "INFO" (first_name beg)) eqn:T2.
  { destruct (snd (scan_comma beg)) as [r|] eqn:Er.
    - rewrite tags_from_info_keyword by (now rewrite P3).
      pose proof (advance_keyword "INFO" beg eq_refl
                    ltac:(cbn [String.append String.length]; now rewrite P3))
        as A.
      cbn [String.length] in A. now rewrite A.
    - rewrite (Hlast eq_refl), tags_from_nil.
      unfold tags_from. rewrite tags_loop_unfold.
      destruct beg; [contradiction|]. now rewrite P1, P2. }
  destruct (strncasecmp_eq "FMT/" (first_name beg) 4) eqn:T3.
  { rewrite tags_from_fmt_marker by (now rewrite P4).
    destruct (advance_marker "FMT/" beg eq_refl P4) as [A1 A2].
    cbn [String.length] in A1, A2. rewrite A1, A2. reflexivity. }
  destruct (strncasecmp_eq "FORMAT/" (first_name beg) 7) eqn:T4.
  { rewrite tags_from_format_marker by (now rewrite P5).
    destruct (advance_marker "FORMAT/" beg eq_refl P5) as [A1 A2].
    cbn [String.length] in A1, A2. rewrite A1, A2. reflexivity. }
  cbn [andb] in P1, P2, P3, P4, P5.
  destruct (strcasecmp_eq "FMT" (first_name beg)) eqn:T5.
  { cbn [orb]. destruct (snd (scan_comma beg)) as [r|] eqn:Er.
    - rewrite tags_from_fmt_keyword by (now rewrite P8).
      pose proof (advance_keyword "FMT" beg eq_refl
                    ltac:(cbn [String.append String.length]; now rewrite P8))
        as A.
      cbn [String.length] in A. now rewrite A.
    - rewrite (Hlast eq_refl), tags_from_nil.
      unfold tags_from. rewrite tags_loop_unfold.
      destruct beg; [contradiction|]. now rewrite P1, P2, P3, P4, P5, P6. }
  destruct (strcasecmp_eq "FORMAT" (first_name beg)) eqn:T6.
  { cbn [orb]. destruct (snd (scan_comma beg)) as [r|] eqn:Er.
    - rewrite tags_from_format_keyword by (now rewrite P9).
      pose proof (advance_keyword "FORMAT" beg eq_refl
                    ltac:(cbn [String.append String.length]; now rewrite P9))
        as A.
      cbn [String.length] in A. now rewrite A.
    - rewrite (Hlast eq_refl), tags_from_nil.
      unfold tags_from. rewrite tags_loop_unfold.
      destruct beg; [contradiction|].
      now rewrite P1, P2, P3, P4, P5, P6, P7. }
  cbn [orb andb] in *.
  unfold tags_from at 1. rewrite tags_loop_unfold.
  destruct beg as [|c b]; [contradiction|].
  rewrite P1, P2, P3, P4, P5, P6, P7, P8, P9.
  rewrite name_step_unfold. fold (first_name (String c b)).
  fold (after_name (String c b)).
  destruct (record_tag is_info is_fmt _ a); try reflexivity.
  cbn [bind]. apply Hfuel.
Qed.

(** *** The loop on any specification *)

Lemma tag_tokens_step : forall beg,
  beg <> "" ->
  tag_tokens beg = classify (first_name beg) :: tag_tokens (after_name beg).
Proof.
  intros beg H. unfold tag_tokens. now rewrite (comma_tokens_step beg H).
Qed.

Lemma selection_ok_keep_info : forall h a v,
  selection_ok h a -> selection_ok h (set_keep_info a v).
Proof. intros h a v H. exact H. Qed.

Lemma selection_ok_keep_fmt : forall h a v,
  selection_ok h a -> selection_ok h (set_keep_fmt a v).
Proof. intros h a v H. exact H. Qed.

Lemma other_category_neq : forall t c,
  t <> c -> t = other_category c.
Proof. intros [|] [|] H; try reflexivity; contradiction. Qed.

(** One name looked up in the category [cat], if any. *)
Lemma record_tag_cat : forall h cat name a,
  selection_ok h a ->
  exists a',
    record_tag (cat_info cat) (cat_fmt cat)
               (bcf_hdr_id2int_ID (hdr_in a) name) a = Ok a' /\
    selection_ok h a' /\
    keep_info a' = keep_info a /\ keep_fmt a' = keep_fmt a /\
    forall t x,
      tag_selected t a' x = true <->
      tag_selected t a x = true \/
      (cat = Some t /\ bcf_hdr_id2int_ID h name = x /\
       bcf_hdr_idinfo_exists h t x = true).
Proof.
  intros h cat name a Ha. pose proof Ha as (Hh & _).
  destruct cat as [c|].
  - destruct (record_tag_exact h c (bcf_hdr_id2int_ID (hdr_in a) name) a Ha)
      as (a' & E & Ha' & Hki & Hkf & Hsel & Hoth).
    exists a'. split; [exact E|]. split; [exact Ha'|].
    split; [exact Hki|]. split; [exact Hkf|].
    intros t x. rewrite Hh in Hsel.
    assert (Dec : t = c \/ t <> c) by (destruct t, c; auto; right; discriminate).
    destruct Dec as [->|Hne].
    + rewrite Hsel. split.
      * intros [[-> He]|H]; [right; repeat split; assumption|left; exact H].
      * intros [H|(_ & <- & He)]; [right; exact H|left; split; [reflexivity|exact He]].
    + rewrite (other_category_neq t c Hne), Hoth. split; [intros H; left; exact H|].
      intros [H|(Hc & _)]; [exact H|].
      inversion Hc; subst. destruct c; discriminate.
  - exists a. split; [reflexivity|]. split; [exact Ha|].
    split; [reflexivity|]. split; [reflexivity|].
    intros t x. split; [intros H; left; exact H|].
    intros [H|(Hc & _)]; [exact H|discriminate].
Qed.

(** What the loop makes of a text, whatever the text: the keep-all flags
    are set by the bare keywords, and an id enters a table exactly when it
    is the id of a name that the sticky reading puts into the category and
    that the header declares there. *)
Lemma tags_from_tokens : forall len beg cat a h,
  (String.length beg <= len)%nat ->
  selection_ok h a ->
  exists p,
    tags_from (cat_info cat) (cat_fmt cat) beg a = Ok p /\
    selection_ok h p /\
    keep_info p = (if has_keyword BCF_HL_INFO (tag_tokens beg)
                   then 1 else keep_info a) /\
    keep_fmt p = (if has_keyword BCF_HL_FMT (tag_tokens beg)
                  then 1 else keep_fmt a) /\
    forall t x,
      tag_selected t p x = true <->
      tag_selected t a x = true \/
      exists name,
        In (Some t, name) (sticky_names cat (tag_tokens beg)) /\
        bcf_hdr_id2int_ID h name = x /\
        bcf_hdr_idinfo_exists h t x = true.
Proof.
  induction len as [|len IH]; intros beg cat a h Hn Ha.
  - destruct beg; [|cbn in Hn; lia].
    exists a. split; [reflexivity|]. split; [exact Ha|].
    split; [reflexivity|]. split; [reflexivity|].
    intros t x. split; [intros H; left; exact H|].
    intros [H|(name & [] & _)]. exact H.
  - destruct beg as [|c0 b0].
    { exists a. split; [reflexivity|]. split; [exact Ha|].
      split; [reflexivity|]. split; [reflexivity|].
      intros t x. split; [intros H; left; exact H|].
      intros [H|(name & [] & _)]. exact H. }
    set (beg := String c0 b0) in *.
    assert (Hne : beg <> "") by discriminate.
    pose proof (after_name_length beg Hne) as Hlen.
    assert (Hr : (String.length (after_name beg) <= len)%nat)
      by (cbn [String.length] in Hn; lia).
    rewrite (tags_from_token _ _ beg a Hne), (tag_tokens_step beg Hne).
    assert (Hname : forall cat' name,
      exists p,
        (do a' <- record_tag (cat_info cat') (cat_fmt cat')
                             (bcf_hdr_id2int_ID (hdr_in a) name) a;
         tags_from (cat_info cat') (cat_fmt cat') (after_name beg) a') = Ok p /\
        selection_ok h p /\
        keep_info p = (if has_keyword BCF_HL_INFO (tag_tokens (after_name beg))
                       then 1 else keep_info a) /\
        keep_fmt p = (if has_keyword BCF_HL_FMT (tag_tokens (after_name beg))
                      then 1 else keep_fmt a) /\
        forall t x,
          tag_selected t p x = true <->
          tag_selected t a x = true \/
          exists name',
            In (Some t, name')
               ((cat', name) :: sticky_names cat' (tag_tokens (after_name beg))) /\
            bcf_hdr_id2int_ID h name' = x /\
            bcf_hdr_idinfo_exists h t x = true).
    { intros cat' name.
      destruct (record_tag_cat h cat' name a Ha)
        as (a1 & E1 & Ha1 & Hki1 & Hkf1 & Hsel1).
      rewrite E1. cbn [bind].
      destruct (IH (after_name beg) cat' a1 h Hr Ha1)
        as (p & Ep & Hp & Hki & Hkf & Hsel).
      exists p. split; [exact Ep|]. split; [exact Hp|].
      split; [now rewrite Hki, Hki1|]. split; [now rewrite Hkf, Hkf1|].
      intros t x. rewrite Hsel, Hsel1. split.
      - intros [[H|(Hc & Hid & He)]|(name' & Hin & Hid & He)].
        + left. exact H.
        + right. exists name. split; [left; now rewrite Hc|].
          split; assumption.
        + right. exists name'. split; [right; exact Hin|]. split; assumption.
      - intros [H|(name' & [Heq|Hin] & Hid & He)].
        + left. left. exact H.
        + inversion Heq; subst. left. right. repeat split; assumption.
        + right. exists name'. repeat split; assumption. }
    destruct (classify (first_name beg)) as [t0 name|[|]|name].
    + cbn [sticky_names has_keyword existsb orb].
      exact (Hname (Some t0) name).
    + destruct (IH (after_name beg) cat (set_keep_info a 1) h Hr
                   (selection_ok_keep_info h a 1 Ha))
        as (p & Ep & Hp & Hki & Hkf & Hsel).
      exists p. split; [exact Ep|]. split; [exact Hp|].
      cbn [sticky_names has_keyword existsb orb].
      split; [|split; [exact Hkf|exact Hsel]].
      rewrite Hki. cbn.
      now destruct (has_keyword BCF_HL_INFO (tag_tokens (after_name beg))).
    + destruct (IH (after_name beg) cat (set_keep_fmt a 1) h Hr
                   (selection_ok_keep_fmt h a 1 Ha))
        as (p & Ep & Hp & Hki & Hkf & Hsel).
      exists p. split; [exact Ep|]. split; [exact Hp|].
      cbn [sticky_names has_keyword existsb orb].
      split; [exact Hki|]. split; [|exact Hsel].
      rewrite Hkf. cbn.
      now destruct (has_keyword BCF_HL_FMT (tag_tokens (after_name beg))).
    + cbn [sticky_names has_keyword existsb orb].
      destruct cat as [c|]; exact (Hname _ name).
Qed.

Lemma parse_tags_spec : forall a,
  parse_tags a = tags_from false false (spec_of a) a.
Proof.
  intros a. unfold parse_tags, spec_of. now destruct (keep_tags a).
Qed.

Lemma tag_defaults_selected : forall p t x,
  tag_selected t (tag_defaults p) x = tag_selected t p x.
Proof.
  intros p t x. destruct (tag_defaults_tables p) as (E1 & E2 & E3 & E4).
  destruct t; cbn; congruence.
Qed.

Lemma no_tags_yet_none : forall a t x,
  no_tags_yet a -> tag_selected t a x = false.
Proof.
  intros a t x (_ & _ & N1 & _ & _ & N2 & _).
  destruct t; cbn; rewrite ?N1, ?N2; apply in_table_none.
Qed.

(** The parser on any specification, started as [run] starts it. *)
Lemma parse_tags_tokens : forall a,
  no_tags_yet a ->
  exists p,
    parse_tags a = Ok p /\ selection_ok (hdr_in a) p /\
    keep_info p = (if has_keyword BCF_HL_INFO (tag_tokens (spec_of a))
                   then 1 else 0) /\
    keep_fmt p = (if has_keyword BCF_HL_FMT (tag_tokens (spec_of a))
                  then 1 else 0) /\
    forall t x,
      tag_selected t p x = true <->
      exists name,
        In (Some t, name) (sticky_names None (tag_tokens (spec_of a))) /\
        bcf_hdr_id2int_ID (hdr_in a) name = x /\
        bcf_hdr_idinfo_exists (hdr_in a) t x = true.
Proof.
  intros a Ha.
  destruct (tags_from_tokens (String.length (spec_of a)) (spec_of a) None a
              (hdr_in a) (le_n _) (no_tags_yet_selection a Ha))
    as (p & Ep & Hp & Hki & Hkf & Hsel).
  exists p. rewrite parse_tags_spec. split; [exact Ep|]. split; [exact Hp|].
  destruct Ha as (K1 & K2 & Hrest). rewrite K1 in Hki. rewrite K2 in Hkf.
  split; [exact Hki|]. split; [exact Hkf|].
  intros t x. rewrite Hsel.
  rewrite (no_tags_yet_none a t x (conj K1 (conj K2 Hrest))).
  split; [intros [H|H]; [discriminate|exact H]|intros H; right; exact H].
Qed.

Lemma sticky_names_marked : forall pre cat t m rest x,
  In x (sticky_names (Some t) (Marked t m :: rest)) ->
  In x (sticky_names cat (pre ++ Marked t m :: rest)).
Proof.
  induction pre as [|k pre IH]; intros cat t m rest x H.
  - exact H.
  - cbn [app sticky_names]. destruct k as [t' n'|t'|n'].
    + right. now apply IH.
    + now apply IH.
    + right. now apply IH.
Qed.

Lemma sticky_names_bares : forall bares cat post,
  sticky_names cat (map Bare bares ++ post)
  = map (fun n => (cat, n)) bares ++ sticky_names cat post.
Proof.
  induction bares as [|n bares IH]; intros cat post; [reflexivity|].
  cbn [map app sticky_names]. now rewrite IH.
Qed.

(** C10: the category of a token is sticky.  For every specification, the
    parser returns, and an id is in the table of a category exactly when it
    is the id of a name that the sticky reading resolves in that category
    and that the header declares there: the name after an [INFO/], [FMT/]
    or [FORMAT/] marker and every bare name after it up to the next marker
    belong to the marker's category, a bare keyword in between does not
    change the category, and a bare name before any marker belongs to no
    category.  So after a marker the bare names that follow it are selected
    in its category if the header declares them there, and bare names that
    come before any marker select nothing and can be left out. *)
Theorem tag_category_sticky : forall a spec,
  no_tags_yet a -> keep_tags a = Some spec ->
  exists p,
    parse_tags a = Ok p /\ select_tags a = Ok (tag_defaults p) /\
    (forall t id, tag_selected t (tag_defaults p) id = tag_selected t p id) /\
    (forall t id,
       tag_selected t p id = true <->
       exists name,
         In (Some t, name) (sticky_names None (tag_tokens spec)) /\
         bcf_hdr_id2int_ID (hdr_in a) name = id /\
         bcf_hdr_idinfo_exists (hdr_in a) t id = true) /\
    (forall pre t m bares post name,
       tag_tokens spec = pre ++ Marked t m :: map Bare bares ++ post ->
       In name (m :: bares) ->
       bcf_hdr_idinfo_exists (hdr_in a) t
         (bcf_hdr_id2int_ID (hdr_in a) name) = true ->
       tag_selected t p (bcf_hdr_id2int_ID (hdr_in a) name) = true) /\
    (forall bares post t id,
       tag_tokens spec = map Bare bares ++ post ->
       (tag_selected t p id = true <->
        exists name,
          In (Some t, name) (sticky_names None post) /\
          bcf_hdr_id2int_ID (hdr_in a) name = id /\
          bcf_hdr_idinfo_exists (hdr_in a) t id = true)).
Proof.
  intros a spec Ha Hk.
  destruct (parse_tags_tokens a Ha) as (p & Ep & _ & _ & _ & Hsel).
  assert (Hspec : spec_of a = spec) by (unfold spec_of; now rewrite Hk).
  rewrite Hspec in Hsel.
  exists p. split; [exact Ep|].
  split; [unfold select_tags; now rewrite Ep|].
  split; [intros t id; apply tag_defaults_selected|].
  split; [exact Hsel|]. split.
  - intros pre t m bares post name Htok Hin He.
    apply Hsel. exists name. split; [|split; [reflexivity|exact He]].
    rewrite Htok. apply sticky_names_marked.
    cbn [sticky_names]. rewrite sticky_names_bares.
    destruct Hin as [<-|Hin]; [left; reflexivity|right].
    apply in_or_app. left. apply in_map_iff. exists name. now split.
  - intros bares post t id Htok. rewrite Hsel, Htok, sticky_names_bares.
    split.
    + intros (name & Hin & Hid & He). exists name.
      split; [|split; assumption].
      apply in_app_or in Hin. destruct Hin as [Hin|Hin]; [|exact Hin].
      apply in_map_iff in Hin. destruct Hin as (n & Heq & _). discriminate.
    + intros (name & Hin & Hid & He). exists name.
      split; [|split; assumption]. apply in_or_app. now right.
Qed.

Lemma tag_category_sticky_witness :
  exists p,
    parse_tags (Demo.args (Some "AF,INFO/DP,AF,XX,info,fmt/GT,PL,DP") None)
    = Ok p /\
    (forall id, tag_selected BCF_HL_INFO p id = true <->
       exists name,
         In (Some BCF_HL_INFO, name)
            [(None, "AF"); (Some BCF_HL_INFO, "DP"); (Some BCF_HL_INFO, "AF");
             (Some BCF_HL_INFO, "XX"); (Some BCF_HL_FMT, "GT");
             (Some BCF_HL_FMT, "PL"); (Some BCF_HL_FMT, "DP")] /\
         bcf_hdr_id2int_ID Demo.hdr name = id /\
         bcf_hdr_idinfo_exists Demo.hdr BCF_HL_INFO id = true) /\
    tag_selected BCF_HL_INFO p 2 = true /\
    tag_selected BCF_HL_FMT p 4 = true /\
    tag_selected BCF_HL_FMT p 2 = false.
Proof.
  destruct (tag_category_sticky
              (Demo.args (Some "AF,INFO/DP,AF,XX,info,fmt/GT,PL,DP") None)
              "AF,INFO/DP,AF,XX,info,fmt/GT,PL,DP"
              ltac:(repeat split) eq_refl)
    as (p & Ep & _ & _ & Hsel & Hafter & _).
  exists p. split; [exact Ep|]. split; [exact (Hsel BCF_HL_INFO)|].
  split; [|split].
  - apply (Hafter [Bare "AF"] BCF_HL_INFO "DP" ["AF"; "XX"]
                  [Keyword BCF_HL_INFO; Marked BCF_HL_FMT "GT"; Bare "PL";
                   Bare "DP"] "AF");
      [reflexivity|right; left; reflexivity|reflexivity].
  - apply (Hafter [Bare "AF"; Marked BCF_HL_INFO "DP"; Bare "AF"; Bare "XX";
                   Keyword BCF_HL_INFO]
                  BCF_HL_FMT "GT" ["PL"; "DP"] [] "PL");
      [reflexivity|right; left; reflexivity|reflexivity].
  - destruct (tag_selected BCF_HL_FMT p 2) eqn:E; [|reflexivity].
    apply (Hsel BCF_HL_FMT 2) in E. destruct E as (name & Hin & Hid & He).
    vm_compute in He. discriminate.
Defined.

Lemma some_selected_counter : forall h p,
  selection_ok h p ->
  (some_selected BCF_HL_INFO p <-> 0 < ninfo_tags p) /\
  (some_selected BCF_HL_FMT p <-> 0 < nfmt_tags p) /\
  0 <= ninfo_tags p /\ 0 <= nfmt_tags p.
Proof.
  intros h p (_ & (Hi & Hf) & _).
  split; [exact (table_nonempty _ _ _ Hi)|].
  split; [exact (table_nonempty _ _ _ Hf)|].
  destruct Hi as ((? & _) & _), Hf as ((? & _) & _). split; assumption.
Qed.

Lemma some_selected_defaults : forall t p,
  some_selected t (tag_defaults p) <-> some_selected t p.
Proof.
  intros t p. unfold some_selected.
  split; intros [x H]; exists x; now rewrite tag_defaults_selected in *.
Qed.

(** C6 (amended): the keep-all flags and the retained sets after parsing,
    for any specification.  The keep-all-sample flag is set exactly when a
    bare [FMT] or [FORMAT] keyword occurs or no per-sample id is retained; so
    for the per-sample category the flag is set or the set is not empty,
    and both hold exactly when such a keyword occurs together with a
    retained per-sample id.  The keep-all-site flag is set exactly when a
    bare [INFO] keyword occurs, or no bare keyword occurs and no id of either
    category is retained; so for the site-level category both hold exactly
    when that keyword occurs together with a retained site-level id, and
    neither holds exactly when no bare [INFO] keyword occurs, no site-level
    id is retained, and a bare [FMT] or [FORMAT] keyword occurs or a
    per-sample id is retained.  In particular, without any bare keyword the
    flag and the set of a category never hold together, and exactly one of
    them holds for the per-sample category.  A retained set is not empty
    exactly when its counter is positive.  When the specification is absent
    or empty, both flags are set and both sets are empty. *)
Theorem tag_flags_after_parsing : forall a,
  no_tags_yet a ->
  exists a',
    select_tags a = Ok a' /\
    (keep_fmt a' <> 0 <->
     has_keyword BCF_HL_FMT (tag_tokens (spec_of a)) = true \/
     ~ some_selected BCF_HL_FMT a') /\
    (keep_fmt a' <> 0 \/ some_selected BCF_HL_FMT a') /\
    (keep_fmt a' <> 0 /\ some_selected BCF_HL_FMT a' <->
     has_keyword BCF_HL_FMT (tag_tokens (spec_of a)) = true /\
     some_selected BCF_HL_FMT a') /\
    (keep_info a' <> 0 <->
     has_keyword BCF_HL_INFO (tag_tokens (spec_of a)) = true \/
     (has_keyword BCF_HL_FMT (tag_tokens (spec_of a)) = false /\
      ~ some_selected BCF_HL_INFO a' /\ ~ some_selected BCF_HL_FMT a')) /\
    (keep_info a' <> 0 /\ some_selected BCF_HL_INFO a' <->
     has_keyword BCF_HL_INFO (tag_tokens (spec_of a)) = true /\
     some_selected BCF_HL_INFO a') /\
    (keep_info a' = 0 /\ ~ some_selected BCF_HL_INFO a' <->
     has_keyword BCF_HL_INFO (tag_tokens (spec_of a)) = false /\
     ~ some_selected BCF_HL_INFO a' /\
     (has_keyword BCF_HL_FMT (tag_tokens (spec_of a)) = true \/
      some_selected BCF_HL_FMT a')) /\
    (has_keyword BCF_HL_INFO (tag_tokens (spec_of a)) = false ->
     has_keyword BCF_HL_FMT (tag_tokens (spec_of a)) = false ->
     ~ (keep_info a' <> 0 /\ some_selected BCF_HL_INFO a') /\
     ~ (keep_fmt a' <> 0 /\ some_selected BCF_HL_FMT a') /\
     (keep_fmt a' <> 0 <-> ~ some_selected BCF_HL_FMT a')) /\
    (some_selected BCF_HL_INFO a' <-> 0 < ninfo_tags a') /\
    (some_selected BCF_HL_FMT a' <-> 0 < nfmt_tags a') /\
    (keep_tags a = None \/ keep_tags a = Some "" ->
     keep_info a' = 1 /\ keep_fmt a' = 1 /\
     ~ some_selected BCF_HL_INFO a' /\ ~ some_selected BCF_HL_FMT a').
Proof.
  intros a Ha.
  destruct (parse_tags_tokens a Ha) as (p & Ep & Hp & Hki & Hkf & Hsel).
  exists (tag_defaults p). split; [unfold select_tags; now rewrite Ep|].
  destruct (some_selected_counter _ p Hp) as (Ci & Cf & Pi & Pf).
  destruct (tag_defaults_tables p) as (N1 & _ & N2 & _).
  rewrite !some_selected_defaults, N1, N2.
  assert (Hempty : keep_tags a = None \/ keep_tags a = Some "" ->
            has_keyword BCF_HL_INFO (tag_tokens (spec_of a)) = false /\
            has_keyword BCF_HL_FMT (tag_tokens (spec_of a)) = false /\
            ~ some_selected BCF_HL_INFO p /\ ~ some_selected BCF_HL_FMT p).
  { intros He.
    assert (Hs : spec_of a = "")
      by (unfold spec_of; destruct He as [-> | ->]; reflexivity).
    rewrite Hs. split; [reflexivity|]. split; [reflexivity|].
    split; intros [x Hx]; apply Hsel in Hx; rewrite Hs in Hx;
      destruct Hx as (name & [] & _). }
  set (KI := has_keyword BCF_HL_INFO (tag_tokens (spec_of a))) in *.
  set (KF := has_keyword BCF_HL_FMT (tag_tokens (spec_of a))) in *.
  rewrite Ci, Cf in *.
  assert (Hfi : keep_info (tag_defaults p)
                = if KI then 1
                  else if (negb KF && (ninfo_tags p =? 0)
                           && (nfmt_tags p =? 0))%bool then 1 else 0).
  { defaults_cases p; rewrite ?Hki, ?Hkf in *;
      destruct KI, KF; cbn in *; try reflexivity; try discriminate;
      try assumption. }
  assert (Hff : keep_fmt (tag_defaults p)
                = if KF then 1 else if nfmt_tags p =? 0 then 1 else 0).
  { defaults_cases p; rewrite ?Hki, ?Hkf in *;
      destruct KI, KF; cbn in *; try reflexivity; try discriminate;
      try assumption. }
  rewrite Hfi, Hff. clear Hfi Hff Hki Hkf.
  destruct (Z.eqb_spec (ninfo_tags p) 0) as [Ei|Ei],
           (Z.eqb_spec (nfmt_tags p) 0) as [Ef|Ef];
    destruct KI, KF; cbn [negb andb];
    repeat split; intros;
    repeat match goal with
           | H : _ /\ _ |- _ => destruct H
           | H : _ \/ _ |- _ => destruct H
           | H : keep_tags a = _ |- _ =>
               destruct (Hempty (or_introl H)) as (? & ? & ? & ?)
               || destruct (Hempty (or_intror H)) as (? & ? & ? & ?);
               clear H
           end;
    try lia; try discriminate; try tauto.
Qed.

Lemma tag_flags_after_parsing_witness :
  exists a',
    select_tags (Demo.args (Some "INFO/DP,FMT") None) = Ok a' /\
    keep_fmt a' <> 0 /\ keep_info a' = 0 /\
    some_selected BCF_HL_INFO a' /\ ~ some_selected BCF_HL_FMT a'.
Proof.
  destruct (tag_flags_after_parsing (Demo.args (Some "INFO/DP,FMT") None)
              ltac:(repeat split))
    as (a' & Es & F1 & _ & _ & I1 & _ & _ & _ & CI & CF & _).
  exists a'. split; [exact Es|].
  assert (E : select_tags (Demo.args (Some "INFO/DP,FMT") None)
              = Ok (Demo.selected (Some "INFO/DP,FMT")))
    by (vm_compute; reflexivity).
  split; [apply F1; left; reflexivity|].
  split.
  { destruct (Z.eq_dec (keep_info a') 0) as [K|K]; [exact K|].
    apply I1 in K. destruct K as [H|[H _]]; vm_compute in H; discriminate. }
  rewrite E in Es. inversion Es; subst a'.
  split; [apply CI; vm_compute; reflexivity|].
  intros H. apply CF in H. vm_compute in H. discriminate.
Defined.

(* ================================================================= *)
(** ** Lines of the samples file that start with white space *)

(** The text shown by the error is all that the loop over the second column
    takes from the line. *)
Lemma rename_loop_shown : forall fuel shown shown' k beg ren j,
  rename_loop fuel shown k beg ren j
  = match rename_loop fuel shown' k beg ren j with
    | Fatal _ => Fatal (rename_error shown)
    | r => r
    end.
Proof.
  induction fuel as [|fuel IH]; intros shown shown' k beg ren j;
    [reflexivity|].
  cbn [rename_loop]. destruct beg as [|c beg0]; [reflexivity|].
  destruct (scan_comma (String c beg0)) as [name rest].
  unfold arr_set. destruct (j <? 0); [reflexivity|].
  destruct (Nat.ltb (Z.to_nat j) (List.length ren)); [|reflexivity].
  cbn [bind]. destruct rest as [r|]; [|reflexivity].
  destruct (j + 1 >=? k); [reflexivity|]. apply IH.
Qed.

Lemma names_loop_not_fatal : forall fuel h beg smpl j warn msg,
  names_loop fuel h beg smpl j warn <> Fatal msg.
Proof.
  induction fuel as [|fuel IH]; intros h beg smpl j warn msg; [discriminate|].
  cbn [names_loop]. destruct beg as [|c beg0]; [discriminate|].
  destruct (scan_comma (String c beg0)) as [name rest].
  destruct (bcf_hdr_id2int_SAMPLE h name >=? 0).
  - unfold arr_set. destruct (j <? 0); [discriminate|].
    destruct (Nat.ltb (Z.to_nat j) (List.length smpl)); [|discriminate].
    cbn [bind]. destruct rest; [apply IH|discriminate].
  - cbn [bind]. destruct rest; [apply IH|discriminate].
Qed.

(** X25: the buffer that collects the first column is not cleared between the
    lines: a line that starts with white space puts nothing into it, and the
    names loop then reads what the line before left there. After a line whose
    first name is [b], such a line is treated as if it started with [b],
    except that the error of the rename check, if it is raised, shows the
    line as it is; as the first line of the file it makes the names loop read
    through the null pointer of the empty buffer. *)
Theorem blank_start_reuses_previous_name : forall h b c rest,
  isspace c = true ->
  (b <> "" -> has_comma b = false ->
   subset_of_line h (Some b) (String c rest)
   = match subset_of_line h (Some b) (escape_name b ++ String c rest) with
     | Fatal _ =>
         Fatal (rename_error (line_shown (String c rest) (skip_spaces rest)))
     | r => r
     end) /\
  subset_of_line h None (String c rest) = Undef.
Proof.
  intros h b c rest Hc.
  assert (Hblank : scan_names (String c rest) false 1 "" = ("", 1, String c rest)).
  { apply (scan_names_stop (String c rest) 1 ""). exact Hc. }
  split.
  - intros Hb Hcomma. unfold subset_of_line.
    rewrite Hblank, scan_names_unescapes by exact Hc.
    rewrite (has_comma_count b Hcomma).
    destruct b as [|x b0]; [contradiction|]. set (b := String x b0) in *.
    cbv beta iota zeta. change (1 + 0) with 1.
    pose proof (names_loop_not_fatal (S (String.length b)) h b
                  (repeat 0 (Z.to_nat 1)) 0 []) as Hnf.
    destruct (names_loop (S (String.length b)) h b
                (repeat 0 (Z.to_nat 1)) 0 []) as [[[smpl j] warn]|m| |];
      cbn [bind]; try reflexivity; [|exfalso; now apply (Hnf m)].
    destruct (j =? 0); [reflexivity|].
    rewrite (skip_spaces_space c rest Hc).
    destruct (skip_spaces rest) as [|d q0] eqn:Eq.
    + unfold arr_get. destruct (0 <? 0); [reflexivity|].
      destruct (nth_error smpl (Z.to_nat 0)) as [i0|]; [|reflexivity].
      cbn [bind]. destruct (i0 <? 0); [reflexivity|].
      destruct (nth_error (hdr_samples h) (Z.to_nat i0)); reflexivity.
    + rewrite (rename_loop_shown _ (line_shown (String c rest) (String d q0))
                 (line_shown (escape_name b ++ String c rest) (String d q0))).
      destruct (rename_loop (S (String.length (String d q0)))
                  (line_shown (escape_name b ++ String c rest) (String d q0))
                  1 (String d q0) (repeat None (Z.to_nat 1)) 0)
        as [ren|m| |]; cbn [bind]; try reflexivity.
      unfold arr_get. destruct (0 <? 0); [reflexivity|].
      destruct (nth_error ren (Z.to_nat 0)) as [[nm|]|]; reflexivity.
  - unfold subset_of_line. rewrite Hblank. reflexivity.
Qed.

Lemma blank_start_reuses_previous_name_witness :
  subset_of_line Demo.hdr (Some "B") " X"
  = subset_of_line Demo.hdr (Some "B") "B X" /\
  subset_of_line Demo.hdr (Some "B") " X,Y" = Fatal (rename_error " X") /\
  subset_of_line Demo.hdr (Some "B") "B X,Y" = Fatal (rename_error "B X") /\
  subset_of_line Demo.hdr None " X" = Undef.
Proof.
  destruct (blank_start_reuses_previous_name Demo.hdr "B" " " "X" eq_refl)
    as [H1 H2].
  destruct (blank_start_reuses_previous_name Demo.hdr "B" " " "X,Y" eq_refl)
    as [H3 _].
  split; [|split; [|split; [|exact H2]]].
  - rewrite H1; [reflexivity|discriminate|reflexivity].
  - rewrite H3; [reflexivity|discriminate|reflexivity].
  - reflexivity.
Defined.

(* ================================================================= *)
(** ** Inputs without samples *)

Section NoSamples.

Variable bcf_enc_int1 : Z -> list byte.
Variable bcf_enc_size : Z -> Z -> list byte.
Variable w : world.

(** X26: an input whose header has no sample column is rejected: once the
    command line is accepted, the input is open and the output directory
    exists, the run ends with the error "No samples to split" before the
    samples file or the tag list is looked at; no output file is opened and no
    record is read. *)
Theorem sites_only_input_rejected : forall opts operands a path dir hdr recs,
  setup w opts operands = Ok a ->
  fname_in a = Some path -> output_dir a = Some dir ->
  sr_open w path = Some (hdr, recs) ->
  mkdir_ok w (dir ++ "/") = true ->
  hdr_samples hdr = [] ->
  init_data w a = Fatal ("No samples to split: " ++ path)%string /\
  run bcf_enc_int1 bcf_enc_size w opts operands
  = {| status := Fatal ("No samples to split: " ++ path)%string;
       groups := []; pulled := 0 |}.
Proof.
  intros opts operands a path dir hdr recs Hs Hf Hd Ho Hm Hn.
  assert (Hi : init_data w a = Fatal ("No samples to split: " ++ path)%string).
  { unfold init_data. rewrite Hf, Hd, Ho, Hm. cbn [negb].
    unfold bcf_hdr_nsamples. rewrite Hn. reflexivity. }
  split; [exact Hi|]. unfold run. rewrite Hs, Hi. reflexivity.
Qed.

End NoSamples.

Lemma sites_only_input_rejected_witness :
  run Demo.enc_int1 Demo.enc_size
      {| isatty_stdin := true;
         sr_open := fun _ => Some ({| hdr_ids := hdr_ids Demo.hdr;
                                      hdr_samples := [] |}, [Demo.rec]);
         readlines := fun _ => None;
         mkdir_ok := fun _ => true; open_ok := fun _ => true;
         hdr_write_ok := fun _ => true; write_rc := fun _ _ => 0;
         close_ok := fun _ => true;
         filter_init := fun _ _ _ => Ok Demo.few_samples |}
      [Opt_o "out"; Opt_S "groups.txt"] ["sites.vcf"]
  = {| status := Fatal "No samples to split: sites.vcf";
       groups := []; pulled := 0 |}.
Proof.
  apply (proj2 (sites_only_input_rejected Demo.enc_int1 Demo.enc_size
                  {| isatty_stdin := true;
                     sr_open := fun _ => Some ({| hdr_ids := hdr_ids Demo.hdr;
                                                  hdr_samples := [] |},
                                               [Demo.rec]);
                     readlines := fun _ => None;
                     mkdir_ok := fun _ => true; open_ok := fun _ => true;
                     hdr_write_ok := fun _ => true; write_rc := fun _ _ => 0;
                     close_ok := fun _ => true;
                     filter_init := fun _ _ _ => Ok Demo.few_samples |}
                  [Opt_o "out"; Opt_S "groups.txt"] ["sites.vcf"] _
                  "sites.vcf" "out"
                  {| hdr_ids := hdr_ids Demo.hdr; hdr_samples := [] |}
                  [Demo.rec]
                  eq_refl eq_refl eq_refl eq_refl eq_refl eq_refl)).
Defined.

(* ================================================================= *)
(** ** The groups of well-formed lines *)

Lemma list_set_window : forall A (l : list A) j x,
  (j < List.length l)%nat ->
  firstn (S j) (list_set l j x) = firstn j l ++ [x] /\
  forall r, skipn (S j + r) (list_set l j x) = skipn (S j + r) l.
Proof.
  induction l as [|y l IH]; intros j x Hj; cbn in Hj; [lia|].
  destruct j as [|j].
  - cbn. split; [reflexivity|]. intros r. reflexivity.
  - destruct (IH j x ltac:(lia)) as [H1 H2].
    cbn [list_set]. split.
    + change (firstn (S (S j)) (y :: list_set l j x))
        with (y :: firstn (S j) (list_set l j x)).
      rewrite H1. reflexivity.
    + intros r. change (skipn (S (S j) + r) (y :: list_set l j x))
        with (skipn (S j + r) (list_set l j x)).
      rewrite H2. reflexivity.
Qed.

Lemma list_set_last : forall A (l : list A) j x,
  (j < List.length l)%nat ->
  list_set l j x = firstn j l ++ [x] ++ skipn (j + 1) l.
Proof.
  intros A l j x Hj. destruct (list_set_window A l j x Hj) as [H1 H2].
  rewrite <- (firstn_skipn (S j) (list_set l j x)).
  rewrite H1. specialize (H2 0%nat). rewrite Nat.add_0_r in H2. rewrite H2.
  rewrite <- app_assoc. do 3 f_equal. lia.
Qed.

Lemma count_commas_list : forall n names,
  Forall (fun x => has_comma x = false) (n :: names) ->
  count_commas (comma_list (n :: names)) = Z.of_nat (List.length names).
Proof.
  intros n names. revert n. induction names as [|m names IH]; intros n H.
  - inversion H; subst. cbn [comma_list List.length]. now apply has_comma_count.
  - inversion H as [|? ? Hn H']; subst.
    change (comma_list (n :: m :: names))
      with (n ++ String "," (comma_list (m :: names)))%string.
    rewrite count_commas_app. cbn [count_commas].
    change (Ascii.eqb "," ",") with true.
    rewrite (has_comma_count n Hn), (IH m H'). cbn [List.length]. lia.
Qed.

Lemma comma_list_nonempty : forall n names,
  n <> "" -> comma_list (n :: names) <> "".
Proof.
  intros n names Hn. destruct n as [|c n]; [contradiction|].
  destruct names; discriminate.
Qed.

Lemma comma_list_scan_comma : forall n names,
  has_comma n = false ->
  scan_comma (comma_list (n :: names))
  = (n, match names with [] => None | _ => Some (comma_list names) end).
Proof.
  intros n names Hc. destruct names as [|m names].
  - cbn [comma_list]. now apply scan_comma_last.
  - change (comma_list (n :: m :: names))
      with (n ++ String "," (comma_list (m :: names)))%string.
    now apply scan_comma_app.
Qed.

(** The loop over the names on a list of known names: it stores their
    indices in the order of the list. *)
Lemma names_loop_known : forall h names fuel smpl j warn,
  Forall (known_name h) names ->
  (String.length (comma_list names) < fuel)%nat ->
  (j + List.length names <= List.length smpl)%nat ->
  names_loop fuel h (comma_list names) smpl (Z.of_nat j) warn
  = Ok (firstn j smpl ++ map (bcf_hdr_id2int_SAMPLE h) names
          ++ skipn (j + List.length names) smpl,
        Z.of_nat (j + List.length names), warn).
Proof.
  intros h names. induction names as [|n names IH];
    intros fuel smpl j warn Hk Hf Hlen.
  - destruct fuel as [|fuel]; [lia|]. cbn.
    rewrite !Nat.add_0_r, firstn_skipn. reflexivity.
  - inversion Hk as [|? ? (Hn & Hc & Hr) Hk']; subst.
    destruct fuel as [|fuel]; [lia|].
    cbn [names_loop].
    pose proof (comma_list_nonempty n names Hn) as Hne.
    destruct (comma_list (n :: names)) as [|c0 s0] eqn:Ecl; [contradiction|].
    rewrite <- Ecl. rewrite (comma_list_scan_comma n names Hc).
    replace (bcf_hdr_id2int_SAMPLE h n >=? 0) with true by lia.
    cbn [List.length] in Hlen.
    unfold arr_set. replace (Z.of_nat j <? 0) with false by lia.
    rewrite Nat2Z.id.
    replace (Nat.ltb j (List.length smpl)) with true
      by (symmetry; apply Nat.ltb_lt; lia).
    cbn [bind].
    destruct names as [|m names'].
    + cbn [map List.length]. rewrite list_set_last by lia.
      replace (Z.of_nat j + 1) with (Z.of_nat (j + 1)) by lia. reflexivity.
    + replace (Z.of_nat j + 1) with (Z.of_nat (S j)) by lia.
      rewrite IH.
      * destruct (list_set_window _ smpl j (bcf_hdr_id2int_SAMPLE h n)
                    ltac:(lia)) as [H1 H2].
        rewrite H1, H2. rewrite <- app_assoc.
        replace (j + List.length (n :: m :: names'))%nat
          with (S j + List.length (m :: names'))%nat by (cbn; lia).
        reflexivity.
      * exact Hk'.
      * assert (Hs : (String.length (comma_list (m :: names'))
                      < String.length (comma_list (n :: m :: names')))%nat).
        { change (comma_list (n :: m :: names'))
            with (n ++ String "," (comma_list (m :: names')))%string.
          rewrite string_length_app. cbn [String.length]. lia. }
        rewrite Ecl in Hs. cbn [String.length] in Hs.
        cbn [String.length] in Hf.
        eapply Nat.lt_le_trans; [exact Hs|]. lia.
      * rewrite list_set_length. cbn [List.length] in *. lia.
Qed.

(** The loop over the second column on a list of new names that fits the
    array. *)
Lemma rename_loop_exact : forall news fuel shown k ren j,
  Forall new_name news ->
  (String.length (comma_list news) < fuel)%nat ->
  (j + List.length news <= List.length ren)%nat ->
  Z.of_nat (List.length ren) = k ->
  rename_loop fuel shown k (comma_list news) ren (Z.of_nat j)
  = Ok (firstn j ren ++ map Some news ++ skipn (j + List.length news) ren).
Proof.
  induction news as [|n news IH]; intros fuel shown k ren j Hk Hf Hlen Hren.
  - destruct fuel as [|fuel]; [lia|]. cbn.
    rewrite !Nat.add_0_r, firstn_skipn. reflexivity.
  - inversion Hk as [|? ? (Hn & Hc) Hk']; subst.
    destruct fuel as [|fuel]; [lia|].
    cbn [rename_loop].
    pose proof (comma_list_nonempty n news Hn) as Hne.
    destruct (comma_list (n :: news)) as [|c0 s0] eqn:Ecl; [contradiction|].
    rewrite <- Ecl. rewrite (comma_list_scan_comma n news Hc).
    cbn [List.length] in Hlen.
    unfold arr_set. replace (Z.of_nat j <? 0) with false by lia.
    rewrite Nat2Z.id.
    replace (Nat.ltb j (List.length ren)) with true
      by (symmetry; apply Nat.ltb_lt; lia).
    cbn [bind].
    destruct news as [|m news'].
    + cbn [map List.length]. rewrite list_set_last by lia. reflexivity.
    + cbn [List.length] in Hlen.
      replace (Z.of_nat j + 1 >=? Z.of_nat (List.length ren)) with false by lia.
      replace (Z.of_nat j + 1) with (Z.of_nat (S j)) by lia.
      rewrite IH.
      * destruct (list_set_window _ ren j (Some n) ltac:(lia)) as [H1 H2].
        rewrite H1, H2. rewrite <- app_assoc.
        replace (j + List.length (n :: m :: news'))%nat
          with (S j + List.length (m :: news'))%nat by (cbn; lia).
        reflexivity.
      * exact Hk'.
      * assert (Hs : (String.length (comma_list (m :: news'))
                      < String.length (comma_list (n :: m :: news')))%nat).
        { change (comma_list (n :: m :: news'))
            with (n ++ String "," (comma_list (m :: news')))%string.
          rewrite string_length_app. cbn [String.length]. lia. }
        rewrite Ecl in Hs. cbn [String.length] in Hs.
        cbn [String.length] in Hf.
        eapply Nat.lt_le_trans; [exact Hs|]. lia.
      * rewrite list_set_length. cbn [List.length] in *. lia.
      * rewrite list_set_length. reflexivity.
Qed.

Lemma index_from_holds : forall A (test : A -> bool) (l : list A) (i : Z) d,
  0 <= i -> i <= index_from test l i ->
  test (nth (Z.to_nat (index_from test l i - i)) l d) = true.
Proof.
  intros A test l. induction l as [|y l IH]; intros i d Hi H;
    cbn [index_from] in *; [lia|].
  destruct (test y) eqn:Ey.
  - rewrite Z.sub_diag. exact Ey.
  - pose proof (index_from_range _ test l (i + 1)) as [Hm|Hr]; [lia|].
    specialize (IH (i + 1) d ltac:(lia) ltac:(lia)).
    replace (Z.to_nat (index_from test l (i + 1) - i))
      with (S (Z.to_nat (index_from test l (i + 1) - (i + 1)))) by lia.
    exact IH.
Qed.

(** The sample at the index that the header gives for a name has that
    name. *)
Lemma sample_at_index : forall h n,
  0 <= bcf_hdr_id2int_SAMPLE h n ->
  nth (Z.to_nat (bcf_hdr_id2int_SAMPLE h n)) (hdr_samples h) "" = n.
Proof.
  intros h n H. unfold bcf_hdr_id2int_SAMPLE in *.
  pose proof (index_from_holds _ (fun s => String.eqb s n) (hdr_samples h) 0 ""
                ltac:(lia) H) as Hp.
  rewrite Z.sub_0_r in Hp. now apply String.eqb_eq in Hp.
Qed.

Lemma nonempty_buffer : forall (s : string) (st : option string),
  s <> "" -> match s with EmptyString => st | _ => Some s end = Some s.
Proof. intros [|c s] st H; [contradiction|reflexivity]. Qed.

Lemma nonempty_pointer : forall A (s : string) (x : A) (f : string -> A),
  s <> "" -> match s with EmptyString => x | _ => f s end = f s.
Proof. intros A [|c s] x f H; [contradiction|reflexivity]. Qed.

Lemma starts_with_name_skip : forall m rest,
  starts_with_name m -> skip_spaces (m ++ rest) = (m ++ rest)%string.
Proof.
  intros [|x m] rest H; [contradiction|]. cbn in H. cbn [String.append skip_spaces].
  now rewrite H.
Qed.

Lemma comma_list_head : forall m news,
  exists rest, comma_list (m :: news) = (m ++ rest)%string.
Proof.
  intros m [|m' news].
  - exists "". cbn. now rewrite string_app_nil_r.
  - eexists. reflexivity.
Qed.

(** X27: a well-formed line of the samples file gives the group it describes.
    For a first column of names that are all samples of the input, the group
    holds the indices of the names in the order of the line, one slot per
    name, no rename array, and is named after the first name; no warning is
    printed. With a second column of as many new names, the group is the same
    except that its rename array holds the new names in their order and that
    it is named after the first new name. *)
Theorem well_formed_line_group : forall h str_s n names,
  Forall (known_name h) (n :: names) ->
  subset_of_line h str_s (escape_name (comma_list (n :: names)))
  = Ok (Some {| rename := None;
                nsmpl := Z.of_nat (List.length (n :: names));
                smpl := map (bcf_hdr_id2int_SAMPLE h) (n :: names);
                fh := None; fname := n; filter := None;
                hdr_out_samples := [] |},
        Some n, [])
  /\
  forall c m news,
    isspace c = true -> Forall new_name (m :: news) -> starts_with_name m ->
    List.length (m :: news) = List.length (n :: names) ->
    subset_of_line h str_s
      (escape_name (comma_list (n :: names)) ++ String c (comma_list (m :: news)))
    = Ok (Some {| rename := Some (map Some (m :: news));
                  nsmpl := Z.of_nat (List.length (n :: names));
                  smpl := map (bcf_hdr_id2int_SAMPLE h) (n :: names);
                  fh := None; fname := m; filter := None;
                  hdr_out_samples := [] |},
          Some n, []).
Proof.
  intros h str_s n names Hk.
  assert (Hcommas : Forall (fun x => has_comma x = false) (n :: names)).
  { eapply Forall_impl; [|exact Hk]. intros x (_ & H & _). exact H. }
  inversion Hk as [|? ? (Hn & Hc & Hr) Hk']; subst.
  pose proof (comma_list_nonempty n names Hn) as Hne.
  pose proof (count_commas_list n names Hcommas) as Hcount.
  pose proof (comma_list_scan_comma n names Hc) as Hscan.
  set (beg := comma_list (n :: names)) in *.
  set (len := List.length (n :: names)).
  assert (Hk1 : 1 + count_commas beg = Z.of_nat len)
    by (rewrite Hcount; subst len; cbn [List.length]; lia).
  assert (Hloop : names_loop (S (String.length beg)) h beg
                             (repeat 0 (Z.to_nat (1 + count_commas beg))) 0 []
                  = Ok (map (bcf_hdr_id2int_SAMPLE h) (n :: names),
                        Z.of_nat len, [])).
  { change 0 with (Z.of_nat 0) at 2. subst beg.
    rewrite names_loop_known;
      [|exact Hk|lia|rewrite repeat_length; fold len; lia].
    cbn [firstn app Nat.add]. fold len.
    rewrite skipn_all2 by (rewrite repeat_length; lia).
    now rewrite app_nil_r. }
  assert (Hpos : (Z.of_nat len =? 0) = false)
    by (apply Z.eqb_neq; subst len; cbn [List.length]; lia).
  assert (Hfirst : arr_get (map (bcf_hdr_id2int_SAMPLE h) (n :: names)) 0
                   = Ok (bcf_hdr_id2int_SAMPLE h n)) by reflexivity.
  assert (Hname : arr_get (hdr_samples h) (bcf_hdr_id2int_SAMPLE h n) = Ok n).
  { rewrite (arr_get_nth _ _ _ "").
    - now rewrite sample_at_index.
    - pose proof (sample_index_range h n ltac:(lia)) as Hrange.
      unfold bcf_hdr_nsamples in Hrange. lia. }
  split.
  - unfold subset_of_line.
    rewrite <- (string_app_nil_r (escape_name beg)).
    rewrite scan_names_unescapes by exact I. cbv beta iota zeta.
    rewrite (nonempty_buffer beg str_s Hne). rewrite Hloop. cbn [bind].
    cbv beta iota zeta. rewrite Hpos. cbn [skip_spaces].
    rewrite Hfirst. cbn [bind]. rewrite Hname. cbn [bind].
    rewrite Hscan, Hk1. reflexivity.
  - intros c m news Hsp Hnew Hstart Hlen.
    inversion Hnew as [|? ? (Hm & Hmc) Hnew']; subst.
    pose proof (comma_list_nonempty m news Hm) as Hqne.
    destruct (comma_list_head m news) as (rest & Hq).
    assert (Hskip : skip_spaces (String c (comma_list (m :: news)))
                    = comma_list (m :: news)).
    { rewrite skip_spaces_space by exact Hsp.
      rewrite Hq. now apply starts_with_name_skip. }
    set (q := comma_list (m :: news)) in *.
    assert (Hren : forall shown,
               rename_loop (S (String.length q)) shown (1 + count_commas beg) q
                 (repeat None (Z.to_nat (1 + count_commas beg))) 0
               = Ok (map Some (m :: news))).
    { intros shown. change 0 with (Z.of_nat 0). subst q.
      rewrite rename_loop_exact;
        [|exact Hnew|lia|rewrite repeat_length; fold len in Hlen |- *; lia
         |rewrite repeat_length; lia].
      cbn [firstn app Nat.add].
      rewrite skipn_all2 by (rewrite repeat_length; fold len in Hlen; lia).
      now rewrite app_nil_r. }
    unfold subset_of_line.
    rewrite scan_names_unescapes by exact Hsp. cbv beta iota zeta.
    rewrite (nonempty_buffer beg str_s Hne). rewrite Hloop. cbn [bind].
    cbv beta iota zeta. rewrite Hpos. rewrite Hskip.
    rewrite (nonempty_pointer _ q _
               (fun ptr =>
                  do ren <- rename_loop (S (String.length ptr))
                              (line_shown _ ptr)
                              (1 + count_commas beg) ptr
                              (repeat None (Z.to_nat (1 + count_commas beg))) 0;
                  do r0 <- arr_get ren 0;
                  match r0 with
                  | Some nm => Ok (Some ren, nm)
                  | None => Undef
                  end) Hqne).
    rewrite Hren. cbn [bind map arr_get Z.ltb Z.compare Z.to_nat nth_error].
    rewrite Hscan, Hk1. reflexivity.
Qed.

Lemma well_formed_line_group_witness :
  subset_of_line Demo.hdr None "C,A"
  = Ok (Some {| rename := None; nsmpl := 2; smpl := [2; 0]; fh := None;
                fname := "C"; filter := None; hdr_out_samples := [] |},
        Some "C", [])
  /\
  subset_of_line Demo.hdr None "C,A child,father"
  = Ok (Some {| rename := Some [Some "child"; Some "father"]; nsmpl := 2;
                smpl := [2; 0]; fh := None; fname := "child";
                filter := None; hdr_out_samples := [] |},
        Some "C", []).
Proof.
  assert (Hk : Forall (known_name Demo.hdr) ["C"; "A"]).
  { repeat constructor; (discriminate || (vm_compute; congruence)). }
  destruct (well_formed_line_group Demo.hdr None "C" ["A"] Hk) as [H1 H2].
  split; [exact H1|].
  apply (H2 " "%char "child" ["father"]).
  - reflexivity.
  - repeat constructor; discriminate.
  - reflexivity.
  - reflexivity.
Defined.

(* ================================================================= *)
(** ** What a successful run leaves on disk *)






Section Disk.

Variable bcf_enc_int1 : Z -> list byte.
Variable bcf_enc_size : Z -> Z -> list byte.
Variable w : world.



End Disk.

